(* ===== verification/_CoqProject ===== *)
-Q . S2P
Prelude.v
Js.v
SqlText.v
SqlTemplate.v
SqlLexer.v
SqlParser.v
SqlValue.v
SqlEngine.v
EngineFacts.v
Schema.v
Books.v
Annotations.v
Statements.v
Routes.v
StoreFacts.v
ReadFacts.v
RouteFacts.v
WriteFacts.v
Lifecycle.v
Abstract.v
Concurrency.v
Ids.v
Shapes.v
AddFacts.v
Pairs.v
EdgeCases.v
Upsert.v
Atomic.v
Requests.v
Race.v
