(* ===== verification/Prelude.v ===== *)
(** * A verification development of bookmark-express: annotation store and HTTP facade

    ** The program

    The repository has two source files.

    - [src/models/annotations.js], the annotation store.  Every exported
      function builds one or two SQL statements with the
      [sql-template-strings] tag [SQL`...`] and its [append], sends each to
      the PostgreSQL client [db.query], and maps the returned row set
      ([rows], [rows[0]], [rows[0].id]) back to the caller.  [addAnnotation]
      first resolves the owning book through the Books collaborator
      ([Books.getBookID], [Books.insertBook]; [src/models/books.js] is not
      part of the sources), then looks for an annotation with the same
      [(book_id, end)] ([getMatchingAnnotationID]) and issues an UPDATE or an
      INSERT.  The tag helpers ([addTagToAnnotation],
      [removeTagFromAnnotation], [createTag], [findTagID]) work on the
      [tags] and [annotations_tags] tables.
    - [src/routes/api/annotations.js], the HTTP facade: an Express router with
      three GET routes ([/], [/:id], [/bookID/:id]) that call the store and
      answer 200 with the JSON result, or 404 with a fixed body when the
      promise is rejected.

    Nothing is shared between requests but the database, so the database is
    the whole state of the model.  Every store function is a computation in a
    state-and-error monad over the database ([Prelude.stM]): an awaited
    query that fails rejects the promise, and what earlier statements of the
    same call wrote stays written (there are no transactions).

    ** The library (the order of _CoqProject)

    - [Prelude] (this file): the outcome type and the state-and-error monad
      [stM] with its notation in [stm_scope], [omap], association lists,
      generic list and string lemmas, the hint databases [bm] and [bm_rw]
      and the development's tactics.
    - [Js]: the JavaScript values the code handles (objects, arrays,
      [undefined], [null]), truthiness, property access and destructuring,
      object spread, [String(v)], [JSON.stringify], the exceptions the code
      can raise, and node-postgres' [prepareValue] (a parameter is text or
      NULL; arrays become array literals); numbers print in decimal below
      [10^21] and in exponent form from there on, as Number::toString
      prints them.
    - [SqlText]: PostgreSQL's text input of [integer], [bigint], [boolean]
      and [timestamp], and the round trip of JavaScript's number printing
      through integer input ([pg_strtoint_number_to_string]): the number
      inside the type's range, [22003] outside it while it prints in
      decimal, [22P02] once it prints in exponent form.
    - [SqlTemplate]: the [sql-template-strings] statement: [SQL], [append]
      of a statement or of a plain string, and [text], the string with
      [$1 .. $n] placeholders that the client sends.
    - [SqlLexer], [SqlParser]: PostgreSQL's lexer and a recursive-descent
      parser for the statements the store issues (SELECT ... LIMIT, UPDATE,
      INSERT ... ON CONFLICT, DELETE, RETURNING, TO_CHAR).
    - [SqlValue]: typed values, SQL equality, parameter conversion at a
      column type, [to_char], expression evaluation.
    - [SqlEngine]: tables with typed columns, a serial sequence and unique
      keys; parameter binding (conversion before any row is read) and the
      execution of each statement; [db_query], the model of [db.query].
    - [EngineFacts]: the table invariant [table_wf] and [exec_stmt_wf]
      (every statement keeps it), schema preservation, and the lemmas on
      WHERE, UPDATE and DELETE the specifications use.
    - [Schema], [Books]: the tables and the Books collaborator, which are
      not under [src/] and are modelled from the spec.
    - [Annotations]: one definition per function of
      [src/models/annotations.js], built the way the code builds and sends
      its statements.
    - [Statements]: the syntax tree the server parses each statement into.
    - [Routes]: the Express router of [src/routes/api/annotations.js].
    - [StoreFacts]: preservation of any invariant every query keeps
      (a Section over the invariant), and the operations that always
      reject.
    - [ReadFacts], [RouteFacts], [WriteFacts]: the functional specifications
      of the reads, the routes and the writes on a well-formed store
      ([store_wf]).
    - [Lifecycle]: sequences of calls to the exported functions,
      reachability from a fresh database, and the properties of the spec's
      section 8.
    - [Abstract]: the store as a map from ids to annotations, and the
      refinement of lookups, updates and removals by the calls by id.
    - [Concurrency]: a call as a resumption ([prog]: finished, or awaiting
      a query), [addAnnotation] written that way, and a scheduler that
      interleaves the awaits of several calls; [within n p], the call
      finishes after at most [n] resumptions, and the progress of
      schedules.
    - [Ids]: the ids of [kindle_annotations] and its sequence: a
      statement that does not write [id] keeps every id in [1, next) with
      [next <= 2^31]; the store's statements never write it (the
      [matchID] printed into the UPDATE is read from the table), so the
      bound holds on every reachable database.  Preservation uses a
      postcondition rule ([yields_bind]) for the result of
      [getMatchingAnnotationID].
    - [Shapes]: the JavaScript shape of the objects the reads return
      ([annotation_object]: the twelve keys of [querySelectCols] in order,
      each value of its column's JavaScript type).
    - [AddFacts]: the final statement of [addAnnotation] read back: the
      UPDATE returns the first row of the id it updates, the INSERT appends
      the only row of its fresh id, so what the call returns is what a
      lookup by its id reads.
    - [Pairs]: the integer pairs [(book_id, end)] of the annotations; the
      lookup [getMatchingAnnotationID] answers [null] only when no
      annotation has the pair, the INSERT appends that pair, and no other
      statement writes [book_id] or [end].
    - [EdgeCases]: nullish arguments, objects without fields, and
      [getAllAnnotations(null)] ([LIMIT NULL]).
    - [Upsert]: [addAnnotation] on the map from ids to annotations; the
      binds before the final statement keep the annotation rows, and the
      lookup's [matchID] is the id of a stored row.
    - [Atomic]: [getAllAnnotations], [getAnnotationByID],
      [getAnnotationsByBookID], [editAnnotation] and [deleteAnnotation] as
      resumptions with their one await, and schedules of any number of
      them.
    - [Requests]: a write of the store followed by a request of the
      router; the text of any number is a one-segment path.
    - [Race]: two [addAnnotation] calls interleaved on any reachable
      database; the INSERT that succeeded once succeeds again on the
      database it left.

    ** The theorems

    - Statements that are not SQL: the UPDATE of [addAnnotation] when both
      or neither of [highlight] and [note] is given
      ([Statements.add_query_update_parse]), so re-importing a Calibre
      record is valid only for kinds "highlight" and "note" with a
      non-empty text ([Statements.calibre_update_valid]);
      [findTagID]'s SELECT ... RETURNING, so the tag helpers always
      reject ([StoreFacts.tag_helpers_rejected]).
    - Functional specifications on every branch, errors included:
      [getAnnotationByID], [getAllAnnotations] (LIMIT 50, negative limits,
      and limits outside [bigint], refused with [22003] or, from [10^21]
      on, [22P02]), [getAnnotationsByBookID], [deleteAnnotation],
      [editAnnotation] (ids outside [integer] refused the same way); the
      printed time ([hh] is a 12-hour clock,
      [ReadFacts.time_column_12_hour]).
    - Routes: the answer of [GET /], [GET /:id] and [GET /bookID/:id]
      (case-insensitive), including [200 null] for an unknown id; on any
      path the facade only reads and answers 200 or 404
      ([RouteFacts.router_read_only]).
    - The spec's section 8: delete then get, edit returns the given values
      ([Lifecycle.delete_then_get], [Lifecycle.edit_returns_given]).
    - Refinement: sequences of [getAnnotationByID], [editAnnotation] and
      [deleteAnnotation] calls simulate the same operations on the abstract
      map ([Abstract.id_ops_refine]; maps are compared pointwise, with a
      [Proper] instance for the map update); [addAnnotation] refines an
      update of that map at one id, and leaves it unchanged when it
      rejects ([Upsert.addAnnotation_refines]).
    - Bounds: on every reachable database every id is a positive [int4]
      below the sequence ([Ids.reachable_ids_bounded]), the [matchID] of
      [addAnnotation] is [null] or a positive [int4]
      ([Ids.matchID_positive_int4]), and the [ON CONFLICT (id)] clause is
      dead code after any history ([Ids.on_conflict_dead_after_any_history]);
      [getAllAnnotations(null)] has no limit
      ([EdgeCases.getAllAnnotations_null_unlimited]).
    - One annotation per [(book_id, end)] when the calls run one after
      the other ([Pairs.sequential_pairs_unique]); on any reachable
      database where the book exists and the pair is new, two calls that
      both look for a match before either writes both insert, and the
      pair is stored twice ([Race.racing_adds_duplicate_row]).
    - Types: after any history the reads resolve to objects of the shape of
      [querySelectCols] ([Shapes.reads_return_annotation_objects]).
    - Round trips: reading an id back after [editAnnotation] gives what the
      edit resolved to ([Abstract.edit_then_get_roundtrip]); after any
      history, reading back the id of what [addAnnotation] returned gives
      the same object ([AddFacts.addAnnotation_reads_back]), and the
      request [GET /<id>] answers [200] with it
      ([Requests.add_then_get_route]).
    - Supporting results kept as lemmas: every operation keeps the
      database well formed ([StoreFacts.store_operations_preserve_wf],
      [Lifecycle.reachable_store_wf]); [addAnnotation] with its awaits is
      [addAnnotation] when run alone ([Concurrency.addAnnotation_p_equiv]);
      every [addAnnotation] call finishes within four resumptions and any
      schedule that resumes each call four times finishes them all
      ([Concurrency.addAnnotation_calls_finish]); the calls that await one
      query are atomic ([Atomic.one_query_calls_linearizable]); the spec's
      "Foo" scenario and the race on one database
      ([Lifecycle.foo_scenario], [Concurrency.addAnnotation_race]).

    ** Fuel and bounds

    Numbers are [Z]; the model of a JavaScript number is an integer (the
    code only handles ids, positions and limits).  Integer columns are
    [int4] and LIMIT is [int8], with PostgreSQL's range checks written out.
    Three functions take fuel, each with enough by construction: decimal
    printing takes [S (log2 n)] steps (one digit per step, and
    [dec_fuel_enough] proves it is enough), and the exponent form strips
    at most as many trailing zeros as the number has digits; the parser takes
    [S (length tokens)] (each step consumes a token); [to_char] takes the
    length of the format (each step consumes a character).  The budget of
    four resumptions of [addAnnotation] is exact for a call that inserts
    its book (four awaited queries); the liveness lemma needs no fuel:
    its hypothesis counts the resumptions a schedule gives each call.  The
    race theorem takes a sequence with room for two more ids
    ([Race.seq_room]); with less room the second INSERT fails with
    [sequence_limit_exceeded].

    ** Not modelled

    [console.log] (output only); the unused [fs], [path] and
    [tempDataFile] bindings; [db.js] and its connection pool (each
    statement runs atomically on the one database, and [Concurrency]
    interleaves the statements of concurrent calls); foreign keys (the code
    never relies on them); percent-decoding of route parameters;
    JavaScript numbers that are not integers, and the shortest-digit
    printing of doubles above [2^53] (the model prints the exact integer,
    in exponent form like JavaScript from [10^21] on); numeric literals
    with a fraction or an exponent in SQL text (the only number the store
    writes into its text is [matchID], an [int4]); the integer syntax
    PostgreSQL 16 added ([0x] prefixes, [_] separators); a failed INSERT
    that still advances the sequence (the model advances it only when the
    row is stored, and no conclusion depends on the sequence's value
    after an error).
*)

From Stdlib Require Import String ZArith List Lia Bool.
Import ListNotations.

(** ** Outcomes and the state-and-error monad *)

Inductive outcome (E A : Type) : Type :=
| Ok (a : A)
| Err (e : E).
Arguments Ok {E A} a.
Arguments Err {E A} e.

(** A computation reads and writes a state [S]; on failure it still returns
    the state reached, since effects already performed are not undone. *)
Definition stM (S E A : Type) : Type := S -> outcome E A * S.

Section Monad.
Context {S E : Type}.

Definition sret {A} (a : A) : stM S E A := fun s => (Ok a, s).

Definition sbind {A B} (m : stM S E A) (k : A -> stM S E B) : stM S E B :=
  fun s => match m s with
           | (Ok a, s') => k a s'
           | (Err e, s') => (Err e, s')
           end.

Definition sthrow {A} (e : E) : stM S E A := fun s => (Err e, s).

Definition sget : stM S E S := fun s => (Ok s, s).

Definition sput (s : S) : stM S E unit := fun _ => (Ok tt, s).

(** A pure, fallible step that does not touch the state. *)
Definition sfrom {A} (o : outcome E A) : stM S E A := fun s => (o, s).

(** Lift a pure, fallible step on the state. *)
Definition slift {A} (f : S -> outcome E (A * S)) : stM S E A :=
  fun s => match f s with
           | Ok (a, s') => (Ok a, s')
           | Err e => (Err e, s)
           end.

Lemma sbind_ret_l {A B} (a : A) (k : A -> stM S E B) s :
  sbind (sret a) k s = k a s.
Proof. reflexivity. Qed.

Lemma sbind_ret_r {A} (m : stM S E A) s : sbind m sret s = m s.
Proof. unfold sbind, sret. destruct (m s) as [[a|e] s']; reflexivity. Qed.

Lemma sbind_assoc {A B C} (m : stM S E A) (k : A -> stM S E B)
      (k' : B -> stM S E C) s :
  sbind (sbind m k) k' s = sbind m (fun a => sbind (k a) k') s.
Proof. unfold sbind. destruct (m s) as [[a|e] s']; reflexivity. Qed.

Lemma sbind_throw {A B} (e : E) (k : A -> stM S E B) s :
  sbind (sthrow e) k s = (Err e, s).
Proof. reflexivity. Qed.

Lemma sbind_ext {A B} (m : stM S E A) (k1 k2 : A -> stM S E B) s :
  (forall a s', k1 a s' = k2 a s') -> sbind m k1 s = sbind m k2 s.
Proof. intros H. unfold sbind. destruct (m s) as [[a|e] s']; [apply H | reflexivity]. Qed.

Lemma sbind_congr {A B} (m1 m2 : stM S E A) (k1 k2 : A -> stM S E B) s :
  (forall s', m1 s' = m2 s') -> (forall a s', k1 a s' = k2 a s') -> sbind m1 k1 s = sbind m2 k2 s.
Proof. intros Hm Hk. unfold sbind. rewrite Hm. destruct (m2 s) as [[a|e] s']; [apply Hk | reflexivity]. Qed.

Lemma sbind_ok {A B} (m : stM S E A) (k : A -> stM S E B) s a s' :
  m s = (Ok a, s') -> sbind m k s = k a s'.
Proof. unfold sbind. intros ->. reflexivity. Qed.

Lemma sbind_fst_ok {A B} (m : stM S E A) (k : A -> stM S E B) s b :
  fst (sbind m k s) = Ok b ->
  exists a s', m s = (Ok a, s') /\ fst (k a s') = Ok b /\ snd (sbind m k s) = snd (k a s').
Proof. unfold sbind. destruct (m s) as [[a|e] s']; simpl; [eauto | discriminate]. Qed.

Lemma sbind_err {A B} (m : stM S E A) (k : A -> stM S E B) s e s' :
  m s = (Err e, s') -> sbind m k s = (Err e, s').
Proof. unfold sbind. intros ->. reflexivity. Qed.

Lemma slift_ok {A} (f : S -> outcome E (A * S)) s a s' :
  f s = Ok (a, s') -> slift f s = (Ok a, s').
Proof. unfold slift. intros ->. reflexivity. Qed.

Lemma slift_err {A} (f : S -> outcome E (A * S)) s e :
  f s = Err e -> slift f s = (Err e, s).
Proof. unfold slift. intros ->. reflexivity. Qed.
End Monad.

Declare Scope stm_scope.
Delimit Scope stm_scope with stm.
Notation "x <- m ;; k" := (sbind m (fun x => k))
  (at level 61, m at next level, right associativity) : stm_scope.
Notation "' p <- m ;; k" := (sbind m (fun x => match x with p => k end))
  (at level 61, p pattern, m at next level, right associativity) : stm_scope.
Notation "m ;;; k" := (sbind m (fun _ => k))
  (at level 61, right associativity) : stm_scope.

(** A bind in the pure [outcome] monad, used by the engine. *)
Definition obind {E A B} (m : outcome E A) (k : A -> outcome E B) : outcome E B :=
  match m with Ok a => k a | Err e => Err e end.

Notation "x <-? m ;; k" := (obind m (fun x => k))
  (at level 61, m at next level, right associativity) : stm_scope.

Lemma obind_ok {E A B} (a : A) (k : A -> outcome E B) : obind (Ok a) k = k a.
Proof. reflexivity. Qed.

Lemma obind_eq_ok {E A B} (m : outcome E A) (k : A -> outcome E B) b :
  obind m k = Ok b -> exists a, m = Ok a /\ k a = Ok b.
Proof. destruct m; simpl; [eauto | discriminate]. Qed.

(** Mapping a fallible function over a list, stopping at the first error. *)
Fixpoint omap {E A B} (f : A -> outcome E B) (l : list A) : outcome E (list B) :=
  match l with
  | [] => Ok []
  | x :: l' => match f x with
               | Ok y => match omap f l' with
                         | Ok ys => Ok (y :: ys)
                         | Err e => Err e
                         end
               | Err e => Err e
               end
  end.

Lemma omap_ok_length {E A B} (f : A -> outcome E B) l ys :
  omap f l = Ok ys -> length ys = length l.
Proof.
  revert ys; induction l as [|x l IH]; simpl; intros ys H.
  - inversion H; reflexivity.
  - destruct (f x); [|discriminate].
    destruct (omap f l) eqn:E'; [|discriminate].
    inversion H; subst; simpl; f_equal; auto.
Qed.

(** [omap] of a function that keeps the key of each pair keeps the keys. *)
Lemma omap_fst {E A B K} (f : A -> outcome E (K * B)) (key : A -> K) l ys :
  (forall x y, f x = Ok y -> fst y = key x) -> omap f l = Ok ys -> map fst ys = map key l.
Proof.
  intros Hf. revert ys. induction l as [|x l IH]; simpl; intros ys H; [injection H as <-; reflexivity|].
  destruct (f x) as [y|] eqn:Ex; [|discriminate].
  destruct (omap f l) as [ys'|]; [|discriminate]. injection H as <-.
  simpl. rewrite (Hf _ _ Ex), (IH ys' eq_refl). reflexivity.
Qed.

Lemma omap_map_ok {E A B} (f : A -> B) (l : list A) :
  omap (fun x => @Ok E B (f x)) l = Ok (map f l).
Proof. induction l as [|x l IH]; simpl; [|rewrite IH]; reflexivity. Qed.

Lemma omap_ok_in {E A B} (f : A -> outcome E B) (g : A -> B) l :
  (forall x, In x l -> f x = Ok (g x)) -> omap f l = Ok (map g l).
Proof.
  induction l as [|x l IH]; simpl; intros H; [reflexivity|].
  rewrite H, IH by auto. reflexivity.
Qed.

(** ** Association lists (rows, JavaScript objects) *)

Section Assoc.
Context {A : Type}.

Fixpoint assoc_get (k : string) (l : list (string * A)) : option A :=
  match l with
  | [] => None
  | (k', v) :: l' => if String.eqb k k' then Some v else assoc_get k l'
  end.

(** Overwrite the first binding of [k] in place, or add it at the end. *)
Fixpoint assoc_set (k : string) (v : A) (l : list (string * A)) : list (string * A) :=
  match l with
  | [] => [(k, v)]
  | (k', v') :: l' => if String.eqb k k' then (k', v) :: l'
                      else (k', v') :: assoc_set k v l'
  end.

Lemma assoc_get_set_eq k v l : assoc_get k (assoc_set k v l) = Some v.
Proof.
  induction l as [|[k' v'] l IH]; simpl.
  - rewrite String.eqb_refl; reflexivity.
  - destruct (String.eqb_spec k k') as [->|Hne]; simpl.
    + rewrite String.eqb_refl; reflexivity.
    + apply String.eqb_neq in Hne. rewrite Hne. exact IH.
Qed.

Lemma assoc_get_set_ne k k2 v l :
  k <> k2 -> assoc_get k2 (assoc_set k v l) = assoc_get k2 l.
Proof.
  intros Hne; induction l as [|[k' v'] l IH]; simpl.
  - apply String.eqb_neq in Hne. rewrite String.eqb_sym, Hne. reflexivity.
  - destruct (String.eqb_spec k k') as [->|Hne']; simpl.
    + apply String.eqb_neq in Hne. rewrite String.eqb_sym, Hne. reflexivity.
    + rewrite IH. reflexivity.
Qed.

Lemma assoc_set_keys k v l :
  map fst (assoc_set k v l) =
  if existsb (String.eqb k) (map fst l) then map fst l else map fst l ++ [k].
Proof.
  induction l as [|[k' v'] l IH]; simpl; [reflexivity|].
  destruct (String.eqb k k'); simpl; [reflexivity|].
  rewrite IH. destruct (existsb _ _); reflexivity.
Qed.

Lemma assoc_set_keys_in k v l :
  In k (map fst l) -> map fst (assoc_set k v l) = map fst l.
Proof.
  intros Hin. rewrite assoc_set_keys.
  replace (existsb (String.eqb k) (map fst l)) with true; [reflexivity|].
  symmetry. apply existsb_exists. exists k. split; [exact Hin | apply String.eqb_refl].
Qed.

Lemma assoc_get_notin k l : ~ In k (map fst l) -> assoc_get k l = None.
Proof.
  induction l as [|[k' v] l IH]; simpl; intros H; [reflexivity|].
  destruct (String.eqb_spec k k') as [->|_]; [exfalso; apply H; left; reflexivity|].
  apply IH. tauto.
Qed.

Lemma assoc_get_in_keys k l :
  In k (map fst l) <-> exists v, assoc_get k l = Some v.
Proof.
  induction l as [|[k' v'] l IH]; simpl.
  - split; [tauto | intros [v H]; discriminate].
  - destruct (String.eqb_spec k k') as [->|Hne].
    + split; [eauto | tauto].
    + rewrite <- IH. split; [intros [H|H]; [congruence|exact H] | tauto].
Qed.
Lemma fold_assoc_set_get_ne k (nv : list (string * A)) l :
  ~ In k (map fst nv) ->
  assoc_get k (fold_left (fun acc kv => assoc_set (fst kv) (snd kv) acc) nv l) = assoc_get k l.
Proof.
  revert l. induction nv as [|[k' v] nv IH]; simpl; intros l H; [reflexivity|].
  rewrite IH by tauto. apply assoc_get_set_ne. intros ->. apply H. left. reflexivity.
Qed.

End Assoc.

(** ** Automation *)

(** ** Lists *)

Lemma Forall_firstn {A} (P : A -> Prop) n l : Forall P l -> Forall P (firstn n l).
Proof.
  intros H. rewrite <- (firstn_skipn n l) in H. apply Forall_app in H as [H _]. exact H.
Qed.

Lemma filter_filter_negb {A} (f : A -> bool) l : filter f (filter (fun x => negb (f x)) l) = [].
Proof. induction l as [|x l IH]; simpl; [reflexivity|]. destruct (f x) eqn:E; simpl; rewrite ?E; auto. Qed.

Lemma filter_filter_implied {A} (f g : A -> bool) l :
  (forall x, f x = true -> g x = true) -> filter f (filter g l) = filter f l.
Proof.
  intros H. induction l as [|x l IH]; simpl; [reflexivity|].
  destruct (g x) eqn:Eg; simpl; [destruct (f x); rewrite IH; reflexivity|].
  destruct (f x) eqn:Ef; [rewrite H in Eg by exact Ef; discriminate | exact IH].
Qed.

Lemma filter_head {A} (f : A -> bool) l x xs : filter f l = x :: xs -> f x = true.
Proof.
  intros E. assert (Hin : In x (filter f l)) by (rewrite E; left; reflexivity).
  apply filter_In in Hin as [_ H]. exact H.
Qed.

Lemma find_all_false {A} (f : A -> bool) l : (forall x, In x l -> f x = false) -> find f l = None.
Proof. induction l as [|x l IH]; simpl; intros H; [reflexivity|]. rewrite H by auto. auto. Qed.

Lemma filter_map_comm {A} (f : A -> bool) (g : A -> A) l :
  (forall x, f (g x) = f x) -> filter f (map g l) = map g (filter f l).
Proof.
  intros H. induction l as [|x l IH]; simpl; [reflexivity|].
  rewrite H, IH. destruct (f x); reflexivity.
Qed.

Lemma NoDup_app_disjoint {A} (l1 l2 : list A) x : NoDup (l1 ++ l2) -> In x l1 -> ~ In x l2.
Proof.
  induction l1 as [|a l1 IH]; simpl; [tauto|]. intros H [<-|Hx] Hin; apply NoDup_cons_iff in H as [Hn H].
  - apply Hn, in_or_app. right. exact Hin.
  - exact (IH H Hx Hin).
Qed.

Lemma map_if_filter {A} (f : A -> bool) (g : A -> A) l :
  map (fun x => if f x then g x else x) (filter f l) = map g (filter f l).
Proof. induction l as [|x l IH]; simpl; [|destruct (f x) eqn:E; simpl; rewrite ?E, IH]; reflexivity. Qed.

(** ** Strings *)

Lemma string_app_assoc (a b c : string) : ((a ++ b) ++ c = a ++ (b ++ c))%string.
Proof. induction a as [|x a IH]; simpl; [reflexivity | rewrite IH; reflexivity]. Qed.

Lemma existsb_eqb_notin (x : string) l : ~ In x l -> existsb (String.eqb x) l = false.
Proof.
  intros H. apply not_true_iff_false. rewrite existsb_exists.
  intros [y [Hy He]]. apply String.eqb_eq in He. subst y. contradiction.
Qed.

Lemma string_app_nil_r (a : string) : (a ++ "")%string = a.
Proof. induction a as [|x a IH]; simpl; [reflexivity | rewrite IH; reflexivity]. Qed.

Create HintDb bm discriminated.
Create Rewrite HintDb bm_rw.
#[export] Hint Rewrite @sbind_ret_l @obind_ok @assoc_get_set_eq : bm_rw.
#[export] Hint Resolve assoc_set_keys_in : bm.

(** Case on a boolean string comparison, keeping the equation. *)
Ltac case_streq a b :=
  destruct (String.eqb_spec a b); subst; simpl in *.

(** Run a monadic computation one bind at a time using a known step. *)
Ltac step_ok H := first [ rewrite (sbind_ok _ _ _ _ _ H) | rewrite (slift_ok _ _ _ _ H) ].
