(* ===== verification/Js.v ===== *)
(** * The JavaScript values and runtime behaviour the sources rely on

    Values ([jsval]) with objects as association lists in insertion order,
    truthiness, property reads and destructuring (which throw a [TypeError]
    on [undefined] and [null]), object spread, the exceptions a promise can
    be rejected with, the printing of integral numbers, [JSON.stringify]
    (what [res.json] sends) and node-postgres' [prepareValue], which turns
    every query parameter into text or SQL NULL (an array into an array
    literal with [arrayString], another object into JSON).  Numbers are
    modelled as integers: the code only handles ids, offsets and page
    numbers.  They print as Number::toString prints them: in decimal below
    [10^21], in exponent form ([1e+21], [1.234e+24]) from there on.  Above
    [2^53] a double does not hold every integer; there the model prints
    the digits of the exact integer where JavaScript prints the shortest
    digits of the nearest double, a difference no conclusion depends on:
    both are in exponent form from [10^21] on, and PostgreSQL's integer
    input refuses both as text. *)

From Stdlib Require Import String Ascii ZArith List Lia Bool.
From S2P Require Import Prelude.
Import ListNotations.
Open Scope string_scope.

#[local] Set Warnings "-register-all".
Inductive jsval : Type :=
| JUndefined
| JNull
| JBool (b : bool)
| JNum (z : Z)
| JStr (s : string)
| JArr (xs : list jsval)
| JObj (fields : list (string * jsval)).

(** The SQLSTATE classes of the server errors the model can raise. *)
Inductive sqlstate : Type :=
| syntax_error                  (* 42601 *)
| undefined_table               (* 42P01 *)
| undefined_column              (* 42703 *)
| undefined_function            (* 42883 *)
| invalid_text_representation   (* 22P02 *)
| numeric_value_out_of_range    (* 22003 *)
| datetime_field_overflow       (* 22008 *)
| invalid_datetime_format       (* 22007 *)
| invalid_row_count_in_limit    (* 2201W *)
| unique_violation              (* 23505 *)
| sequence_limit_exceeded       (* 2200H *)
| undefined_parameter           (* 42P02 *)
| datatype_mismatch             (* 42804 *)
| invalid_column_reference.     (* 42P10 *)

(** What a rejected promise of the code carries. *)
Inductive js_error : Type :=
| ReferenceError (name : string)
| TypeError (what : string)
| PgError (code : sqlstate).

(** ** Truthiness: [if (x)] and [!x] *)

Definition truthy (v : jsval) : bool :=
  match v with
  | JUndefined | JNull => false
  | JBool b => b
  | JNum z => negb (Z.eqb z 0)
  | JStr s => negb (String.eqb s "")
  | JArr _ | JObj _ => true
  end.

(** ** Printing of integral numbers ([String(n)], [n.toString()]): decimal
    below [10^21], exponent form from there on *)

Definition digit_char (d : Z) : ascii := ascii_of_nat (48 + Z.to_nat d).
Arguments digit_char : simpl never.

(** Digits of [n >= 0], most significant first, with [fuel] digits at most. *)
Fixpoint dec_digits (fuel : nat) (n : Z) (acc : string) : string :=
  match fuel with
  | O => acc
  | S f => let acc' := String (digit_char (Z.modulo n 10)) acc in
           if Z.ltb n 10 then acc' else dec_digits f (Z.div n 10) acc'
  end.

(** Enough fuel: a positive [n] has at most [log2 n + 1] decimal digits. *)
Definition dec_fuel (n : Z) : nat := S (Z.to_nat (Z.log2 n)).

(** The decimal digits of [n >= 0]. *)
Definition dec_string (n : Z) : string := dec_digits (dec_fuel n) n "".

(** [n] without its trailing zeros (at most [fuel] of them). *)
Fixpoint strip_zeros (fuel : nat) (n : Z) : Z :=
  match fuel with
  | O => n
  | S f => if Z.eqb (Z.modulo n 10) 0 then strip_zeros f (Z.div n 10) else n
  end.

(** Number::toString from [10^21] up: the significant digits [s] of [n]
    with the point after the first, then [e+] and the exponent
    ("1e+21", "1.234e+24"). *)
Definition exp_form (n : Z) : string :=
  let e := dec_string (Z.of_nat (String.length (dec_string n)) - 1) in
  match dec_string (strip_zeros (dec_fuel n) n) with
  | String c EmptyString => String c ("e+" ++ e)
  | String c rest => String c ("." ++ rest ++ "e+" ++ e)
  | EmptyString => "e+" ++ e
  end.

(** The least integer Number::toString prints with an exponent. *)
Definition exp_threshold : Z := 10 ^ 21.

Definition nonneg_to_string (n : Z) : string :=
  if Z.ltb n exp_threshold then dec_string n else exp_form n.

Definition number_to_string (z : Z) : string :=
  if Z.ltb z 0 then "-" ++ nonneg_to_string (Z.opp z)
  else nonneg_to_string z.

(** ** Property access *)

(** [o.k] / [o[k]] and the field reads of [const {k} = o]. *)
Definition js_get (o : jsval) (k : string) : outcome js_error jsval :=
  match o with
  | JUndefined => Err (TypeError "Cannot read properties of undefined")
  | JNull => Err (TypeError "Cannot read properties of null")
  | JObj fs => Ok (match assoc_get k fs with Some v => v | None => JUndefined end)
  | _ => Ok JUndefined
  end.

(** [rows[0]]: the first element of an array, [undefined] when empty. *)
Definition js_first (v : jsval) : jsval :=
  match v with
  | JArr (x :: _) => x
  | _ => JUndefined
  end.

(** Own enumerable properties copied by [{...o}]: fields of an object,
    indexed elements of an array or characters of a string; nothing for the
    other primitives, [undefined] and [null]. *)
Fixpoint index_props {A} (f : A -> jsval) (i : nat) (l : list A) : list (string * jsval) :=
  match l with
  | [] => []
  | x :: l' => (number_to_string (Z.of_nat i), f x) :: index_props f (S i) l'
  end.

Fixpoint string_chars (s : string) : list string :=
  match s with
  | EmptyString => []
  | String c s' => String c EmptyString :: string_chars s'
  end.

Definition js_spread_props (o : jsval) : list (string * jsval) :=
  match o with
  | JObj fs => fs
  | JArr xs => index_props (fun x => x) 0 xs
  | JStr s => index_props JStr 0 (string_chars s)
  | _ => []
  end.

(** [{...o, k1: v1, ...}]: later keys overwrite in place or are appended. *)
Definition js_spread_with (o : jsval) (extra : list (string * jsval)) : jsval :=
  JObj (fold_left (fun acc kv => assoc_set (fst kv) (snd kv) acc) extra (js_spread_props o)).

(** ** [JSON.stringify] *)

Definition hex_char (d : nat) : ascii :=
  if Nat.ltb d 10 then ascii_of_nat (48 + d) else ascii_of_nat (87 + d).

(** The double quote, character 34. *)
Definition dquote : ascii := ascii_of_nat 34.

Definition json_escape_char (c : ascii) : string :=
  let n := nat_of_ascii c in
  if Ascii.eqb c dquote then String "\" (String dquote EmptyString)
  else if Ascii.eqb c "\" then "\\"
  else if Nat.eqb n 8 then "\b"
  else if Nat.eqb n 12 then "\f"
  else if Nat.eqb n 10 then "\n"
  else if Nat.eqb n 13 then "\r"
  else if Nat.eqb n 9 then "\t"
  else if Nat.ltb n 32 then
    String "\" (String "u" (String "0" (String "0"
      (String (hex_char (n / 16)) (String (hex_char (n mod 16)) EmptyString)))))
  else String c EmptyString.

Fixpoint json_escape (s : string) : string :=
  match s with
  | EmptyString => EmptyString
  | String c s' => json_escape_char c ++ json_escape s'
  end.

Definition json_quote (s : string) : string :=
  String dquote (json_escape s ++ String dquote EmptyString).

Fixpoint join_with (sep : string) (l : list string) : string :=
  match l with
  | [] => ""
  | [x] => x
  | x :: l' => x ++ sep ++ join_with sep l'
  end.

(** [ToString], as in a template literal [`${v}`] or [String(v)]. *)
Fixpoint js_to_string (v : jsval) : string :=
  match v with
  | JUndefined => "undefined"
  | JNull => "null"
  | JBool b => if b then "true" else "false"
  | JNum z => number_to_string z
  | JStr s => s
  | JArr xs => join_with "," (map js_to_string xs)
  | JObj _ => "[object Object]"
  end.

(** [None] is JavaScript's [undefined] result (nothing is serialised). *)
Fixpoint json_stringify (v : jsval) : option string :=
  match v with
  | JUndefined => None
  | JNull => Some "null"
  | JBool b => Some (if b then "true" else "false")
  | JNum z => Some (number_to_string z)
  | JStr s => Some (json_quote s)
  | JArr xs =>
      Some ("[" ++ join_with ","
              (map (fun x => match json_stringify x with Some t => t | None => "null" end) xs)
            ++ "]")
  | JObj fs =>
      Some ("{" ++ join_with ","
              ((fix fields (l : list (string * jsval)) : list string :=
                  match l with
                  | [] => []
                  | (k, x) :: l' =>
                      match json_stringify x with
                      | Some t => (json_quote k ++ ":" ++ t) :: fields l'
                      | None => fields l'
                      end
                  end) fs)
            ++ "}")
  end.

(** ** node-postgres' [prepareValue]: a parameter is text or NULL *)

Definition pg_param : Type := option string.

Definition backslash : ascii := ascii_of_nat 92.

(** [escapeElement]: each backslash and each double quote escaped with a
    backslash, the whole between double quotes. *)
Fixpoint pg_escape (s : string) : string :=
  match s with
  | EmptyString => EmptyString
  | String c s' =>
      if Ascii.eqb c backslash then String backslash (String backslash (pg_escape s'))
      else if Ascii.eqb c dquote then String backslash (String dquote (pg_escape s'))
      else String c (pg_escape s')
  end.

Definition escape_element (s : string) : string := String dquote (pg_escape s ++ String dquote "").

(** [arrayString]: an array literal [{...}]; [null] and [undefined]
    elements are [NULL], nested arrays nest, other elements are their
    [prepareValue] text, escaped. *)
Fixpoint array_string (v : jsval) : string :=
  match v with
  | JUndefined | JNull => "NULL"
  | JArr xs => "{" ++ join_with "," (map array_string xs) ++ "}"
  | JBool b => escape_element (if b then "true" else "false")
  | JNum z => escape_element (number_to_string z)
  | JStr s => escape_element s
  | JObj _ => escape_element (match json_stringify v with Some t => t | None => "" end)
  end.

Definition prepareValue (v : jsval) : pg_param :=
  match v with
  | JUndefined | JNull => None
  | JBool b => Some (if b then "true" else "false")
  | JNum z => Some (number_to_string z)
  | JStr s => Some s
  | JArr _ => Some (array_string v)
  | JObj _ => json_stringify v
  end.

(** ** Facts *)

Lemma truthy_nullish v : v = JUndefined \/ v = JNull -> truthy v = false.
Proof. intros [-> | ->]; reflexivity. Qed.

Lemma truthy_str s : truthy (JStr s) = true <-> s <> "".
Proof.
  simpl. destruct (String.eqb_spec s ""); simpl; split; congruence.
Qed.

Lemma js_get_obj fs k :
  js_get (JObj fs) k = Ok (match assoc_get k fs with Some v => v | None => JUndefined end).
Proof. reflexivity. Qed.

Lemma js_spread_with_get o k v :
  js_get (js_spread_with o [(k, v)]) k = Ok v.
Proof. unfold js_spread_with; simpl. rewrite assoc_get_set_eq. reflexivity. Qed.

Lemma prepareValue_nullish v : truthy v = false -> v <> JBool false -> v <> JNum 0 ->
  v <> JStr "" -> prepareValue v = None.
Proof. destruct v as [| |[]|z|s| |]; simpl; intros; try congruence;
  [destruct (Z.eqb_spec z 0); subst; simpl in *; congruence
  |destruct (String.eqb_spec s ""); subst; simpl in *; congruence]. Qed.

#[export] Hint Rewrite js_get_obj js_spread_with_get : bm_rw.

(** An array parameter: the array of [1], [null] and the string of [a],
    a double quote and [b] is sent as an array literal with the elements
    quoted, [NULL] unquoted and the inner double quote escaped. *)
Example prepareValue_array :
  prepareValue (JArr [JNum 1; JNull; JStr (String "a" (String dquote "b"))]) =
  Some (String "{" (escape_element "1" ++ ",NULL," ++ String dquote (String "a" (String backslash
          (String dquote (String "b" (String dquote "}"))))))).
Proof. reflexivity. Qed.
