(* ===== verification/SqlText.v ===== *)
(** * PostgreSQL's text input of parameters

    node-postgres sends every parameter as text ([Js.prepareValue]); the
    server converts it to the type the statement expects there.  This file
    models the conversions the store's statements need: [integer] and
    [bigint] input ([pg_strtoint] with the range of the type, in the
    syntax of PostgreSQL 15 and earlier: optional blanks and sign, decimal
    digits, blanks; version 16 also reads [0x], [0o], [0b] prefixes and
    [_] separators, which no text the store sends contains), [boolean]
    input, and [timestamp] input for the [YYYY-MM-DD HH:MM:SS] layout used by
    the import records (see the comment at lines 51-67 of
    [src/models/annotations.js]).  It proves that printing a JavaScript
    integer and reading it back as an [integer] is the identity inside the
    32-bit range; outside it the server refuses the text, with [22003]
    (out of range) while JavaScript prints the number in decimal and with
    [22P02] (invalid text) once it prints it in exponent form, from
    [10^21] on ([pg_strtoint_number_to_string]). *)

From Stdlib Require Import String Ascii ZArith List Lia Bool.
From S2P Require Import Prelude Js.
Import ListNotations.
Open Scope string_scope.

(** ** Characters *)

Definition is_space (c : ascii) : bool :=
  let n := nat_of_ascii c in
  Nat.eqb n 32 || (Nat.leb 9 n && Nat.leb n 13).

Definition digit_val (c : ascii) : option Z :=
  let n := nat_of_ascii c in
  if Nat.leb 48 n && Nat.leb n 57 then Some (Z.of_nat n - 48)%Z else None.

Fixpoint skip_spaces (s : string) : string :=
  match s with
  | String c s' => if is_space c then skip_spaces s' else s
  | EmptyString => EmptyString
  end.

(** Greedy decimal digits; [seen] records whether one digit was read. *)
Fixpoint read_digits (s : string) (acc : Z) (seen : bool) : Z * bool * string :=
  match s with
  | String c s' =>
      match digit_val c with
      | Some d => read_digits s' (acc * 10 + d)%Z true
      | None => (acc, seen, s)
      end
  | EmptyString => (acc, seen, EmptyString)
  end.

(** ** Integer input ([pg_strtoint32], [pg_strtoint64]) *)

Definition int4_min : Z := (- 2 ^ 31)%Z.
Definition int4_max : Z := (2 ^ 31 - 1)%Z.
Definition int8_min : Z := (- 2 ^ 63)%Z.
Definition int8_max : Z := (2 ^ 63 - 1)%Z.

(** An optional sign: [true] when negative. *)
Definition sign_split (s : string) : bool * string :=
  match s with
  | String "-" r => (true, r)
  | String "+" r => (false, r)
  | _ => (false, s)
  end.

(** The digits after the sign, then nothing but spaces, then the range. *)
Definition strtoint_digits (lo hi : Z) (neg : bool) (s : string) : outcome sqlstate Z :=
  let '(n, seen, rest) := read_digits s 0 false in
  if negb seen then Err invalid_text_representation
  else match skip_spaces rest with
       | EmptyString =>
           let v := if neg then (- n)%Z else n in
           if (Z.leb lo v && Z.leb v hi)%Z then Ok v else Err numeric_value_out_of_range
       | _ => Err invalid_text_representation
       end.

Definition pg_strtoint (lo hi : Z) (s : string) : outcome sqlstate Z :=
  let '(neg, s2) := sign_split (skip_spaces s) in
  strtoint_digits lo hi neg s2.

Definition int4in (s : string) : outcome sqlstate Z := pg_strtoint int4_min int4_max s.
Definition int8in (s : string) : outcome sqlstate Z := pg_strtoint int8_min int8_max s.

(** ** Boolean input ([boolin]): a case-insensitive prefix of a keyword *)

Definition lower_char (c : ascii) : ascii :=
  let n := nat_of_ascii c in
  if Nat.leb 65 n && Nat.leb n 90 then ascii_of_nat (n + 32) else c.

Fixpoint lower (s : string) : string :=
  match s with
  | String c s' => String (lower_char c) (lower s')
  | EmptyString => EmptyString
  end.

Fixpoint rstrip_spaces (s : string) : string :=
  match s with
  | EmptyString => EmptyString
  | String c s' =>
      let r := rstrip_spaces s' in
      match r with
      | EmptyString => if is_space c then EmptyString else String c EmptyString
      | _ => String c r
      end
  end.

Definition boolin (s : string) : outcome sqlstate bool :=
  let t := lower (rstrip_spaces (skip_spaces s)) in
  let pre k := (negb (String.eqb t "") && String.prefix t k)%bool in
  if pre "true" || pre "yes" || String.eqb t "1" then Ok true
  else if pre "false" || String.eqb t "no" || String.eqb t "n" || String.eqb t "0" then Ok false
  else if String.eqb t "on" then Ok true
  else if String.eqb t "off" || String.eqb t "of" then Ok false
  else Err invalid_text_representation.

(** ** Timestamps *)

Record timestamp : Type := mkTimestamp {
  ts_year : Z; ts_month : Z; ts_day : Z;
  ts_hour : Z; ts_minute : Z; ts_second : Z
}.

Definition leap_year (y : Z) : bool :=
  (Z.eqb (y mod 4) 0 && (negb (Z.eqb (y mod 100) 0) || Z.eqb (y mod 400) 0))%Z.

Definition days_in_month (y m : Z) : Z :=
  match m with
  | 2%Z => if leap_year y then 29 else 28
  | 4%Z | 6%Z | 9%Z | 11%Z => 30
  | _ => 31
  end.

Definition timestamp_valid (t : timestamp) : bool :=
  (Z.leb 1 (ts_month t) && Z.leb (ts_month t) 12 &&
   Z.leb 1 (ts_day t) && Z.leb (ts_day t) (days_in_month (ts_year t) (ts_month t)) &&
   Z.leb 0 (ts_hour t) && Z.leb (ts_hour t) 23 &&
   Z.leb 0 (ts_minute t) && Z.leb (ts_minute t) 59 &&
   Z.leb 0 (ts_second t) && Z.leb (ts_second t) 59)%Z.

(** A field of digits followed by the separator [sep] (or the end). *)
Definition read_field (s : string) : option (Z * string) :=
  let '(n, seen, rest) := read_digits s 0 false in
  if seen then Some (n, rest) else None.

Definition expect (c : ascii) (s : string) : option string :=
  match s with
  | String c' r => if Ascii.eqb c c' then Some r else None
  | EmptyString => None
  end.

Definition parse_time_part (s : string) : option (Z * Z * Z) :=
  match read_field s with
  | Some (h, r1) =>
    match expect ":" r1 with
    | Some r2 =>
      match read_field r2 with
      | Some (mi, r3) =>
        match expect ":" r3 with
        | Some r4 =>
          match read_field r4 with
          | Some (se, r5) => if String.eqb (skip_spaces r5) "" then Some (h, mi, se) else None
          | None => None
          end
        | None => None
        end
      | None => None
      end
    | None => None
    end
  | None => None
  end.

(** [YYYY-MM-DD], optionally followed by [ HH:MM:SS] or [THH:MM:SS]. *)
Definition timestamp_in (s : string) : outcome sqlstate timestamp :=
  let parsed :=
    match read_field (skip_spaces s) with
    | Some (y, r1) =>
      match expect "-" r1 with
      | Some r2 =>
        match read_field r2 with
        | Some (mo, r3) =>
          match expect "-" r3 with
          | Some r4 =>
            match read_field r4 with
            | Some (d, r5) =>
              match skip_spaces r5 with
              | EmptyString => Some (mkTimestamp y mo d 0 0 0)
              | _ =>
                let r6 := match r5 with String "T" r => r | _ => skip_spaces r5 end in
                match parse_time_part r6 with
                | Some (h, mi, se) => Some (mkTimestamp y mo d h mi se)
                | None => None
                end
              end
            | None => None
            end
          | None => None
          end
        | None => None
        end
      | None => None
      end
    | None => None
    end in
  match parsed with
  | Some t => if timestamp_valid t then Ok t else Err datetime_field_overflow
  | None => Err invalid_datetime_format
  end.

(** ** Printing a number and reading it back *)

Lemma digit_cases d : (0 <= d < 10)%Z ->
  d = 0%Z \/ d = 1%Z \/ d = 2%Z \/ d = 3%Z \/ d = 4%Z \/
  d = 5%Z \/ d = 6%Z \/ d = 7%Z \/ d = 8%Z \/ d = 9%Z.
Proof. lia. Qed.

Ltac digit_split d H :=
  let Hd := fresh in
  pose proof (digit_cases d H) as Hd;
  repeat (destruct Hd as [Hd|Hd]; [subst d; vm_compute; reflexivity|]); subst d; vm_compute; reflexivity.

Lemma digit_val_char d : (0 <= d < 10)%Z -> digit_val (digit_char d) = Some d.
Proof. intros H. digit_split d H. Qed.

Lemma skip_spaces_digit d r : (0 <= d < 10)%Z ->
  skip_spaces (String (digit_char d) r) = String (digit_char d) r.
Proof. intros H. digit_split d H. Qed.

Lemma sign_split_digit d r : (0 <= d < 10)%Z ->
  sign_split (String (digit_char d) r) = (false, String (digit_char d) r).
Proof. intros H. digit_split d H. Qed.

Lemma dec_digits_small f n acc : (0 <= n < 10)%Z ->
  dec_digits (S f) n acc = String (digit_char n) acc.
Proof.
  intros H. simpl. rewrite Z.mod_small by lia.
  destruct (Z.ltb_spec n 10); [reflexivity | lia].
Qed.

Lemma dec_digits_large f n acc : (10 <= n)%Z ->
  dec_digits (S f) n acc = dec_digits f (n / 10) (String (digit_char (n mod 10)) acc).
Proof. intros H. simpl. destruct (Z.ltb_spec n 10); [lia | reflexivity]. Qed.

Lemma div10_bound n f : (10 <= n < 10 ^ Z.of_nat (S (S f)))%Z ->
  (0 <= n / 10 < 10 ^ Z.of_nat (S f))%Z.
Proof.
  intros H. split; [apply Z.div_pos; lia|].
  apply Z.div_lt_upper_bound; [lia|].
  rewrite Nat2Z.inj_succ, Z.pow_succ_r in H by lia. lia.
Qed.

(** The printed digits start with a digit. *)
Lemma dec_digits_head f : forall n acc, (0 <= n < 10 ^ Z.of_nat (S f))%Z ->
  exists d r, (0 <= d < 10)%Z /\ dec_digits (S f) n acc = String (digit_char d) r.
Proof.
  induction f as [|f IH]; intros n acc H.
  - exists n, acc. rewrite dec_digits_small by (simpl in H; lia). split; [simpl in H; lia | reflexivity].
  - destruct (Z.ltb_spec n 10).
    + exists n, acc. rewrite dec_digits_small by lia. split; [lia | reflexivity].
    + rewrite dec_digits_large by lia. apply IH. apply div10_bound. lia.
Qed.

(** Any reader that consumes one digit by Horner's step reads the printed
    digits of [n] as [n] (after the value already accumulated). *)
Section Horner.
Variable X : Type.
Variable F : string -> Z -> X.
Hypothesis F_digit : forall d s a, (0 <= d < 10)%Z ->
  F (String (digit_char d) s) a = F s (a * 10 + d)%Z.

Lemma dec_digits_horner f : forall n acc a, (0 <= n < 10 ^ Z.of_nat (S f))%Z ->
  exists k, (0 < k)%Z /\ F (dec_digits (S f) n acc) a = F acc (a * 10 ^ k + n)%Z.
Proof.
  induction f as [|f IH]; intros n acc a H.
  - assert (Hn : (0 <= n < 10)%Z) by exact H.
    exists 1%Z. rewrite dec_digits_small, F_digit by exact Hn.
    split; [lia | reflexivity].
  - destruct (Z.ltb_spec n 10) as [Hn|Hn].
    + exists 1%Z. rewrite dec_digits_small, F_digit by lia.
      split; [lia | reflexivity].
    + rewrite dec_digits_large by lia.
      destruct (IH (n / 10)%Z (String (digit_char (n mod 10)) acc) a) as [k [Hk ->]].
      { apply div10_bound. lia. }
      rewrite F_digit by (apply Z.mod_pos_bound; lia).
      exists (Z.succ k). split; [lia|]. f_equal.
      rewrite Z.pow_succ_r by lia.
      rewrite (Z.div_mod n 10) at 3 by lia. ring.
Qed.
End Horner.

Lemma read_digits_digit b d s a : (0 <= d < 10)%Z ->
  read_digits (String (digit_char d) s) a b = read_digits s (a * 10 + d)%Z true.
Proof. intros H. cbn [read_digits]. rewrite digit_val_char by exact H. reflexivity. Qed.

Lemma dec_fuel_enough n : (0 <= n)%Z -> (0 <= n < 10 ^ Z.of_nat (dec_fuel n))%Z.
Proof.
  intros H. split; [exact H|]. unfold dec_fuel.
  rewrite Nat2Z.inj_succ, Z2Nat.id by apply Z.log2_nonneg.
  destruct (Z.eq_dec n 0) as [->|Hn]; [simpl; lia|].
  pose proof (Z.log2_spec n) as [_ Hlt]; [lia|].
  eapply Z.lt_le_trans; [exact Hlt|].
  apply Z.pow_le_mono_l. lia.
Qed.

Lemma read_number_digits n : (0 <= n)%Z ->
  read_digits (dec_string n) 0 false = (n, true, EmptyString).
Proof.
  intros H. pose proof (dec_fuel_enough n H) as Hf. unfold dec_string, dec_fuel in *.
  destruct (dec_digits_horner _ (fun s a => read_digits s a true) (read_digits_digit true) _ n "" 0 Hf)
    as [k [_ Hk]].
  destruct (dec_digits_head _ n "" Hf) as [d [r [Hd Hhead]]].
  rewrite Hhead in Hk |- *. rewrite read_digits_digit in Hk |- * by exact Hd.
  rewrite Hk. cbn. f_equal.
Qed.

Lemma strtoint_digits_printed lo hi neg n : (0 <= n)%Z ->
  strtoint_digits lo hi neg (dec_string n) =
  let v := if neg then (- n)%Z else n in
  if (Z.leb lo v && Z.leb v hi)%Z then Ok v else Err numeric_value_out_of_range.
Proof. intros H. unfold strtoint_digits. rewrite read_number_digits by exact H. reflexivity. Qed.

Lemma dec_string_head n : (0 <= n)%Z ->
  exists d r, (0 <= d < 10)%Z /\ dec_string n = String (digit_char d) r.
Proof.
  intros H. pose proof (dec_fuel_enough n H) as Hf. unfold dec_string, dec_fuel in *.
  exact (dec_digits_head _ n "" Hf).
Qed.

Lemma strip_zeros_nonneg f : forall n, (0 <= n)%Z -> (0 <= strip_zeros f n)%Z.
Proof.
  induction f as [|f IH]; intros n H; cbn [strip_zeros]; [exact H|].
  destruct (Z.eqb _ 0); [apply IH, Z.div_pos|]; lia.
Qed.

(** The exponent form is a digit followed by [.] or [e]. *)
Lemma exp_form_head n : (0 <= n)%Z ->
  exists d c r, (0 <= d < 10)%Z /\ (c = "e" \/ c = ".")%char /\
                exp_form n = String (digit_char d) (String c r).
Proof.
  intros H. unfold exp_form.
  destruct (dec_string_head (strip_zeros (dec_fuel n) n)) as [d [r [Hd ->]]];
    [apply strip_zeros_nonneg; exact H|].
  destruct r as [|a r]; [exists d, "e"%char | exists d, "."%char]; eexists;
    (split; [exact Hd | split; [tauto | reflexivity]]).
Qed.

Lemma nonneg_head n : (0 <= n)%Z ->
  exists d r, (0 <= d < 10)%Z /\ nonneg_to_string n = String (digit_char d) r.
Proof.
  intros H. unfold nonneg_to_string. destruct (Z.ltb n exp_threshold); [exact (dec_string_head n H)|].
  destruct (exp_form_head n H) as [d [c [r [Hd [_ ->]]]]]. exists d, (String c r). auto.
Qed.

(** The server reads the decimal text of [n], and refuses the exponent
    form as not an integer: the digits stop at the [.] or the [e]. *)
Lemma strtoint_nonneg_string lo hi neg n : (0 <= n)%Z ->
  strtoint_digits lo hi neg (nonneg_to_string n) =
  if Z.ltb n exp_threshold then
    let v := if neg then (- n)%Z else n in
    if (Z.leb lo v && Z.leb v hi)%Z then Ok v else Err numeric_value_out_of_range
  else Err invalid_text_representation.
Proof.
  intros H. unfold nonneg_to_string. destruct (Z.ltb n exp_threshold).
  - exact (strtoint_digits_printed lo hi neg n H).
  - destruct (exp_form_head n H) as [d [c [r [Hd [Hc ->]]]]]. unfold strtoint_digits.
    rewrite read_digits_digit by exact Hd. destruct Hc as [-> | ->]; reflexivity.
Qed.

(** The error of PostgreSQL's integer input on the printed text of an
    integer outside the type's range: [22003] for decimal text, [22P02]
    for the exponent form. *)
Definition printed_range_error (z : Z) : sqlstate :=
  if Z.ltb (Z.abs z) exp_threshold then numeric_value_out_of_range else invalid_text_representation.

Lemma out_of_bounds lo hi z : (- exp_threshold < lo)%Z -> (hi < exp_threshold)%Z ->
  (exp_threshold <= Z.abs z)%Z -> (Z.leb lo z && Z.leb z hi)%bool = false.
Proof. intros Hl Hh Hz. apply andb_false_iff. destruct (Z.abs_spec z); [right|left]; apply Z.leb_gt; lia. Qed.

(** The text a JavaScript number prints to is read back by PostgreSQL's
    integer input as the same number when it lies in the range of the
    type; otherwise it is refused, as out of range while the number
    prints in decimal and as invalid text once it prints with an
    exponent. *)
Theorem pg_strtoint_number_to_string lo hi z :
  (- exp_threshold < lo)%Z -> (hi < exp_threshold)%Z ->
  pg_strtoint lo hi (number_to_string z) =
  if (Z.leb lo z && Z.leb z hi)%Z then Ok z else Err (printed_range_error z).
Proof.
  intros Hl Hh. unfold pg_strtoint, number_to_string, printed_range_error.
  destruct (Z.ltb_spec z 0) as [Hz|Hz].
  - cbn [append skip_spaces].
    replace (is_space "-") with false by reflexivity. cbn [sign_split].
    rewrite (strtoint_nonneg_string lo hi true (- z)), Z.abs_neq by lia.
    destruct (Z.ltb_spec (- z) exp_threshold) as [Hs|Hs].
    + cbn zeta. rewrite Z.opp_involutive. reflexivity.
    + rewrite out_of_bounds by (rewrite ?Z.abs_neq; lia). reflexivity.
  - destruct (nonneg_head z Hz) as [d [r [Hd Hhead]]].
    rewrite Hhead, skip_spaces_digit, sign_split_digit by exact Hd. rewrite <- Hhead.
    rewrite (strtoint_nonneg_string lo hi false z), Z.abs_eq by exact Hz.
    destruct (Z.ltb_spec z exp_threshold) as [Hs|Hs]; [reflexivity|].
    rewrite out_of_bounds by (rewrite ?Z.abs_eq; lia). reflexivity.
Qed.

Lemma int4_in_threshold : (- exp_threshold < int4_min)%Z /\ (int4_max < exp_threshold)%Z.
Proof. split; reflexivity. Qed.

(** An [int4] prints in decimal. *)
Lemma int4_below_threshold z : (z <= int4_max)%Z -> (z < exp_threshold)%Z.
Proof. intros H. eapply Z.le_lt_trans; [exact H | exact (proj2 int4_in_threshold)]. Qed.

Lemma int8_in_threshold : (- exp_threshold < int8_min)%Z /\ (int8_max < exp_threshold)%Z.
Proof. split; reflexivity. Qed.

(** JavaScript's texts of [10^21 - 1], [10^21] and [-1234 * 10^21], and
    the server's answers to the last two as [integer]. *)
Example number_texts :
  number_to_string (10 ^ 21 - 1) = "999999999999999999999" /\
  number_to_string (10 ^ 21) = "1e+21" /\ number_to_string (-1234 * 10 ^ 21) = "-1.234e+24" /\
  int4in "1e+21" = Err invalid_text_representation /\ int4in "-1.234e+24" = Err invalid_text_representation /\
  int4in "999999999999999999999" = Err numeric_value_out_of_range.
Proof. vm_compute. repeat split. Qed.
