(* ===== verification/SqlTemplate.v ===== *)
(** * The [sql-template-strings] statement object

    [SQL`a${x}b${y}c`] builds a statement whose [strings] are the literal
    pieces ["a"; "b"; "c"] and whose [values] are [x; y].  [append] of
    another statement glues its first piece to the last one and concatenates
    the values; [append] of a plain string glues the string to the last
    piece (no parameter is created, the text goes into the SQL verbatim).
    [text] joins the pieces with the placeholders [$1], [$2], ... that the
    PostgreSQL client sends with the values.

    In the library [append] mutates the statement in place and returns it.
    Each function of the store builds a fresh statement and never shares it,
    so a value model of the statement is exact. *)

From Stdlib Require Import String ZArith List Lia.
From S2P Require Import Prelude Js.
Import ListNotations.
Open Scope string_scope.

Record sql_statement : Type := mkStatement {
  strings : list string;
  values : list jsval
}.

(** [SQL(strings, ...values)]. *)
Definition SQL (strs : list string) (vals : list jsval) : sql_statement :=
  mkStatement strs vals.

(** Add [t] to the last piece. *)
Fixpoint glue_last (strs : list string) (t : string) : list string :=
  match strs with
  | [] => [t]
  | [s] => [s ++ t]
  | s :: strs' => s :: glue_last strs' t
  end.

(** [q.append(statement)]. *)
Definition append (q s : sql_statement) : sql_statement :=
  match strings s with
  | [] => q
  | s0 :: rest => mkStatement (glue_last (strings q) s0 ++ rest) (values q ++ values s)
  end.

(** [q.append(string)]. *)
Definition append_str (q : sql_statement) (t : string) : sql_statement :=
  mkStatement (glue_last (strings q) t) (values q).

(** [text]: [strings.reduce((prev, curr, i) => prev + '$' + i + curr)]. *)
Fixpoint join_placeholders (i : nat) (acc : string) (strs : list string) : string :=
  match strs with
  | [] => acc
  | s :: strs' =>
      join_placeholders (S i) (acc ++ "$" ++ number_to_string (Z.of_nat i) ++ s) strs'
  end.

Definition text (q : sql_statement) : string :=
  match strings q with
  | [] => ""
  | s0 :: rest => join_placeholders 1 s0 rest
  end.

(** ** Facts *)

Lemma glue_last_length strs t : strs <> [] -> length (glue_last strs t) = length strs.
Proof.
  induction strs as [|s [|s' strs] IH]; simpl; intros H; try reflexivity.
  - congruence.
  - simpl in IH. rewrite IH by discriminate. reflexivity.
Qed.

(** A statement has one more piece than values, and [append] keeps it so:
    every placeholder of [text] has its value. *)
Definition well_formed (q : sql_statement) : Prop :=
  length (strings q) = S (length (values q)).

Lemma SQL_well_formed strs vals :
  length strs = S (length vals) -> well_formed (SQL strs vals).
Proof. exact (fun H => H). Qed.

Lemma append_well_formed q s :
  well_formed q -> well_formed s -> well_formed (append q s).
Proof.
  unfold well_formed, append. destruct (strings s) as [|s0 rest] eqn:Es; simpl; [auto|].
  intros Hq Hs. rewrite length_app, glue_last_length, length_app by (intros E; rewrite E in Hq; discriminate).
  simpl in Hs. lia.
Qed.

Lemma append_str_well_formed q t : well_formed q -> well_formed (append_str q t).
Proof.
  unfold well_formed, append_str. simpl. intros Hq.
  rewrite glue_last_length by (intros E; rewrite E in Hq; discriminate). exact Hq.
Qed.

Lemma join_glue_last t strs : forall i acc, strs <> [] ->
  join_placeholders i acc (glue_last strs t) = join_placeholders i acc strs ++ t.
Proof.
  induction strs as [|s [|s' strs] IH]; intros i acc H; [congruence| |].
  - simpl. rewrite !string_app_assoc. simpl. rewrite !string_app_assoc. reflexivity.
  - change (glue_last (s :: s' :: strs) t) with (s :: glue_last (s' :: strs) t).
    simpl. apply IH. discriminate.
Qed.

(** Appending a plain string to a statement appends it to its text. *)
Lemma text_append_str q t : text (append_str q t) = text q ++ t.
Proof.
  unfold text, append_str. simpl. destruct (strings q) as [|s0 [|s1 rest]]; try reflexivity.
  change (glue_last (s0 :: s1 :: rest) t) with (s0 :: glue_last (s1 :: rest) t).
  apply join_glue_last. discriminate.
Qed.

#[export] Hint Resolve SQL_well_formed append_well_formed append_str_well_formed : bm.
