(* ===== verification/SqlLexer.v ===== *)
(** * PostgreSQL's lexer, for the tokens the store's statements use

    A state machine over the characters of the statement text: words
    (identifiers and keywords, folded to lower case), double-quoted
    identifiers (case kept, a doubled double quote inside stands for one),
    string literals (likewise with the single quote), unsigned integer literals, parameters [$n] and
    the punctuation [( ) , = . * ;].  Any other character, an unterminated
    quote or a lone [$] is a syntax error.  Comments, operators other than
    [=], and numeric literals with a fraction or exponent do not occur in
    the store's statements and are not modelled (they are refused). *)

From Stdlib Require Import String Ascii ZArith List Lia Bool.
From S2P Require Import Prelude Js SqlText.
Import ListNotations.
Open Scope string_scope.

Inductive token : Type :=
| TWord (w : string)
| TQuoted (w : string)
| TStrLit (s : string)
| TNum (z : Z)
| TParam (n : Z)
| TComma | TLParen | TRParen | TEq | TDot | TStar | TSemi.

(** The reversed text read so far sits in the modes that accumulate it;
    [after_quote] records that the last character was a closing quote
    candidate. *)
Inductive lex_mode : Type :=
| LStart
| LWord (rev : string)
| LNum (acc : Z)
| LParam (acc : Z) (seen : bool)
| LQuoted (rev : string) (after_quote : bool)
| LStrLit (rev : string) (after_quote : bool).

Definition is_letter (c : ascii) : bool :=
  let n := nat_of_ascii c in
  (Nat.leb 65 n && Nat.leb n 90) || (Nat.leb 97 n && Nat.leb n 122) || Nat.eqb n 95.

Definition is_digit (c : ascii) : bool :=
  match digit_val c with Some _ => true | None => false end.

Definition squote : ascii := ascii_of_nat 39.

Fixpoint rev_append_str (s acc : string) : string :=
  match s with
  | EmptyString => acc
  | String c s' => rev_append_str s' (String c acc)
  end.

Definition unrev (rev : string) : string := rev_append_str rev EmptyString.

Definition punct (c : ascii) : option token :=
  match nat_of_ascii c with
  | 40 => Some TLParen | 41 => Some TRParen | 44 => Some TComma | 61 => Some TEq
  | 46 => Some TDot | 42 => Some TStar | 59 => Some TSemi
  | _ => None
  end.

(** A character read in [LStart]. *)
Definition start_char (c : ascii) : outcome sqlstate (list token * lex_mode) :=
  if is_space c then Ok ([], LStart)
  else if is_letter c then Ok ([], LWord (String c EmptyString))
  else match digit_val c with
       | Some d => Ok ([], LNum d)
       | None =>
         if Ascii.eqb c "$" then Ok ([], LParam 0 false)
         else if Ascii.eqb c dquote then Ok ([], LQuoted EmptyString false)
         else if Ascii.eqb c squote then Ok ([], LStrLit EmptyString false)
         else match punct c with
              | Some t => Ok ([t], LStart)
              | None => Err syntax_error
              end
       end.

(** Emit [t] and read [c] afresh. *)
Definition emit_then (t : token) (c : ascii) : outcome sqlstate (list token * lex_mode) :=
  match start_char c with
  | Ok (ts, m) => Ok (t :: ts, m)
  | Err e => Err e
  end.

Definition lex_char (m : lex_mode) (c : ascii) : outcome sqlstate (list token * lex_mode) :=
  match m with
  | LStart => start_char c
  | LWord rev =>
      if is_letter c || is_digit c || Ascii.eqb c "$" then Ok ([], LWord (String c rev))
      else emit_then (TWord (lower (unrev rev))) c
  | LNum acc =>
      match digit_val c with
      | Some d => Ok ([], LNum (acc * 10 + d)%Z)
      | None => emit_then (TNum acc) c
      end
  | LParam acc seen =>
      match digit_val c with
      | Some d => Ok ([], LParam (acc * 10 + d)%Z true)
      | None => if seen then emit_then (TParam acc) c else Err syntax_error
      end
  | LQuoted rev false =>
      if Ascii.eqb c dquote then Ok ([], LQuoted rev true) else Ok ([], LQuoted (String c rev) false)
  | LQuoted rev true =>
      if Ascii.eqb c dquote then Ok ([], LQuoted (String c rev) false)
      else emit_then (TQuoted (unrev rev)) c
  | LStrLit rev false =>
      if Ascii.eqb c squote then Ok ([], LStrLit rev true) else Ok ([], LStrLit (String c rev) false)
  | LStrLit rev true =>
      if Ascii.eqb c squote then Ok ([], LStrLit (String c rev) false)
      else emit_then (TStrLit (unrev rev)) c
  end.

(** End of the text. *)
Definition lex_finish (m : lex_mode) : outcome sqlstate (list token) :=
  match m with
  | LStart => Ok []
  | LWord rev => Ok [TWord (lower (unrev rev))]
  | LNum acc => Ok [TNum acc]
  | LParam acc seen => if seen then Ok [TParam acc] else Err syntax_error
  | LQuoted rev true => Ok [TQuoted (unrev rev)]
  | LStrLit rev true => Ok [TStrLit (unrev rev)]
  | LQuoted _ false | LStrLit _ false => Err syntax_error
  end.

Fixpoint lex_go (s : string) (m : lex_mode) : outcome sqlstate (list token) :=
  match s with
  | EmptyString => lex_finish m
  | String c s' =>
      match lex_char m c with
      | Ok (ts, m') =>
          match lex_go s' m' with
          | Ok ts' => Ok (List.app ts ts')
          | Err e => Err e
          end
      | Err e => Err e
      end
  end.

Definition lex (s : string) : outcome sqlstate (list token) := lex_go s LStart.


(** ** Lexing a text piece by piece *)

(** The tokens of a prefix and the mode the lexer is left in. *)
Fixpoint lex_run (s : string) (m : lex_mode) : outcome sqlstate (list token * lex_mode) :=
  match s with
  | EmptyString => Ok ([], m)
  | String c s' =>
      match lex_char m c with
      | Ok (ts, m') =>
          match lex_run s' m' with
          | Ok (ts', m'') => Ok (List.app ts ts', m'')
          | Err e => Err e
          end
      | Err e => Err e
      end
  end.

Lemma lex_go_app s1 s2 m :
  lex_go (s1 ++ s2) m =
  match lex_run s1 m with
  | Ok (ts, m') => match lex_go s2 m' with
                   | Ok ts' => Ok (List.app ts ts')
                   | Err e => Err e
                   end
  | Err e => Err e
  end.
Proof.
  revert m; induction s1 as [|c s1 IH]; intros m; simpl.
  - destruct (lex_go s2 m); reflexivity.
  - destruct (lex_char m c) as [[ts m']|e]; [|reflexivity].
    rewrite IH. destruct (lex_run s1 m') as [[ts1 m1]|e]; [|reflexivity].
    destruct (lex_go s2 m1); [rewrite List.app_assoc|]; reflexivity.
Qed.

Lemma start_char_digit d : (0 <= d < 10)%Z -> start_char (digit_char d) = Ok ([], LNum d).
Proof. intros H. digit_split d H. Qed.

Lemma lex_run_digit d s a : (0 <= d < 10)%Z ->
  lex_run (String (digit_char d) s) (LNum a) = lex_run s (LNum (a * 10 + d)%Z).
Proof.
  intros H. cbn [lex_run lex_char]. rewrite digit_val_char by exact H.
  destruct (lex_run s _) as [[ts m]|e]; reflexivity.
Qed.

(** The digits JavaScript prints for a non-negative integer below [10^21] are read as
    one integer literal, and the lexer is left inside it. *)
Lemma lex_run_number z : (0 <= z < exp_threshold)%Z ->
  lex_run (number_to_string z) LStart = Ok ([], LNum z).
Proof.
  intros [Hz Ht]. unfold number_to_string, nonneg_to_string.
  destruct (Z.ltb_spec z 0) as [H|_]; [lia|]. destruct (Z.ltb_spec z exp_threshold) as [_|H]; [|lia].
  pose proof (dec_fuel_enough z Hz) as Hf. unfold dec_string, dec_fuel in *.
  destruct (dec_digits_horner _ (fun s a => lex_run s (LNum a)) lex_run_digit _ z "" 0 Hf)
    as [k [_ Hk]].
  destruct (dec_digits_head _ z "" Hf) as [d [r [Hd Hhead]]].
  rewrite Hhead in Hk |- *. rewrite lex_run_digit in Hk by exact Hd.
  cbn [lex_run lex_char]. rewrite start_char_digit by exact Hd.
  replace (LNum d) with (LNum (0 * 10 + d)) by (f_equal; lia).
  rewrite Hk. reflexivity.
Qed.

(** A printed non-negative integer followed by a blank and more text. *)
Lemma lex_go_number_blank z rest : (0 <= z < exp_threshold)%Z ->
  lex_go (number_to_string z ++ String " " rest) LStart =
  match lex_go rest LStart with
  | Ok ts => Ok (TNum z :: ts)
  | Err e => Err e
  end.
Proof.
  intros Hz. rewrite lex_go_app, lex_run_number by exact Hz. cbn [lex_go lex_char].
  replace (digit_val " ") with (@None Z) by reflexivity.
  replace (emit_then (TNum z) " ") with (@Ok sqlstate _ ([TNum z], LStart)) by reflexivity.
  cbn. destruct (lex_go rest LStart); reflexivity.
Qed.
