(* ===== verification/SqlParser.v ===== *)
(** * A parser for the SQL the store issues

    Recursive descent over the tokens of [SqlLexer], following PostgreSQL's
    grammar for the statements of [src/models/annotations.js]:

    - [SELECT targets FROM t [WHERE c = e {AND c = e}] [LIMIT e]]
    - [UPDATE t SET c = e {, c = e} [WHERE ...] [RETURNING targets]]
    - [INSERT INTO t (c, ...) VALUES (e, ...)
       [ON CONFLICT (c, ...) DO NOTHING | DO UPDATE SET c = e {, c = e}]
       [RETURNING targets]]
    - [DELETE FROM t [WHERE ...] [RETURNING targets]]

    with an optional final [;].  Expressions are column references
    ([c], [t.c], [EXCLUDED.c]), parameters, literals, [TRUE], [FALSE],
    [NULL] and function calls; a target may be renamed with [AS].  An
    identifier is a quoted name or a word that is not one of PostgreSQL's
    reserved keywords (so [end] must be quoted, as the code does).  A text
    outside this grammar is refused with a syntax error; for the texts the
    store builds this is the server's verdict, which is what the theorems of
    [Annotations] rely on. *)

From Stdlib Require Import String Ascii ZArith List Lia Bool.
From S2P Require Import Prelude Js SqlText SqlLexer.
Import ListNotations.
Open Scope string_scope.

#[local] Set Warnings "-register-all".
Inductive expr : Type :=
| EColumn (c : string)
| EQualified (q c : string)
| EParam (n : Z)
| ENum (z : Z)
| EStr (s : string)
| EBool (b : bool)
| ENull
| ECall (f : string) (args : list expr).

Record target : Type := mkTarget { t_expr : expr; t_alias : option string }.

Inductive conflict_action : Type :=
| DoNothing
| DoUpdate (sets : list (string * expr)).

Inductive stmt : Type :=
| SSelect (targets : list target) (tbl : string) (where_ : list (string * expr))
          (limit : option expr)
| SUpdate (tbl : string) (sets : list (string * expr)) (where_ : list (string * expr))
          (ret : list target)
| SInsert (tbl : string) (cols : list string) (vals : list expr)
          (on_conflict : option (list string * conflict_action)) (ret : list target)
| SDelete (tbl : string) (where_ : list (string * expr)) (ret : list target).

(** PostgreSQL's reserved keywords (Appendix C of its manual). *)
Definition reserved : list string :=
  ["all"; "analyse"; "analyze"; "and"; "any"; "array"; "as"; "asc"; "asymmetric";
   "both"; "case"; "cast"; "check"; "collate"; "column"; "constraint"; "create";
   "current_catalog"; "current_date"; "current_role"; "current_time";
   "current_timestamp"; "current_user"; "default"; "deferrable"; "desc";
   "distinct"; "do"; "else"; "end"; "except"; "false"; "fetch"; "for";
   "foreign"; "from"; "grant"; "group"; "having"; "in"; "initially";
   "intersect"; "into"; "lateral"; "leading"; "limit"; "localtime";
   "localtimestamp"; "not"; "null"; "offset"; "on"; "only"; "or"; "order";
   "placing"; "primary"; "references"; "returning"; "select"; "session_user";
   "some"; "symmetric"; "table"; "then"; "to"; "trailing"; "true"; "union";
   "unique"; "user"; "using"; "variadic"; "when"; "where"; "window"; "with"].

Definition is_reserved (w : string) : bool := existsb (String.eqb w) reserved.

(** A parser reads a prefix of the tokens. *)
Definition parser (A : Type) : Type := list token -> option (A * list token).

Definition keyword (k : string) : parser unit := fun ts =>
  match ts with
  | TWord w :: ts' => if String.eqb w k then Some (tt, ts') else None
  | _ => None
  end.

Definition punct_tok (t : token) (ts : list token) : option (unit * list token) :=
  match t, ts with
  | TComma, TComma :: ts' | TLParen, TLParen :: ts' | TRParen, TRParen :: ts'
  | TEq, TEq :: ts' | TDot, TDot :: ts' | TSemi, TSemi :: ts' => Some (tt, ts')
  | _, _ => None
  end.

(** [ColId]: a quoted name or an unreserved word. *)
Definition ident : parser string := fun ts =>
  match ts with
  | TWord w :: ts' => if is_reserved w then None else Some (w, ts')
  | TQuoted w :: ts' => Some (w, ts')
  | _ => None
  end.

(** [ColLabel] after [AS]: any word. *)
Definition label : parser string := fun ts =>
  match ts with
  | TWord w :: ts' | TQuoted w :: ts' => Some (w, ts')
  | _ => None
  end.

(** [p {, p}], with at most [fuel] elements. *)
Fixpoint comma_list {A} (fuel : nat) (p : parser A) : parser (list A) := fun ts =>
  match fuel with
  | O => None
  | S f =>
      match p ts with
      | Some (x, TComma :: ts') =>
          match comma_list f p ts' with
          | Some (xs, ts'') => Some (x :: xs, ts'')
          | None => None
          end
      | Some (x, ts') => Some ([x], ts')
      | None => None
      end
  end.

Fixpoint expr_p (fuel : nat) : parser expr := fun ts =>
  match fuel with
  | O => None
  | S f =>
      match ts with
      | TParam k :: ts' => Some (EParam k, ts')
      | TNum z :: ts' => Some (ENum z, ts')
      | TStrLit s :: ts' => Some (EStr s, ts')
      | TWord "true" :: ts' => Some (EBool true, ts')
      | TWord "false" :: ts' => Some (EBool false, ts')
      | TWord "null" :: ts' => Some (ENull, ts')
      | _ =>
          match ident ts with
          | Some (n, TLParen :: ts') =>
              match comma_list f (expr_p f) ts' with
              | Some (args, TRParen :: ts'') => Some (ECall n args, ts'')
              | _ => None
              end
          | Some (q, TDot :: ts') =>
              match ident ts' with
              | Some (c, ts'') => Some (EQualified q c, ts'')
              | None => None
              end
          | Some (c, ts') => Some (EColumn c, ts')
          | None => None
          end
      end
  end.

Definition target_p (fuel : nat) : parser target := fun ts =>
  match expr_p fuel ts with
  | Some (e, TWord "as" :: ts') =>
      match label ts' with
      | Some (a, ts'') => Some (mkTarget e (Some a), ts'')
      | None => None
      end
  | Some (e, ts') => Some (mkTarget e None, ts')
  | None => None
  end.

(** [c = e], in SET lists and WHERE conjunctions. *)
Definition assign_p (fuel : nat) : parser (string * expr) := fun ts =>
  match ident ts with
  | Some (c, TEq :: ts') =>
      match expr_p fuel ts' with
      | Some (e, ts'') => Some ((c, e), ts'')
      | None => None
      end
  | _ => None
  end.

Fixpoint and_list (fuel : nat) (efuel : nat) : parser (list (string * expr)) := fun ts =>
  match fuel with
  | O => None
  | S f =>
      match assign_p efuel ts with
      | Some (a, TWord "and" :: ts') =>
          match and_list f efuel ts' with
          | Some (l, ts'') => Some (a :: l, ts'')
          | None => None
          end
      | Some (a, ts') => Some ([a], ts')
      | None => None
      end
  end.

(** Optional clauses: absent when the keyword is not next. *)
Definition where_p (fuel : nat) : parser (list (string * expr)) := fun ts =>
  match ts with
  | TWord "where" :: ts' => and_list fuel fuel ts'
  | _ => Some ([], ts)
  end.

Definition returning_p (fuel : nat) : parser (list target) := fun ts =>
  match ts with
  | TWord "returning" :: ts' => comma_list fuel (target_p fuel) ts'
  | _ => Some ([], ts)
  end.

Definition limit_p (fuel : nat) : parser (option expr) := fun ts =>
  match ts with
  | TWord "limit" :: ts' =>
      match expr_p fuel ts' with
      | Some (e, ts'') => Some (Some e, ts'')
      | None => None
      end
  | _ => Some (None, ts)
  end.

Definition conflict_p (fuel : nat) : parser (option (list string * conflict_action)) := fun ts =>
  match ts with
  | TWord "on" :: TWord "conflict" :: TLParen :: ts1 =>
      match comma_list fuel ident ts1 with
      | Some (cols, TRParen :: TWord "do" :: TWord "nothing" :: ts2) =>
          Some (Some (cols, DoNothing), ts2)
      | Some (cols, TRParen :: TWord "do" :: TWord "update" :: TWord "set" :: ts2) =>
          match comma_list fuel (assign_p fuel) ts2 with
          | Some (sets, ts3) => Some (Some (cols, DoUpdate sets), ts3)
          | None => None
          end
      | _ => None
      end
  | _ => Some (None, ts)
  end.

(** The end of the statement: an optional [;] and nothing else. *)
Definition at_end (ts : list token) : bool :=
  match ts with
  | [] | [TSemi] => true
  | _ => false
  end.

Definition finish {A} (r : option (A * list token)) : option A :=
  match r with
  | Some (x, ts) => if at_end ts then Some x else None
  | None => None
  end.

Definition stmt_p (fuel : nat) (ts : list token) : option stmt :=
  match ts with
  | TWord "select" :: ts1 =>
      match comma_list fuel (target_p fuel) ts1 with
      | Some (tgts, TWord "from" :: ts2) =>
          match ident ts2 with
          | Some (t, ts3) =>
              match where_p fuel ts3 with
              | Some (w, ts4) =>
                  finish (match limit_p fuel ts4 with
                          | Some (l, ts5) => Some (SSelect tgts t w l, ts5)
                          | None => None
                          end)
              | None => None
              end
          | None => None
          end
      | _ => None
      end
  | TWord "update" :: ts1 =>
      match ident ts1 with
      | Some (t, TWord "set" :: ts2) =>
          match comma_list fuel (assign_p fuel) ts2 with
          | Some (sets, ts3) =>
              match where_p fuel ts3 with
              | Some (w, ts4) =>
                  finish (match returning_p fuel ts4 with
                          | Some (r, ts5) => Some (SUpdate t sets w r, ts5)
                          | None => None
                          end)
              | None => None
              end
          | None => None
          end
      | _ => None
      end
  | TWord "insert" :: TWord "into" :: ts1 =>
      match ident ts1 with
      | Some (t, TLParen :: ts2) =>
          match comma_list fuel ident ts2 with
          | Some (cols, TRParen :: TWord "values" :: TLParen :: ts3) =>
              match comma_list fuel (expr_p fuel) ts3 with
              | Some (vals, TRParen :: ts4) =>
                  match conflict_p fuel ts4 with
                  | Some (oc, ts5) =>
                      finish (match returning_p fuel ts5 with
                              | Some (r, ts6) => Some (SInsert t cols vals oc r, ts6)
                              | None => None
                              end)
                  | None => None
                  end
              | _ => None
              end
          | _ => None
          end
      | _ => None
      end
  | TWord "delete" :: TWord "from" :: ts1 =>
      match ident ts1 with
      | Some (t, ts2) =>
          match where_p fuel ts2 with
          | Some (w, ts3) =>
              finish (match returning_p fuel ts3 with
                      | Some (r, ts4) => Some (SDelete t w r, ts4)
                      | None => None
                      end)
          | None => None
          end
      | None => None
      end
  | _ => None
  end.

(** The fuel bounds list lengths and nesting depth; every element consumes
    a token, so the number of tokens is enough. *)
Definition parse_tokens (ts : list token) : option stmt := stmt_p (S (length ts)) ts.

(** What the server does with a statement text. *)
Definition parse_sql (s : string) : outcome sqlstate stmt :=
  match lex s with
  | Ok ts => match parse_tokens ts with
             | Some st => Ok st
             | None => Err syntax_error
             end
  | Err e => Err e
  end.
