(* ===== verification/SqlValue.v ===== *)
(** * Values, [to_char] and the evaluation of expressions

    Column types and values of the model; the text input of a parameter at
    the type the statement expects there (PostgreSQL types an untyped
    parameter or literal by its context: the column it is compared with or
    assigned to, [bigint] for [LIMIT], [text] elsewhere); [to_char] for the
    timestamp projection of the store; the evaluation of an expression in a
    row, with the proposed row of an [INSERT] as [EXCLUDED]; and the
    conversion of a result row to the JavaScript object node-postgres
    builds. *)

From Stdlib Require Import String Ascii ZArith List Lia Bool.
From S2P Require Import Prelude Js SqlText SqlLexer SqlParser.
Import ListNotations.
Open Scope string_scope.

Inductive coltype : Type := TInt4 | TInt8 | TText | TBool | TTimestamp.

Inductive value : Type :=
| VNull
| VInt (z : Z)
| VText (s : string)
| VBool (b : bool)
| VTime (t : timestamp).

Definition row : Type := list (string * value).

Definition timestamp_eqb (a b : timestamp) : bool :=
  (Z.eqb (ts_year a) (ts_year b) && Z.eqb (ts_month a) (ts_month b) &&
   Z.eqb (ts_day a) (ts_day b) && Z.eqb (ts_hour a) (ts_hour b) &&
   Z.eqb (ts_minute a) (ts_minute b) && Z.eqb (ts_second a) (ts_second b))%Z.

(** SQL's [=]: unknown ([None]) when a side is NULL. *)
Definition sql_eq (a b : value) : option bool :=
  match a, b with
  | VNull, _ | _, VNull => None
  | VInt x, VInt y => Some (Z.eqb x y)
  | VText x, VText y => Some (String.eqb x y)
  | VBool x, VBool y => Some (Bool.eqb x y)
  | VTime x, VTime y => Some (timestamp_eqb x y)
  | _, _ => Some false
  end.

(** A value fits a column type: NULL fits every type, integers must lie
    in the range of the integer type. *)
Definition has_type (ty : coltype) (v : value) : bool :=
  match ty, v with
  | _, VNull => true
  | TInt4, VInt z => Z.leb int4_min z && Z.leb z int4_max
  | TInt8, VInt z => Z.leb int8_min z && Z.leb z int8_max
  | TText, VText _ | TBool, VBool _ | TTimestamp, VTime _ => true
  | _, _ => false
  end.

(** The check of a value stored into a column of type [ty]. *)
Definition coerce (ty : coltype) (v : value) : outcome sqlstate value :=
  if has_type ty v then Ok v
  else match v with
       | VInt _ => Err numeric_value_out_of_range
       | _ => Err datatype_mismatch
       end.

(** ** Text input at a type *)

Definition cast_in (ty : coltype) (p : pg_param) : outcome sqlstate value :=
  match p with
  | None => Ok VNull
  | Some s =>
      match ty with
      | TInt4 => match int4in s with Ok z => Ok (VInt z) | Err e => Err e end
      | TInt8 => match int8in s with Ok z => Ok (VInt z) | Err e => Err e end
      | TText => Ok (VText s)
      | TBool => match boolin s with Ok b => Ok (VBool b) | Err e => Err e end
      | TTimestamp => match timestamp_in s with Ok t => Ok (VTime t) | Err e => Err e end
      end
  end.

(** ** [to_char(timestamp, format)] *)

Fixpoint zeros (n : nat) : string :=
  match n with O => "" | S n' => String "0" (zeros n') end.

(** [n] printed with at least [w] digits. *)
Definition pad (w : nat) (n : Z) : string :=
  let s := number_to_string n in zeros (w - String.length s) ++ s.

(** [HH] and [HH12]: the hour on a 12-hour clock, 12 for 0 and 12. *)
Definition hour12 (h : Z) : Z :=
  let r := (h mod 12)%Z in if Z.eqb r 0 then 12%Z else r.

(** The template patterns of the store's format, matched case-insensitively
    and longest first as PostgreSQL does; other characters are copied. *)
Fixpoint to_char_go (fuel : nat) (t : timestamp) (fmt : string) : string :=
  match fuel with
  | O => ""
  | S f =>
    match fmt with
    | EmptyString => ""
    | String c rest =>
      let l := lower fmt in
      let skip k := substring k (String.length fmt - k) fmt in
      if String.prefix "hh24" l then pad 2 (ts_hour t) ++ to_char_go f t (skip 4)
      else if String.prefix "hh12" l then pad 2 (hour12 (ts_hour t)) ++ to_char_go f t (skip 4)
      else if String.prefix "yyyy" l then pad 4 (ts_year t) ++ to_char_go f t (skip 4)
      else if String.prefix "hh" l then pad 2 (hour12 (ts_hour t)) ++ to_char_go f t (skip 2)
      else if String.prefix "mi" l then pad 2 (ts_minute t) ++ to_char_go f t (skip 2)
      else if String.prefix "mm" l then pad 2 (ts_month t) ++ to_char_go f t (skip 2)
      else if String.prefix "ss" l then pad 2 (ts_second t) ++ to_char_go f t (skip 2)
      else if String.prefix "dd" l then pad 2 (ts_day t) ++ to_char_go f t (skip 2)
      else String c (to_char_go f t rest)
    end
  end.

Definition to_char (t : timestamp) (fmt : string) : string :=
  to_char_go (String.length fmt) t fmt.

(** ** Expressions *)

Definition lookup_col (r : row) (c : string) : outcome sqlstate value :=
  match assoc_get c r with Some v => Ok v | None => Err undefined_column end.

(** Literals and parameters are typed by their context, [text] by default. *)
Definition ctx_type (expected : option coltype) : coltype :=
  match expected with Some ty => ty | None => TText end.

Fixpoint eval_expr (params : list pg_param) (cur : row) (excl : option row)
         (expected : option coltype) (e : expr) : outcome sqlstate value :=
  match e with
  | EColumn c => lookup_col cur c
  | EQualified q c =>
      if String.eqb q "excluded" then
        match excl with Some r => lookup_col r c | None => Err undefined_table end
      else lookup_col cur c
  | EParam n =>
      match nth_error params (Z.to_nat (n - 1)) with
      | Some p => if Z.leb 1 n then cast_in (ctx_type expected) p else Err undefined_parameter
      | None => Err undefined_parameter
      end
  | ENum z =>
      match expected with
      | Some TText => Ok (VText (number_to_string z))
      | Some TBool | Some TTimestamp => Err datatype_mismatch
      | _ => Ok (VInt z)
      end
  | EStr s => cast_in (ctx_type expected) (Some s)
  | EBool b =>
      match expected with
      | None | Some TBool => Ok (VBool b)
      | _ => Err datatype_mismatch
      end
  | ENull => Ok VNull
  | ECall f args =>
      if String.eqb f "to_char" then
        match args with
        | [a; b] =>
            match eval_expr params cur excl None a, eval_expr params cur excl (Some TText) b with
            | Ok (VTime t), Ok (VText fmt) => Ok (VText (to_char t fmt))
            | Ok VNull, Ok _ | Ok _, Ok VNull => Ok VNull
            | Err e, _ | _, Err e => Err e
            | _, _ => Err undefined_function
            end
        | _ => Err undefined_function
        end
      else Err undefined_function
  end.

(** The name of a result column. *)
Definition target_name (tg : target) : string :=
  match t_alias tg with
  | Some a => a
  | None => match t_expr tg with
            | EColumn c | EQualified _ c => c
            | ECall f _ => f
            | _ => "?column?"
            end
  end.

Definition eval_targets (params : list pg_param) (r : row) (tgts : list target)
  : outcome sqlstate row :=
  omap (fun tg => match eval_expr params r None None (t_expr tg) with
                  | Ok v => Ok (target_name tg, v)
                  | Err e => Err e
                  end) tgts.

(** ** Results as JavaScript values (node-postgres' type parsers) *)

Definition js_of_value (v : value) : jsval :=
  match v with
  | VNull => JNull
  | VInt z => JNum z
  | VText s => JStr s
  | VBool b => JBool b
  | VTime t => JStr (to_char t "yyyy-mm-dd hh24:mi:ss")
  end.

Definition js_of_row (r : row) : jsval := JObj (map (fun cv => (fst cv, js_of_value (snd cv))) r).
