(* ===== verification/SqlEngine.v ===== *)
(** * The database: tables and the execution of a statement

    A table has typed columns, an optional [serial] column filled from its
    sequence, unique keys (the primary key and [UNIQUE] constraints) and its
    rows in storage order.  [exec_stmt] runs one parsed statement with its
    parameters; a statement is atomic: when it fails the database is left as
    it was (the one effect of a failed statement PostgreSQL keeps, the
    advance of a sequence, is not modelled).  [db_query] is the model of
    [db.query(statement)] in the store: lex and parse the statement's text,
    convert the parameters with [prepareValue], execute, and hand back the
    [rows] as JavaScript objects, or reject with the server's error. *)

From Stdlib Require Import String Ascii ZArith List Lia Bool.
From S2P Require Import Prelude Js SqlText SqlTemplate SqlLexer SqlParser SqlValue.
Import ListNotations.
Open Scope string_scope.

Record column : Type := mkColumn { col_name : string; col_type : coltype }.

Record table : Type := mkTable {
  tbl_name : string;
  tbl_cols : list column;
  tbl_serial : option string;
  tbl_next : Z;
  tbl_unique : list (list string);
  tbl_rows : list row
}.

Definition db : Type := list table.

Definition with_rows (t : table) (rs : list row) : table :=
  mkTable (tbl_name t) (tbl_cols t) (tbl_serial t) (tbl_next t) (tbl_unique t) rs.

Definition with_next (t : table) (n : Z) : table :=
  mkTable (tbl_name t) (tbl_cols t) (tbl_serial t) n (tbl_unique t) (tbl_rows t).

Fixpoint find_table (name : string) (d : db) : option table :=
  match d with
  | [] => None
  | t :: d' => if String.eqb (tbl_name t) name then Some t else find_table name d'
  end.

Fixpoint set_table (t : table) (d : db) : db :=
  match d with
  | [] => []
  | t' :: d' => if String.eqb (tbl_name t') (tbl_name t) then t :: d' else t' :: set_table t d'
  end.

Definition col_type_of (t : table) (c : string) : outcome sqlstate coltype :=
  match find (fun col => String.eqb (col_name col) c) (tbl_cols t) with
  | Some col => Ok (col_type col)
  | None => Err undefined_column
  end.

(** ** WHERE *)

(** [c1 = e1 AND ...] holds: every comparison is true (not false, not
    unknown). *)
Fixpoint where_holds (params : list pg_param) (t : table) (r : row)
         (w : list (string * expr)) : outcome sqlstate bool :=
  match w with
  | [] => Ok true
  | (c, e) :: w' =>
      match col_type_of t c, lookup_col r c with
      | Ok ty, Ok v =>
          match eval_expr params r None (Some ty) e, where_holds params t r w' with
          | Ok v', Ok rest => Ok (match sql_eq v v' with Some true => rest | _ => false end)
          | Err e, _ | _, Err e => Err e
          end
      | Err e, _ | _, Err e => Err e
      end
  end.

Fixpoint filter_rows (params : list pg_param) (t : table) (w : list (string * expr))
         (rs : list row) : outcome sqlstate (list row) :=
  match rs with
  | [] => Ok []
  | r :: rs' =>
      match where_holds params t r w, filter_rows params t w rs' with
      | Ok b, Ok kept => Ok (if b then r :: kept else kept)
      | Err e, _ | _, Err e => Err e
      end
  end.

(** ** Unique keys *)

Definition value_eqb (a b : value) : bool :=
  match a, b with
  | VNull, VNull => true
  | _, _ => match sql_eq a b with Some true => true | _ => false end
  end.

(** The key of a row, absent when a key column is NULL (NULLs never
    collide). *)
Fixpoint key_of (k : list string) (r : row) : option (list value) :=
  match k with
  | [] => Some []
  | c :: k' =>
      match assoc_get c r, key_of k' r with
      | Some VNull, _ | None, _ | _, None => None
      | Some v, Some vs => Some (v :: vs)
      end
  end.

Definition key_eqb (a b : list value) : bool :=
  (Nat.eqb (length a) (length b) && forallb (fun p => value_eqb (fst p) (snd p)) (combine a b))%bool.

Definition same_key (k : list string) (r1 r2 : row) : bool :=
  match key_of k r1, key_of k r2 with
  | Some a, Some b => key_eqb a b
  | _, _ => false
  end.

Fixpoint distinct_on (k : list string) (rs : list row) : bool :=
  match rs with
  | [] => true
  | r :: rs' => negb (existsb (same_key k r) rs') && distinct_on k rs'
  end.

Definition unique_ok (t : table) (rs : list row) : bool :=
  forallb (fun k => distinct_on k rs) (tbl_unique t).

(** ** SET lists (UPDATE, ON CONFLICT DO UPDATE) *)

(** Every right-hand side is evaluated in the old row, then assigned. *)
Definition apply_sets (params : list pg_param) (t : table) (excl : option row)
           (sets : list (string * expr)) (r : row) : outcome sqlstate row :=
  match omap (fun ce => match col_type_of t (fst ce) with
                        | Ok ty => match obind (eval_expr params r excl (Some ty) (snd ce)) (coerce ty) with
                                   | Ok v => Ok (fst ce, v)
                                   | Err e => Err e
                                   end
                        | Err e => Err e
                        end) sets with
  | Ok newvals => Ok (fold_left (fun acc cv => assoc_set (fst cv) (snd cv) acc) newvals r)
  | Err e => Err e
  end.

(** All rows after the update, and the updated rows in order. *)
Fixpoint update_rows (params : list pg_param) (t : table) (sets : list (string * expr))
         (w : list (string * expr)) (rs : list row) : outcome sqlstate (list row * list row) :=
  match rs with
  | [] => Ok ([], [])
  | r :: rs' =>
      match where_holds params t r w with
      | Ok true =>
          match apply_sets params t None sets r, update_rows params t sets w rs' with
          | Ok r', Ok (all, upd) => Ok (r' :: all, r' :: upd)
          | Err e, _ | _, Err e => Err e
          end
      | Ok false =>
          match update_rows params t sets w rs' with
          | Ok (all, upd) => Ok (r :: all, upd)
          | Err e => Err e
          end
      | Err e => Err e
      end
  end.

(** ** Statements *)

Definition output (params : list pg_param) (ret : list target) (rs : list row)
  : outcome sqlstate (list row) :=
  omap (fun r => eval_targets params r ret) rs.

Definition exec_select (params : list pg_param) (t : table) (tgts : list target)
           (w : list (string * expr)) (lim : option expr) : outcome sqlstate (list row) :=
  match filter_rows params t w (tbl_rows t) with
  | Ok kept =>
      match lim with
      | None => output params tgts kept
      | Some e =>
          match eval_expr params [] None (Some TInt8) e with
          | Ok VNull => output params tgts kept
          | Ok (VInt n) =>
              if Z.ltb n 0 then Err invalid_row_count_in_limit
              else output params tgts (firstn (Z.to_nat n) kept)
          | Ok _ => Err datatype_mismatch
          | Err e => Err e
          end
      end
  | Err e => Err e
  end.

Definition exec_update (params : list pg_param) (t : table) (sets : list (string * expr))
           (w : list (string * expr)) (ret : list target) : outcome sqlstate (list row * table) :=
  match update_rows params t sets w (tbl_rows t) with
  | Ok (all, upd) =>
      if unique_ok t all then
        match output params ret upd with
        | Ok out => Ok (out, with_rows t all)
        | Err e => Err e
        end
      else Err unique_violation
  | Err e => Err e
  end.

(** The proposed row of an INSERT: the listed columns, the serial column
    from the sequence when not listed, NULL elsewhere. *)
Definition proposed_row (t : table) (given : row) (serial : option (string * Z)) : row :=
  map (fun col => (col_name col,
                   match assoc_get (col_name col) given with
                   | Some v => v
                   | None => match serial with
                             | Some (sc, n) => if String.eqb sc (col_name col) then VInt n else VNull
                             | None => VNull
                             end
                   end)) (tbl_cols t).

Definition eval_given (params : list pg_param) (t : table) (cols : list string) (vals : list expr)
  : outcome sqlstate row :=
  omap (fun ce => match col_type_of t (fst ce) with
                  | Ok ty => match obind (eval_expr params [] None (Some ty) (snd ce)) (coerce ty) with
                             | Ok v => Ok (fst ce, v)
                             | Err e => Err e
                             end
                  | Err e => Err e
                  end) (combine cols vals).

(** [nextval] when the serial column is not listed. *)
Definition next_serial (t : table) (cols : list string) : outcome sqlstate (option (string * Z) * table) :=
  match tbl_serial t with
  | Some sc =>
      if existsb (String.eqb sc) cols then Ok (None, t)
      else if Z.leb (tbl_next t) int4_max then Ok (Some (sc, tbl_next t), with_next t (tbl_next t + 1))
      else Err sequence_limit_exceeded
  | None => Ok (None, t)
  end.

Definition same_cols (a b : list string) : bool :=
  forallb (fun c => existsb (String.eqb c) b) a && forallb (fun c => existsb (String.eqb c) a) b.

(** Replace the first row equal to [old] by [r']. *)
Fixpoint replace_row (k : list string) (old r' : row) (rs : list row) : list row :=
  match rs with
  | [] => []
  | r :: rs' => if same_key k old r then r' :: rs' else r :: replace_row k old r' rs'
  end.

Definition insert_plain (params : list pg_param) (t : table) (nw : row) (ret : list target)
  : outcome sqlstate (list row * table) :=
  let all := List.app (tbl_rows t) [nw] in
  if unique_ok t all then
    match output params ret [nw] with
    | Ok out => Ok (out, with_rows t all)
    | Err e => Err e
    end
  else Err unique_violation.

Definition exec_insert (params : list pg_param) (t : table) (cols : list string) (vals : list expr)
           (oc : option (list string * conflict_action)) (ret : list target)
  : outcome sqlstate (list row * table) :=
  if negb (Nat.eqb (length cols) (length vals)) then Err syntax_error else
  match eval_given params t cols vals with
  | Err e => Err e
  | Ok given =>
    match next_serial t cols with
    | Err e => Err e
    | Ok (serial, t1) =>
      let nw := proposed_row t1 given serial in
      match oc with
      | None => insert_plain params t1 nw ret
      | Some (ccols, action) =>
          if negb (existsb (same_cols ccols) (tbl_unique t1)) then Err invalid_column_reference else
          match find (same_key ccols nw) (tbl_rows t1) with
          | None => insert_plain params t1 nw ret
          | Some old =>
              match action with
              | DoNothing => Ok ([], t1)
              | DoUpdate sets =>
                  match apply_sets params t1 (Some nw) sets old with
                  | Ok old' =>
                      let all := replace_row ccols old old' (tbl_rows t1) in
                      if unique_ok t1 all then
                        match output params ret [old'] with
                        | Ok out => Ok (out, with_rows t1 all)
                        | Err e => Err e
                        end
                      else Err unique_violation
                  | Err e => Err e
                  end
              end
          end
      end
    end
  end.

Definition exec_delete (params : list pg_param) (t : table) (w : list (string * expr))
           (ret : list target) : outcome sqlstate (list row * table) :=
  match filter_rows params t w (tbl_rows t) with
  | Ok gone =>
      match omap (fun r => match where_holds params t r w with
                           | Ok b => Ok (negb b)
                           | Err e => Err e
                           end) (tbl_rows t) with
      | Ok keep =>
          match output params ret gone with
          | Ok out => Ok (out, with_rows t (map fst (filter snd (combine (tbl_rows t) keep))))
          | Err e => Err e
          end
      | Err e => Err e
      end
  | Err e => Err e
  end.

Definition stmt_table (s : stmt) : string :=
  match s with
  | SSelect _ t _ _ | SUpdate t _ _ _ | SInsert t _ _ _ _ | SDelete t _ _ => t
  end.

(** ** Binding the parameters

    The server converts every parameter when it binds them, before it
    reads a row, at the type the statement's analysis gives it: the column
    it is compared with or assigned to, [bigint] for LIMIT, [text]
    elsewhere. *)

Definition col_context (t : table) (c : string) : option coltype :=
  match col_type_of t c with Ok ty => Some ty | Err _ => None end.

Definition param_uses (t : table) (s : stmt) : list (expr * option coltype) :=
  let tgt tgs := map (fun tg => (t_expr tg, @None coltype)) tgs in
  let cmp l := map (fun ce => (snd ce, col_context t (fst ce))) l in
  match s with
  | SSelect tgts _ w lim =>
      tgt tgts ++ cmp w ++ match lim with Some e => [(e, Some TInt8)] | None => [] end
  | SUpdate _ sets w ret => cmp sets ++ cmp w ++ tgt ret
  | SInsert _ cols vals oc ret =>
      cmp (combine cols vals) ++
      match oc with Some (_, DoUpdate sets) => cmp sets | _ => [] end ++ tgt ret
  | SDelete _ w ret => cmp w ++ tgt ret
  end.

Definition bind_params (params : list pg_param) (t : table) (s : stmt) : outcome sqlstate unit :=
  match omap (fun use => match fst use with
                         | EParam _ => eval_expr params [] None (snd use) (fst use)
                         | _ => Ok VNull
                         end) (param_uses t s) with
  | Ok _ => Ok tt
  | Err e => Err e
  end.

Definition exec_stmt (params : list pg_param) (s : stmt) (d : db) : outcome sqlstate (list row * db) :=
  match find_table (stmt_table s) d with
  | None => Err undefined_table
  | Some t =>
    match bind_params params t s with
    | Err e => Err e
    | Ok _ =>
      let put r := match r with
                   | Ok (out, t') => Ok (out, set_table t' d)
                   | Err e => Err e
                   end in
      match s with
      | SSelect tgts _ w lim =>
          match exec_select params t tgts w lim with Ok out => Ok (out, d) | Err e => Err e end
      | SUpdate _ sets w ret => put (exec_update params t sets w ret)
      | SInsert _ cols vals oc ret => put (exec_insert params t cols vals oc ret)
      | SDelete _ w ret => put (exec_delete params t w ret)
      end
    end
  end.

(** ** [db.query(statement)] *)

Definition run_sql (q : sql_statement) (d : db) : outcome sqlstate (list row * db) :=
  match parse_sql (text q) with
  | Ok st => exec_stmt (map prepareValue (values q)) st d
  | Err e => Err e
  end.

(** The [rows] of the result, as JavaScript objects. *)
Definition db_query (q : sql_statement) : stM db js_error jsval :=
  slift (fun d => match run_sql q d with
                  | Ok (out, d') => Ok (JArr (map js_of_row out), d')
                  | Err e => Err (PgError e)
                  end).
