(* ===== verification/EngineFacts.v ===== *)
(** * The invariant of the database and the engine's lemmas

    A table is well formed when its column names are distinct, its serial
    column (if any) is an [integer] column and its sequence is positive,
    every row carries exactly the table's columns in order with a value of
    the column's type, and its unique keys are distinct.  Every statement
    the engine executes successfully keeps every table well formed
    ([exec_stmt_wf]), whatever the statement and its parameters: the
    typing comes from [coerce] at each store, uniqueness from the checks of
    UPDATE and INSERT, and a DELETE keeps a sub-list of the rows. *)

From Stdlib Require Import String Ascii ZArith List Lia Bool.
From S2P Require Import Prelude Js SqlText SqlTemplate SqlLexer SqlParser SqlValue SqlEngine.
Import ListNotations.
Open Scope string_scope.

(** ** The invariant *)

Definition cell_wf (col : column) (cv : string * value) : Prop :=
  fst cv = col_name col /\ has_type (col_type col) (snd cv) = true.

Definition row_wf (cols : list column) (r : row) : Prop := Forall2 cell_wf cols r.

Definition serial_wf (t : table) : Prop :=
  match tbl_serial t with
  | Some sc => find (fun col => String.eqb (col_name col) sc) (tbl_cols t) = Some (mkColumn sc TInt4)
               /\ (1 <= tbl_next t)%Z
  | None => True
  end.

Record table_wf (t : table) : Prop := {
  twf_names : NoDup (map col_name (tbl_cols t));
  twf_serial : serial_wf t;
  twf_rows : Forall (row_wf (tbl_cols t)) (tbl_rows t);
  twf_unique : unique_ok t (tbl_rows t) = true
}.

Definition db_wf (d : db) : Prop := Forall table_wf d.

(** ** Rows *)

Lemma row_wf_keys cols r : row_wf cols r -> map fst r = map col_name cols.
Proof. induction 1 as [|col cv cols r [Hk _] _ IH]; simpl; congruence. Qed.

(** The value a well-formed row has at a column of the table. *)
Lemma row_wf_lookup cols r c col :
  row_wf cols r -> find (fun col => String.eqb (col_name col) c) cols = Some col ->
  exists v, assoc_get c r = Some v /\ has_type (col_type col) v = true.
Proof.
  induction 1 as [|col0 [k v0] cols r [Hk Hty] _ IH]; simpl; [discriminate|].
  simpl in Hk, Hty. subst k.
  destruct (String.eqb_spec (col_name col0) c) as [<-|Hne].
  - rewrite String.eqb_refl. intros [= <-]. eauto.
  - apply String.eqb_neq in Hne. rewrite String.eqb_sym, Hne. exact IH.
Qed.

(** Assigning a value of the column's type keeps a row well formed. *)
Lemma row_wf_assoc_set cols r c col v :
  row_wf cols r -> find (fun col => String.eqb (col_name col) c) cols = Some col ->
  has_type (col_type col) v = true -> row_wf cols (assoc_set c v r).
Proof.
  induction 1 as [|col0 [k v0] cols r [Hk Hty] Hrest IH]; simpl; [discriminate|].
  simpl in Hk, Hty. subst k. intros Hfind Hv.
  destruct (String.eqb_spec (col_name col0) c) as [<-|Hne].
  - rewrite String.eqb_refl. injection Hfind as <-. constructor; [split; simpl; auto | exact Hrest].
  - rewrite (proj2 (String.eqb_neq _ _) (not_eq_sym Hne)).
    constructor; [split; simpl; auto | apply IH; auto].
Qed.

Lemma col_type_of_find t c ty :
  col_type_of t c = Ok ty ->
  exists col, find (fun col => String.eqb (col_name col) c) (tbl_cols t) = Some col /\ col_type col = ty.
Proof.
  unfold col_type_of. destruct (find _ _) as [col|]; [intros [= <-]; eauto | discriminate].
Qed.

Lemma coerce_typed ty v v' : coerce ty v = Ok v' -> v' = v /\ has_type ty v = true.
Proof.
  unfold coerce. destruct (has_type ty v) eqn:H; [intros [= <-]; auto|].
  destruct v; discriminate.
Qed.

(** The values a SET list computes are typed for their columns. *)
Definition typed_for (t : table) (cv : string * value) : Prop :=
  exists col, find (fun col => String.eqb (col_name col) (fst cv)) (tbl_cols t) = Some col
              /\ has_type (col_type col) (snd cv) = true.

Lemma omap_forall {A B E} (f : A -> outcome E B) (P : B -> Prop) l ys :
  (forall x y, f x = Ok y -> P y) -> omap f l = Ok ys -> Forall P ys.
Proof.
  intros Hf. revert ys. induction l as [|x l IH]; simpl; intros ys H.
  - injection H as <-. constructor.
  - destruct (f x) eqn:Ex; [|discriminate].
    destruct (omap f l) eqn:El; [|discriminate]. injection H as <-. eauto.
Qed.

Lemma set_value_typed params t r excl ce cv :
  match col_type_of t (fst ce) with
  | Ok ty => match obind (eval_expr params r excl (Some ty) (snd ce)) (coerce ty) with
             | Ok v => Ok (fst ce, v)
             | Err e => Err e
             end
  | Err e => Err e
  end = Ok cv -> typed_for t cv.
Proof.
  destruct (col_type_of t (fst ce)) as [ty|] eqn:Hty; [|discriminate].
  destruct (eval_expr _ _ _ _ _) as [v0|]; simpl; [|discriminate].
  destruct (coerce ty v0) as [v|] eqn:Hc; [|discriminate]. intros [= <-].
  apply coerce_typed in Hc as [-> Hv]. apply col_type_of_find in Hty as [col [Hf <-]].
  exists col. auto.
Qed.

Lemma fold_assoc_set_wf t newvals r :
  Forall (typed_for t) newvals -> row_wf (tbl_cols t) r ->
  row_wf (tbl_cols t) (fold_left (fun acc cv => assoc_set (fst cv) (snd cv) acc) newvals r).
Proof.
  intros Hn. revert r. induction Hn as [|[c v] nv [col [Hf Hv]] _ IH]; simpl; intros r Hr; [exact Hr|].
  apply IH. eapply row_wf_assoc_set; eauto.
Qed.

Lemma apply_sets_wf params t excl sets r r' :
  row_wf (tbl_cols t) r -> apply_sets params t excl sets r = Ok r' -> row_wf (tbl_cols t) r'.
Proof.
  unfold apply_sets. intros Hr.
  destruct (omap _ sets) as [newvals|] eqn:Ho; [|discriminate]. intros [= <-].
  apply fold_assoc_set_wf; [|exact Hr].
  eapply omap_forall; [|exact Ho]. intros ce cv. apply set_value_typed.
Qed.

Lemma update_rows_wf params t sets w rs all upd :
  Forall (row_wf (tbl_cols t)) rs -> update_rows params t sets w rs = Ok (all, upd) ->
  Forall (row_wf (tbl_cols t)) all /\ Forall (row_wf (tbl_cols t)) upd.
Proof.
  intros Hrs. revert all upd. induction Hrs as [|r rs Hr Hrs IH]; simpl; intros all upd H.
  - injection H as <- <-. auto.
  - destruct (where_holds params t r w) as [[]|]; [| |discriminate].
    + destruct (apply_sets params t None sets r) as [r'|] eqn:Ha; [|discriminate].
      destruct (update_rows params t sets w rs) as [[all' upd']|]; [|discriminate].
      injection H as <- <-. destruct (IH _ _ eq_refl).
      pose proof (apply_sets_wf _ _ _ _ _ _ Hr Ha). auto.
    + destruct (update_rows params t sets w rs) as [[all' upd']|]; [|discriminate].
      injection H as <- <-. destruct (IH _ _ eq_refl). auto.
Qed.

(** ** Sub-lists kept by a DELETE *)

Definition kept {A} (rs : list A) (bs : list bool) : list A := map fst (filter snd (combine rs bs)).

Lemma in_kept {A} (x : A) rs bs : In x (kept rs bs) -> In x rs.
Proof.
  unfold kept. revert bs. induction rs as [|r rs IH]; intros [|b bs]; simpl; try tauto.
  destruct b; simpl; [intros [->|H]; [auto | right; eapply IH; eauto] | intros H; right; eapply IH; eauto].
Qed.

Lemma forall_kept {A} (P : A -> Prop) rs bs : Forall P rs -> Forall P (kept rs bs).
Proof.
  intros H. apply Forall_forall. intros x Hx. apply in_kept in Hx.
  eapply Forall_forall in H; eauto.
Qed.

Lemma distinct_on_kept k rs bs : distinct_on k rs = true -> distinct_on k (kept rs bs) = true.
Proof.
  unfold kept. revert bs. induction rs as [|r rs IH]; intros [|b bs]; simpl; auto.
  intros H. apply andb_true_iff in H as [Hn Hd].
  destruct b; simpl; [|apply IH; exact Hd].
  rewrite IH by exact Hd. rewrite andb_true_r.
  apply negb_true_iff. apply negb_true_iff in Hn.
  destruct (existsb (same_key k r) (map fst (filter snd (combine rs bs)))) eqn:E; [|reflexivity].
  apply existsb_exists in E as [x [Hx Hs]]. apply (in_kept _ rs bs) in Hx.
  rewrite <- Hn. symmetry. apply existsb_exists. eauto.
Qed.

Lemma unique_ok_kept t rs bs : unique_ok t rs = true -> unique_ok t (kept rs bs) = true.
Proof.
  unfold unique_ok. intros H. apply forallb_forall. intros k Hk.
  apply distinct_on_kept. eapply forallb_forall in H; eauto.
Qed.

(** ** The sequence and the proposed row of an INSERT *)

Lemma find_name_nodup cols col :
  NoDup (map col_name cols) -> In col cols ->
  find (fun col' => String.eqb (col_name col') (col_name col)) cols = Some col.
Proof.
  induction cols as [|c0 cols IH]; simpl; [tauto|]. intros Hnd [->|Hin].
  - rewrite String.eqb_refl. reflexivity.
  - inversion Hnd as [|? ? Hnot Hnd']. subst.
    destruct (String.eqb_spec (col_name c0) (col_name col)) as [E|_]; [|auto].
    exfalso. apply Hnot. rewrite E. apply in_map. exact Hin.
Qed.

Lemma assoc_get_in {A} k (l : list (string * A)) v : assoc_get k l = Some v -> In (k, v) l.
Proof.
  induction l as [|[k' v'] l IH]; simpl; [discriminate|].
  destruct (String.eqb_spec k k') as [->|_]; [intros [= ->]; auto | auto].
Qed.

Definition serial_ok (t : table) (serial : option (string * Z)) : Prop :=
  match serial with
  | Some (sc, n) => find (fun col => String.eqb (col_name col) sc) (tbl_cols t) = Some (mkColumn sc TInt4)
                    /\ (1 <= n <= int4_max)%Z
  | None => True
  end.

Lemma next_serial_wf t cols serial t1 :
  table_wf t -> next_serial t cols = Ok (serial, t1) ->
  table_wf t1 /\ tbl_cols t1 = tbl_cols t /\ tbl_rows t1 = tbl_rows t /\
  tbl_unique t1 = tbl_unique t /\ serial_ok t serial.
Proof.
  intros Hwf. pose proof (twf_serial _ Hwf) as Hs. unfold next_serial, serial_wf in *.
  destruct (tbl_serial t) as [sc|] eqn:Esc.
  - destruct Hs as [Hf Hn].
    destruct (existsb _ cols); [intros [= <- <-]; simpl; auto 6|].
    destruct (Z.leb_spec (tbl_next t) int4_max); [|discriminate].
    intros [= <- <-].
    assert (Hwf' : table_wf (with_next t (tbl_next t + 1))).
    { destruct Hwf as [Hnd _ Hr Hu]. constructor; simpl; auto.
      unfold serial_wf. simpl. rewrite Esc. split; [exact Hf | lia]. }
    refine (conj Hwf' (conj eq_refl (conj eq_refl (conj eq_refl _)))).
    simpl. split; [exact Hf | lia].
  - intros [= <- <-]. simpl. auto 6.
Qed.

Lemma forall2_map_cells (f : column -> value) cols :
  (forall col, In col cols -> cell_wf col (col_name col, f col)) ->
  Forall2 cell_wf cols (map (fun col => (col_name col, f col)) cols).
Proof.
  induction cols as [|col cols IH]; simpl; intros H; constructor; auto.
Qed.

Lemma proposed_row_wf t given serial :
  NoDup (map col_name (tbl_cols t)) -> Forall (typed_for t) given -> serial_ok t serial ->
  row_wf (tbl_cols t) (proposed_row t given serial).
Proof.
  intros Hnd Hg Hs. unfold proposed_row, row_wf.
  assert (Hall : forall col, In col (tbl_cols t) ->
            cell_wf col (col_name col,
              match assoc_get (col_name col) given with
              | Some v => v
              | None => match serial with
                        | Some (sc, n) => if String.eqb sc (col_name col) then VInt n else VNull
                        | None => VNull
                        end
              end)).
  { intros col Hin. split; [reflexivity|]. simpl.
    destruct (assoc_get (col_name col) given) as [v|] eqn:Eg.
    - apply assoc_get_in in Eg. eapply Forall_forall in Hg; [|exact Eg].
      destruct Hg as [col' [Hf Hv]]. simpl in Hf, Hv.
      rewrite find_name_nodup in Hf by assumption. injection Hf as ->. exact Hv.
    - destruct serial as [[sc n]|]; [|destruct (col_type col); reflexivity].
      destruct (String.eqb_spec sc (col_name col)) as [->|_];
        [|destruct (col_type col); reflexivity].
      destruct Hs as [Hf Hn]. rewrite find_name_nodup in Hf by assumption.
      injection Hf as ->. simpl. unfold int4_min, int4_max in *.
      apply andb_true_iff; split; apply Z.leb_le; lia. }
  apply forall2_map_cells. exact Hall.
Qed.

(** ** Every statement keeps the database well formed *)

Lemma table_wf_with_rows t rs :
  table_wf t -> Forall (row_wf (tbl_cols t)) rs -> unique_ok t rs = true -> table_wf (with_rows t rs).
Proof. intros [Hn Hs _ _] Hr Hu. constructor; auto. Qed.

Lemma replace_row_forall (P : row -> Prop) k old r' rs :
  Forall P rs -> P r' -> Forall P (replace_row k old r' rs).
Proof.
  intros H Hr'. induction H as [|r rs Hr H IH]; simpl; [constructor|].
  destruct (same_key k old r); constructor; auto.
Qed.

Lemma eval_given_typed params t cols vals given :
  eval_given params t cols vals = Ok given -> Forall (typed_for t) given.
Proof. apply omap_forall. intros ce cv. apply set_value_typed. Qed.

Lemma insert_plain_wf params t nw ret out t' :
  table_wf t -> row_wf (tbl_cols t) nw -> insert_plain params t nw ret = Ok (out, t') ->
  table_wf t' /\ tbl_name t' = tbl_name t.
Proof.
  intros Hwf Hnw. unfold insert_plain.
  destruct (unique_ok t _) eqn:Hu; [|discriminate].
  destruct (output _ _ _); [|discriminate]. intros [= _ <-]. split; [|reflexivity].
  apply table_wf_with_rows; auto.
  apply Forall_app. split; [apply (twf_rows _ Hwf) | constructor; auto].
Qed.

Lemma exec_update_wf params t sets w ret out t' :
  table_wf t -> exec_update params t sets w ret = Ok (out, t') -> table_wf t' /\ tbl_name t' = tbl_name t.
Proof.
  intros Hwf. unfold exec_update.
  destruct (update_rows _ _ _ _ _) as [[all upd]|] eqn:Hup; [|discriminate].
  destruct (unique_ok t all) eqn:Hu; [|discriminate].
  destruct (output _ _ _); [|discriminate]. intros [= _ <-]. split; [|reflexivity].
  apply table_wf_with_rows; auto.
  exact (proj1 (update_rows_wf _ _ _ _ _ _ _ (twf_rows _ Hwf) Hup)).
Qed.

Lemma exec_delete_wf params t w ret out t' :
  table_wf t -> exec_delete params t w ret = Ok (out, t') -> table_wf t' /\ tbl_name t' = tbl_name t.
Proof.
  intros Hwf. unfold exec_delete.
  destruct (filter_rows _ _ _ _); [|discriminate].
  destruct (omap _ _) as [keep|]; [|discriminate].
  destruct (output _ _ _); [|discriminate]. intros [= _ <-]. split; [|reflexivity].
  apply table_wf_with_rows; auto.
  - apply forall_kept, (twf_rows _ Hwf).
  - apply unique_ok_kept, (twf_unique _ Hwf).
Qed.

Lemma exec_insert_wf params t cols vals oc ret out t' :
  table_wf t -> exec_insert params t cols vals oc ret = Ok (out, t') ->
  table_wf t' /\ tbl_name t' = tbl_name t.
Proof.
  intros Hwf. unfold exec_insert.
  destruct (negb _); [discriminate|].
  destruct (eval_given params t cols vals) as [given|] eqn:Hg; [|discriminate].
  destruct (next_serial t cols) as [[serial t1]|] eqn:Hs; [|discriminate].
  destruct (next_serial_wf _ _ _ _ Hwf Hs) as [Hwf1 [Hc [Hr [Hu Hso]]]].
  assert (Hname : tbl_name t1 = tbl_name t).
  { unfold next_serial in Hs. destruct (tbl_serial t); [|congruence].
    destruct (existsb _ _); [congruence|]. destruct (Z.leb _ _); [|discriminate].
    injection Hs as _ <-. reflexivity. }
  assert (Hnw : row_wf (tbl_cols t1) (proposed_row t1 given serial)).
  { unfold proposed_row. rewrite Hc. fold (proposed_row t given serial).
    apply proposed_row_wf; [apply (twf_names _ Hwf) | eapply eval_given_typed; eauto | exact Hso]. }
  destruct oc as [[ccols action]|].
  - destruct (negb _); [discriminate|].
    destruct (find _ (tbl_rows t1)) as [old|] eqn:Hf.
    + destruct action as [|sets]; [intros [= _ <-]; auto|].
      destruct (apply_sets _ _ _ _ _) as [old'|] eqn:Ha; [|discriminate].
      destruct (unique_ok t1 _) eqn:Hu'; [|discriminate].
      destruct (output _ _ _); [|discriminate]. intros [= _ <-].
      split; [|exact Hname]. apply table_wf_with_rows; auto.
      apply replace_row_forall; [apply (twf_rows _ Hwf1)|].
      eapply apply_sets_wf; [|exact Ha].
      apply find_some in Hf as [Hin _]. eapply Forall_forall; [apply (twf_rows _ Hwf1) | exact Hin].
    + intros H. destruct (insert_plain_wf _ _ _ _ _ _ Hwf1 Hnw H). split; congruence.
  - intros H. destruct (insert_plain_wf _ _ _ _ _ _ Hwf1 Hnw H). split; congruence.
Qed.

Lemma find_table_in name d t : find_table name d = Some t -> In t d.
Proof.
  induction d as [|t0 d IH]; simpl; [discriminate|].
  destruct (String.eqb _ _); [intros [= <-]; auto | auto].
Qed.

Lemma set_table_wf t d : db_wf d -> table_wf t -> db_wf (set_table t d).
Proof.
  intros H Ht. induction H as [|t0 d H0 H IH]; simpl; [constructor|].
  destruct (String.eqb _ _); constructor; auto.
Qed.

(** Every statement the server accepts keeps every table of the
    database well formed: rows with exactly the table's columns, values of
    the column types (integers in range), distinct unique keys, positive
    sequences. *)
Theorem exec_stmt_wf params s d out d' :
  db_wf d -> exec_stmt params s d = Ok (out, d') -> db_wf d'.
Proof.
  intros Hd. unfold exec_stmt.
  destruct (find_table (stmt_table s) d) as [t|] eqn:Ht; [|discriminate].
  assert (Hwf : table_wf t) by (eapply Forall_forall; [exact Hd | eapply find_table_in; eauto]).
  destruct (bind_params params t s); [|discriminate].
  destruct s as [tgts tn w lim|tn sets w ret|tn cols vals oc ret|tn w ret].
  - destruct (exec_select _ _ _ _ _); [intros [= _ <-]; exact Hd | discriminate].
  - destruct (exec_update params t sets w ret) as [[o t']|] eqn:E; [|discriminate].
    intros [= _ <-]. apply set_table_wf; [exact Hd | eapply exec_update_wf; eauto].
  - destruct (exec_insert params t cols vals oc ret) as [[o t']|] eqn:E; [|discriminate].
    intros [= _ <-]. apply set_table_wf; [exact Hd | eapply exec_insert_wf; eauto].
  - destruct (exec_delete params t w ret) as [[o t']|] eqn:E; [|discriminate].
    intros [= _ <-]. apply set_table_wf; [exact Hd | eapply exec_delete_wf; eauto].
Qed.

(** ** Reading rows *)

(** The value of a column in a row ([NULL] when absent). *)
Definition cell (r : row) (c : string) : value :=
  match assoc_get c r with Some v => v | None => VNull end.

Lemma lookup_col_wf cols r c :
  row_wf cols r -> In c (map col_name cols) -> lookup_col r c = Ok (cell r c).
Proof.
  intros H Hin. rewrite <- (row_wf_keys _ _ H) in Hin.
  apply assoc_get_in_keys in Hin as [v Hv]. unfold lookup_col, cell. rewrite Hv. reflexivity.
Qed.

Lemma col_type_of_in t c ty : col_type_of t c = Ok ty -> In c (map col_name (tbl_cols t)).
Proof.
  intros H. apply col_type_of_find in H as [col [Hf _]].
  apply find_some in Hf as [Hin Heq]. apply String.eqb_eq in Heq. subst c.
  apply in_map. exact Hin.
Qed.

(** A one-column WHERE on a well-formed row. *)
Lemma where_single params t r c e ty v :
  col_type_of t c = Ok ty -> row_wf (tbl_cols t) r ->
  eval_expr params r None (Some ty) e = Ok v ->
  where_holds params t r [(c, e)] =
  Ok (match sql_eq (cell r c) v with Some true => true | _ => false end).
Proof.
  intros Hty Hr He. simpl. rewrite Hty, (lookup_col_wf _ _ _ Hr (col_type_of_in _ _ _ Hty)), He.
  destruct (sql_eq _ _) as [[]|]; reflexivity.
Qed.

Lemma where_cons params t r c e ty v w b :
  col_type_of t c = Ok ty -> row_wf (tbl_cols t) r ->
  eval_expr params r None (Some ty) e = Ok v -> where_holds params t r w = Ok b ->
  where_holds params t r ((c, e) :: w) =
  Ok (match sql_eq (cell r c) v with Some true => b | _ => false end).
Proof.
  intros Hty Hr He Hw. simpl. rewrite Hty, (lookup_col_wf _ _ _ Hr (col_type_of_in _ _ _ Hty)), He, Hw.
  reflexivity.
Qed.

Lemma filter_rows_ok params t w rs (f : row -> bool) :
  (forall r, In r rs -> where_holds params t r w = Ok (f r)) ->
  filter_rows params t w rs = Ok (filter f rs).
Proof.
  induction rs as [|r rs IH]; simpl; intros H; [reflexivity|].
  rewrite H by auto. rewrite IH by auto. reflexivity.
Qed.

Lemma eval_param1 p ps r x ty : eval_expr (p :: ps) r x (Some ty) (EParam 1) = cast_in ty p.
Proof. reflexivity. Qed.

Lemma eval_param2 p q ps r x ty : eval_expr (p :: q :: ps) r x (Some ty) (EParam 2) = cast_in ty q.
Proof. reflexivity. Qed.

(** ** The rows an UPDATE produces *)

Lemma update_rows_ok params t sets w rs (f : row -> bool) (g : row -> row) :
  (forall r, In r rs -> where_holds params t r w = Ok (f r)) ->
  (forall r, In r rs -> f r = true -> apply_sets params t None sets r = Ok (g r)) ->
  update_rows params t sets w rs = Ok (map (fun r => if f r then g r else r) rs, map g (filter f rs)).
Proof.
  induction rs as [|r rs IH]; simpl; intros Hw Hs; [reflexivity|].
  rewrite Hw by auto. destruct (f r) eqn:Hf.
  - rewrite Hs, IH by auto. reflexivity.
  - rewrite IH by auto. reflexivity.
Qed.

(** Setting a column outside a key leaves the key of the row as it was. *)
Lemma key_of_assoc_set_ne k c v r : ~ In c k -> key_of k (assoc_set c v r) = key_of k r.
Proof.
  induction k as [|c' k IH]; simpl; intros H; [reflexivity|].
  rewrite assoc_get_set_ne by (intros ->; apply H; left; reflexivity).
  rewrite IH by tauto. reflexivity.
Qed.

Lemma distinct_on_map k (h : row -> row) rs :
  (forall r, key_of k (h r) = key_of k r) -> distinct_on k (map h rs) = distinct_on k rs.
Proof.
  intros H. induction rs as [|r rs IH]; simpl; [reflexivity|]. rewrite IH. f_equal. f_equal.
  clear IH. induction rs as [|r' rs IH]; simpl; [reflexivity|].
  rewrite IH. unfold same_key. rewrite !H. reflexivity.
Qed.

(** A change of the rows that keeps every unique key keeps them distinct. *)
Lemma unique_ok_map t (h : row -> row) rs :
  (forall k r, In k (tbl_unique t) -> key_of k (h r) = key_of k r) ->
  unique_ok t (map h rs) = unique_ok t rs.
Proof.
  unfold unique_ok. generalize (tbl_unique t) as ks.
  induction ks as [|k ks IH]; simpl; intros H; [reflexivity|].
  rewrite distinct_on_map by (intros r; apply H; left; reflexivity).
  rewrite IH by (intros k' r Hk'; apply H; right; exact Hk'). reflexivity.
Qed.

(** ** Every statement keeps the schema of every table *)

Definition schema_of (t : table) : string * list column * option string * list (list string) :=
  (tbl_name t, tbl_cols t, tbl_serial t, tbl_unique t).

Lemma next_serial_schema t cols serial t1 :
  next_serial t cols = Ok (serial, t1) -> schema_of t1 = schema_of t.
Proof.
  unfold next_serial. destruct (tbl_serial t); [|intros [= _ <-]; reflexivity].
  destruct (existsb _ _); [intros [= _ <-]; reflexivity|].
  destruct (Z.leb _ _); [intros [= _ <-]; reflexivity | discriminate].
Qed.

Lemma exec_insert_schema params t cols vals oc ret out t' :
  exec_insert params t cols vals oc ret = Ok (out, t') -> schema_of t' = schema_of t.
Proof.
  unfold exec_insert, insert_plain.
  destruct (negb _); [discriminate|]. destruct (eval_given _ _ _ _); [|discriminate].
  destruct (next_serial t cols) as [[serial t1]|] eqn:Hs; [|discriminate].
  rewrite <- (next_serial_schema _ _ _ _ Hs).
  repeat match goal with
  | |- (match ?x with _ => _ end) = _ -> _ => destruct x
  | |- (if ?x then _ else _) = _ -> _ => destruct x
  end; first [discriminate | intros [= _ <-]; reflexivity].
Qed.

Lemma exec_update_schema params t sets w ret out t' :
  exec_update params t sets w ret = Ok (out, t') -> schema_of t' = schema_of t.
Proof.
  unfold exec_update. destruct (update_rows _ _ _ _ _) as [[all upd]|]; [|discriminate].
  destruct (unique_ok t all); [|discriminate].
  destruct (output _ _ _); [intros [= _ <-]; reflexivity | discriminate].
Qed.

Lemma exec_delete_schema params t w ret out t' :
  exec_delete params t w ret = Ok (out, t') -> schema_of t' = schema_of t.
Proof.
  unfold exec_delete. destruct (filter_rows _ _ _ _); [|discriminate].
  destruct (omap _ _); [|discriminate].
  destruct (output _ _ _); [intros [= _ <-]; reflexivity | discriminate].
Qed.

Lemma find_table_name n d t : find_table n d = Some t -> tbl_name t = n.
Proof.
  induction d as [|t0 d IH]; simpl; [discriminate|].
  destruct (String.eqb_spec (tbl_name t0) n); [intros [= <-]; assumption | exact IH].
Qed.

Lemma set_table_schema t t' d : find_table (tbl_name t') d = Some t -> schema_of t' = schema_of t ->
  map schema_of (set_table t' d) = map schema_of d.
Proof.
  intros H Hs. induction d as [|t0 d IH]; simpl in *; [reflexivity|].
  destruct (String.eqb (tbl_name t0) (tbl_name t')); simpl.
  - injection H as ->. rewrite Hs. reflexivity.
  - rewrite IH by exact H. reflexivity.
Qed.

Lemma find_table_schema n d d' t : map schema_of d' = map schema_of d -> find_table n d = Some t ->
  exists t', find_table n d' = Some t' /\ schema_of t' = schema_of t.
Proof.
  revert d'. induction d as [|t0 d IH]; intros [|t0' d'] Hm; simpl in *; try discriminate.
  injection Hm as Hn Hc Hse Hu Hm. rewrite Hn.
  destruct (String.eqb (tbl_name t0) n); [|apply IH; exact Hm].
  intros [= <-]. exists t0'. split; [reflexivity | unfold schema_of; congruence].
Qed.

(** The statements change rows and sequences only. *)
Lemma exec_stmt_schema params s d out d' :
  exec_stmt params s d = Ok (out, d') -> map schema_of d' = map schema_of d.
Proof.
  unfold exec_stmt. destruct (find_table (stmt_table s) d) as [t|] eqn:Ht; [|discriminate].
  destruct (bind_params params t s); [|discriminate].
  assert (Hput : forall t', schema_of t' = schema_of t -> map schema_of (set_table t' d) = map schema_of d).
  { intros t' Hs. apply (set_table_schema t); [|exact Hs].
    replace (tbl_name t') with (tbl_name t) by (unfold schema_of in Hs; congruence).
    rewrite (find_table_name _ _ _ Ht). exact Ht. }
  destruct s as [tgts tn w lim|tn sets w ret|tn cols vals oc ret|tn w ret].
  - destruct (exec_select _ _ _ _ _); [intros [= _ <-]; reflexivity | discriminate].
  - destruct (exec_update params t sets w ret) as [[o t']|] eqn:E; [|discriminate].
    intros H. injection H as _ <-. apply Hput. eapply exec_update_schema. exact E.
  - destruct (exec_insert params t cols vals oc ret) as [[o t']|] eqn:E; [|discriminate].
    intros H. injection H as _ <-. apply Hput. eapply exec_insert_schema. exact E.
  - destruct (exec_delete params t w ret) as [[o t']|] eqn:E; [|discriminate].
    intros H. injection H as _ <-. apply Hput. eapply exec_delete_schema. exact E.
Qed.

Lemma find_set_table t t0 d : find_table (tbl_name t) d = Some t0 ->
  find_table (tbl_name t) (set_table t d) = Some t.
Proof.
  induction d as [|t1 d IH]; simpl; [discriminate|].
  destruct (String.eqb (tbl_name t1) (tbl_name t)) eqn:E; simpl.
  - rewrite String.eqb_refl. reflexivity.
  - rewrite E. exact IH.
Qed.

(** ** The proposed row of an INSERT *)

Lemma eval_given_keys params t cols vals given :
  eval_given params t cols vals = Ok given -> map fst given = map fst (combine cols vals).
Proof.
  unfold eval_given. generalize (combine cols vals) as cvs. intros cvs. revert given.
  induction cvs as [|[c e] cvs IH]; simpl; intros given H; [injection H as <-; reflexivity|].
  destruct (col_type_of t c); [|discriminate].
  destruct (obind _ _); [|discriminate].
  destruct (omap _ cvs) as [rest|] eqn:Er; [|discriminate]. injection H as <-.
  simpl. f_equal. apply IH. reflexivity.
Qed.

Lemma assoc_get_map_cols (g : column -> value) cols k col :
  find (fun c => String.eqb (col_name c) k) cols = Some col ->
  assoc_get k (map (fun c => (col_name c, g c)) cols) = Some (g col).
Proof.
  induction cols as [|c cols IH]; simpl; [discriminate|].
  rewrite String.eqb_sym. destruct (String.eqb k (col_name c)); [intros [= ->]; reflexivity | exact IH].
Qed.

(** The serial column of the proposed row holds the sequence value when the
    INSERT does not list it. *)
Lemma proposed_row_serial t given sc n :
  find (fun col => String.eqb (col_name col) sc) (tbl_cols t) = Some (mkColumn sc TInt4) ->
  assoc_get sc given = None ->
  assoc_get sc (proposed_row t given (Some (sc, n))) = Some (VInt n).
Proof.
  intros Hf Hg. unfold proposed_row. rewrite (assoc_get_map_cols _ _ _ _ Hf). simpl.
  rewrite Hg, String.eqb_refl. reflexivity.
Qed.

Lemma key_of_single c r z : cell r c = VInt z -> key_of [c] r = Some [VInt z].
Proof. unfold cell. simpl. destruct (assoc_get c r) as [[]|]; simpl; congruence. Qed.

Lemma serial_col t sc : table_wf t -> tbl_serial t = Some sc ->
  find (fun col => String.eqb (col_name col) sc) (tbl_cols t) = Some (mkColumn sc TInt4).
Proof. intros Hwf Hs. pose proof (twf_serial _ Hwf) as H. unfold serial_wf in H. rewrite Hs in H. apply H. Qed.

(** A column the INSERT does not list has no given value. *)
Lemma eval_given_notin params t cols vals given c :
  eval_given params t cols vals = Ok given -> ~ In c cols -> assoc_get c given = None.
Proof.
  intros Hg Hc. apply assoc_get_notin. rewrite (eval_given_keys _ _ _ _ _ Hg).
  intros Hin. apply Hc. apply in_map_iff in Hin as [[x y] [<- Hin]].
  exact (in_combine_l _ _ _ _ Hin).
Qed.

Lemma omap_forall_in {A B E} (f : A -> outcome E B) (P : B -> Prop) l ys :
  (forall x y, In x l -> f x = Ok y -> P y) -> omap f l = Ok ys -> Forall P ys.
Proof.
  revert ys. induction l as [|x l IH]; simpl; intros ys Hf H.
  - injection H as <-. constructor.
  - destruct (f x) eqn:Ex; [|discriminate].
    destruct (omap f l) eqn:El; [|discriminate]. injection H as <-. constructor.
    + eapply Hf; [left; reflexivity | exact Ex].
    + apply IH; [intros y z Hy; apply Hf; right; exact Hy | reflexivity].
Qed.

Lemma filter_rows_incl params t w rs kept : filter_rows params t w rs = Ok kept -> incl kept rs.
Proof.
  revert kept. induction rs as [|r rs IH]; simpl; intros kept H.
  - injection H as <-. apply incl_refl.
  - destruct (where_holds params t r w) as [[]|]; [| |discriminate];
      destruct (filter_rows params t w rs) as [k|]; try discriminate; injection H as <-.
    + apply incl_cons; [left; reflexivity | apply incl_tl, IH; reflexivity].
    + apply incl_tl, IH. reflexivity.
Qed.

(** [RETURNING id] / [SELECT id]: one cell per row, the row's id. *)
Lemma output_id params rs out :
  output params [mkTarget (EColumn "id") None] rs = Ok out ->
  Forall (fun o => exists r, In r rs /\ o = [("id", cell r "id")]) out.
Proof.
  apply omap_forall_in. intros r o Hin. unfold eval_targets. simpl. unfold lookup_col, target_name. simpl.
  destruct (assoc_get "id" r) as [v|] eqn:E; [intros [= <-] | discriminate].
  exists r. split; [exact Hin|]. unfold cell. rewrite E. reflexivity.
Qed.
