(* ===== verification/Schema.v ===== *)
(** * The schema of the store's tables

    The SQL file the store refers to ([src/models/bookmarker.sql], line 7 of
    [src/models/annotations.js]) is not among the sources; the tables are
    taken from the data model of the spec: [kindle_annotations] with a
    serial [id] primary key, [books] with a serial [id] and a [title],
    [tags] with a serial [id] and a unique [tag], and the join table
    [annotations_tags].  The spec says of the join pair both that it is
    composite-unique and that nothing prevents duplicate pairs; the model
    follows the second statement (no unique key).  Foreign keys are not
    modelled: the code never relies on them. *)

From Stdlib Require Import String ZArith List Lia.
From S2P Require Import Prelude Js SqlText SqlParser SqlValue SqlEngine EngineFacts.
Import ListNotations.
Open Scope string_scope.

Definition annotation_columns : list column :=
  [mkColumn "id" TInt4; mkColumn "book_id" TInt4; mkColumn "bookline" TText;
   mkColumn "title" TText; mkColumn "author" TText; mkColumn "language" TText;
   mkColumn "begin" TInt4; mkColumn "end" TInt4; mkColumn "time" TTimestamp;
   mkColumn "highlight" TText; mkColumn "note" TText; mkColumn "statusline" TText;
   mkColumn "page" TInt4; mkColumn "edited" TBool; mkColumn "ordernr" TInt4].

Definition empty_table (name : string) (cols : list column) (serial : option string)
           (uniq : list (list string)) : table :=
  mkTable name cols serial 1 uniq [].

Definition kindle_annotations : table :=
  empty_table "kindle_annotations" annotation_columns (Some "id") [["id"]].

Definition books : table :=
  empty_table "books" [mkColumn "id" TInt4; mkColumn "title" TText] (Some "id") [["id"]].

Definition tags : table :=
  empty_table "tags" [mkColumn "id" TInt4; mkColumn "tag" TText] (Some "id") [["id"]; ["tag"]].

Definition annotations_tags : table :=
  empty_table "annotations_tags"
    [mkColumn "annotation_id" TInt4; mkColumn "tag_id" TInt4] None [].

(** A fresh database. *)
Definition initial_db : db := [kindle_annotations; books; tags; annotations_tags].

(** The schema of a table of a database is the one of [initial_db]: only
    its rows and its sequence change. *)
Definition same_schema (t t0 : table) : Prop :=
  tbl_name t = tbl_name t0 /\ tbl_cols t = tbl_cols t0 /\
  tbl_serial t = tbl_serial t0 /\ tbl_unique t = tbl_unique t0.

Lemma empty_table_wf name cols serial uniq :
  NoDup (map col_name cols) ->
  match serial with
  | Some sc => find (fun col => String.eqb (col_name col) sc) cols = Some (mkColumn sc TInt4)
  | None => True
  end ->
  table_wf (empty_table name cols serial uniq).
Proof.
  intros Hnd Hs. constructor; simpl.
  - exact Hnd.
  - unfold serial_wf. simpl. destruct serial; [split; [exact Hs | lia] | exact I].
  - constructor.
  - unfold unique_ok. apply forallb_forall. reflexivity.
Qed.

Ltac nodup_names := simpl; repeat constructor; simpl; intuition discriminate.

(** A fresh database is well formed. *)
Lemma initial_db_wf : db_wf initial_db.
Proof.
  unfold db_wf, initial_db.
  repeat (apply Forall_cons; [apply empty_table_wf; [nodup_names | first [reflexivity | exact I]] |]).
  apply Forall_nil.
Qed.

(** Creating a book on a fresh database keeps it well formed. *)
Lemma exec_stmt_wf_witness :
  exists out d', exec_stmt [Some "Foo"] (SInsert "books" ["title"] [EParam 1] None []) initial_db
                 = Ok (out, d') /\ db_wf d'.
Proof.
  do 2 eexists. split; [vm_compute; reflexivity|].
  eapply (exec_stmt_wf [Some "Foo"] (SInsert "books" ["title"] [EParam 1] None []) initial_db);
    [exact initial_db_wf | vm_compute; reflexivity].
Defined.
