(* ===== verification/Books.v ===== *)
(** * The Books collaborator

    [src/models/books.js] is not among the sources.  The store uses two of
    its functions (spec, section 6): [getBookID(title)], the id of the book
    with that title or absent, and [insertBook(title)], which creates the
    book and returns its id.  They are modelled as one query each on the
    [books] table, through the same client as the store. *)

From Stdlib Require Import String ZArith List.
From S2P Require Import Prelude Js SqlTemplate SqlValue SqlEngine Schema.
Import ListNotations.
Open Scope string_scope.
Open Scope stm_scope.

Module Books.

(** [getBookID(title)]: the id of the first book with the title, [null]
    when there is none. *)
Definition getBookID (title : jsval) : stM db js_error jsval :=
  rows <- db_query (SQL ["SELECT id FROM books WHERE title = "; ""] [title]) ;;
  match js_first rows with
  | JUndefined => sret JNull
  | r => sfrom (js_get r "id")
  end.

(** [insertBook(title)]: the id of the new book. *)
Definition insertBook (title : jsval) : stM db js_error jsval :=
  rows <- db_query (SQL ["INSERT INTO books (title) VALUES ("; ") RETURNING id"] [title]) ;;
  sfrom (js_get (js_first rows) "id").

End Books.
