(* ===== verification/Annotations.v ===== *)
(** * The annotation store: [src/models/annotations.js]

    One definition per function of the module, in the state-and-error monad
    over the database.  Each builds its statement the way the code does,
    with [SQL] pieces, [append] and [append_str] (for the plain strings the
    code appends), and sends it with [db_query].  [console.log] calls are
    output only and are left out.  An [async] function that throws rejects
    its promise: [sthrow]. *)

From Stdlib Require Import String Ascii ZArith List Lia Bool.
From S2P Require Import Prelude Js SqlText SqlTemplate SqlLexer SqlParser SqlValue SqlEngine Schema Books.
Import ListNotations.
Open Scope string_scope.
Open Scope stm_scope.

Definition nl : string := String (ascii_of_nat 10) EmptyString.

(** A double-quoted SQL identifier. *)
Definition quoted (s : string) : string := String dquote (s ++ String dquote EmptyString).

(** [querySelectCols], lines 9-12. *)
Definition querySelectCols : string :=
  " " ++ nl ++
  "  id, book_id, bookline, title, author, language, begin, " ++ quoted "end" ++ "," ++ nl ++
  "  TO_CHAR(time,  'yyyy-mm-dd-hh-mi-ss') AS time, highlight, note , page" ++ nl ++
  "  ".

(** [annosSelectQuery()]: a fresh statement at each call, since [append]
    mutates it. *)
Definition annosSelectQuery : sql_statement :=
  SQL ["SELECT " ++ querySelectCols ++ " FROM kindle_annotations"] [].

Definition all_query (limit : jsval) : sql_statement :=
  append annosSelectQuery (SQL [" LIMIT "; ""] [limit]).

(** [getAllAnnotations(limit = 50)]: the default applies to [undefined]. *)
Definition getAllAnnotations (limit : jsval) : stM db js_error jsval :=
  let limit := match limit with JUndefined => JNum 50 | _ => limit end in
  rows <- db_query (all_query limit) ;;
  sret rows.

Definition by_book_query (book_id : jsval) : sql_statement :=
  append annosSelectQuery (SQL [" WHERE book_id = "; ""] [book_id]).

Definition getAnnotationsByBookID (book_id : jsval) : stM db js_error jsval :=
  rows <- db_query (by_book_query book_id) ;;
  sret rows.

(** [getAnnotationsByBookTitle(title)] calls [getBookID], a name bound
    nowhere in the module (the Books collaborator's function is
    [Books.getBookID]): the call throws a [ReferenceError]. *)
Definition getAnnotationsByBookTitle (title : jsval) : stM db js_error jsval :=
  book_id <- sthrow (ReferenceError "getBookID") ;;
  rows <- getAnnotationsByBookID book_id ;;
  sret rows.

Definition by_id_query (annoID : jsval) : sql_statement :=
  append annosSelectQuery (SQL [" WHERE id = "; ""] [annoID]).

Definition getAnnotationByID (annoID : jsval) : stM db js_error jsval :=
  rows <- db_query (by_id_query annoID) ;;
  if negb (truthy (js_first rows)) then sret JNull
  else sret (js_first rows).

Definition matching_query (book_id end_ : jsval) : sql_statement :=
  SQL [nl ++ "  SELECT id FROM kindle_annotations" ++ nl ++ "  WHERE book_id = ";
       " AND " ++ quoted "end" ++ " = "; " " ++ nl ++ "  "]
      [book_id; end_].

Definition getMatchingAnnotationID (book_id end_ : jsval) : stM db js_error jsval :=
  rows <- db_query (matching_query book_id end_) ;;
  if negb (truthy (js_first rows)) then sret JNull
  else sfrom (js_get (js_first rows) "id").

(** The fields [addAnnotation] destructures, lines 79-82. *)
Record annotation_fields : Type := mkFields {
  f_ordernr : jsval; f_note : jsval; f_highlight : jsval; f_bookline : jsval;
  f_title : jsval; f_author : jsval; f_language : jsval; f_begin : jsval;
  f_end : jsval; f_time : jsval; f_statusline : jsval; f_page : jsval
}.

Definition destructure_annotation (a : jsval) : outcome js_error annotation_fields :=
  match a with
  | JUndefined | JNull => Err (TypeError "Cannot destructure the annotation")
  | _ =>
      let g k := match js_get a k with Ok v => v | Err _ => JUndefined end in
      Ok (mkFields (g "ordernr") (g "note") (g "highlight") (g "bookline") (g "title")
                   (g "author") (g "language") (g "begin") (g "end") (g "time")
                   (g "statusline") (g "page"))
  end.

(** The UPDATE of the matching annotation, lines 95-100: the SET pieces are
    appended without a separating comma, and the id goes into the text. *)
Definition update_query (highlight note matchID : jsval) : sql_statement :=
  let query := append (SQL [""] []) (SQL ["UPDATE kindle_annotations SET "] []) in
  let query := if truthy highlight then append query (SQL [" highlight = "; " "] [highlight]) else query in
  let query := if truthy note then append query (SQL [" note = "; " "] [note]) else query in
  append_str query (" WHERE id = " ++ js_to_string matchID).

(** The INSERT of a new annotation, lines 102-113. *)
Definition insert_query (book_id : jsval) (f : annotation_fields) : sql_statement :=
  append (SQL [""] [])
   (SQL [nl ++ "    INSERT INTO kindle_annotations" ++ nl ++
         "      (book_id, bookline, title, author, language, begin, " ++ quoted "end" ++ "," ++ nl ++
         "        time, highlight, note, statusline, page, ordernr)" ++ nl ++
         "    VALUES" ++ nl ++ "      (";
         ", "; ", "; ", "; ", "; ", "; "," ++ nl ++ "        ";
         ", "; ", "; ", "; ", "; ", "; ", ";
         nl ++ "      )" ++ nl ++ "    ON CONFLICT (id)" ++ nl ++ "    DO UPDATE SET" ++ nl ++
         "    statusline = EXCLUDED.statusline, time = EXCLUDED.time"]
        [book_id; f_bookline f; f_title f; f_author f; f_language f; f_begin f;
         f_end f; f_time f; f_highlight f; f_note f; f_statusline f; f_page f; f_ordernr f]).

(** Lines 92-116: the UPDATE or the INSERT, then [RETURNING]. *)
Definition add_query (book_id matchID : jsval) (f : annotation_fields) : sql_statement :=
  let query := if truthy matchID then update_query (f_highlight f) (f_note f) matchID
               else insert_query book_id f in
  append_str query (" RETURNING " ++ querySelectCols).

Definition addAnnotation (annotation : jsval) : stM db js_error jsval :=
  f <- sfrom (destructure_annotation annotation) ;;
  book_id <- Books.getBookID (f_title f) ;;
  book_id <- (if negb (truthy book_id) then Books.insertBook (f_title f) else sret book_id) ;;
  matchID <- getMatchingAnnotationID book_id (f_end f) ;;
  rows <- db_query (add_query book_id matchID f) ;;
  sret (js_first rows).

(** [addCalibreAnnotation]: [kind === 'highlight'] and [kind === 'note']
    are strict comparisons with string literals. *)
Definition is_js_string (v : jsval) (s : string) : bool :=
  match v with JStr s' => String.eqb s' s | _ => false end.

(** The object [addCalibreAnnotation] passes on: [{...calibreAnnotation,
    highlight, note}], lines 124-132. *)
Definition calibre_input (calibreAnnotation text kind : jsval) : jsval :=
  let highlight := if is_js_string kind "highlight" then text else JNull in
  let note := if is_js_string kind "note" then text else JNull in
  js_spread_with calibreAnnotation [("highlight", highlight); ("note", note)].

Definition addCalibreAnnotation (calibreAnnotation : jsval) : stM db js_error jsval :=
  text <- sfrom (js_get calibreAnnotation "text") ;;
  kind <- sfrom (js_get calibreAnnotation "kind") ;;
  row <- addAnnotation (calibre_input calibreAnnotation text kind) ;;
  sret row.

Definition edit_query (highlight note id : jsval) : sql_statement :=
  append_str
    (SQL [nl ++ "    UPDATE kindle_annotations" ++ nl ++ "    SET highlight = ";
          ", note = "; ", edited = TRUE" ++ nl ++ "    WHERE id = ";
          nl ++ "    RETURNING " ++ nl ++ "  "]
         [highlight; note; id]) querySelectCols.

Definition editAnnotation (annotation : jsval) : stM db js_error jsval :=
  highlight <- sfrom (js_get annotation "highlight") ;;
  note <- sfrom (js_get annotation "note") ;;
  id <- sfrom (js_get annotation "id") ;;
  rows <- db_query (edit_query highlight note id) ;;
  sret (js_first rows).

Definition delete_query (id : jsval) : sql_statement :=
  append_str (SQL [nl ++ "    DELETE FROM kindle_annotations WHERE id = "; " RETURNING "] [id])
             querySelectCols.

Definition deleteAnnotation (annotation : jsval) : stM db js_error jsval :=
  id <- sfrom (js_get annotation "id") ;;
  rows <- db_query (delete_query id) ;;
  sret (js_first rows).

Definition create_tag_query (tag : jsval) : sql_statement :=
  SQL [nl ++ "  INSERT INTO tags (tag) VALUES ("; ") RETURNING id, tag" ++ nl ++ "  "] [tag].

Definition createTag (tag : jsval) : stM db js_error jsval :=
  rows <- db_query (create_tag_query tag) ;;
  sret (js_first rows).

(** The statement puts [RETURNING] after a SELECT. *)
Definition find_tag_query (tag : jsval) : sql_statement :=
  SQL [nl ++ "    SELECT id, tag FROM tags WHERE tag = "; " RETURNING id" ++ nl ++ "  "] [tag].

Definition findTagID (tag : jsval) : stM db js_error jsval :=
  rows <- db_query (find_tag_query tag) ;;
  if negb (truthy (js_first rows)) then sret JNull
  else sfrom (js_get (js_first rows) "id").

Definition add_tag_query (annoID tagID : jsval) : sql_statement :=
  SQL [nl ++ "    INSERT INTO annotations_tags (annotation_id, tag_id)" ++ nl ++
       "    VALUES ("; ", "; ") RETURNING annotation_id, tag_id" ++ nl ++ "  "]
      [annoID; tagID].

Definition addTagToAnnotation (annoID tag : jsval) : stM db js_error jsval :=
  tagID <- findTagID tag ;;
  tagID <- (if negb (truthy tagID) then
              newTag <- createTag tag ;;
              sfrom (js_get newTag "id")
            else sret tagID) ;;
  rows <- db_query (add_tag_query annoID tagID) ;;
  sret (js_first rows).

Definition remove_tag_query (annoID tagID : jsval) : sql_statement :=
  SQL [nl ++ "    DELETE FROM annotations_tags" ++ nl ++ "    WHERE annotation_id = ";
       " AND tag_id = "; nl ++ "    RETURNING annotation_id, tag_id" ++ nl ++ "  "]
      [annoID; tagID].

Definition removeTagFromAnnotation (annoID tag : jsval) : stM db js_error jsval :=
  tagID <- findTagID tag ;;
  rows <- db_query (remove_tag_query annoID tagID) ;;
  sret (js_first rows).
