(* ===== verification/Statements.v ===== *)
(** * What the server makes of each statement of the store

    For every statement [src/models/annotations.js] builds, the syntax tree
    PostgreSQL parses its text into, whatever the parameter values (they
    travel apart from the text).  Two statements are not SQL: the UPDATE of
    [addAnnotation] unless exactly one of [highlight] and [note] is truthy
    (the SET pieces are appended with no comma between them, and with no
    piece at all when neither is given), and the SELECT of [findTagID],
    which ends with a [RETURNING] clause.  Through [addCalibreAnnotation]
    the first bites every record whose kind is neither "highlight" nor
    "note", or whose text is empty. *)

From Stdlib Require Import String Ascii ZArith List Lia Bool.
From S2P Require Import Prelude Js SqlText SqlTemplate SqlLexer SqlParser SqlValue SqlEngine Schema Books Annotations.
Import ListNotations.
Open Scope string_scope.

(** The projection [querySelectCols], as the server reads it. *)
Definition select_targets : list target :=
  [mkTarget (EColumn "id") None; mkTarget (EColumn "book_id") None;
   mkTarget (EColumn "bookline") None; mkTarget (EColumn "title") None;
   mkTarget (EColumn "author") None; mkTarget (EColumn "language") None;
   mkTarget (EColumn "begin") None; mkTarget (EColumn "end") None;
   mkTarget (ECall "to_char" [EColumn "time"; EStr "yyyy-mm-dd-hh-mi-ss"]) (Some "time");
   mkTarget (EColumn "highlight") None; mkTarget (EColumn "note") None;
   mkTarget (EColumn "page") None].

Definition inserted_columns : list string :=
  ["book_id"; "bookline"; "title"; "author"; "language"; "begin"; "end";
   "time"; "highlight"; "note"; "statusline"; "page"; "ordernr"].

Definition on_conflict_id : option (list string * conflict_action) :=
  Some (["id"], DoUpdate [("statusline", EQualified "excluded" "statusline");
                          ("time", EQualified "excluded" "time")]).

Ltac parse_closed := vm_compute; reflexivity.

(** Replace the closed lexing subterms of the goal by their values. *)
Ltac eval_lex :=
  repeat match goal with
  | |- context [lex_run ?p LStart] =>
      let v := eval vm_compute in (lex_run p LStart) in
      change (lex_run p LStart) with v
  | |- context [lex_go ?p LStart] =>
      let v := eval vm_compute in (lex_go p LStart) in
      change (lex_go p LStart) with v
  end; cbv beta iota.

Lemma all_query_parses lim :
  parse_sql (text (all_query lim)) =
  Ok (SSelect select_targets "kindle_annotations" [] (Some (EParam 1))).
Proof. parse_closed. Qed.

Lemma by_book_query_parses b :
  parse_sql (text (by_book_query b)) =
  Ok (SSelect select_targets "kindle_annotations" [("book_id", EParam 1)] None).
Proof. parse_closed. Qed.

Lemma by_id_query_parses i :
  parse_sql (text (by_id_query i)) =
  Ok (SSelect select_targets "kindle_annotations" [("id", EParam 1)] None).
Proof. parse_closed. Qed.

Lemma matching_query_parses b e :
  parse_sql (text (matching_query b e)) =
  Ok (SSelect [mkTarget (EColumn "id") None] "kindle_annotations"
              [("book_id", EParam 1); ("end", EParam 2)] None).
Proof. parse_closed. Qed.

Lemma edit_query_parses h n i :
  parse_sql (text (edit_query h n i)) =
  Ok (SUpdate "kindle_annotations" [("highlight", EParam 1); ("note", EParam 2); ("edited", EBool true)]
              [("id", EParam 3)] select_targets).
Proof. parse_closed. Qed.

Lemma delete_query_parses i :
  parse_sql (text (delete_query i)) =
  Ok (SDelete "kindle_annotations" [("id", EParam 1)] select_targets).
Proof. parse_closed. Qed.

Lemma create_tag_query_parses t :
  parse_sql (text (create_tag_query t)) =
  Ok (SInsert "tags" ["tag"] [EParam 1] None [mkTarget (EColumn "id") None; mkTarget (EColumn "tag") None]).
Proof. parse_closed. Qed.

Lemma add_tag_query_parses a t :
  parse_sql (text (add_tag_query a t)) =
  Ok (SInsert "annotations_tags" ["annotation_id"; "tag_id"] [EParam 1; EParam 2] None
              [mkTarget (EColumn "annotation_id") None; mkTarget (EColumn "tag_id") None]).
Proof. parse_closed. Qed.

Lemma remove_tag_query_parses a t :
  parse_sql (text (remove_tag_query a t)) =
  Ok (SDelete "annotations_tags" [("annotation_id", EParam 1); ("tag_id", EParam 2)]
              [mkTarget (EColumn "annotation_id") None; mkTarget (EColumn "tag_id") None]).
Proof. parse_closed. Qed.

(** The INSERT branch of [addAnnotation] (no matching annotation). *)
Lemma add_query_insert_parses b m f : truthy m = false ->
  parse_sql (text (add_query b m f)) =
  Ok (SInsert "kindle_annotations" inserted_columns
              (map EParam [1; 2; 3; 4; 5; 6; 7; 8; 9; 10; 11; 12; 13]%Z)
              on_conflict_id select_targets).
Proof. intros Hm. unfold add_query. rewrite Hm. parse_closed. Qed.

(** ** The UPDATE branch of [addAnnotation] *)

Lemma truthy_pos z : (0 < z)%Z -> truthy (JNum z) = true.
Proof. intros Hz. simpl. apply negb_true_iff, Z.eqb_neq. lia. Qed.

(** Lex the UPDATE of [addAnnotation] piece by piece: its fixed prefix,
    the printed id, and its fixed suffix. *)
Ltac update_parse Hz :=
  unfold parse_sql, lex, add_query; rewrite (truthy_pos _ (proj1 Hz));
  unfold update_query; rewrite !text_append_str; cbn [js_to_string];
  change (" RETURNING " ++ querySelectCols) with (String " " ("RETURNING " ++ querySelectCols));
  rewrite !string_app_assoc, <- (string_app_assoc (text _) " WHERE id = ");
  destruct (truthy (f_highlight _)), (truthy (f_note _));
    rewrite lex_go_app; eval_lex; rewrite lex_go_number_blank by lia; eval_lex;
    vm_compute; reflexivity.

(** C1: the statement [addAnnotation] sends when an annotation with the same
    book and end exists ([matchID], a positive id below [10^21], which the
    template prints in decimal; it is an [int4]) is SQL only when exactly
    one of [highlight] and [note] is truthy; with both, the two SET pieces
    are not separated by a comma, and with neither the SET list is empty:
    both are syntax errors. *)
Theorem add_query_update_parse b z f : (0 < z < exp_threshold)%Z ->
  parse_sql (text (add_query b (JNum z) f)) =
  match truthy (f_highlight f), truthy (f_note f) with
  | true, false => Ok (SUpdate "kindle_annotations" [("highlight", EParam 1)] [("id", ENum z)] select_targets)
  | false, true => Ok (SUpdate "kindle_annotations" [("note", EParam 1)] [("id", ENum z)] select_targets)
  | _, _ => Err syntax_error
  end.
Proof. intros Hz. update_parse Hz. Qed.

Lemma add_query_update_parse_witness :
  (0 < 7 < exp_threshold)%Z /\
  parse_sql (text (add_query JNull (JNum 7)
    (mkFields JUndefined (JStr "a note") (JStr "a highlight") JUndefined (JStr "Foo") JUndefined
              JUndefined JUndefined (JNum 20) JUndefined JUndefined JUndefined))) = Err syntax_error.
Proof.
  split; [split; [lia | reflexivity]|]. rewrite (add_query_update_parse JNull 7); [reflexivity | split; [lia | reflexivity]].
Defined.

(** The parse of the UPDATE of [addAnnotation], for the proofs that build
    on it. *)
Lemma add_query_update_cases b z f : (0 < z < exp_threshold)%Z ->
  parse_sql (text (add_query b (JNum z) f)) =
  match truthy (f_highlight f), truthy (f_note f) with
  | true, false => Ok (SUpdate "kindle_annotations" [("highlight", EParam 1)] [("id", ENum z)] select_targets)
  | false, true => Ok (SUpdate "kindle_annotations" [("note", EParam 1)] [("id", ENum z)] select_targets)
  | _, _ => Err syntax_error
  end.
Proof. intros Hz. update_parse Hz. Qed.

(** ** Calibre imports *)

Lemma calibre_fields c text kind :
  exists f, destructure_annotation (calibre_input c text kind) = Ok f /\
            f_highlight f = (if is_js_string kind "highlight" then text else JNull) /\
            f_note f = (if is_js_string kind "note" then text else JNull).
Proof.
  eexists. split; [reflexivity|]. cbn [f_highlight f_note].
  unfold calibre_input, js_spread_with, js_get. cbn [fold_left fst snd].
  rewrite (assoc_get_set_ne "note" "highlight") by discriminate.
  rewrite !assoc_get_set_eq. split; reflexivity.
Qed.

(** C16: re-importing a Calibre record onto an annotation that exists
    (a positive [matchID], printed in decimal: below [10^21]; it is an
    [int4], [Ids.matchID_positive_int4]): the UPDATE [addCalibreAnnotation] sends is
    valid SQL exactly when the record's [kind] is "highlight" or "note"
    and its [text] is not empty; any other record makes it a syntax
    error. *)
Theorem calibre_update_valid c s k b z : (0 < z < exp_threshold)%Z ->
  exists f, destructure_annotation (calibre_input c (JStr s) (JStr k)) = Ok f /\
  ((exists st, parse_sql (text (add_query b (JNum z) f)) = Ok st) <->
   ((k = "highlight" \/ k = "note") /\ s <> "")).
Proof.
  intros Hz. destruct (calibre_fields c (JStr s) (JStr k)) as [f [Hd [Hh Hn]]].
  exists f. split; [exact Hd|]. rewrite (add_query_update_cases b z f Hz), Hh, Hn.
  unfold is_js_string. cbn [truthy].
  destruct (String.eqb_spec k "highlight") as [->|Hk1]; [|destruct (String.eqb_spec k "note") as [->|Hk2]];
    simpl; destruct (String.eqb_spec s ""); simpl;
    split; try (intros [st Hst]; discriminate); try (intros [[H|H] H']; congruence);
    intros; eauto; tauto.
Qed.

(** A record of kind "bookmark" cannot be re-imported. *)
Lemma calibre_update_valid_witness :
  (0 < 1 < exp_threshold)%Z /\
  exists f, destructure_annotation (calibre_input (JObj []) (JStr "t") (JStr "bookmark")) = Ok f /\
            ~ (exists st, parse_sql (text (add_query JNull (JNum 1) f)) = Ok st).
Proof.
  split; [split; [lia | reflexivity]|].
  destruct (calibre_update_valid (JObj []) "t" "bookmark" JNull 1) as [f [Hd Hiff]]; [split; [lia | reflexivity]|].
  exists f. split; [exact Hd|]. rewrite Hiff. intros [[H|H] _]; discriminate.
Defined.
