(* ===== verification/Routes.v ===== *)
(** * The HTTP facade: [src/routes/api/annotations.js]

    An Express router with three GET routes, tried in the order they are
    registered.  A route path is matched as path-to-regexp does with
    Express's defaults: one segment per [/], a parameter matches one
    non-empty segment, literal segments compare case-insensitively, one
    trailing slash is allowed.  A request no route matches goes on to the
    next handler of the application ([None]); the application is not part
    of the sources.  Percent-decoding of parameters is not modelled (the
    segments are taken as they are).

    A handler calls the store and answers with [res.json(result)] (status
    200, the body [JSON.stringify(result)], empty when that is
    [undefined]) or, when the promise is rejected, with
    [res.status(404).json(body)]. *)

From Stdlib Require Import String Ascii ZArith List Lia Bool.
From S2P Require Import Prelude Js SqlText SqlValue SqlEngine Annotations.
Import ListNotations.
Open Scope string_scope.

Record response : Type := mkResponse { status : Z; body : string }.

(** [res.status(code).json(v)]. *)
Definition res_json (code : Z) (v : jsval) : response :=
  mkResponse code (match json_stringify v with Some s => s | None => "" end).

Inductive seg_pat : Type := PLit (s : string) | PParam (name : string).

(** Split [/a/b] into its segments; one trailing slash is dropped. *)
Fixpoint split_segs (s : string) (cur : string) : list string :=
  match s with
  | EmptyString => [cur]
  | String c s' => if Ascii.eqb c "/" then cur :: split_segs s' EmptyString
                   else split_segs s' (cur ++ String c EmptyString)
  end.

Definition path_segments (path : string) : option (list string) :=
  match path with
  | String "/" rest =>
      match rev (split_segs rest EmptyString) with
      | [""] => Some []
      | "" :: segs => Some (rev segs)
      | segs => Some (rev segs)
      end
  | _ => None
  end.

Fixpoint match_segs (pat : list seg_pat) (segs : list string) : option (list (string * string)) :=
  match pat, segs with
  | [], [] => Some []
  | PLit l :: pat', s :: segs' =>
      if String.eqb (lower l) (lower s) then match_segs pat' segs' else None
  | PParam n :: pat', s :: segs' =>
      if String.eqb s "" then None
      else match match_segs pat' segs' with
           | Some ps => Some ((n, s) :: ps)
           | None => None
           end
  | _, _ => None
  end.

(** [req.params.id], a string. *)
Definition param (ps : list (string * string)) (n : string) : jsval :=
  match assoc_get n ps with Some s => JStr s | None => JUndefined end.

(** [promise.then(v => res.json(v)).catch(err => res.status(404).json(b))]. *)
Definition respond (call : stM db js_error jsval) (not_found : jsval) (d : db) : response * db :=
  match call d with
  | (Ok v, d') => (res_json 200 v, d')
  | (Err _, d') => (res_json 404 not_found, d')
  end.

(** Lines 8-15: [GET /]. *)
Definition get_root (ps : list (string * string)) : db -> response * db :=
  respond (getAllAnnotations JUndefined)
          (JObj [("noAnnotationsFound", JStr "No Annotations Found")]).

(** Lines 17-23: [GET /:id]. *)
Definition get_by_id (ps : list (string * string)) : db -> response * db :=
  respond (getAnnotationByID (param ps "id"))
          (JObj [("noAnnotationFound", JStr "No Annotation with ID Found")]).

(** Lines 25-31: [GET /bookID/:id]. *)
Definition get_by_book (ps : list (string * string)) : db -> response * db :=
  respond (getAnnotationsByBookID (param ps "id"))
          (JObj [("noAnnotationsFound", JStr "No Annotations Associated with Book ID found")]).

(** The router, in registration order. *)
Definition routes : list (list seg_pat * (list (string * string) -> db -> response * db)) :=
  [([], get_root);
   ([PParam "id"], get_by_id);
   ([PLit "bookID"; PParam "id"], get_by_book)].

Fixpoint dispatch (rs : list (list seg_pat * (list (string * string) -> db -> response * db)))
         (segs : list string) (d : db) : option (response * db) :=
  match rs with
  | [] => None
  | (pat, h) :: rs' =>
      match match_segs pat segs with
      | Some ps => Some (h ps d)
      | None => dispatch rs' segs d
      end
  end.

(** A GET request on the router. *)
Definition router_get (path : string) (d : db) : option (response * db) :=
  match path_segments path with
  | Some segs => dispatch routes segs d
  | None => None
  end.
