(* ===== verification/StoreFacts.v ===== *)
(** * Theorems about the store's operations

    - Every operation of [src/models/annotations.js] keeps the database well
      formed, whether it resolves or rejects (the database is the only state
      and a rejected call may have written part of its effects).
    - [findTagID] sends [SELECT ... WHERE tag = $1 RETURNING id], which the
      server refuses; so [getAnnotationsByBookTitle], [addTagToAnnotation] and
      [removeTagFromAnnotation] always reject, and change nothing. *)

From Stdlib Require Import String Ascii ZArith List Lia Bool.
From S2P Require Import Prelude Js SqlText SqlTemplate SqlLexer SqlParser SqlValue SqlEngine EngineFacts Schema Books Annotations Statements.
Import ListNotations.
Open Scope string_scope.

(** ** Keeping an invariant

    The operations change the database only through [db_query]: a property
    of databases that every query keeps is kept by every operation, on
    every path, resolved or rejected. *)

(** What every operation of the store keeps. *)
Definition every_operation_preserves (P : forall {A}, stM db js_error A -> Prop) : Prop :=
  (forall l, P (getAllAnnotations l)) /\
  (forall b, P (getAnnotationsByBookID b)) /\
  (forall t, P (getAnnotationsByBookTitle t)) /\
  (forall i, P (getAnnotationByID i)) /\
  (forall a, P (addAnnotation a)) /\
  (forall c, P (addCalibreAnnotation c)) /\
  (forall a, P (editAnnotation a)) /\
  (forall a, P (deleteAnnotation a)) /\
  (forall a t, P (addTagToAnnotation a t)) /\
  (forall a t, P (removeTagFromAnnotation a t)).

Create HintDb store discriminated.

Section Preservation.

Variable Inv : db -> Prop.
Hypothesis Inv_query : forall q d, Inv d -> Inv (snd (db_query q d)).

Definition preserves {A} (m : stM db js_error A) : Prop :=
  forall d, Inv d -> Inv (snd (m d)).

Lemma preserves_ret {A} (a : A) : preserves (sret a).
Proof. intros d H. exact H. Qed.

Lemma preserves_throw {A} e : preserves (@sthrow db js_error A e).
Proof. intros d H. exact H. Qed.

Lemma preserves_from {A} (o : outcome js_error A) : preserves (sfrom o).
Proof. intros d H. exact H. Qed.

Lemma preserves_bind {A B} (m : stM db js_error A) (k : A -> stM db js_error B) :
  preserves m -> (forall a, preserves (k a)) -> preserves (sbind m k).
Proof.
  intros Hm Hk d Hd. unfold sbind. specialize (Hm d Hd).
  destruct (m d) as [[a|e] d']; simpl in *; [apply Hk | ]; exact Hm.
Qed.

Lemma preserves_if {A} (b : bool) (m1 m2 : stM db js_error A) :
  preserves m1 -> preserves m2 -> preserves (if b then m1 else m2).
Proof. destruct b; auto. Qed.

Lemma preserves_db_query q : preserves (db_query q).
Proof. intros d Hd. apply Inv_query. exact Hd. Qed.

(** Decompose a computation into its binds, branches and queries; named
    operations are looked up in [store]. *)
Ltac preserve_step :=
  match goal with
  | |- preserves (sbind _ _) => apply preserves_bind; intros
  | |- preserves (if _ then _ else _) => apply preserves_if
  | |- preserves (match ?x with _ => _ end) => destruct x
  | |- preserves (sret _) => apply preserves_ret
  | |- preserves (sthrow _) => apply preserves_throw
  | |- preserves (sfrom _) => apply preserves_from
  | |- preserves (db_query _) => apply preserves_db_query
  | |- preserves _ => solve [auto with store]
  end.

Ltac preserve := repeat (cbv zeta; preserve_step).

Lemma preserves_getBookID t : preserves (Books.getBookID t).
Proof. unfold Books.getBookID. preserve. Qed.

Lemma preserves_insertBook t : preserves (Books.insertBook t).
Proof. unfold Books.insertBook. preserve. Qed.

Lemma preserves_getMatchingAnnotationID b e : preserves (getMatchingAnnotationID b e).
Proof. unfold getMatchingAnnotationID. preserve. Qed.

#[local] Hint Resolve preserves_getBookID preserves_insertBook preserves_getMatchingAnnotationID : store.

Lemma preserves_addAnnotation a : preserves (addAnnotation a).
Proof. unfold addAnnotation. preserve. Qed.

Lemma preserves_getAnnotationsByBookID b : preserves (getAnnotationsByBookID b).
Proof. unfold getAnnotationsByBookID. preserve. Qed.

Lemma preserves_findTagID t : preserves (findTagID t).
Proof. unfold findTagID. preserve. Qed.

Lemma preserves_createTag t : preserves (createTag t).
Proof. unfold createTag. preserve. Qed.

#[local] Hint Resolve preserves_addAnnotation preserves_getAnnotationsByBookID
  preserves_findTagID preserves_createTag : store.

Lemma preserves_addCalibreAnnotation c : preserves (addCalibreAnnotation c).
Proof. unfold addCalibreAnnotation. preserve. Qed.

Lemma operations_preserve : every_operation_preserves (@preserves).
Proof.
  repeat split;
    [intros l | intros b | intros t | intros i | intros a | intros c | intros a | intros a
    | intros a t | intros a t];
    unfold getAllAnnotations, getAnnotationsByBookID, getAnnotationsByBookTitle,
      getAnnotationByID, addCalibreAnnotation, editAnnotation, deleteAnnotation,
      addTagToAnnotation, removeTagFromAnnotation; preserve.
Qed.

End Preservation.

(** Every query keeps the database well formed. *)
Lemma db_query_wf q d : db_wf d -> db_wf (snd (db_query q d)).
Proof.
  intros Hd. unfold db_query, slift, run_sql.
  destruct (parse_sql (text q)) as [st|]; [|exact Hd].
  destruct (exec_stmt _ st d) as [[out d']|] eqn:E; [|exact Hd].
  eapply exec_stmt_wf; eauto.
Qed.

(** Every operation of the annotation store keeps the database well
    formed, whether its promise resolves or is rejected. *)
Theorem store_operations_preserve_wf : every_operation_preserves (@preserves db_wf).
Proof. apply operations_preserve, db_query_wf. Qed.

(** ** Operations that always reject *)

(** A statement the server cannot parse rejects the promise with the
    parser's error and changes nothing. *)
Lemma db_query_parse_error q e d : parse_sql (text q) = Err e -> db_query q d = (Err (PgError e), d).
Proof. intros H. unfold db_query, slift, run_sql. rewrite H. reflexivity. Qed.

(** C2: as a consequence, attaching a tag to an annotation never works:
    [addTagToAnnotation] rejects with the syntax error of [findTagID] before
    creating the tag or the association, and so does
    [removeTagFromAnnotation]. *)
Theorem tag_helpers_rejected a tag d :
  addTagToAnnotation a tag d = (Err (PgError syntax_error), d) /\
  removeTagFromAnnotation a tag d = (Err (PgError syntax_error), d).
Proof.
  assert (Hf : findTagID tag d = (Err (PgError syntax_error), d)).
  { unfold findTagID. apply sbind_err, db_query_parse_error. parse_closed. }
  unfold addTagToAnnotation, removeTagFromAnnotation.
  split; rewrite (sbind_err _ _ _ _ _ Hf); reflexivity.
Qed.

(** [getAnnotationsByBookTitle] calls [getBookID], which the module
    never binds: it rejects with a [ReferenceError] and reads nothing, so
    the spec's equation with [getAnnotationsByBookID] never holds. *)
Theorem getAnnotationsByBookTitle_rejected t d :
  getAnnotationsByBookTitle t d = (Err (ReferenceError "getBookID"), d).
Proof. reflexivity. Qed.
