(* ===== verification/ReadFacts.v ===== *)
(** * The reads of the store

    The projection [querySelectCols] turns a stored annotation into the
    object the store returns ([project]: twelve columns, the timestamp
    printed by [to_char]).  The lookups of the store are specified against
    the rows of [kindle_annotations]: what each returns on every branch,
    errors included, and that a read leaves the database as it was. *)

From Stdlib Require Import String Ascii ZArith List Lia Bool.
From S2P Require Import Prelude Js SqlText SqlTemplate SqlLexer SqlParser SqlValue SqlEngine EngineFacts Schema Books Annotations Statements StoreFacts.
Import ListNotations.
Open Scope string_scope.

Definition time_format : string := "yyyy-mm-dd-hh-mi-ss".

(** The row of the projection of a stored annotation. *)
Definition project (r : row) : row :=
  [("id", cell r "id"); ("book_id", cell r "book_id"); ("bookline", cell r "bookline");
   ("title", cell r "title"); ("author", cell r "author"); ("language", cell r "language");
   ("begin", cell r "begin"); ("end", cell r "end");
   ("time", match cell r "time" with VTime t => VText (to_char t time_format) | _ => VNull end);
   ("highlight", cell r "highlight"); ("note", cell r "note"); ("page", cell r "page")].

(** The database has a well-formed annotation table with the schema's
    columns. *)
Definition annotation_schema (t : table) : Prop :=
  tbl_cols t = annotation_columns /\ tbl_serial t = Some "id" /\ tbl_unique t = [["id"]].

Definition store_wf (d : db) : Prop :=
  db_wf d /\ exists t, find_table "kindle_annotations" d = Some t /\ annotation_schema t.

Definition annotation_rows (d : db) : list row :=
  match find_table "kindle_annotations" d with Some t => tbl_rows t | None => [] end.

(** [c = z] holds of the row. *)
Definition col_is (c : string) (z : Z) (r : row) : bool :=
  match sql_eq (cell r c) (VInt z) with Some true => true | _ => false end.

(** The objects a projection SELECT returns. *)
Definition projected (rs : list row) : jsval := JArr (map (fun r => js_of_row (project r)) rs).

Lemma store_wf_table d : store_wf d ->
  exists t, find_table "kindle_annotations" d = Some t /\ tbl_cols t = annotation_columns /\
            table_wf t /\ annotation_rows d = tbl_rows t.
Proof.
  intros [Hd [t [Ht [Hc _]]]]. exists t. unfold annotation_rows. rewrite Ht.
  split; [reflexivity|]. split; [exact Hc|]. split; [|reflexivity].
  eapply Forall_forall; [exact Hd | eapply find_table_in; eauto].
Qed.

Lemma annotation_col_type t c : tbl_cols t = annotation_columns ->
  col_type_of t c = match find (fun col => String.eqb (col_name col) c) annotation_columns with
                    | Some col => Ok (col_type col)
                    | None => Err undefined_column
                    end.
Proof. intros H. unfold col_type_of. rewrite H. reflexivity. Qed.

Lemma time_cell r : row_wf annotation_columns r ->
  cell r "time" = VNull \/ exists t, cell r "time" = VTime t.
Proof.
  intros Hr. destruct (row_wf_lookup _ r "time" (mkColumn "time" TTimestamp) Hr eq_refl) as [v [Hv Hty]].
  unfold cell. rewrite Hv. destruct v; simpl in Hty; try discriminate; eauto.
Qed.

Lemma eval_targets_project params r :
  row_wf annotation_columns r -> eval_targets params r select_targets = Ok (project r).
Proof.
  intros Hr. unfold eval_targets, select_targets. cbn [omap eval_expr t_expr target_name t_alias].
  repeat match goal with
  | |- context [lookup_col r ?c] =>
      rewrite (lookup_col_wf annotation_columns r c Hr) by (simpl; tauto)
  end.
  unfold project. destruct (time_cell r Hr) as [-> | [t ->]]; reflexivity.
Qed.

Lemma output_project params rs :
  Forall (row_wf annotation_columns) rs -> output params select_targets rs = Ok (map project rs).
Proof.
  induction 1 as [|r rs Hr _ IH]; [reflexivity|].
  unfold output in *. simpl. rewrite eval_targets_project, IH by exact Hr. reflexivity.
Qed.

Lemma run_sql_select q d t tgts w lim :
  parse_sql (text q) = Ok (SSelect tgts "kindle_annotations" w lim) ->
  find_table "kindle_annotations" d = Some t ->
  run_sql q d =
  match bind_params (map prepareValue (values q)) t (SSelect tgts "kindle_annotations" w lim) with
  | Err e => Err e
  | Ok _ => match exec_select (map prepareValue (values q)) t tgts w lim with
            | Ok out => Ok (out, d)
            | Err e => Err e
            end
  end.
Proof. intros Hp Ht. unfold run_sql. rewrite Hp. unfold exec_stmt. simpl. rewrite Ht. reflexivity. Qed.

Lemma db_query_run q d :
  db_query q d = match run_sql q d with
                 | Ok (out, d') => (Ok (JArr (map js_of_row out)), d')
                 | Err e => (Err (PgError e), d)
                 end.
Proof. unfold db_query, slift. destruct (run_sql q d) as [[out d']|e]; reflexivity. Qed.

Lemma annotation_rows_wf d t : store_wf d -> find_table "kindle_annotations" d = Some t ->
  Forall (row_wf annotation_columns) (annotation_rows d).
Proof.
  intros Hwf _. destruct (store_wf_table d Hwf) as [t' [_ [Hc [Htw ->]]]].
  rewrite <- Hc. apply (twf_rows _ Htw).
Qed.

Lemma filter_rows_nil params t rs : filter_rows params t [] rs = Ok rs.
Proof. induction rs as [|r rs IH]; simpl; [|rewrite IH]; reflexivity. Qed.

(** The SELECT of the projection filtered on an [integer] column compared
    with one string parameter: the server converts the parameter first,
    then keeps the rows whose column equals it, in table order. *)
Lemma select_int_col d q c s :
  store_wf d ->
  find (fun col => String.eqb (col_name col) c) annotation_columns = Some (mkColumn c TInt4) ->
  parse_sql (text q) = Ok (SSelect select_targets "kindle_annotations" [(c, EParam 1)] None) ->
  map prepareValue (values q) = [Some s] ->
  db_query q d =
  (match int4in s with
   | Err e => Err (PgError e)
   | Ok z => Ok (projected (filter (col_is c z) (annotation_rows d)))
   end, d).
Proof.
  intros Hwf Hc Hp Hv. destruct (store_wf_table d Hwf) as [t [Ht [Hcols [Htw Hrows]]]].
  rewrite db_query_run, (run_sql_select _ d t _ _ _ Hp Ht), Hv.
  unfold bind_params, param_uses, col_context. cbn [map app fst snd].
  rewrite (annotation_col_type t c Hcols), Hc. simpl.
  unfold int4in. destruct (pg_strtoint int4_min int4_max s) as [z|e] eqn:Hz; [|reflexivity].
  unfold exec_select.
  rewrite (filter_rows_ok _ t _ _ (col_is c z)).
  2:{ intros r Hin. erewrite where_single; [reflexivity | | |].
      - rewrite (annotation_col_type t c Hcols), Hc. reflexivity.
      - eapply Forall_forall; [apply (twf_rows _ Htw) | exact Hin].
      - simpl. unfold int4in. rewrite Hz. reflexivity. }
  rewrite output_project.
  2:{ apply Forall_forall. intros r Hin. apply filter_In in Hin as [Hin _].
      rewrite <- Hcols. eapply Forall_forall; [apply (twf_rows _ Htw) | exact Hin]. }
  rewrite Hrows. unfold projected. rewrite map_map. reflexivity.
Qed.

(** The SELECT of the projection with [LIMIT $1] bound to a number: the
    server reads the parameter's text as a [bigint] (out of range is an
    error, [22003] for decimal text and [22P02] for the exponent form), a
    negative count is an error, otherwise the first [n] rows. *)
Lemma select_limit d q n :
  store_wf d ->
  parse_sql (text q) = Ok (SSelect select_targets "kindle_annotations" [] (Some (EParam 1))) ->
  values q = [JNum n] ->
  db_query q d =
  (if (int8_min <=? n)%Z && (n <=? int8_max)%Z then
     if (n <? 0)%Z then Err (PgError invalid_row_count_in_limit)
     else Ok (projected (firstn (Z.to_nat n) (annotation_rows d)))
   else Err (PgError (printed_range_error n)), d).
Proof.
  intros Hwf Hp Hv. destruct (store_wf_table d Hwf) as [t [Ht [Hcols [Htw Hrows]]]].
  rewrite db_query_run, (run_sql_select _ d t _ _ _ Hp Ht), Hv.
  unfold bind_params, exec_select. cbn -[int8_min int8_max]. unfold int8in.
  rewrite pg_strtoint_number_to_string by apply int8_in_threshold.
  destruct ((int8_min <=? n)%Z && (n <=? int8_max)%Z); simpl; [|reflexivity].
  rewrite filter_rows_nil. destruct (n <? 0)%Z; [reflexivity|].
  rewrite output_project.
  - rewrite Hrows. unfold projected. rewrite map_map. reflexivity.
  - apply Forall_firstn. rewrite <- Hcols. apply (twf_rows _ Htw).
Qed.

(** C3: [getAnnotationByID] with the route's string parameter: when the
    text is not an [integer] the promise is rejected with PostgreSQL's
    conversion error, whatever the table holds; otherwise it resolves to the
    projection of the first annotation with that id, or to [null] when there
    is none.  The database is unchanged. *)
Theorem getAnnotationByID_spec d s : store_wf d ->
  getAnnotationByID (JStr s) d =
  (match int4in s with
   | Err e => Err (PgError e)
   | Ok z => Ok (match filter (col_is "id" z) (annotation_rows d) with
                 | r :: _ => js_of_row (project r)
                 | [] => JNull
                 end)
   end, d).
Proof.
  intros Hwf. unfold getAnnotationByID, sbind at 1.
  rewrite (select_int_col d _ "id" s Hwf eq_refl (by_id_query_parses (JStr s)) eq_refl).
  destruct (int4in s); [destruct (filter _ _)|]; reflexivity.
Qed.

Lemma store_wf_initial : store_wf initial_db.
Proof. split; [exact initial_db_wf | exists kindle_annotations; repeat split]. Qed.

(** The annotation of the comment at lines 51-67 of
    [src/models/annotations.js], as Calibre hands it over. *)
Definition sample_annotation : jsval :=
  JObj [("kind", JStr "highlight"); ("end", JNum 1080);
        ("bookline", JStr "The Worldly Philosophers (Heilbroner, Robert L.)");
        ("language", JStr "en"); ("author", JStr "Heilbroner, Robert L.");
        ("text", JStr "In a sense the vision of Adam Smith is a testimony to the ");
        ("statusline", JStr "Your Highlight on Location 1077-1080 | Added on Saturday, February 15, 2020 1:19:41 AM");
        ("title", JStr "The Worldly Philosophers"); ("begin", JNum 1077);
        ("time", JStr "2020-02-15 01:19:41"); ("ordernr", JNum 8363); ("page", JNull)].

(** A fresh database after [addCalibreAnnotation(sample_annotation)]. *)
Definition sample_db : db := snd (addCalibreAnnotation sample_annotation initial_db).

Lemma sample_db_wf : store_wf sample_db.
Proof.
  split; [exact (preserves_addCalibreAnnotation db_wf db_query_wf _ _ initial_db_wf)|].
  exists (match find_table "kindle_annotations" sample_db with Some t => t | None => kindle_annotations end).
  split; [|split; [|split]]; vm_compute; reflexivity.
Qed.

Lemma getAnnotationByID_spec_witness :
  store_wf initial_db /\ getAnnotationByID (JStr "999999") initial_db = (Ok JNull, initial_db).
Proof.
  split; [exact store_wf_initial|].
  rewrite (getAnnotationByID_spec initial_db "999999" store_wf_initial). vm_compute. reflexivity.
Defined.

(** C4: [getAllAnnotations()] resolves to the first fifty annotations in
    table order (the default [limit = 50]); with a number [n] it resolves
    to the first [n], is rejected when [n] is negative, and when [n] is not
    a [bigint] the server's conversion of the parameter rejects it: with
    [22003] (out of range) while [n] prints in decimal, with [22P02]
    (invalid text) once JavaScript prints it as ["1e+21"].  The database
    is unchanged. *)
Theorem getAllAnnotations_spec d : store_wf d ->
  getAllAnnotations JUndefined d = (Ok (projected (firstn 50 (annotation_rows d))), d) /\
  forall n, getAllAnnotations (JNum n) d =
    (if (int8_min <=? n)%Z && (n <=? int8_max)%Z then
       if (n <? 0)%Z then Err (PgError invalid_row_count_in_limit)
       else Ok (projected (firstn (Z.to_nat n) (annotation_rows d)))
     else Err (PgError (printed_range_error n)), d).
Proof.
  intros Hwf. unfold getAllAnnotations. split; [|intros n]; unfold sbind at 1;
    rewrite (select_limit d _ _ Hwf (all_query_parses _) eq_refl); [reflexivity|].
  destruct (_ && _)%bool; [destruct (n <? 0)%Z|]; reflexivity.
Qed.

Lemma getAllAnnotations_spec_witness :
  store_wf sample_db /\
  fst (getAllAnnotations JUndefined sample_db) = Ok (projected (annotation_rows sample_db)).
Proof.
  split; [exact sample_db_wf|].
  rewrite (proj1 (getAllAnnotations_spec sample_db sample_db_wf)). reflexivity.
Defined.

(** C5: [getAnnotationsByBookID] with a string id: rejected with the
    conversion error when the text is not an [integer], otherwise the
    projections of the annotations of that book, in table order.  The
    database is unchanged. *)
Theorem getAnnotationsByBookID_spec d s : store_wf d ->
  getAnnotationsByBookID (JStr s) d =
  (match int4in s with
   | Err e => Err (PgError e)
   | Ok z => Ok (projected (filter (col_is "book_id" z) (annotation_rows d)))
   end, d).
Proof.
  intros Hwf. unfold getAnnotationsByBookID, sbind at 1.
  rewrite (select_int_col d _ "book_id" s Hwf eq_refl (by_book_query_parses (JStr s)) eq_refl).
  destruct (int4in s); reflexivity.
Qed.

Lemma getAnnotationsByBookID_spec_witness :
  store_wf sample_db /\
  fst (getAnnotationsByBookID (JStr "1") sample_db) = Ok (projected (annotation_rows sample_db)).
Proof.
  split; [exact sample_db_wf|].
  rewrite (getAnnotationsByBookID_spec sample_db "1" sample_db_wf). vm_compute. reflexivity.
Defined.

(** ** The printed time *)

Definition with_hour (t : timestamp) (h : Z) : timestamp :=
  mkTimestamp (ts_year t) (ts_month t) (ts_day t) h (ts_minute t) (ts_second t).

Lemma to_char_time_format t :
  to_char t time_format =
  pad 4 (ts_year t) ++ "-" ++ pad 2 (ts_month t) ++ "-" ++ pad 2 (ts_day t) ++ "-" ++
  pad 2 (hour12 (ts_hour t)) ++ "-" ++ pad 2 (ts_minute t) ++ "-" ++ pad 2 (ts_second t).
Proof. rewrite <- (string_app_nil_r (pad 2 (ts_second t))). reflexivity. Qed.

Lemma hour12_add_12 h : hour12 (h + 12) = hour12 h.
Proof.
  unfold hour12. replace ((h + 12) mod 12)%Z with (h mod 12)%Z; [reflexivity|].
  rewrite <- Z.add_mod_idemp_r by lia. rewrite Z.mod_same by lia. rewrite Z.add_0_r. reflexivity.
Qed.

(** C11: the [time] the store returns is [to_char(time,
    'yyyy-mm-dd-hh-mi-ss')], whose [hh] is the hour on a 12-hour clock
    with no AM/PM marker: an annotation made at hour [h] and the same
    annotation twelve hours later project to the same object. *)
Theorem time_column_12_hour r t : (0 <= ts_hour t < 12)%Z ->
  project (assoc_set "time" (VTime t) r) =
  project (assoc_set "time" (VTime (with_hour t (ts_hour t + 12))) r).
Proof.
  intros _. unfold project, cell. rewrite !assoc_get_set_eq.
  rewrite !to_char_time_format. simpl ts_hour. rewrite hour12_add_12.
  repeat match goal with
  | |- context [assoc_get ?c (assoc_set "time" _ r)] =>
      rewrite (assoc_get_set_ne "time" c) by discriminate
  end.
  reflexivity.
Qed.

Lemma time_column_12_hour_witness :
  let t := mkTimestamp 2020 2 15 1 19 41 in
  (0 <= ts_hour t < 12)%Z /\
  project (assoc_set "time" (VTime t) []) =
  project (assoc_set "time" (VTime (with_hour t (ts_hour t + 12))) []).
Proof.
  intros t. split; [simpl; lia|]. apply (time_column_12_hour [] t). simpl; lia.
Defined.
