(* ===== verification/RouteFacts.v ===== *)
(** * What the routes answer

    The router of [src/routes/api/annotations.js] on a well-formed store:
    which route a path reaches, and the status and body of the answer,
    from the specifications of the store's reads.  An integer id that
    matches no annotation gets [200] with the body [null] on [GET /:id],
    and a text that is not an integer gets [404]. *)

From Stdlib Require Import String Ascii ZArith List Lia Bool.
From S2P Require Import Prelude Js SqlText SqlTemplate SqlLexer SqlParser SqlValue SqlEngine EngineFacts Schema Books Annotations Statements Routes StoreFacts ReadFacts.
Import ListNotations.
Open Scope string_scope.

(** ** Paths *)

(** A path segment holds no [/]. *)
Definition no_slash (s : string) : bool :=
  forallb (fun c => negb (Ascii.eqb c "/")) (list_ascii_of_string s).

Lemma split_segs_no_slash a rest cur : no_slash a = true ->
  split_segs (a ++ rest) cur = split_segs rest (cur ++ a).
Proof.
  revert cur. induction a as [|c a IH]; intros cur H; simpl in *.
  - rewrite string_app_nil_r. reflexivity.
  - apply andb_true_iff in H as [Hc Ha]. apply negb_true_iff in Hc. rewrite Hc, IH by exact Ha.
    rewrite string_app_assoc. reflexivity.
Qed.

Lemma path_one_segment s : s <> "" -> no_slash s = true -> path_segments ("/" ++ s) = Some [s].
Proof.
  intros Hne Hs. unfold path_segments. simpl.
  rewrite <- (string_app_nil_r s) at 1. rewrite split_segs_no_slash by exact Hs.
  simpl. destruct s; [contradiction | reflexivity].
Qed.

Lemma path_two_segments a s : a <> "" -> no_slash a = true -> s <> "" -> no_slash s = true ->
  path_segments ("/" ++ a ++ "/" ++ s) = Some [a; s].
Proof.
  intros Ha Hsa Hs Hss. unfold path_segments. simpl.
  rewrite split_segs_no_slash by exact Hsa. simpl.
  rewrite <- (string_app_nil_r s) at 1. rewrite split_segs_no_slash by exact Hss.
  simpl. destruct s; [contradiction | reflexivity].
Qed.

Lemma eqb_nonempty s : s <> "" -> String.eqb s "" = false.
Proof. intros H. apply String.eqb_neq. exact H. Qed.

(** ** The answers *)

Definition no_annotation_found : jsval :=
  JObj [("noAnnotationFound", JStr "No Annotation with ID Found")].

Definition no_annotations_for_book : jsval :=
  JObj [("noAnnotationsFound", JStr "No Annotations Associated with Book ID found")].

(** The answer of the [/:id] route. *)
Lemma route_by_id d s : store_wf d -> s <> "" -> no_slash s = true ->
  router_get ("/" ++ s) d =
  Some (match int4in s with
        | Err _ => res_json 404 no_annotation_found
        | Ok z => res_json 200 (match filter (col_is "id" z) (annotation_rows d) with
                                | r :: _ => js_of_row (project r)
                                | [] => JNull
                                end)
        end, d).
Proof.
  intros Hwf Hne Hs. unfold router_get. rewrite path_one_segment by assumption.
  cbn [dispatch routes match_segs]. rewrite eqb_nonempty by exact Hne.
  unfold get_by_id, respond. change (param [("id", s)] "id") with (JStr s).
  unfold getAnnotationByID, sbind.
  rewrite (select_int_col d _ "id" s Hwf eq_refl (by_id_query_parses (JStr s)) eq_refl).
  destruct (int4in s); [destruct (filter _ _)|]; reflexivity.
Qed.

(** C6: [GET /<s>] for a one-segment path reaches the [/:id] route: when
    [s] is not an [integer] the answer is [404] with the
    [noAnnotationFound] body; otherwise it is [200] with the first
    annotation of that id, or [200] with the body [null] when there is
    none.  The database is unchanged. *)
Theorem get_by_id_route d s : store_wf d -> s <> "" -> no_slash s = true ->
  router_get ("/" ++ s) d =
  Some (match int4in s with
        | Err _ => res_json 404 no_annotation_found
        | Ok z => res_json 200 (match filter (col_is "id" z) (annotation_rows d) with
                                | r :: _ => js_of_row (project r)
                                | [] => JNull
                                end)
        end, d).
Proof. exact (route_by_id d s). Qed.

Lemma get_by_id_route_witness :
  store_wf initial_db /\ "42" <> "" /\ no_slash "42" = true /\
  router_get "/42" initial_db = Some (mkResponse 200 "null", initial_db).
Proof.
  refine (conj store_wf_initial (conj _ (conj eq_refl _))); [discriminate|].
  change "/42" with ("/" ++ "42").
  rewrite (get_by_id_route initial_db "42" store_wf_initial) by (reflexivity || discriminate).
  vm_compute. reflexivity.
Defined.

(** C7: [GET /<a>/<s>] with [a] equal to [bookID] up to case reaches the
    [/bookID/:id] route (the [/:id] route takes one segment only): a text
    [s] that is not an [integer] gets [404] with its body, otherwise [200]
    with the annotations of that book in table order ([[]] when there are
    none).  The database is unchanged. *)
Theorem get_by_book_route d a s :
  store_wf d -> String.eqb (lower a) "bookid" = true -> no_slash a = true ->
  s <> "" -> no_slash s = true ->
  router_get ("/" ++ a ++ "/" ++ s) d =
  Some (match int4in s with
        | Err _ => res_json 404 no_annotations_for_book
        | Ok z => res_json 200 (projected (filter (col_is "book_id" z) (annotation_rows d)))
        end, d).
Proof.
  intros Hwf Ha Hsa Hne Hs.
  assert (Hane : a <> "") by (intros ->; discriminate).
  unfold router_get. rewrite path_two_segments by assumption.
  cbn [dispatch routes match_segs]. rewrite eqb_nonempty by exact Hane.
  change (lower "bookID") with "bookid". rewrite String.eqb_sym, Ha, eqb_nonempty by exact Hne.
  unfold get_by_book, respond. change (param [("id", s)] "id") with (JStr s).
  unfold getAnnotationsByBookID, sbind.
  rewrite (select_int_col d _ "book_id" s Hwf eq_refl (by_book_query_parses (JStr s)) eq_refl).
  destruct (int4in s); reflexivity.
Qed.

Lemma get_by_book_route_witness :
  store_wf sample_db /\ String.eqb (lower "bookid") "bookid" = true /\ no_slash "bookid" = true /\
  "x" <> "" /\ no_slash "x" = true /\
  router_get "/bookid/x" sample_db = Some (mkResponse 404 (match json_stringify no_annotations_for_book with Some b => b | None => "" end), sample_db).
Proof.
  refine (conj sample_db_wf (conj eq_refl (conj eq_refl (conj _ (conj eq_refl _))))); [discriminate|].
  change "/bookid/x" with ("/" ++ "bookid" ++ "/" ++ "x").
  rewrite (get_by_book_route sample_db "bookid" "x" sample_db_wf) by (reflexivity || discriminate).
  vm_compute. reflexivity.
Defined.

(** C8: [GET /] answers [200] with the first fifty annotations of the
    table, in table order. *)
Theorem get_root_route d : store_wf d ->
  router_get "/" d = Some (res_json 200 (projected (firstn 50 (annotation_rows d))), d).
Proof.
  intros Hwf. unfold router_get. simpl. unfold get_root, respond, getAllAnnotations, sbind.
  rewrite (select_limit d _ 50 Hwf (all_query_parses _) eq_refl). reflexivity.
Qed.

Lemma get_root_route_witness :
  store_wf sample_db /\
  router_get "/" sample_db = Some (res_json 200 (projected (annotation_rows sample_db)), sample_db).
Proof.
  split; [exact sample_db_wf|]. rewrite (get_root_route sample_db sample_db_wf). reflexivity.
Defined.

(** ** The facade only reads *)

(** A computation that leaves every database as it was. *)
Definition read_only {A} (m : stM db js_error A) : Prop := forall d, snd (m d) = d.

Lemma db_query_select q tgts tbl w lim :
  parse_sql (text q) = Ok (SSelect tgts tbl w lim) -> read_only (db_query q).
Proof.
  intros Hp d. unfold db_query, slift, run_sql. rewrite Hp. unfold exec_stmt.
  destruct (find_table _ d); [|reflexivity]. destruct (bind_params _ _ _); [|reflexivity].
  destruct (exec_select _ _ _ _ _); reflexivity.
Qed.

Lemma read_only_bind {A B} (m : stM db js_error A) (k : A -> stM db js_error B) :
  read_only m -> (forall a, read_only (k a)) -> read_only (sbind m k).
Proof.
  intros Hm Hk d. unfold sbind. specialize (Hm d).
  destruct (m d) as [[a|e] d']; simpl in *; subst d'; [apply Hk | reflexivity].
Qed.

Lemma read_only_ret {A} (a : A) : read_only (sret a).
Proof. intros d. reflexivity. Qed.

Lemma read_only_if {A} (b : bool) (m1 m2 : stM db js_error A) :
  read_only m1 -> read_only m2 -> read_only (if b then m1 else m2).
Proof. destruct b; auto. Qed.

Lemma reads_read_only :
  (forall l, read_only (getAllAnnotations l)) /\ (forall i, read_only (getAnnotationByID i)) /\
  (forall b, read_only (getAnnotationsByBookID b)).
Proof.
  split; [|split]; intros x;
    [unfold getAllAnnotations; apply read_only_bind; [exact (db_query_select _ _ _ _ _ (all_query_parses _))|]
    |unfold getAnnotationByID; apply read_only_bind; [exact (db_query_select _ _ _ _ _ (by_id_query_parses x))|]
    |unfold getAnnotationsByBookID; apply read_only_bind; [exact (db_query_select _ _ _ _ _ (by_book_query_parses x))|]];
    intros; repeat first [apply read_only_if | apply read_only_ret].
Qed.

Lemma respond_shape m nf d :
  snd (respond m nf d) = snd (m d) /\
  (status (fst (respond m nf d)) = 200%Z \/ status (fst (respond m nf d)) = 404%Z).
Proof. unfold respond. destruct (m d) as [[v|e] d']; simpl; auto. Qed.

(** The answer of a handler whose call only reads. *)
Definition answers_and_reads (d : db) (r : response * db) : Prop :=
  snd r = d /\ (status (fst r) = 200%Z \/ status (fst r) = 404%Z).

Lemma respond_read_only m nf d : read_only m -> answers_and_reads d (respond m nf d).
Proof.
  intros Hm. destruct (respond_shape m nf d) as [E S]. split; [rewrite E; apply Hm | exact S].
Qed.

(** C15: the facade only reads and answers 200 or 404: on every database
    and every path, the router either passes the request on or answers
    with status 200 or 404 and leaves the database as it was. *)
Theorem router_read_only path d :
  match router_get path d with
  | None => True
  | Some r => answers_and_reads d r
  end.
Proof.
  destruct reads_read_only as (Hall & Hid & Hbook).
  unfold router_get. destruct (path_segments path) as [segs|]; [|exact I].
  cbn [dispatch routes].
  destruct (match_segs [] segs); [apply respond_read_only, Hall|].
  destruct (match_segs [PParam "id"] segs); [apply respond_read_only, Hid|].
  destruct (match_segs [PLit "bookID"; PParam "id"] segs); [apply respond_read_only, Hbook | exact I].
Qed.
