(* ===== verification/WriteFacts.v ===== *)
(** * The writes of the store

    [deleteAnnotation] and [editAnnotation] on a well-formed store, with a
    numeric id: the rows they leave in [kindle_annotations], what they
    resolve to, and the errors of the server's conversion of the id.  The
    id travels as the text [String(id)] and the server reads it back as an
    [integer]: the round trip of [SqlText.pg_strtoint_number_to_string],
    whose error depends on how JavaScript prints the id.
    Then: every query keeps [store_wf], and the [ON CONFLICT (id)] clause
    of [addAnnotation]'s INSERT never fires on a table whose ids are below
    its sequence. *)

From Stdlib Require Import String Ascii ZArith List Lia Bool.
From S2P Require Import Prelude Js SqlText SqlTemplate SqlLexer SqlParser SqlValue SqlEngine EngineFacts Schema Books Annotations Statements StoreFacts ReadFacts.
Import ListNotations.
Open Scope string_scope.

(** The database with the rows of [kindle_annotations] replaced. *)
Definition with_annotation_rows (d : db) (rs : list row) : db :=
  match find_table "kindle_annotations" d with
  | Some t => set_table (with_rows t rs) d
  | None => d
  end.

(** [id] is an [integer] ([int4]). *)
Definition int4_range (z : Z) : bool := (int4_min <=? z)%Z && (z <=? int4_max)%Z.

(** The first of the returned rows, as [rows[0]] reads it. *)
Definition first_projected (rs : list row) : jsval :=
  match rs with r :: _ => js_of_row (project r) | [] => JUndefined end.

(** ** Shared steps *)

Lemma int4in_number z :
  int4in (number_to_string z) = if int4_range z then Ok z else Err (printed_range_error z).
Proof. unfold int4in, int4_range. apply pg_strtoint_number_to_string; apply int4_in_threshold. Qed.

Lemma kept_map (f : row -> bool) rs :
  map fst (filter snd (combine rs (map f rs))) = filter f rs.
Proof. induction rs as [|r rs IH]; simpl; [|destruct (f r); simpl; rewrite IH]; reflexivity. Qed.

Lemma run_sql_write q d t s :
  parse_sql (text q) = Ok s -> stmt_table s = "kindle_annotations" ->
  find_table "kindle_annotations" d = Some t ->
  (forall tgts w lim, s <> SSelect tgts "kindle_annotations" w lim) ->
  run_sql q d =
  match bind_params (map prepareValue (values q)) t s with
  | Err e => Err e
  | Ok _ =>
      match match s with
            | SUpdate _ sets w ret => exec_update (map prepareValue (values q)) t sets w ret
            | SInsert _ cols vals oc ret => exec_insert (map prepareValue (values q)) t cols vals oc ret
            | SDelete _ w ret => exec_delete (map prepareValue (values q)) t w ret
            | SSelect _ _ _ _ => Err syntax_error
            end with
      | Ok (out, t') => Ok (out, set_table t' d)
      | Err e => Err e
      end
  end.
Proof.
  intros Hp Hs Ht Hns. unfold run_sql, exec_stmt. rewrite Hp, Hs, Ht.
  destruct (bind_params _ _ _); [|reflexivity].
  destruct s as [tgts tn w lim| | |]; [simpl in Hs; subst tn; exfalso; eapply Hns; reflexivity| | |];
    reflexivity.
Qed.

Lemma js_first_projected rs : js_first (JArr (map js_of_row (map project rs))) = first_projected rs.
Proof. destruct rs; reflexivity. Qed.

(** ** [deleteAnnotation] *)

Lemma delete_rows d z t :
  store_wf d -> find_table "kindle_annotations" d = Some t -> int4_range z = true ->
  exec_delete [(Some (number_to_string z) : pg_param)] t [("id", EParam 1)] select_targets =
  Ok (map project (filter (col_is "id" z) (tbl_rows t)),
      with_rows t (filter (fun r => negb (col_is "id" z r)) (tbl_rows t))).
Proof.
  intros Hwf Ht Hz. destruct (store_wf_table d Hwf) as [t' [Ht' [Hcols [Htw _]]]].
  rewrite Ht in Ht'. injection Ht' as <-.
  assert (Hw : forall r, In r (tbl_rows t) ->
            where_holds [(Some (number_to_string z) : pg_param)] t r [("id", EParam 1)] = Ok (col_is "id" z r)).
  { intros r Hin. erewrite where_single; [reflexivity | | |].
    - rewrite (annotation_col_type t "id" Hcols). reflexivity.
    - eapply Forall_forall; [apply (twf_rows _ Htw) | exact Hin].
    - simpl. rewrite int4in_number, Hz. reflexivity. }
  unfold exec_delete. rewrite (filter_rows_ok _ t _ _ (col_is "id" z) Hw).
  rewrite (omap_ok_in _ (fun r => negb (col_is "id" z r))) by (intros r Hin; rewrite Hw by exact Hin; reflexivity).
  rewrite output_project, kept_map; [reflexivity|].
  apply Forall_forall. intros r Hin. apply filter_In in Hin as [Hin _].
  rewrite <- Hcols. eapply Forall_forall; [apply (twf_rows _ Htw) | exact Hin].
Qed.

(** What [deleteAnnotation] does, on every branch. *)
Lemma delete_effect d a z : store_wf d -> js_get a "id" = Ok (JNum z) ->
  deleteAnnotation a d =
  if int4_range z then
    (Ok (first_projected (filter (col_is "id" z) (annotation_rows d))),
     with_annotation_rows d (filter (fun r => negb (col_is "id" z r)) (annotation_rows d)))
  else (Err (PgError (printed_range_error z)), d).
Proof.
  intros Hwf Hid. destruct (store_wf_table d Hwf) as [t [Ht [Hcols [Htw Hrows]]]].
  unfold deleteAnnotation, sbind, sfrom. rewrite Hid, db_query_run.
  rewrite (run_sql_write _ d t _ (delete_query_parses _) eq_refl Ht) by discriminate.
  unfold bind_params, param_uses, col_context. cbn [map app fst snd values delete_query append_str SQL].
  rewrite (annotation_col_type t "id" Hcols). simpl. rewrite int4in_number.
  destruct (int4_range z) eqn:Hz; [|reflexivity].
  simpl. rewrite (delete_rows d z t Hwf Ht Hz).
  unfold with_annotation_rows. rewrite Ht, Hrows, js_first_projected. reflexivity.
Qed.

(** C9: [deleteAnnotation] with a numeric id removes every annotation of
    that id and resolves to the first of them ([undefined] when there is
    none); an id outside [integer] is rejected by the server's conversion
    of its text, as out of range ([22003]) while it prints in decimal and
    as invalid text ([22P02]) once JavaScript prints it with an exponent
    (["1e+21"]), and nothing changes. *)
Theorem deleteAnnotation_spec d a z : store_wf d -> js_get a "id" = Ok (JNum z) ->
  deleteAnnotation a d =
  if int4_range z then
    (Ok (first_projected (filter (col_is "id" z) (annotation_rows d))),
     with_annotation_rows d (filter (fun r => negb (col_is "id" z r)) (annotation_rows d)))
  else (Err (PgError (printed_range_error z)), d).
Proof. exact (delete_effect d a z). Qed.

Lemma deleteAnnotation_spec_witness :
  store_wf sample_db /\ js_get (JObj [("id", JNum 1)]) "id" = Ok (JNum 1) /\
  deleteAnnotation (JObj [("id", JNum 1)]) sample_db =
  (Ok (first_projected (annotation_rows sample_db)), with_annotation_rows sample_db []).
Proof.
  refine (conj sample_db_wf (conj eq_refl _)).
  rewrite (deleteAnnotation_spec sample_db (JObj [("id", JNum 1)]) 1 sample_db_wf eq_refl). vm_compute. reflexivity.
Defined.


(** ** [editAnnotation] *)

(** A [text] parameter as the server reads it. *)
Definition text_value (p : pg_param) : value :=
  match p with Some s => VText s | None => VNull end.

(** [SET highlight = $1, note = $2, edited = TRUE] on one row. *)
Definition edit_row (hv nv : value) (r : row) : row :=
  assoc_set "edited" (VBool true) (assoc_set "note" nv (assoc_set "highlight" hv r)).

Lemma edit_row_cells hv nv r :
  cell (edit_row hv nv r) "highlight" = hv /\ cell (edit_row hv nv r) "note" = nv /\
  cell (edit_row hv nv r) "edited" = VBool true.
Proof.
  unfold edit_row, cell. rewrite assoc_get_set_eq.
  rewrite (assoc_get_set_ne "edited" "note") by discriminate. rewrite assoc_get_set_eq.
  rewrite (assoc_get_set_ne "edited" "highlight"), (assoc_get_set_ne "note" "highlight") by discriminate.
  rewrite assoc_get_set_eq. auto.
Qed.

Lemma store_wf_unique d t : store_wf d -> find_table "kindle_annotations" d = Some t ->
  tbl_unique t = [["id"]].
Proof. intros [_ [t' [Ht' [_ [_ Hu]]]]] Ht. rewrite Ht in Ht'. injection Ht' as <-. exact Hu. Qed.

Lemma bind_edit t p1 p2 z : tbl_cols t = annotation_columns ->
  bind_params [p1; p2; (Some (number_to_string z) : pg_param)] t
    (SUpdate "kindle_annotations" [("highlight", EParam 1); ("note", EParam 2); ("edited", EBool true)]
             [("id", EParam 3)] select_targets) =
  if int4_range z then Ok tt else Err (printed_range_error z).
Proof.
  intros Hc. unfold bind_params, param_uses, col_context. cbn [map app fst snd].
  rewrite !(annotation_col_type t _ Hc).
  destruct p1, p2; simpl; rewrite int4in_number; destruct (int4_range z); reflexivity.
Qed.

Lemma edit_rows d z t p1 p2 :
  store_wf d -> find_table "kindle_annotations" d = Some t -> int4_range z = true ->
  exec_update [p1; p2; (Some (number_to_string z) : pg_param)] t
    [("highlight", EParam 1); ("note", EParam 2); ("edited", EBool true)] [("id", EParam 3)] select_targets =
  Ok (map project (map (edit_row (text_value p1) (text_value p2)) (filter (col_is "id" z) (tbl_rows t))),
      with_rows t (map (fun r => if col_is "id" z r then edit_row (text_value p1) (text_value p2) r else r)
                       (tbl_rows t))).
Proof.
  intros Hwf Ht Hz. destruct (store_wf_table d Hwf) as [t' [Ht' [Hcols [Htw _]]]].
  rewrite Ht in Ht'. injection Ht' as <-.
  unfold exec_update.
  rewrite (update_rows_ok _ t _ _ _ (col_is "id" z) (edit_row (text_value p1) (text_value p2))).
  - rewrite unique_ok_map, (twf_unique _ Htw).
    + rewrite output_project; [reflexivity|].
      apply Forall_forall. intros r Hin. apply in_map_iff in Hin as [r0 [<- Hin]].
      apply filter_In in Hin as [Hin _]. unfold edit_row.
      rewrite <- Hcols. repeat (eapply row_wf_assoc_set; [| rewrite Hcols; reflexivity | destruct p1, p2; reflexivity]).
      eapply Forall_forall; [apply (twf_rows _ Htw) | exact Hin].
    + intros k r Hk. rewrite (store_wf_unique d t Hwf Ht) in Hk. destruct Hk as [<-|[]].
      destruct (col_is "id" z r); [|reflexivity]. unfold edit_row.
      rewrite !key_of_assoc_set_ne by (simpl; intuition discriminate). reflexivity.
  - intros r Hin. erewrite where_single; [reflexivity | | |].
    + rewrite (annotation_col_type t "id" Hcols). reflexivity.
    + eapply Forall_forall; [apply (twf_rows _ Htw) | exact Hin].
    + simpl. rewrite int4in_number, Hz. reflexivity.
  - intros r _ _. unfold apply_sets, col_type_of. rewrite Hcols.
    destruct p1, p2; reflexivity.
Qed.

(** What [editAnnotation] does, on every branch. *)
Lemma edit_effect d a h n z :
  store_wf d -> js_get a "highlight" = Ok h -> js_get a "note" = Ok n -> js_get a "id" = Ok (JNum z) ->
  editAnnotation a d =
  if int4_range z then
    let ed := edit_row (text_value (prepareValue h)) (text_value (prepareValue n)) in
    (Ok (first_projected (map ed (filter (col_is "id" z) (annotation_rows d)))),
     with_annotation_rows d (map (fun r => if col_is "id" z r then ed r else r) (annotation_rows d)))
  else (Err (PgError (printed_range_error z)), d).
Proof.
  intros Hwf Hh Hn Hid. destruct (store_wf_table d Hwf) as [t [Ht [Hcols [Htw Hrows]]]].
  unfold editAnnotation, sbind, sfrom. rewrite Hh, Hn, Hid, db_query_run.
  rewrite (run_sql_write _ d t _ (edit_query_parses _ _ _) eq_refl Ht) by discriminate.
  cbn [map values edit_query append_str SQL prepareValue].
  rewrite (bind_edit t _ _ z Hcols). destruct (int4_range z) eqn:Hz; [|reflexivity].
  rewrite (edit_rows d z t _ _ Hwf Ht Hz).
  unfold with_annotation_rows. rewrite Ht, Hrows, js_first_projected. reflexivity.
Qed.

(** C10: [editAnnotation] with a numeric id sets [highlight] and [note] to
    the given values (as text, [NULL] for [null] or [undefined]) and
    [edited] to true on every annotation of that id, leaves the other
    annotations as they were, and resolves to the first edited annotation
    ([undefined] when there is none); an id outside [integer] is rejected
    by the server's conversion of its text ([22003] in decimal, [22P02]
    in exponent form) and nothing changes. *)
Theorem editAnnotation_spec d a h n z :
  store_wf d -> js_get a "highlight" = Ok h -> js_get a "note" = Ok n -> js_get a "id" = Ok (JNum z) ->
  editAnnotation a d =
  if int4_range z then
    let ed := edit_row (text_value (prepareValue h)) (text_value (prepareValue n)) in
    (Ok (first_projected (map ed (filter (col_is "id" z) (annotation_rows d)))),
     with_annotation_rows d (map (fun r => if col_is "id" z r then ed r else r) (annotation_rows d)))
  else (Err (PgError (printed_range_error z)), d).
Proof. exact (edit_effect d a h n z). Qed.

(** Editing the sample annotation: its highlight becomes ["hi"], its note
    is cleared. *)
Lemma editAnnotation_spec_witness :
  let a := JObj [("id", JNum 1); ("highlight", JStr "hi"); ("note", JNull)] in
  store_wf sample_db /\ js_get a "highlight" = Ok (JStr "hi") /\ js_get a "note" = Ok JNull /\
  js_get a "id" = Ok (JNum 1) /\
  fst (editAnnotation a sample_db) =
  Ok (first_projected (map (edit_row (VText "hi") VNull) (annotation_rows sample_db))).
Proof.
  intros a. refine (conj sample_db_wf (conj eq_refl (conj eq_refl (conj eq_refl _)))).
  rewrite (editAnnotation_spec sample_db a (JStr "hi") JNull 1 sample_db_wf eq_refl eq_refl eq_refl).
  vm_compute. reflexivity.
Defined.

Lemma annotation_rows_with d t rs : find_table "kindle_annotations" d = Some t ->
  annotation_rows (with_annotation_rows d rs) = rs.
Proof.
  intros Ht. unfold with_annotation_rows. rewrite Ht. unfold annotation_rows.
  replace "kindle_annotations" with (tbl_name (with_rows t rs)) by exact (find_table_name _ _ _ Ht).
  rewrite (find_set_table _ t d); [reflexivity|]. simpl. rewrite (find_table_name _ _ _ Ht). exact Ht.
Qed.

(** ** The store stays well formed *)

Lemma exec_stmt_store_wf params s d out d' :
  store_wf d -> exec_stmt params s d = Ok (out, d') -> store_wf d'.
Proof.
  intros [Hd [t [Ht Hsch]]] He. split; [eapply exec_stmt_wf; eauto|].
  destruct (find_table_schema _ _ _ _ (exec_stmt_schema _ _ _ _ _ He) Ht) as [t' [Ht' Hs]].
  exists t'. split; [exact Ht'|].
  unfold annotation_schema, schema_of in *. injection Hs. intuition congruence.
Qed.

Lemma db_query_store_wf q d : store_wf d -> store_wf (snd (db_query q d)).
Proof.
  intros Hd. unfold db_query, slift, run_sql.
  destruct (parse_sql (text q)) as [st|]; [|exact Hd].
  destruct (exec_stmt _ st d) as [[out d']|] eqn:E; [|exact Hd].
  eapply exec_stmt_store_wf; eauto.
Qed.

(** ** [ON CONFLICT (id)] *)

(** The clause is never taken: the proposed id is the sequence's value,
    above every stored id. *)
Lemma on_conflict_plain params t cols vals ret :
  table_wf t -> tbl_serial t = Some "id" -> tbl_unique t = [["id"]] -> ~ In "id" cols ->
  Forall (fun r => exists z, cell r "id" = VInt z /\ (z < tbl_next t)%Z) (tbl_rows t) ->
  exec_insert params t cols vals on_conflict_id ret = exec_insert params t cols vals None ret.
Proof.
  intros Hwf Hs Hu Hc Hids. unfold exec_insert.
  destruct (negb _) eqn:Hlen; [reflexivity|].
  destruct (eval_given params t cols vals) as [given|] eqn:Hg; [|reflexivity].
  pose proof (serial_col t "id" Hwf Hs) as Hsf.
  pose proof (eval_given_notin _ _ _ _ _ "id" Hg Hc) as Hgiven.
  unfold next_serial. rewrite Hs, (existsb_eqb_notin "id" cols Hc).
  destruct (Z.leb (tbl_next t) int4_max); [|reflexivity].
  unfold on_conflict_id. cbn [with_next tbl_unique tbl_rows tbl_cols]. rewrite Hu.
  change (negb (existsb (same_cols ["id"]) [["id"]])) with false. cbv iota.
  rewrite find_all_false; [reflexivity|].
  intros r Hin. eapply Forall_forall in Hids; [|exact Hin]. destruct Hids as [z [Hz Hlt]].
  unfold same_key.
  rewrite (key_of_single "id" r z Hz).
  rewrite (key_of_single "id" _ (tbl_next t)).
  - unfold key_eqb. simpl. destruct (Z.eqb_spec (tbl_next t) z); [lia | reflexivity].
  - unfold cell. rewrite proposed_row_serial; [reflexivity | exact Hsf | exact Hgiven].
Qed.

