(* ===== verification/Lifecycle.v ===== *)
(** * Histories of calls

    The interface of the store is its [module.exports] (lines 214-222 of
    [src/models/annotations.js]): seven functions.  A call is a
    [store_op]; [run_ops] runs a sequence of calls one after the other, as
    one request's chain of awaits does, each on the database the previous
    one left, whether it resolved or was rejected.  [reachable] is the set
    of databases a fresh database reaches that way: all are well formed
    (rule induction), so the specifications of [ReadFacts] and
    [WriteFacts] hold after any history.  Then the properties the spec
    lists, as compositions of those specifications. *)

From Stdlib Require Import String Ascii ZArith List Lia Bool.
From S2P Require Import Prelude Js SqlText SqlTemplate SqlLexer SqlParser SqlValue SqlEngine EngineFacts Schema Books Annotations Statements Routes StoreFacts ReadFacts RouteFacts WriteFacts.
Import ListNotations.
Open Scope string_scope.

(** The exported functions, in the order of [module.exports]. *)
Inductive store_op : Type :=
| OpAddCalibreAnnotation (calibreAnnotation : jsval)
| OpGetAllAnnotations (limit : jsval)
| OpGetAnnotationByID (annoID : jsval)
| OpGetAnnotationsByBookID (book_id : jsval)
| OpAddAnnotation (annotation : jsval)
| OpEditAnnotation (annotation : jsval)
| OpDeleteAnnotation (annotation : jsval).

Definition run_op (o : store_op) : stM db js_error jsval :=
  match o with
  | OpAddCalibreAnnotation c => addCalibreAnnotation c
  | OpGetAllAnnotations l => getAllAnnotations l
  | OpGetAnnotationByID i => getAnnotationByID i
  | OpGetAnnotationsByBookID b => getAnnotationsByBookID b
  | OpAddAnnotation a => addAnnotation a
  | OpEditAnnotation a => editAnnotation a
  | OpDeleteAnnotation a => deleteAnnotation a
  end.

(** The results of a sequence of calls and the database it leaves. *)
Fixpoint run_ops (os : list store_op) (d : db) : list (outcome js_error jsval) * db :=
  match os with
  | [] => ([], d)
  | o :: os' =>
      let (r, d1) := run_op o d in
      let (rs, d2) := run_ops os' d1 in
      (r :: rs, d2)
  end.

Inductive reachable : db -> Prop :=
| reach_init : reachable initial_db
| reach_op o d : reachable d -> reachable (snd (run_op o d)).

Lemma run_ops_reachable os : forall d, reachable d -> reachable (snd (run_ops os d)).
Proof.
  induction os as [|o os IH]; simpl; intros d Hd; [exact Hd|].
  pose proof (reach_op o d Hd) as H1. destruct (run_op o d) as [r d1]. simpl in H1.
  specialize (IH d1 H1). destruct (run_ops os d1). exact IH.
Qed.

Lemma run_op_store_wf o d : store_wf d -> store_wf (snd (run_op o d)).
Proof.
  destruct (operations_preserve store_wf db_query_store_wf)
    as (Hall & Hbook & _ & Hid & Hadd & Hcal & Hedit & Hdel & _).
  intros Hd. destruct o; cbn [run_op];
    [apply Hcal | apply Hall | apply Hid | apply Hbook | apply Hadd | apply Hedit | apply Hdel]; exact Hd.
Qed.

(** Every database a fresh database reaches by any sequence of calls
    to the store's exported functions, each resolved or rejected, is well
    formed and has the annotation table of the schema. *)
Theorem reachable_store_wf d : reachable d -> store_wf d.
Proof.
  induction 1 as [|o d _ IH]; [exact store_wf_initial | exact (run_op_store_wf o d IH)].
Qed.

Lemma reachable_store_wf_witness :
  reachable (snd (run_ops [OpAddCalibreAnnotation sample_annotation; OpGetAllAnnotations JUndefined] initial_db)) /\
  store_wf (snd (run_ops [OpAddCalibreAnnotation sample_annotation; OpGetAllAnnotations JUndefined] initial_db)).
Proof.
  assert (H : reachable (snd (run_ops [OpAddCalibreAnnotation sample_annotation; OpGetAllAnnotations JUndefined] initial_db)))
    by (apply run_ops_reachable, reach_init).
  split; [exact H | apply reachable_store_wf; exact H].
Defined.

(** ** The properties the spec lists *)

(** C12: [deleteAnnotation({id})] followed by [getAnnotationByID(id)]
    gives [null]: no annotation of that id is left. *)
Theorem delete_then_get d a z :
  store_wf d -> js_get a "id" = Ok (JNum z) -> int4_range z = true ->
  fst (getAnnotationByID (JNum z) (snd (deleteAnnotation a d))) = Ok JNull.
Proof.
  intros Hwf Hid Hz.
  pose proof (run_op_store_wf (OpDeleteAnnotation a) d Hwf) as Hwf'. cbn [run_op] in Hwf'.
  rewrite (delete_effect d a z Hwf Hid), Hz in Hwf' |- *. cbn [snd] in Hwf' |- *.
  unfold getAnnotationByID, sbind.
  rewrite (select_int_col _ _ "id" (number_to_string z) Hwf' eq_refl (by_id_query_parses (JNum z)) eq_refl).
  rewrite int4in_number, Hz. destruct (store_wf_table d Hwf) as [t [Ht _]].
  rewrite (annotation_rows_with d t _ Ht), filter_filter_negb. reflexivity.
Qed.

Lemma delete_then_get_witness :
  store_wf sample_db /\ js_get (JObj [("id", JNum 1)]) "id" = Ok (JNum 1) /\ int4_range 1 = true /\
  fst (getAnnotationByID (JNum 1) (snd (deleteAnnotation (JObj [("id", JNum 1)]) sample_db))) = Ok JNull.
Proof.
  refine (conj sample_db_wf (conj eq_refl (conj eq_refl _))).
  exact (delete_then_get sample_db (JObj [("id", JNum 1)]) 1 sample_db_wf eq_refl eq_refl).
Defined.

(** C13: [editAnnotation({id, highlight: H, note: N})] on an existing id
    resolves to an annotation whose [highlight] is [H] and [note] is [N],
    and every stored annotation of that id has [H], [N] and [edited]
    true. *)
Theorem edit_returns_given d a hs ns z :
  store_wf d -> js_get a "highlight" = Ok (JStr hs) -> js_get a "note" = Ok (JStr ns) ->
  js_get a "id" = Ok (JNum z) -> int4_range z = true ->
  filter (col_is "id" z) (annotation_rows d) <> [] ->
  (exists o, fst (editAnnotation a d) = Ok o /\
             js_get o "highlight" = Ok (JStr hs) /\ js_get o "note" = Ok (JStr ns)) /\
  (forall r, In r (annotation_rows (snd (editAnnotation a d))) -> col_is "id" z r = true ->
             cell r "highlight" = VText hs /\ cell r "note" = VText ns /\ cell r "edited" = VBool true).
Proof.
  intros Hwf Hh Hn Hid Hz Hne.
  rewrite (edit_effect d a (JStr hs) (JStr ns) z Hwf Hh Hn Hid), Hz. cbn [fst snd prepareValue text_value].
  destruct (store_wf_table d Hwf) as [t [Ht _]]. rewrite (annotation_rows_with d t _ Ht).
  split.
  - destruct (filter (col_is "id" z) (annotation_rows d)) as [|r0 rs]; [contradiction|].
    destruct (edit_row_cells (VText hs) (VText ns) r0) as [E1 [E2 _]].
    eexists. split; [reflexivity|]. cbn. rewrite E1, E2. split; reflexivity.
  - intros r Hin. apply in_map_iff in Hin as [r0 [<- _]].
    destruct (col_is "id" z r0) eqn:E; [intros _ | rewrite E; discriminate].
    exact (edit_row_cells (VText hs) (VText ns) r0).
Qed.

Lemma edit_returns_given_witness :
  let a := JObj [("id", JNum 1); ("highlight", JStr "H"); ("note", JStr "N")] in
  store_wf sample_db /\ js_get a "highlight" = Ok (JStr "H") /\ js_get a "note" = Ok (JStr "N") /\
  js_get a "id" = Ok (JNum 1) /\ int4_range 1 = true /\
  filter (col_is "id" 1) (annotation_rows sample_db) <> [] /\
  exists o, fst (editAnnotation a sample_db) = Ok o /\ js_get o "highlight" = Ok (JStr "H").
Proof.
  intros a.
  assert (Hne : filter (col_is "id" 1) (annotation_rows sample_db) <> []) by (vm_compute; discriminate).
  refine (conj sample_db_wf (conj eq_refl (conj eq_refl (conj eq_refl (conj eq_refl (conj Hne _)))))).
  destruct (proj1 (edit_returns_given sample_db a "H" "N" 1 sample_db_wf eq_refl eq_refl eq_refl eq_refl Hne))
    as [o [Ho [Hh _]]].
  exists o. split; assumption.
Defined.

(** The two calls of the spec's scenario. *)
Definition foo_first : jsval :=
  JObj [("title", JStr "Foo"); ("book_id", JUndefined); ("begin", JNum 10); ("end", JNum 20);
        ("highlight", JStr "hi")].

Definition foo_second : jsval :=
  JObj [("title", JStr "Foo"); ("end", JNum 20); ("highlight", JStr "hi2")].

(** The spec's scenario on a fresh database: the first
    [addAnnotation] creates the book "Foo" and an annotation with
    [begin = 10], [end = 20], [highlight = "hi"]; the second, with the same
    title and [end], updates that annotation to [highlight = "hi2"] and
    resolves to it; [getAnnotationByID] then returns what the second call
    returned, and the table holds that one annotation. *)
Theorem foo_scenario :
  let (rs, d) := run_ops [OpAddAnnotation foo_first; OpAddAnnotation foo_second;
                          OpGetAnnotationByID (JNum 1)] initial_db in
  (exists o1 o2, rs = [Ok o1; Ok o2; Ok o2] /\
     js_get o1 "highlight" = Ok (JStr "hi") /\ js_get o2 "highlight" = Ok (JStr "hi2") /\
     js_get o1 "id" = js_get o2 "id") /\
  map (fun r => (cell r "id", cell r "begin", cell r "end", cell r "highlight")) (annotation_rows d) =
  [(VInt 1, VInt 10, VInt 20, VText "hi2")].
Proof.
  vm_compute. split; [|reflexivity].
  do 2 eexists. split; [reflexivity|]. repeat split.
Qed.

(** [GET /999999] on a store with no annotation of id 999999
    answers [200] with the body [null]; the spec expects [404] with the
    [noAnnotationFound] body. *)
Theorem get_missing_id_answers_null d :
  store_wf d -> filter (col_is "id" 999999) (annotation_rows d) = [] ->
  router_get "/999999" d = Some (mkResponse 200 "null", d).
Proof.
  intros Hwf Hnone. change "/999999" with ("/" ++ "999999").
  rewrite (route_by_id d "999999" Hwf) by (reflexivity || discriminate).
  change (int4in "999999") with (@Ok sqlstate Z 999999%Z). cbv beta iota. rewrite Hnone. reflexivity.
Qed.

Lemma get_missing_id_answers_null_witness :
  store_wf sample_db /\ filter (col_is "id" 999999) (annotation_rows sample_db) = [] /\
  router_get "/999999" sample_db = Some (mkResponse 200 "null", sample_db).
Proof.
  assert (H : filter (col_is "id" 999999) (annotation_rows sample_db) = []) by (vm_compute; reflexivity).
  refine (conj sample_db_wf (conj H _)). exact (get_missing_id_answers_null sample_db sample_db_wf H).
Defined.
