(* ===== verification/Abstract.v ===== *)
(** * The store as a map from ids to annotations

    What the spec says of the store's lookups and writes by id, as an
    abstract specification: a finite map from ids to annotations
    ([abs_store]), read by [abs] off the rows of [kindle_annotations] (the
    first annotation with that id; ids are unique in a well-formed store).
    [getAnnotationByID], [deleteAnnotation] and [editAnnotation] refine
    the map's lookup, removal and update: their results are what the map
    holds, and the map of the new database is the updated map.  Last, the
    round trip of an edit: the id read back gives what the edit
    returned. *)

From Stdlib Require Import String Ascii ZArith List Lia Bool Morphisms RelationClasses Setoid.
From S2P Require Import Prelude Js SqlText SqlTemplate SqlLexer SqlParser SqlValue SqlEngine EngineFacts Schema Books Annotations Statements StoreFacts ReadFacts WriteFacts Lifecycle.
Import ListNotations.
Open Scope string_scope.

Definition abs_store : Type := Z -> option row.

(** The annotation of each id. *)
Definition abs (d : db) : abs_store :=
  fun z => match filter (col_is "id" z) (annotation_rows d) with r :: _ => Some r | [] => None end.

Definition map_update (m : abs_store) (z : Z) (o : option row) : abs_store :=
  fun z' => if Z.eqb z' z then o else m z'.

(** What the store returns for a looked-up entry: the projection, or the
    absent value of the operation. *)
Definition present (o : option row) (absent : jsval) : jsval :=
  match o with Some r => js_of_row (project r) | None => absent end.

(** Two maps are equivalent when they agree on every id. *)
Definition map_equiv (m1 m2 : abs_store) : Prop := forall z, m1 z = m2 z.

#[export] Instance map_equiv_equivalence : Equivalence map_equiv.
Proof.
  split; [intros m z; reflexivity | intros m1 m2 H z; symmetry; apply H
         | intros m1 m2 m3 H1 H2 z; rewrite H1; apply H2].
Qed.

#[export] Instance map_update_proper : Proper (map_equiv ==> eq ==> eq ==> map_equiv) map_update.
Proof. intros m1 m2 H z _ <- o _ <- z'. unfold map_update. destruct (Z.eqb z' z); auto. Qed.

(** ** Rows and ids *)

Lemma col_is_cell c z r : col_is c z r = true -> cell r c = VInt z.
Proof.
  unfold col_is. destruct (cell r c); simpl; try discriminate.
  destruct (Z.eqb_spec z0 z) as [->|]; [reflexivity | discriminate].
Qed.

Lemma col_is_other c z z' r : col_is c z' r = true -> z' <> z -> col_is c z r = false.
Proof.
  intros H Hne. unfold col_is. rewrite (col_is_cell _ _ _ H). simpl.
  destruct (Z.eqb_spec z' z); [contradiction | reflexivity].
Qed.

Lemma edit_row_col_is hv nv z r : col_is "id" z (edit_row hv nv r) = col_is "id" z r.
Proof.
  unfold col_is, cell, edit_row.
  rewrite !assoc_get_set_ne by discriminate. reflexivity.
Qed.

Lemma first_present rs absent :
  match rs with r :: _ => js_of_row (project r) | [] => absent end =
  present (match rs with r :: _ => Some r | [] => None end) absent.
Proof. destruct rs; reflexivity. Qed.

(** ** Refinement *)

Lemma get_refines d z : store_wf d -> int4_range z = true ->
  getAnnotationByID (JNum z) d = (Ok (present (abs d z) JNull), d).
Proof.
  intros Hwf Hz. unfold getAnnotationByID, sbind.
  rewrite (select_int_col d _ "id" (number_to_string z) Hwf eq_refl (by_id_query_parses (JNum z)) eq_refl).
  rewrite int4in_number, Hz. unfold abs. destruct (filter _ _); reflexivity.
Qed.

Lemma delete_refines d a z : store_wf d -> int4_range z = true -> js_get a "id" = Ok (JNum z) ->
  fst (deleteAnnotation a d) = Ok (present (abs d z) JUndefined) /\
  forall z', abs (snd (deleteAnnotation a d)) z' = map_update (abs d) z None z'.
Proof.
  intros Hwf Hz Hid. rewrite (delete_effect d a z Hwf Hid), Hz. cbn [fst snd].
  split; [unfold first_projected, abs; destruct (filter _ _); reflexivity|].
  intros z'. destruct (store_wf_table d Hwf) as [t [Ht _]].
  unfold abs, map_update. rewrite (annotation_rows_with d t _ Ht).
  destruct (Z.eqb_spec z' z) as [->|Hne]; [rewrite filter_filter_negb; reflexivity|].
  rewrite filter_filter_implied; [reflexivity|].
  intros r Hr. rewrite (col_is_other _ _ _ _ Hr Hne). reflexivity.
Qed.

Lemma edit_refines d a h n z : store_wf d -> int4_range z = true ->
  js_get a "highlight" = Ok h -> js_get a "note" = Ok n -> js_get a "id" = Ok (JNum z) ->
  let ed := edit_row (text_value (prepareValue h)) (text_value (prepareValue n)) in
  fst (editAnnotation a d) = Ok (present (option_map ed (abs d z)) JUndefined) /\
  forall z', abs (snd (editAnnotation a d)) z' = map_update (abs d) z (option_map ed (abs d z)) z'.
Proof.
  intros Hwf Hz Hh Hn Hid ed. rewrite (edit_effect d a h n z Hwf Hh Hn Hid), Hz. cbn [fst snd].
  fold ed. split; [unfold first_projected, abs; destruct (filter _ _); reflexivity|].
  intros z'. destruct (store_wf_table d Hwf) as [t [Ht _]].
  unfold abs, map_update. rewrite (annotation_rows_with d t _ Ht).
  rewrite filter_map_comm
    by (intros r; destruct (col_is "id" z r); [apply edit_row_col_is | reflexivity]).
  destruct (Z.eqb_spec z' z) as [->|Hne].
  - destruct (filter (col_is "id" z) (annotation_rows d)) as [|r rs] eqn:E; [reflexivity|].
    simpl. pose proof (filter_head _ _ _ _ E) as Hr.
    rewrite Hr. reflexivity.
  - destruct (filter (col_is "id" z') (annotation_rows d)) as [|r rs] eqn:E; [reflexivity|].
    simpl. pose proof (filter_head _ _ _ _ E) as Hr.
    rewrite (col_is_other _ _ _ _ Hr Hne). reflexivity.
Qed.

(** ** Sequences of calls by id *)

(** The calls by id, on a map and on the store. *)
Inductive id_op : Type :=
| IGet (z : Z)
| IEdit (z : Z) (h n : jsval)
| IDelete (z : Z).

Definition op_id (o : id_op) : Z := match o with IGet z | IEdit z _ _ | IDelete z => z end.

Definition concrete (o : id_op) : store_op :=
  match o with
  | IGet z => OpGetAnnotationByID (JNum z)
  | IEdit z h n => OpEditAnnotation (JObj [("id", JNum z); ("highlight", h); ("note", n)])
  | IDelete z => OpDeleteAnnotation (JObj [("id", JNum z)])
  end.

Definition abs_run (o : id_op) (m : abs_store) : jsval * abs_store :=
  match o with
  | IGet z => (present (m z) JNull, m)
  | IEdit z h n =>
      let e := option_map (edit_row (text_value (prepareValue h)) (text_value (prepareValue n))) (m z) in
      (present e JUndefined, map_update m z e)
  | IDelete z => (present (m z) JUndefined, map_update m z None)
  end.

Fixpoint abs_runs (os : list id_op) (m : abs_store) : list jsval * abs_store :=
  match os with
  | [] => ([], m)
  | o :: os' =>
      let (v, m1) := abs_run o m in
      let (vs, m2) := abs_runs os' m1 in
      (v :: vs, m2)
  end.

Lemma id_op_step o d m : store_wf d -> map_equiv (abs d) m -> int4_range (op_id o) = true ->
  fst (run_op (concrete o) d) = Ok (fst (abs_run o m)) /\
  map_equiv (abs (snd (run_op (concrete o) d))) (snd (abs_run o m)).
Proof.
  intros Hwf Hm Hz. destruct o as [z|z h n|z]; cbn [concrete run_op abs_run op_id fst snd] in *.
  - rewrite (get_refines d z Hwf Hz). cbn [fst snd]. rewrite (Hm z). split; [reflexivity | exact Hm].
  - destruct (edit_refines d (JObj [("id", JNum z); ("highlight", h); ("note", n)]) h n z Hwf Hz
                 eq_refl eq_refl eq_refl) as [H1 H2].
    rewrite H1, (Hm z). split; [reflexivity|].
    intros z'. rewrite H2. apply map_update_proper; [exact Hm | reflexivity | rewrite (Hm z); reflexivity].
  - destruct (delete_refines d (JObj [("id", JNum z)]) z Hwf Hz eq_refl) as [H1 H2].
    rewrite H1, (Hm z). split; [reflexivity|].
    intros z'. rewrite H2. apply map_update_proper; [exact Hm | reflexivity | reflexivity].
Qed.

(** C14: on a well-formed store, any sequence of [getAnnotationByID],
    [editAnnotation] and [deleteAnnotation] calls with [integer] ids
    resolves to what the same sequence of lookups, updates and removals on
    the map of ids to annotations returns, and leaves a database whose map
    is the map those operations leave. *)
Theorem id_ops_refine os : forall d m,
  store_wf d -> map_equiv (abs d) m -> Forall (fun o => int4_range (op_id o) = true) os ->
  fst (run_ops (map concrete os) d) = map Ok (fst (abs_runs os m)) /\
  map_equiv (abs (snd (run_ops (map concrete os) d))) (snd (abs_runs os m)).
Proof.
  induction os as [|o os IH]; intros d m Hwf Hm Hos; [split; [reflexivity | exact Hm]|].
  inversion Hos as [|? ? Ho Hos']; subst.
  destruct (id_op_step o d m Hwf Hm Ho) as [H1 H2].
  pose proof (run_op_store_wf (concrete o) d Hwf) as Hwf1. simpl.
  destruct (run_op (concrete o) d) as [r d1]. destruct (abs_run o m) as [v m1].
  simpl in H1, H2, Hwf1. destruct (IH d1 m1 Hwf1 H2 Hos') as [IH1 IH2].
  destruct (run_ops (map concrete os) d1) as [rs d2]. destruct (abs_runs os m1) as [vs m2].
  simpl in *. subst r. rewrite IH1. split; [reflexivity | exact IH2].
Qed.

Lemma id_ops_refine_witness :
  let os := [IEdit 1 (JStr "H") JNull; IGet 1; IDelete 1; IGet 1] in
  store_wf sample_db /\ map_equiv (abs sample_db) (abs sample_db) /\
  Forall (fun o => int4_range (op_id o) = true) os /\
  fst (run_ops (map concrete os) sample_db) = map Ok (fst (abs_runs os (abs sample_db))).
Proof.
  intros os.
  assert (Hr : Forall (fun o => int4_range (op_id o) = true) os) by repeat constructor.
  refine (conj sample_db_wf (conj (fun z => eq_refl) (conj Hr _))).
  exact (proj1 (id_ops_refine os sample_db (abs sample_db) sample_db_wf (fun z => eq_refl) Hr)).
Defined.

(** ** Reading back an edit *)

(** C21: after [editAnnotation({id: z, highlight, note})], reading the id
    back with [getAnnotationByID(z)] gives exactly what the edit
    resolved to ([null] where the edit found no row and resolved to
    [undefined]), and the same rejection when [z] is not an [integer]. *)
Theorem edit_then_get_roundtrip d a h n z :
  store_wf d -> js_get a "highlight" = Ok h -> js_get a "note" = Ok n -> js_get a "id" = Ok (JNum z) ->
  fst (getAnnotationByID (JNum z) (snd (editAnnotation a d))) =
  match fst (editAnnotation a d) with Ok JUndefined => Ok JNull | r => r end.
Proof.
  intros Hwf Hh Hn Hid.
  pose proof (run_op_store_wf (OpEditAnnotation a) d Hwf) as Hwf'. cbn [run_op] in Hwf'.
  rewrite (edit_effect d a h n z Hwf Hh Hn Hid) in Hwf' |- *. unfold getAnnotationByID, sbind.
  destruct (int4_range z) eqn:Hz; cbn [fst snd] in Hwf' |- *.
  - rewrite (select_int_col _ _ "id" (number_to_string z) Hwf' eq_refl (by_id_query_parses (JNum z)) eq_refl).
    rewrite int4in_number, Hz. destruct (store_wf_table d Hwf) as [t [Ht _]].
    rewrite (annotation_rows_with d t _ Ht), filter_map_comm, map_if_filter.
    + destruct (filter (col_is "id" z) (annotation_rows d)); reflexivity.
    + intros r. destruct (col_is "id" z r) eqn:E; [rewrite edit_row_col_is|]; exact E.
  - rewrite (select_int_col _ _ "id" (number_to_string z) Hwf eq_refl (by_id_query_parses (JNum z)) eq_refl).
    rewrite int4in_number, Hz. reflexivity.
Qed.

Lemma edit_then_get_roundtrip_witness :
  let a := JObj [("id", JNum 1); ("highlight", JStr "hi"); ("note", JNull)] in
  store_wf sample_db /\ js_get a "highlight" = Ok (JStr "hi") /\ js_get a "note" = Ok JNull /\
  js_get a "id" = Ok (JNum 1) /\
  fst (getAnnotationByID (JNum 1) (snd (editAnnotation a sample_db))) =
  match fst (editAnnotation a sample_db) with Ok JUndefined => Ok JNull | r => r end.
Proof.
  intros a. refine (conj sample_db_wf (conj eq_refl (conj eq_refl (conj eq_refl _)))).
  exact (edit_then_get_roundtrip sample_db a (JStr "hi") JNull 1 sample_db_wf eq_refl eq_refl eq_refl).
Defined.
