(* ===== verification/Concurrency.v ===== *)
(** * Interleaved calls

    An [async] function runs until its first [await], and resumes when the
    awaited query's result comes back; the queries of concurrent calls are
    executed by the server in any order that keeps each call's own order
    (the spec's concurrency model, section 5).  A call is written here as a
    resumption [prog]: finished, or awaiting a query with the rest of the
    call as a continuation.  [run_prog] runs a call alone; for
    [addAnnotation] it is exactly [Annotations.addAnnotation]
    ([addAnnotation_p_equiv]).  [run_sched] runs several calls along a
    schedule, one resumption at a time.  The find-then-insert sequence of
    [addAnnotation] is not atomic: two calls for the same [(book_id, end)]
    can both find nothing and both insert (the race the spec's sections 5
    and 9 describe; shown here on one database, and in general in
    [Race.racing_adds_duplicate_row]).  [within n p] bounds the resumptions a call needs:
    [addAnnotation] needs at most four, and a schedule that resumes each
    of any number of calls four times finishes them all. *)

From Stdlib Require Import String Ascii ZArith List Lia Bool.
From S2P Require Import Prelude Js SqlText SqlTemplate SqlLexer SqlParser SqlValue SqlEngine EngineFacts Schema Books Annotations Statements StoreFacts ReadFacts WriteFacts Lifecycle.
Import ListNotations.
Open Scope string_scope.

Inductive prog (A : Type) : Type :=
| PDone (r : outcome js_error A)
| PAwait (q : sql_statement) (k : jsval -> prog A).

Arguments PDone {A} r.
Arguments PAwait {A} q k.

Definition pret {A} (a : A) : prog A := PDone (Ok a).
Definition pquery (q : sql_statement) : prog jsval := PAwait q pret.

Fixpoint pbind {A B} (p : prog A) (f : A -> prog B) : prog B :=
  match p with
  | PDone (Ok a) => f a
  | PDone (Err e) => PDone (Err e)
  | PAwait q k => PAwait q (fun v => pbind (k v) f)
  end.

(** A call run alone: each await is the query on the current database. *)
Fixpoint run_prog {A} (p : prog A) : stM db js_error A :=
  match p with
  | PDone r => sfrom r
  | PAwait q k => sbind (db_query q) (fun v => run_prog (k v))
  end.

(** ** [addAnnotation] with its awaits *)

Definition getBookID_p (title : jsval) : prog jsval :=
  pbind (pquery (SQL ["SELECT id FROM books WHERE title = "; ""] [title])) (fun rows =>
  match js_first rows with
  | JUndefined => pret JNull
  | r => PDone (js_get r "id")
  end).

Definition insertBook_p (title : jsval) : prog jsval :=
  pbind (pquery (SQL ["INSERT INTO books (title) VALUES ("; ") RETURNING id"] [title])) (fun rows =>
  PDone (js_get (js_first rows) "id")).

Definition getMatchingAnnotationID_p (book_id end_ : jsval) : prog jsval :=
  pbind (pquery (matching_query book_id end_)) (fun rows =>
  if negb (truthy (js_first rows)) then pret JNull
  else PDone (js_get (js_first rows) "id")).

Definition addAnnotation_p (annotation : jsval) : prog jsval :=
  pbind (PDone (destructure_annotation annotation)) (fun f =>
  pbind (getBookID_p (f_title f)) (fun book_id =>
  pbind (if negb (truthy book_id) then insertBook_p (f_title f) else pret book_id) (fun book_id =>
  pbind (getMatchingAnnotationID_p book_id (f_end f)) (fun matchID =>
  pbind (pquery (add_query book_id matchID f)) (fun rows =>
  pret (js_first rows)))))).

(** ** Running a call alone *)

Lemma run_pbind {A B} (p : prog A) (f : A -> prog B) d :
  run_prog (pbind p f) d = sbind (run_prog p) (fun a => run_prog (f a)) d.
Proof.
  revert d. induction p as [[a|e]|q k IH]; intros d; [reflexivity | reflexivity|].
  simpl. unfold sbind. destruct (db_query q d) as [[v|e] d']; [apply IH | reflexivity].
Qed.

Lemma run_pquery q d : run_prog (pquery q) d = db_query q d.
Proof. simpl. unfold sbind. destruct (db_query q d) as [[v|e] d']; reflexivity. Qed.

Lemma run_pbind_query {B} q (f : jsval -> prog B) d :
  run_prog (pbind (pquery q) f) d = sbind (db_query q) (fun v => run_prog (f v)) d.
Proof. reflexivity. Qed.

(** One bind of a call against one bind of its monadic definition. *)
Ltac run_bind := rewrite run_pbind; apply sbind_congr.

Lemma getBookID_p_run t d : run_prog (getBookID_p t) d = Books.getBookID t d.
Proof.
  unfold getBookID_p, Books.getBookID. rewrite run_pbind_query. apply sbind_ext.
  intros rows d'. destruct (js_first rows); reflexivity.
Qed.

Lemma insertBook_p_run t d : run_prog (insertBook_p t) d = Books.insertBook t d.
Proof. unfold insertBook_p, Books.insertBook. rewrite run_pbind_query. reflexivity. Qed.

Lemma getMatchingAnnotationID_p_run b e d :
  run_prog (getMatchingAnnotationID_p b e) d = getMatchingAnnotationID b e d.
Proof.
  unfold getMatchingAnnotationID_p, getMatchingAnnotationID. rewrite run_pbind_query. apply sbind_ext.
  intros rows d'. destruct (negb (truthy (js_first rows))); reflexivity.
Qed.

(** [addAnnotation] written with its awaits, run alone, is
    [addAnnotation]: on every database and input, the same result and the
    same database. *)
Theorem addAnnotation_p_equiv a d : run_prog (addAnnotation_p a) d = addAnnotation a d.
Proof.
  unfold addAnnotation_p, addAnnotation.
  run_bind; [reflexivity | intros f d1].
  run_bind; [apply getBookID_p_run | intros b d2].
  run_bind; [intros s; destruct (negb (truthy b)); [apply insertBook_p_run | reflexivity] | intros b' d3].
  run_bind; [apply getMatchingAnnotationID_p_run | intros m d4].
  run_bind; [apply run_pquery | reflexivity].
Qed.

(** ** Schedules *)

(** Resume a call: its awaited query runs on the current database. *)
Definition resume (p : prog jsval) (d : db) : prog jsval * db :=
  match p with
  | PDone r => (PDone r, d)
  | PAwait q k =>
      match db_query q d with
      | (Ok v, d') => (k v, d')
      | (Err e, d') => (PDone (Err e), d')
      end
  end.

Fixpoint set_nth {A} (i : nat) (x : A) (l : list A) : list A :=
  match l, i with
  | [], _ => []
  | _ :: l', O => x :: l'
  | y :: l', S i' => y :: set_nth i' x l'
  end.

(** Run the calls [ts] along a schedule: each entry resumes one call. *)
Fixpoint run_sched (s : list nat) (ts : list (prog jsval)) (d : db) : list (prog jsval) * db :=
  match s with
  | [] => (ts, d)
  | i :: s' =>
      match nth_error ts i with
      | Some p => let (p', d') := resume p d in run_sched s' (set_nth i p' ts) d'
      | None => run_sched s' ts d
      end
  end.

(** A database where the book "Foo" exists and has no annotation. *)
Definition foo_book_db : db := snd (Books.insertBook (JStr "Foo") initial_db).

Definition resolved (p : prog jsval) : bool :=
  match p with PDone (Ok _) => true | _ => false end.

(** Two [addAnnotation(foo_first)] calls on a database where the book
    exists.  Run one after the other, they leave one annotation for
    [(book_id 1, end 20)] (the second call updates it); interleaved so
    that both look for a match before either writes, both resolve and
    leave two annotations (ids 1 and 2) for the same [(book_id, end)]. *)
Theorem addAnnotation_race :
  let ts := [addAnnotation_p foo_first; addAnnotation_p foo_first] in
  map (fun r => (cell r "book_id", cell r "end"))
      (annotation_rows (snd (run_sched [0; 0; 0; 1; 1; 1] ts foo_book_db))) = [(VInt 1, VInt 20)] /\
  map (fun r => (cell r "id", cell r "book_id", cell r "end"))
      (annotation_rows (snd (run_sched [0; 1; 0; 1; 0; 1] ts foo_book_db))) =
    [(VInt 1, VInt 1, VInt 20); (VInt 2, VInt 1, VInt 20)] /\
  map resolved (fst (run_sched [0; 1; 0; 1; 0; 1] ts foo_book_db)) = [true; true].
Proof. split; [|split]; vm_compute; reflexivity. Qed.

(** Resuming a call does not change what running it alone produces: the
    scheduler agrees with [run_prog] when one call runs at a time. *)
Lemma resume_run p d : run_prog p d = run_prog (fst (resume p d)) (snd (resume p d)).
Proof.
  destruct p as [r|q k]; [reflexivity|]. simpl. unfold sbind.
  destruct (db_query q d) as [[v|e] d']; reflexivity.
Qed.

Lemma run_sched_alone n : forall p d,
  let (ts, d') := run_sched (repeat 0 n) [p] d in
  exists p', ts = [p'] /\ run_prog p' d' = run_prog p d.
Proof.
  induction n as [|n IH]; intros p d; simpl; [exists p; split; reflexivity|].
  pose proof (resume_run p d) as H. destruct (resume p d) as [p1 d1]. simpl in H.
  specialize (IH p1 d1). destruct (run_sched (repeat 0 n) [p1] d1) as [ts d'].
  destruct IH as [p' [-> H']]. exists p'. split; [reflexivity | congruence].
Qed.

(** ** Termination and progress *)

(** The call finishes after at most [n] resumptions, whatever the awaited
    queries answer. *)
Fixpoint within {A} (n : nat) (p : prog A) {struct p} : Prop :=
  match p with
  | PDone _ => True
  | PAwait _ k => match n with O => False | S n' => forall v, within n' (k v) end
  end.

Definition finished {A} (p : prog A) : bool :=
  match p with PDone _ => true | PAwait _ _ => false end.

Lemma within_mono {A} n m (p : prog A) : n <= m -> within n p -> within m p.
Proof.
  revert n m. induction p as [r|q k IH]; intros n m Hle H; simpl in *; [exact I|].
  destruct n as [|n]; [contradiction|]. destruct m as [|m]; [lia|].
  intros v. apply (IH v n); [lia | apply H].
Qed.

Lemma within_pbind {A B} n m (p : prog A) (f : A -> prog B) :
  within n p -> (forall a, within m (f a)) -> within (n + m) (pbind p f).
Proof.
  revert n. induction p as [[a|e]|q k IH]; intros n Hp Hf; simpl.
  - apply (within_mono m); [lia | apply Hf].
  - exact I.
  - destruct n as [|n]; [contradiction|]. simpl. intros v. apply IH; [apply Hp | exact Hf].
Qed.

Lemma within_0_finished {A} (p : prog A) : within 0 p -> finished p = true.
Proof. destruct p; simpl; tauto. Qed.

Lemma getBookID_p_within t : within 1 (getBookID_p t).
Proof. simpl. intros v. destruct (js_first v); exact I. Qed.

Lemma insertBook_p_within t : within 1 (insertBook_p t).
Proof. simpl. intros v. exact I. Qed.

Lemma getMatchingAnnotationID_p_within b e : within 1 (getMatchingAnnotationID_p b e).
Proof. simpl. intros v. destruct (negb _); exact I. Qed.

(** Count the awaits of [addAnnotation_p], bind by bind. *)
Ltac add_within :=
  match goal with
  | |- within _ (pbind (PDone ?o) _) =>
      let f := fresh "f" in destruct o as [f|]; [cbn [pbind] | exact I]
  | _ => idtac
  end;
  apply (within_pbind 1 3); [apply getBookID_p_within | intros ?b];
  apply (within_pbind 1 2); [destruct (negb (truthy _)); [apply insertBook_p_within | exact I] | intros ?b'];
  apply (within_pbind 1 1); [apply getMatchingAnnotationID_p_within | intros ?m];
  simpl; intros ?v; exact I.

Lemma resume_within b p d : within b p -> within (pred b) (fst (resume p d)).
Proof.
  destruct p as [r|q k]; simpl; [tauto|]. destruct b as [|b]; [tauto|]. intros H.
  destruct (db_query q d) as [[v|e] d']; simpl; [apply H | exact I].
Qed.

Lemma nth_set_nth {A} i j (x y : A) l : i < length l ->
  nth j (set_nth i x l) y = if Nat.eq_dec j i then x else nth j l y.
Proof.
  revert i j. induction l as [|z l IH]; intros i j Hi; simpl in Hi; [lia|].
  destruct (Nat.eq_dec j i) as [->|Hne].
  - destruct i as [|i]; cbn [set_nth nth]; [reflexivity|].
    rewrite IH by lia. destruct (Nat.eq_dec i i); congruence.
  - destruct i as [|i], j as [|j]; cbn [set_nth nth]; try reflexivity; [lia|].
    rewrite IH by lia. destruct (Nat.eq_dec j i); [lia | reflexivity].
Qed.

Lemma forall2_set_nth {A B} (R : A -> B -> Prop) i x y l1 l2 :
  Forall2 R l1 l2 -> R x y -> Forall2 R (set_nth i x l1) (set_nth i y l2).
Proof.
  intros H Hxy. revert i. induction H as [|a b l1 l2 Hab H IH]; intros [|i]; simpl; constructor; auto.
Qed.

Lemma forall2_nth_error {A B} (R : A -> B -> Prop) l1 l2 i b d :
  Forall2 R l1 l2 -> nth_error l2 i = Some b -> i < length l1 /\ R (nth i l1 d) b.
Proof.
  intros H. revert i. induction H as [|a b' l1 l2 Hab H IH]; intros [|i] Hi; simpl in *; try discriminate.
  - injection Hi as <-. split; [lia | exact Hab].
  - destruct (IH i Hi). split; [lia | assumption].
Qed.

(** The calls left to run, each within its remaining budget: a schedule
    that resumes every call at least its budget finishes all of them. *)
Lemma run_sched_budget s : forall ts bs d,
  Forall2 (fun b p => within b p) bs ts ->
  (forall i, nth i bs 0 <= count_occ Nat.eq_dec s i) ->
  forallb finished (fst (run_sched s ts d)) = true.
Proof.
  induction s as [|i s IH]; intros ts bs d Hb Hc; simpl.
  - induction Hb as [|b p bs ts Hp _ IHb]; simpl; [reflexivity|].
    rewrite (within_0_finished p) by (apply (within_mono b); [apply (Hc 0) | exact Hp]).
    apply IHb. intros j. apply (Hc (S j)).
  - destruct (nth_error ts i) as [p|] eqn:Hi.
    + destruct (forall2_nth_error _ _ _ _ _ 0 Hb Hi) as [Hlen Hp].
      pose proof (resume_within _ _ d Hp) as Hp'. destruct (resume p d) as [p' d']. simpl in Hp'.
      apply (IH _ (set_nth i (pred (nth i bs 0)) bs)); [apply forall2_set_nth; assumption|].
      intros j. rewrite nth_set_nth by exact Hlen. specialize (Hc j). simpl in Hc.
      destruct (Nat.eq_dec i j), (Nat.eq_dec j i); subst; lia.
    + apply (IH _ bs); [exact Hb|]. intros j. specialize (Hc j). simpl in Hc.
      destruct (Nat.eq_dec i j); [|lia]. subst j.
      apply nth_error_None in Hi. rewrite nth_overflow; [lia|].
      rewrite (Forall2_length Hb). exact Hi.
Qed.

(** Every call of [addAnnotation] finishes within four resumptions
    (the book lookup, the book insert or none, the match lookup, the
    write), whatever each query answers, errors included. *)
Lemma addAnnotation_p_within a : within 4 (addAnnotation_p a).
Proof. unfold addAnnotation_p. add_within. Qed.

(** [n] concurrent [addAnnotation] calls: every schedule that resumes
    each call at least four times (the order of the resumptions is
    arbitrary, and resumptions of finished calls or of no call are
    allowed) leaves every call finished, resolved or rejected: no call
    waits forever, whatever the others do to the database. *)
Theorem addAnnotation_calls_finish anns s d :
  (forall i, i < length anns -> 4 <= count_occ Nat.eq_dec s i) ->
  forallb finished (fst (run_sched s (map addAnnotation_p anns) d)) = true.
Proof.
  intros H. apply (run_sched_budget s _ (map (fun _ => 4) anns)).
  - clear H. induction anns as [|a anns IH]; [constructor | simpl; constructor; [apply addAnnotation_p_within | exact IH]].
  - intros i. destruct (Nat.lt_ge_cases i (length anns)) as [Hi|Hi]; [|rewrite nth_overflow; [lia|]].
    + replace (nth i (map (fun _ => 4) anns) 0) with 4; [apply H, Hi|].
      clear H. revert i Hi. induction anns as [|a anns IH]; intros [|i] Hi; simpl in *;
        [lia | lia | reflexivity | apply IH; lia].
    + rewrite length_map. exact Hi.
Qed.

Lemma addAnnotation_calls_finish_witness :
  (forall i, i < length [foo_first; foo_second] -> 4 <= count_occ Nat.eq_dec [0; 1; 0; 1; 1; 0; 0; 1] i) /\
  forallb finished (fst (run_sched [0; 1; 0; 1; 1; 0; 0; 1]
                           (map addAnnotation_p [foo_first; foo_second]) foo_book_db)) = true.
Proof.
  split; [intros [|[|i]] Hi; simpl in *; lia|].
  apply addAnnotation_calls_finish. intros [|[|i]] Hi; simpl in *; lia.
Defined.
