(* ===== verification/Ids.v ===== *)
(** * Ids and the sequence

    The ids of [kindle_annotations] come from its serial sequence: the
    store never writes [id] itself (no INSERT lists it, no SET assigns
    it).  So every stored id lies between 1 and the sequence's next value
    minus one ([ids_below_next]), on every database reachable from a fresh
    one; hence every id is a positive [integer], and the [ON CONFLICT (id)]
    clause of [addAnnotation] never fires after any history. *)

From Stdlib Require Import String Ascii ZArith List Lia Bool.
From S2P Require Import Prelude Js SqlText SqlTemplate SqlLexer SqlParser SqlValue SqlEngine EngineFacts Schema Books Annotations Statements StoreFacts ReadFacts RouteFacts WriteFacts Lifecycle.
Import ListNotations.
Open Scope string_scope.

(** The row's id is an integer in [lo, hi). *)
Definition id_in (lo hi : Z) (r : row) : Prop :=
  exists z, cell r "id" = VInt z /\ (lo <= z < hi)%Z.

Definition ids_below_next (t : table) : Prop :=
  (1 <= tbl_next t <= int4_max + 1)%Z /\ Forall (id_in 1 (tbl_next t)) (tbl_rows t).

(** A statement that does not write the [id] of [kindle_annotations]. *)
Definition writes_no_id (s : stmt) : bool :=
  let no_id cs := negb (existsb (String.eqb "id") cs) in
  match s with
  | SSelect _ _ _ _ | SDelete _ _ _ => true
  | SUpdate tbl sets _ _ => negb (String.eqb tbl "kindle_annotations") || no_id (map fst sets)
  | SInsert tbl cols _ oc _ =>
      negb (String.eqb tbl "kindle_annotations") ||
      (no_id cols && match oc with Some (_, DoUpdate sets) => no_id (map fst sets) | _ => true end)
  end.

(** ** Rows keep their ids *)

Lemma no_id_notin cs : negb (existsb (String.eqb "id") cs) = true -> ~ In "id" cs.
Proof.
  intros H Hin. apply negb_true_iff in H. rewrite <- not_true_iff_false in H. apply H.
  apply existsb_exists. exists "id". split; [exact Hin | apply String.eqb_refl].
Qed.

Lemma id_in_mono lo hi hi' r : (hi <= hi')%Z -> id_in lo hi r -> id_in lo hi' r.
Proof. intros H [z [Hz Hr]]. exists z. split; [exact Hz | lia]. Qed.

(** A SET list that does not name a column leaves it as it was. *)
Lemma apply_sets_cell c params t excl sets r r' :
  ~ In c (map fst sets) -> apply_sets params t excl sets r = Ok r' -> cell r' c = cell r c.
Proof.
  unfold apply_sets. intros Hn.
  destruct (omap _ sets) as [nv|] eqn:Ho; [|discriminate]. intros [= <-].
  assert (Hk : map fst nv = map fst sets).
  { refine (omap_fst _ fst sets nv _ Ho). intros ce cv.
    destruct (col_type_of t (fst ce)); [|discriminate].
    destruct (obind _ _); [intros [= <-]; reflexivity | discriminate]. }
  unfold cell. rewrite fold_assoc_set_get_ne; [reflexivity|]. rewrite Hk. exact Hn.
Qed.

Lemma apply_sets_id params t excl sets r r' :
  ~ In "id" (map fst sets) -> apply_sets params t excl sets r = Ok r' -> cell r' "id" = cell r "id".
Proof. apply apply_sets_cell. Qed.

Lemma apply_sets_id_in params t excl sets lo hi r r' :
  ~ In "id" (map fst sets) -> apply_sets params t excl sets r = Ok r' -> id_in lo hi r -> id_in lo hi r'.
Proof. intros Hn Ha [z [Hz Hr]]. exists z. rewrite (apply_sets_id _ _ _ _ _ _ Hn Ha). auto. Qed.

Lemma update_rows_forall (P : row -> Prop) params t sets w rs all upd :
  Forall P rs -> (forall r r', P r -> apply_sets params t None sets r = Ok r' -> P r') ->
  update_rows params t sets w rs = Ok (all, upd) -> Forall P all.
Proof.
  intros Hrs Hp. revert all upd. induction Hrs as [|r rs Hr Hrs IH]; simpl; intros all upd H.
  - injection H as <- <-. constructor.
  - destruct (where_holds params t r w) as [[]|]; [| |discriminate].
    + destruct (apply_sets params t None sets r) as [r'|] eqn:Ha; [|discriminate].
      destruct (update_rows params t sets w rs) as [[all' upd']|]; [|discriminate].
      injection H as <- <-. constructor; [eauto | eapply IH; reflexivity].
    + destruct (update_rows params t sets w rs) as [[all' upd']|]; [|discriminate].
      injection H as <- <-. constructor; [exact Hr | eapply IH; reflexivity].
Qed.

(** ** Each statement keeps the ids below the sequence *)

Lemma exec_update_ids params t sets w ret out t' :
  ~ In "id" (map fst sets) -> ids_below_next t -> exec_update params t sets w ret = Ok (out, t') ->
  ids_below_next t'.
Proof.
  intros Hn [Hnext Hids]. unfold exec_update.
  destruct (update_rows _ _ _ _ _) as [[all upd]|] eqn:Hup; [|discriminate].
  destruct (unique_ok t all); [|discriminate].
  destruct (output _ _ _); [|discriminate]. intros [= _ <-]. split; [exact Hnext|].
  eapply update_rows_forall; [exact Hids | | exact Hup]. intros r r'. eauto using apply_sets_id_in.
Qed.

Lemma exec_delete_ids params t w ret out t' :
  ids_below_next t -> exec_delete params t w ret = Ok (out, t') -> ids_below_next t'.
Proof.
  intros [Hnext Hids]. unfold exec_delete.
  destruct (filter_rows _ _ _ _); [|discriminate]. destruct (omap _ _); [|discriminate].
  destruct (output _ _ _); [|discriminate]. intros [= _ <-].
  split; [exact Hnext | apply forall_kept; exact Hids].
Qed.

Lemma exec_insert_ids params t cols vals oc ret out t' :
  table_wf t -> tbl_serial t = Some "id" -> ~ In "id" cols ->
  match oc with Some (_, DoUpdate sets) => ~ In "id" (map fst sets) | _ => True end ->
  ids_below_next t -> exec_insert params t cols vals oc ret = Ok (out, t') -> ids_below_next t'.
Proof.
  intros Hwf Hs Hc Hoc [Hnext Hids]. unfold exec_insert.
  destruct (negb _); [discriminate|].
  destruct (eval_given params t cols vals) as [given|] eqn:Hg; [|discriminate].
  pose proof (serial_col t "id" Hwf Hs) as Hsf.
  pose proof (eval_given_notin _ _ _ _ _ "id" Hg Hc) as Hgiven.
  unfold next_serial. rewrite Hs, (existsb_eqb_notin "id" cols Hc).
  destruct (Z.leb_spec (tbl_next t) int4_max) as [Hmax|]; [|discriminate].
  set (t1 := with_next t (tbl_next t + 1)).
  set (nw := proposed_row t1 given (Some ("id", tbl_next t))).
  assert (Hnw : id_in 1 (tbl_next t + 1) nw).
  { exists (tbl_next t). split; [|lia]. unfold cell, nw.
    rewrite proposed_row_serial; [reflexivity | exact Hsf | exact Hgiven]. }
  assert (Hold : Forall (id_in 1 (tbl_next t + 1)) (tbl_rows t1)).
  { refine (Forall_impl _ _ Hids). intros r. apply id_in_mono. lia. }
  assert (Hplain : forall out t', insert_plain params t1 nw ret = Ok (out, t') -> ids_below_next t').
  { unfold insert_plain. intros o t2. destruct (unique_ok _ _); [|discriminate].
    destruct (output _ _ _); [|discriminate]. intros [= _ <-].
    split; [cbn [tbl_next with_rows with_next t1]; lia|]. apply Forall_app. split; [exact Hold | constructor; [exact Hnw | constructor]]. }
  destruct oc as [[ccols action]|]; [|apply Hplain].
  destruct (negb _); [discriminate|].
  destruct (find (same_key ccols nw) (tbl_rows t1)) as [old|] eqn:Hf; [|apply Hplain].
  destruct action as [|sets].
  - intros [= _ <-]. split; [cbn [tbl_next with_rows with_next t1]; lia | exact Hold].
  - destruct (apply_sets params t1 (Some nw) sets old) as [old'|] eqn:Ha; [|discriminate].
    destruct (unique_ok t1 _); [|discriminate]. destruct (output _ _ _); [|discriminate].
    intros [= _ <-]. split; [cbn [tbl_next with_rows with_next t1]; lia|]. apply replace_row_forall; [exact Hold|].
    apply find_some in Hf as [Hin _]. eapply apply_sets_id_in; [exact Hoc | exact Ha |].
    eapply Forall_forall; [exact Hold | exact Hin].
Qed.

(** ** Statements and queries *)

Definition ann_ids (d : db) : Prop :=
  forall t, find_table "kindle_annotations" d = Some t -> ids_below_next t.

Lemma find_set_table_ne t n d : tbl_name t <> n -> find_table n (set_table t d) = find_table n d.
Proof.
  intros Hn. induction d as [|t0 d IH]; simpl; [reflexivity|].
  destruct (String.eqb_spec (tbl_name t0) (tbl_name t)) as [E|E]; simpl.
  - rewrite E. destruct (String.eqb_spec (tbl_name t) n); [contradiction | reflexivity].
  - destruct (String.eqb (tbl_name t0) n); [reflexivity | exact IH].
Qed.

Lemma schema_name t t' : schema_of t' = schema_of t -> tbl_name t' = tbl_name t.
Proof. unfold schema_of. congruence. Qed.

(** Writing back a table the statement changed. *)
Lemma put_ids d n t t' : find_table n d = Some t -> schema_of t' = schema_of t -> ann_ids d ->
  (n = "kindle_annotations" -> ids_below_next t') -> ann_ids (set_table t' d).
Proof.
  intros Ht Hs Hids Hk ta. apply schema_name in Hs. pose proof (find_table_name _ _ _ Ht) as Hn.
  destruct (String.eqb_spec n "kindle_annotations") as [->|Hne].
  - replace "kindle_annotations" with (tbl_name t') by congruence.
    rewrite (find_set_table t' t d) by congruence. intros [= <-]. auto.
  - rewrite find_set_table_ne by congruence. apply Hids.
Qed.

Lemma oc_no_id (oc : option (list string * conflict_action)) :
  match oc with Some (_, DoUpdate sets) => negb (existsb (String.eqb "id") (map fst sets)) | _ => true end = true ->
  match oc with Some (_, DoUpdate sets) => ~ In "id" (map fst sets) | _ => True end.
Proof. destruct oc as [[cc [|sets]]|]; auto using no_id_notin. Qed.

Lemma store_wf_ann d t : store_wf d -> find_table "kindle_annotations" d = Some t ->
  table_wf t /\ annotation_schema t.
Proof.
  intros Hwf Ht. destruct (store_wf_table d Hwf) as [ta [Hta [_ [Htw _]]]].
  destruct Hwf as [_ [tb [Htb Hsch]]]. rewrite Ht in Hta, Htb.
  injection Hta as <-. injection Htb as <-. auto.
Qed.

Lemma exec_stmt_ids params s d out d' :
  store_wf d -> ann_ids d -> writes_no_id s = true -> exec_stmt params s d = Ok (out, d') -> ann_ids d'.
Proof.
  intros Hwf Hids Hw. unfold exec_stmt.
  destruct (find_table (stmt_table s) d) as [t|] eqn:Ht; [|discriminate].
  destruct (bind_params params t s); [|discriminate].
  assert (Hann : stmt_table s = "kindle_annotations" ->
                 table_wf t /\ tbl_serial t = Some "id" /\ ids_below_next t).
  { intros Hs. rewrite Hs in Ht. destruct (store_wf_ann d t Hwf Ht) as (Htw & _ & Hser & _). auto. }
  destruct s as [tgts tn w lim|tn sets w ret|tn cols vals oc ret|tn w ret]; simpl in Hw, Hann, Ht.
  - destruct (exec_select _ _ _ _ _); [intros [= _ <-]; exact Hids | discriminate].
  - destruct (exec_update params t sets w ret) as [[o t']|] eqn:E; [|discriminate].
    intros [= _ <-]. apply (put_ids d tn t t' Ht (exec_update_schema _ _ _ _ _ _ _ E) Hids).
    intros ->. destruct (Hann eq_refl) as (_ & _ & Hb). rewrite String.eqb_refl in Hw.
    exact (exec_update_ids _ _ _ _ _ _ _ (no_id_notin _ Hw) Hb E).
  - destruct (exec_insert params t cols vals oc ret) as [[o t']|] eqn:E; [|discriminate].
    intros [= _ <-]. apply (put_ids d tn t t' Ht (exec_insert_schema _ _ _ _ _ _ _ _ E) Hids).
    intros ->. destruct (Hann eq_refl) as (Htw & Hser & Hb). rewrite String.eqb_refl in Hw.
    apply andb_prop in Hw as [Hc Hoc].
    exact (exec_insert_ids _ _ _ _ _ _ _ _ Htw Hser (no_id_notin _ Hc) (oc_no_id oc Hoc) Hb E).
  - destruct (exec_delete params t w ret) as [[o t']|] eqn:E; [|discriminate].
    intros [= _ <-]. apply (put_ids d tn t t' Ht (exec_delete_schema _ _ _ _ _ _ E) Hids).
    intros ->. destruct (Hann eq_refl) as (_ & _ & Hb). apply (exec_delete_ids _ _ _ _ _ _ Hb E).
Qed.

(** The invariant of this file: the store's schema and the ids below the
    sequence. *)
Definition id_inv (d : db) : Prop := store_wf d /\ ann_ids d.

(** A query whose text, whatever it parses to, does not write [id]. *)
Definition safe_query (q : sql_statement) : Prop :=
  forall st, parse_sql (text q) = Ok st -> writes_no_id st = true.

Lemma db_query_ids q d : safe_query q -> id_inv d -> id_inv (snd (db_query q d)).
Proof.
  intros Hq [Hwf Hids]. split; [apply db_query_store_wf; exact Hwf|].
  unfold db_query, slift, run_sql.
  destruct (parse_sql (text q)) as [st|] eqn:Hp; [|exact Hids].
  destruct (exec_stmt _ st d) as [[out d']|] eqn:E; [|exact Hids].
  exact (exec_stmt_ids _ _ _ _ _ Hwf Hids (Hq st Hp) E).
Qed.

Lemma preserves_query q : safe_query q -> preserves id_inv (db_query q).
Proof. intros Hq d. apply db_query_ids, Hq. Qed.

(** The text of the query is fixed: parse it. *)
Ltac safe_closed :=
  let st := fresh "st" in let Hp := fresh "Hp" in
  intros st Hp; vm_compute in Hp; injection Hp as <-; reflexivity.

(** A computation whose result satisfies [Q] when it resolves. *)
Definition yields {A} (Q : A -> Prop) (m : stM db js_error A) : Prop :=
  forall d, id_inv d -> id_inv (snd (m d)) /\ match fst (m d) with Ok a => Q a | Err _ => True end.

Lemma yields_bind {A B} (Q : A -> Prop) (m : stM db js_error A) (k : A -> stM db js_error B) :
  yields Q m -> (forall a, Q a -> preserves id_inv (k a)) -> preserves id_inv (sbind m k).
Proof.
  intros Hm Hk d Hd. unfold sbind. destruct (Hm d Hd) as [H1 H2].
  destruct (m d) as [[a|e] d']; simpl in *; [apply Hk|]; assumption.
Qed.

Ltac ids_step :=
  match goal with
  | |- preserves _ (sbind _ _) => apply preserves_bind; intros
  | |- preserves _ (if _ then _ else _) => apply preserves_if
  | |- preserves _ (match ?x with _ => _ end) => destruct x
  | |- preserves _ (sret _) => apply preserves_ret
  | |- preserves _ (sthrow _) => apply preserves_throw
  | |- preserves _ (sfrom _) => apply preserves_from
  | |- preserves _ (db_query _) => apply preserves_query; safe_closed
  | |- preserves _ _ => solve [auto with ids]
  end.

Ltac ids_preserve := repeat (cbv zeta; ids_step).

Create HintDb ids.

Lemma ids_getBookID t : preserves id_inv (Books.getBookID t).
Proof. unfold Books.getBookID. ids_preserve. Qed.

Lemma ids_insertBook t : preserves id_inv (Books.insertBook t).
Proof. unfold Books.insertBook. ids_preserve. Qed.

#[local] Hint Resolve ids_getBookID ids_insertBook : ids.

(** ** The id [getMatchingAnnotationID] answers *)

Definition match_id (v : jsval) : Prop :=
  v = JNull \/ exists z, v = JNum z /\ (1 <= z <= int4_max)%Z.

Lemma matching_rows b e d : id_inv d ->
  match db_query (matching_query b e) d with
  | (Ok rows, _) => exists out, rows = JArr (map js_of_row out) /\
      Forall (fun o => exists z, o = [("id", VInt z)] /\ (1 <= z <= int4_max)%Z) out
  | (Err _, _) => True
  end.
Proof.
  intros [Hwf Hids]. rewrite db_query_run. unfold run_sql. rewrite matching_query_parses.
  unfold exec_stmt. cbn [stmt_table].
  destruct (find_table _ d) as [t|] eqn:Ht; [|exact I].
  destruct (bind_params _ _ _); [|exact I]. unfold exec_select.
  destruct (filter_rows _ _ _ (tbl_rows t)) as [kept|] eqn:Hf; [|exact I].
  destruct (output _ _ kept) as [out|] eqn:Ho; [|exact I].
  exists out. split; [reflexivity|]. destruct (Hids t Ht) as [Hnext Hrows].
  refine (Forall_impl _ _ (output_id _ _ _ Ho)). intros o [r [Hin ->]].
  apply (filter_rows_incl _ _ _ _ _ Hf) in Hin.
  destruct (proj1 (Forall_forall _ _) Hrows r Hin) as [z [Hz Hb]].
  exists z. rewrite Hz. split; [reflexivity | lia].
Qed.

Lemma ids_getMatchingAnnotationID b e : preserves id_inv (getMatchingAnnotationID b e).
Proof. unfold getMatchingAnnotationID. ids_preserve. Qed.

Lemma getMatchingAnnotationID_yields b e : yields match_id (getMatchingAnnotationID b e).
Proof.
  intros d Hd. split; [exact (ids_getMatchingAnnotationID b e d Hd)|].
  pose proof (matching_rows b e d Hd) as H. unfold getMatchingAnnotationID, sbind.
  destruct (db_query _ d) as [[rows|err] d1]; [|exact I].
  destruct H as [[|o out] [-> Hout]]; [left; reflexivity|].
  inversion Hout as [|? ? [z [-> Hz]] _]; subst. right. exists z. auto.
Qed.

(** ** Every operation keeps the ids below the sequence *)

(** The final statement of [addAnnotation] writes no id: the INSERT does
    not list it, and the UPDATE's [WHERE id = matchID] only reads it. *)
Lemma add_query_safe b m f : match_id m -> safe_query (add_query b m f).
Proof.
  intros [-> | [z [-> Hz]]] st.
  - rewrite add_query_insert_parses by reflexivity. intros [= <-]. reflexivity.
  - rewrite add_query_update_cases by (split; [lia | apply int4_below_threshold; lia]).
    destruct (truthy _), (truthy _); intros H; inversion H; reflexivity.
Qed.

Lemma ids_addAnnotation a : preserves id_inv (addAnnotation a).
Proof.
  unfold addAnnotation. apply preserves_bind; [apply preserves_from | intros f].
  apply preserves_bind; [ids_step | intros b].
  apply preserves_bind; [ids_preserve | intros b'].
  apply (yields_bind match_id); [apply getMatchingAnnotationID_yields | intros m Hm].
  apply preserves_bind; [apply preserves_query, add_query_safe, Hm | intros; apply preserves_ret].
Qed.

#[local] Hint Resolve ids_addAnnotation : ids.

Lemma run_op_ids o d : id_inv d -> id_inv (snd (run_op o d)).
Proof.
  revert d. change (preserves id_inv (run_op o)).
  destruct o; cbn [run_op];
    unfold addCalibreAnnotation, getAllAnnotations, getAnnotationByID, getAnnotationsByBookID,
      editAnnotation, deleteAnnotation; ids_preserve.
Qed.

Lemma initial_ids : id_inv initial_db.
Proof.
  split; [exact store_wf_initial|]. intros t Ht. vm_compute in Ht. injection Ht as <-.
  split; [cbn -[int4_max]; unfold int4_max; lia | constructor].
Qed.

Lemma reachable_id_inv d : reachable d -> id_inv d.
Proof. induction 1 as [|o d _ IH]; [exact initial_ids | exact (run_op_ids o d IH)]. Qed.

(** ** What the invariant gives *)

(** C17: in every database reachable from a fresh one by calls to the
    store, each annotation's id is an integer between 1 and the
    sequence's next value minus one, and that value never exceeds
    [2^31]: the ids are positive [integer]s (int4) and fresh ids come from
    above all of them. *)
Theorem reachable_ids_bounded d : reachable d ->
  exists t, find_table "kindle_annotations" d = Some t /\ (tbl_next t <= int4_max + 1)%Z /\
    Forall (fun r => exists z, cell r "id" = VInt z /\ (1 <= z < tbl_next t)%Z) (tbl_rows t).
Proof.
  intros Hr. destruct (reachable_id_inv d Hr) as [[_ [t [Ht _]]] Hids].
  destruct (Hids t Ht) as [Hn Hrows]. exists t. split; [exact Ht|]. split; [lia | exact Hrows].
Qed.

Lemma reachable_ids_bounded_witness :
  reachable (snd (run_op (OpAddAnnotation foo_first) initial_db)) /\
  exists t, find_table "kindle_annotations" (snd (run_op (OpAddAnnotation foo_first) initial_db)) = Some t /\
    (tbl_next t <= int4_max + 1)%Z /\
    Forall (fun r => exists z, cell r "id" = VInt z /\ (1 <= z < tbl_next t)%Z) (tbl_rows t).
Proof.
  split; [apply reach_op, reach_init|]. apply reachable_ids_bounded, reach_op, reach_init.
Defined.

(** C18: in every reachable database, [getMatchingAnnotationID] resolves
    to [null] or to a positive int4 id: the [matchID] that [addAnnotation]
    prints into its UPDATE is a positive number that prints in decimal, as
    [Statements.add_query_update_parse] assumes. *)
Theorem matchID_positive_int4 d b e : reachable d ->
  match fst (getMatchingAnnotationID b e d) with
  | Ok v => v = JNull \/ exists z, v = JNum z /\ (1 <= z <= int4_max)%Z
  | Err _ => True
  end.
Proof. intros Hr. exact (proj2 (getMatchingAnnotationID_yields b e d (reachable_id_inv d Hr))). Qed.

Lemma matchID_positive_int4_witness :
  reachable (snd (run_op (OpAddAnnotation foo_first) initial_db)) /\
  match fst (getMatchingAnnotationID (JNum 1) (JNum 20) (snd (run_op (OpAddAnnotation foo_first) initial_db))) with
  | Ok v => v = JNull \/ exists z, v = JNum z /\ (1 <= z <= int4_max)%Z
  | Err _ => True
  end.
Proof.
  split; [apply reach_op, reach_init|]. apply matchID_positive_int4, reach_op, reach_init.
Defined.

(** C19: after any history of calls, the INSERT of [addAnnotation] with
    its [ON CONFLICT (id) DO UPDATE] clause does exactly what the same
    INSERT without the clause does, on the annotation table as it is: the
    clause is dead code. *)
Theorem on_conflict_dead_after_any_history d t params vals ret : reachable d ->
  find_table "kindle_annotations" d = Some t ->
  exec_insert params t inserted_columns vals on_conflict_id ret =
  exec_insert params t inserted_columns vals None ret.
Proof.
  intros Hr Ht. destruct (reachable_id_inv d Hr) as [Hwf Hids].
  destruct (store_wf_ann d t Hwf Ht) as (Htw & _ & Hser & Hu).
  apply on_conflict_plain; [exact Htw | exact Hser | exact Hu | apply no_id_notin; reflexivity |].
  destruct (Hids t Ht) as [_ Hrows]. refine (Forall_impl _ _ Hrows).
  intros r [z [Hz Hb]]. exists z. split; [exact Hz | lia].
Qed.

(** After one annotation is stored, the INSERT of a second one for the
    same book, with the statement's thirteen parameters. *)
Lemma on_conflict_dead_after_any_history_witness :
  let d := snd (run_op (OpAddAnnotation foo_first) initial_db) in
  let params := [Some "1"; None; Some "Foo"; None; None; Some "10"; Some "30"; None;
                 Some "again"; None; None; None; None] in
  let vals := map EParam ([1; 2; 3; 4; 5; 6; 7; 8; 9; 10; 11; 12; 13]%Z) in
  reachable d /\
  exists t, find_table "kindle_annotations" d = Some t /\ tbl_rows t <> [] /\
    exec_insert params t inserted_columns vals on_conflict_id select_targets =
    exec_insert params t inserted_columns vals None select_targets.
Proof.
  intros d params vals. assert (Hr : reachable d) by apply reach_op, reach_init.
  split; [exact Hr|].
  destruct (find_table "kindle_annotations" d) as [t|] eqn:Ht; [|vm_compute in Ht; discriminate].
  exists t. split; [reflexivity|]. split.
  - vm_compute in Ht. injection Ht as <-. discriminate.
  - exact (on_conflict_dead_after_any_history d t params vals select_targets Hr Ht).
Defined.
