(* ===== verification/Shapes.v ===== *)
(** * The shape of what the reads return

    node-postgres turns each row of a result into an object whose keys
    are the selected columns in order; [querySelectCols] selects twelve
    columns, [time] printed by [to_char].  [annotation_object] checks that
    shape and each value's JavaScript type (a number for an integer
    column, a string for a text column and for the printed time, null for
    SQL NULL).  Every read of the store resolves to such objects, after
    any history of calls. *)

From Stdlib Require Import String Ascii ZArith List Lia Bool.
From S2P Require Import Prelude Js SqlText SqlTemplate SqlLexer SqlParser SqlValue SqlEngine EngineFacts Schema Books Annotations Statements StoreFacts ReadFacts WriteFacts Lifecycle Ids.
Import ListNotations.
Open Scope string_scope.

(** The JavaScript type of a column's value as node-postgres parses it. *)
Definition js_typed (ty : coltype) (v : jsval) : bool :=
  match ty, v with
  | _, JNull => true
  | (TInt4 | TInt8), JNum _ | (TText | TTimestamp), JStr _ | TBool, JBool _ => true
  | _, _ => false
  end.

(** The columns of [querySelectCols], in order. *)
Definition select_columns : list column :=
  [mkColumn "id" TInt4; mkColumn "book_id" TInt4; mkColumn "bookline" TText;
   mkColumn "title" TText; mkColumn "author" TText; mkColumn "language" TText;
   mkColumn "begin" TInt4; mkColumn "end" TInt4; mkColumn "time" TTimestamp;
   mkColumn "highlight" TText; mkColumn "note" TText; mkColumn "page" TInt4].

Fixpoint fields_typed (cols : list column) (fs : list (string * jsval)) : bool :=
  match cols, fs with
  | [], [] => true
  | col :: cols', (k, v) :: fs' =>
      String.eqb (col_name col) k && js_typed (col_type col) v && fields_typed cols' fs'
  | _, _ => false
  end.

Definition annotation_object (v : jsval) : bool :=
  match v with JObj fs => fields_typed select_columns fs | _ => false end.

(** ** Rows and results *)

Lemma cell_typed r c ty : row_wf annotation_columns r ->
  find (fun col => String.eqb (col_name col) c) annotation_columns = Some (mkColumn c ty) ->
  js_typed ty (js_of_value (cell r c)) = true.
Proof.
  intros Hr Hf. destruct (row_wf_lookup _ r c _ Hr Hf) as [v [Hv Ht]]. unfold cell. rewrite Hv.
  simpl in Ht. destruct ty, v; simpl in *; congruence.
Qed.

Lemma project_typed r : row_wf annotation_columns r -> annotation_object (js_of_row (project r)) = true.
Proof.
  intros Hr. unfold annotation_object, js_of_row, project. cbn [map fst snd fields_typed select_columns col_name col_type].
  rewrite !(cell_typed r _ _ Hr) by reflexivity.
  destruct (cell r "time"); reflexivity.
Qed.

Lemma output_typed params rs out : Forall (row_wf annotation_columns) rs ->
  output params select_targets rs = Ok out -> Forall (fun o => annotation_object (js_of_row o) = true) out.
Proof.
  intros Hrs. rewrite (output_project params rs Hrs). intros [= <-].
  apply Forall_map. refine (Forall_impl _ _ Hrs). apply project_typed.
Qed.

(** Whatever its WHERE and LIMIT, the projection SELECT outputs objects of
    the shape. *)
Lemma select_typed params t w lim out : tbl_cols t = annotation_columns -> table_wf t ->
  exec_select params t select_targets w lim = Ok out ->
  Forall (fun o => annotation_object (js_of_row o) = true) out.
Proof.
  intros Hc Htw. unfold exec_select.
  destruct (filter_rows _ _ _ (tbl_rows t)) as [kept|] eqn:Hf; [|discriminate].
  assert (Hk : Forall (row_wf annotation_columns) kept).
  { apply Forall_forall. intros r Hin. apply (filter_rows_incl _ _ _ _ _ Hf) in Hin.
    rewrite <- Hc. exact (proj1 (Forall_forall _ _) (twf_rows _ Htw) r Hin). }
  destruct lim as [e|]; [|apply output_typed; exact Hk].
  destruct (eval_expr params [] None (Some TInt8) e) as [v|]; [|discriminate].
  destruct v as [|n| | |]; try discriminate; [apply output_typed; exact Hk|].
  destruct (n <? 0)%Z; [discriminate|]. apply output_typed, Forall_firstn, Hk.
Qed.

(** A resolved list of rows of the shape (and a rejection is allowed). *)
Definition rows_typed (r : outcome js_error jsval) : bool :=
  match r with
  | Ok (JArr xs) => forallb annotation_object xs
  | Ok _ => false
  | Err _ => true
  end.

Lemma select_query_typed q d w lim : store_wf d ->
  parse_sql (text q) = Ok (SSelect select_targets "kindle_annotations" w lim) ->
  rows_typed (fst (db_query q d)) = true.
Proof.
  intros Hwf Hp. destruct (store_wf_table d Hwf) as [t [Ht [Hc [Htw _]]]].
  rewrite db_query_run, (run_sql_select _ d t _ _ _ Hp Ht).
  destruct (bind_params _ _ _); [|reflexivity].
  destruct (exec_select _ t _ _ _) as [out|] eqn:E; [|reflexivity]. simpl.
  apply forallb_forall. intros x Hx. apply in_map_iff in Hx as [o [<- Hin]].
  exact (proj1 (Forall_forall _ _) (select_typed _ _ _ _ _ Hc Htw E) o Hin).
Qed.

Lemma rows_typed_ret q d : rows_typed (fst (db_query q d)) = true ->
  rows_typed (fst ((rows <- db_query q ;; sret rows) d)) = true.
Proof. unfold sbind. destruct (db_query q d) as [[a|e] d']; simpl; auto. Qed.

(** [rows[0]], or [null] when it is not truthy. *)
Lemma first_row_typed q d : rows_typed (fst (db_query q d)) = true ->
  match fst ((rows <- db_query q ;;
              if negb (truthy (js_first rows)) then sret JNull else sret (js_first rows)) d) with
  | Ok x => x = JNull \/ annotation_object x = true
  | Err _ => True
  end.
Proof.
  unfold sbind. destruct (db_query q d) as [[[| | | | | xs |]|e] d']; simpl; try discriminate; auto.
  destruct xs as [|x xs]; simpl; [left; reflexivity|].
  intros H. apply andb_prop in H as [Hx _]. destruct (negb (truthy x)); simpl; auto.
Qed.

(** ** The reads *)

(** C20: after any history of calls, for every argument, the reads
    resolve to objects of the shape of [querySelectCols] (or are
    rejected): [getAllAnnotations] and [getAnnotationsByBookID] to arrays
    of objects with the twelve selected keys in order, each value null or
    of its column's JavaScript type; [getAnnotationByID] to [null] or one
    such object. *)
Theorem reads_return_annotation_objects d v : reachable d ->
  rows_typed (fst (getAllAnnotations v d)) = true /\
  rows_typed (fst (getAnnotationsByBookID v d)) = true /\
  match fst (getAnnotationByID v d) with
  | Ok x => x = JNull \/ annotation_object x = true
  | Err _ => True
  end.
Proof.
  intros Hr. pose proof (proj1 (reachable_id_inv d Hr)) as Hwf.
  unfold getAllAnnotations, getAnnotationsByBookID, getAnnotationByID. cbv zeta.
  split; [|split]; [apply rows_typed_ret | apply rows_typed_ret | apply first_row_typed];
    eapply select_query_typed; eauto using all_query_parses, by_book_query_parses, by_id_query_parses.
Qed.

Lemma reads_return_annotation_objects_witness :
  reachable sample_db /\
  rows_typed (fst (getAllAnnotations JUndefined sample_db)) = true /\
  rows_typed (fst (getAnnotationsByBookID (JStr "1") sample_db)) = true /\
  match fst (getAnnotationByID (JStr "1") sample_db) with
  | Ok x => x = JNull \/ annotation_object x = true
  | Err _ => True
  end.
Proof.
  assert (Hr : reachable sample_db).
  { unfold sample_db. change (addCalibreAnnotation sample_annotation initial_db)
      with (run_op (OpAddCalibreAnnotation sample_annotation) initial_db).
    apply reach_op, reach_init. }
  destruct (reads_return_annotation_objects sample_db JUndefined Hr) as [H1 _].
  destruct (reads_return_annotation_objects sample_db (JStr "1") Hr) as [_ [H2 H3]].
  exact (conj Hr (conj H1 (conj H2 H3))).
Defined.
