(* ===== verification/AddFacts.v ===== *)
(** * Reading back what [addAnnotation] returns

    [addAnnotation] ends with an UPDATE of the matching annotation or an
    INSERT of a new one, both [RETURNING querySelectCols], and resolves to
    [rows[0]].  This file shows that the returned object is what a lookup
    by its id then reads: the UPDATE returns the first annotation of the
    id it updates, in table order; the INSERT appends a row whose id, from
    the sequence, no other row has. *)

From Stdlib Require Import String Ascii ZArith List Lia Bool.
From S2P Require Import Prelude Js SqlText SqlTemplate SqlLexer SqlParser SqlValue SqlEngine EngineFacts Schema Books Annotations Statements StoreFacts ReadFacts WriteFacts Lifecycle Abstract Ids.
Import ListNotations.
Open Scope string_scope.

(** The first output row is the projection of a stored row [u] with an
    integer id [z], and [u] is the first row of id [z] in table order. *)
Definition reads_back (out : list row) (d : db) : Prop :=
  match out with
  | [] => True
  | o :: _ => exists u z post, o = project u /\ cell u "id" = VInt z /\
                             filter (col_is "id" z) (annotation_rows d) = u :: post
  end.

(** ** The UPDATE *)

Lemma col_is_int c z n r : cell r c = VInt z -> col_is c n r = Z.eqb z n.
Proof. intros H. unfold col_is. rewrite H. simpl. destruct (Z.eqb z n); reflexivity. Qed.

Lemma update_first_readback params t sets w m rs all u upd :
  ~ In "id" (map fst sets) ->
  (forall r, In r rs -> where_holds params t r w = Ok (col_is "id" m r)) ->
  update_rows params t sets w rs = Ok (all, u :: upd) ->
  exists post, filter (col_is "id" m) all = u :: post.
Proof.
  intros Hn. revert all upd. induction rs as [|r rs IH]; simpl; intros all upd Hw H; [discriminate|].
  rewrite (Hw r (or_introl eq_refl)) in H. destruct (col_is "id" m r) eqn:E.
  - destruct (apply_sets params t None sets r) as [r'|] eqn:Ha; [|discriminate].
    destruct (update_rows params t sets w rs) as [[all' upd']|]; [|discriminate].
    inversion H; subst. simpl.
    assert (Hr' : col_is "id" m u = col_is "id" m r)
      by (unfold col_is; rewrite (apply_sets_id _ _ _ _ _ _ Hn Ha); reflexivity).
    rewrite Hr', E. eexists. reflexivity.
  - destruct (update_rows params t sets w rs) as [[all' upd']|] eqn:Hu; [|discriminate].
    inversion H; subst. simpl. rewrite E.
    apply (IH all' upd); [intros r' H'; apply Hw; right; exact H' | reflexivity].
Qed.

(** [WHERE id = m] with the id printed into the statement. *)
Lemma where_id_num params t r m : tbl_cols t = annotation_columns -> row_wf (tbl_cols t) r ->
  where_holds params t r [("id", ENum m)] = Ok (col_is "id" m r).
Proof.
  intros Hc Hr. rewrite (where_single params t r "id" (ENum m) TInt4 (VInt m)); [reflexivity | | exact Hr | reflexivity].
  rewrite (annotation_col_type t "id" Hc). reflexivity.
Qed.

Lemma annotation_rows_set d t t' : find_table "kindle_annotations" d = Some t -> tbl_name t' = tbl_name t ->
  annotation_rows (set_table t' d) = tbl_rows t'.
Proof.
  intros Ht Hn. unfold annotation_rows. pose proof (find_table_name _ _ _ Ht) as Hname.
  replace "kindle_annotations" with (tbl_name t') by congruence.
  rewrite (find_set_table t' t d) by congruence. reflexivity.
Qed.

Lemma update_readback d t params sets m out d' :
  store_wf d -> find_table "kindle_annotations" d = Some t -> ~ In "id" (map fst sets) ->
  exec_stmt params (SUpdate "kindle_annotations" sets [("id", ENum m)] select_targets) d = Ok (out, d') ->
  reads_back out d'.
Proof.
  intros Hwf Ht Hn. destruct (store_wf_table d Hwf) as [t0 [Ht0 [Hc [Htw _]]]].
  rewrite Ht in Ht0. injection Ht0 as <-. unfold exec_stmt. cbn [stmt_table]. rewrite Ht.
  destruct (bind_params _ _ _); [|discriminate]. unfold exec_update.
  destruct (update_rows params t sets _ (tbl_rows t)) as [[all upd]|] eqn:Hup; [|discriminate].
  destruct (unique_ok t all); [|discriminate].
  destruct (update_rows_wf _ _ _ _ _ _ _ (twf_rows _ Htw) Hup) as [_ Hupd].
  rewrite Hc in Hupd. rewrite (output_project _ _ Hupd). intros [= <- <-].
  destruct upd as [|u upd]; [exact I|].
  destruct (update_first_readback params t sets _ m _ _ _ _ Hn
              (fun r Hr => where_id_num params t r m Hc (proj1 (Forall_forall _ _) (twf_rows _ Htw) r Hr)) Hup)
    as [post Hpost].
  exists u, m, post. split; [reflexivity|].
  assert (Hu : col_is "id" m u = true)
    by (assert (H : In u (filter (col_is "id" m) all)) by (rewrite Hpost; left; reflexivity);
        apply filter_In in H; exact (proj2 H)).
  split; [exact (col_is_cell _ _ _ Hu)|].
  rewrite (annotation_rows_set d t (with_rows t all) Ht eq_refl). exact Hpost.
Qed.

(** ** The INSERT *)

(** The INSERT without [id] appends one row with the sequence's value
    ([ON CONFLICT] does not fire, [WriteFacts.on_conflict_plain]). *)
Lemma insert_appends params t cols vals ret out t' :
  table_wf t -> tbl_serial t = Some "id" -> tbl_unique t = [["id"]] -> ~ In "id" cols ->
  ids_below_next t -> exec_insert params t cols vals on_conflict_id ret = Ok (out, t') ->
  exists nw, tbl_rows t' = (tbl_rows t ++ [nw])%list /\ output params ret [nw] = Ok out /\
             cell nw "id" = VInt (tbl_next t) /\
             exists given, eval_given params t cols vals = Ok given /\
                           nw = proposed_row (with_next t (tbl_next t + 1)) given (Some ("id", tbl_next t)).
Proof.
  intros Hwf Hs Hu Hc [_ Hids].
  rewrite on_conflict_plain; [| exact Hwf | exact Hs | exact Hu | exact Hc |].
  2:{ refine (Forall_impl _ _ Hids). intros r [z [Hz Hb]]. exists z. split; [exact Hz | lia]. }
  unfold exec_insert. destruct (negb _); [discriminate|].
  destruct (eval_given params t cols vals) as [given|] eqn:Hg; [|discriminate].
  pose proof (serial_col t "id" Hwf Hs) as Hsf.
  pose proof (eval_given_notin _ _ _ _ _ "id" Hg Hc) as Hgiven.
  unfold next_serial. rewrite Hs, (existsb_eqb_notin "id" cols Hc).
  destruct (Z.leb (tbl_next t) int4_max); [|discriminate].
  unfold insert_plain. destruct (unique_ok _ _); [|discriminate].
  destruct (output _ _ _) eqn:Ho; [|discriminate]. intros [= <- <-].
  eexists. split; [reflexivity|]. split; [exact Ho|]. split.
  - unfold cell. rewrite proposed_row_serial; [reflexivity | exact Hsf | exact Hgiven].
  - exists given. split; reflexivity.
Qed.

(** Every stored id is below the sequence: the new row is the only one
    of its id. *)
Lemma filter_fresh_id rs nw n : Forall (id_in 1 n) rs -> cell nw "id" = VInt n ->
  filter (col_is "id" n) (rs ++ [nw])%list = [nw].
Proof.
  intros Hrs Hnw. rewrite filter_app. simpl. rewrite (col_is_int _ _ _ _ Hnw), Z.eqb_refl.
  replace (filter (col_is "id" n) rs) with (@nil row); [reflexivity|].
  induction Hrs as [|r rs [z [Hz Hb]] _ IH]; simpl; [reflexivity|].
  rewrite (col_is_int _ _ _ _ Hz). destruct (Z.eqb_spec z n); [lia | exact IH].
Qed.

Lemma insert_readback d t params cols vals out d' :
  id_inv d -> find_table "kindle_annotations" d = Some t -> ~ In "id" cols ->
  exec_stmt params (SInsert "kindle_annotations" cols vals on_conflict_id select_targets) d = Ok (out, d') ->
  reads_back out d'.
Proof.
  intros [Hwf Hids] Ht Hc. destruct (store_wf_ann d t Hwf Ht) as (Htw & Hcols & Hs & Hu).
  destruct (Hids t Ht) as [Hb Hrows].
  unfold exec_stmt. cbn [stmt_table]. rewrite Ht. destruct (bind_params _ _ _); [|discriminate].
  destruct (exec_insert params t cols vals on_conflict_id select_targets) as [[o t']|] eqn:E; [|discriminate].
  intros [= <- <-].
  destruct (insert_appends _ _ _ _ _ _ _ Htw Hs Hu Hc (conj Hb Hrows) E) as [nw [Hr' [Ho [Hnw _]]]].
  destruct (exec_insert_wf _ _ _ _ _ _ _ _ Htw E) as [Htw' Hname].
  assert (Hnwf : row_wf annotation_columns nw).
  { assert (Hc' : tbl_cols t' = tbl_cols t)
      by (pose proof (exec_insert_schema _ _ _ _ _ _ _ _ E) as H; unfold schema_of in H; congruence).
    rewrite <- Hcols, <- Hc'.
    apply (proj1 (Forall_forall _ _) (twf_rows _ Htw')). rewrite Hr'. apply in_or_app. right. left. reflexivity. }
  rewrite (output_project _ [nw] (Forall_cons _ Hnwf (Forall_nil _))) in Ho. injection Ho as <-.
  exists nw, (tbl_next t), []. split; [reflexivity|]. split; [exact Hnw|].
  rewrite (annotation_rows_set d t t' Ht Hname), Hr'. exact (filter_fresh_id _ _ _ Hrows Hnw).
Qed.

(** ** The statement of [addAnnotation] *)

Lemma add_query_reads_back d b m f rows d' : id_inv d -> match_id m ->
  db_query (add_query b m f) d = (Ok rows, d') ->
  exists out, rows = JArr (map js_of_row out) /\ reads_back out d'.
Proof.
  intros Hd Hm. pose proof Hd as [Hwf _]. destruct (store_wf_table d Hwf) as [t [Ht _]].
  rewrite db_query_run. unfold run_sql.
  destruct Hm as [-> | [z [-> Hz]]].
  - rewrite add_query_insert_parses by reflexivity.
    destruct (exec_stmt _ _ d) as [[out d1]|] eqn:E; [|discriminate]. intros [= <- <-].
    exists out. split; [reflexivity|].
    eapply insert_readback; [exact Hd | exact Ht | | exact E]. apply no_id_notin. reflexivity.
  - rewrite add_query_update_cases by (split; [lia | apply int4_below_threshold; lia]).
    destruct (truthy _), (truthy _); try (intros H; discriminate H);
      destruct (exec_stmt _ _ d) as [[out d1]|] eqn:E; try discriminate; intros [= <- <-];
      exists out; (split; [reflexivity|]);
      (eapply update_readback; [exact Hwf | exact Ht | | exact E]; simpl; intuition discriminate).
Qed.

(** The id of a stored annotation is an [integer]. *)
Lemma stored_id_int4 d u z : store_wf d -> In u (annotation_rows d) -> cell u "id" = VInt z ->
  int4_range z = true.
Proof.
  intros Hwf Hin Hu. destruct (store_wf_table d Hwf) as [t [Ht [Hc [Htw Hrows]]]].
  rewrite Hrows in Hin. pose proof (proj1 (Forall_forall _ _) (twf_rows _ Htw) u Hin) as Hr.
  rewrite Hc in Hr. destruct (row_wf_lookup _ u "id" (mkColumn "id" TInt4) Hr eq_refl) as [v [Hv Ht']].
  unfold cell in Hu. rewrite Hv in Hu. subst v. exact Ht'.
Qed.

Lemma reads_back_get d out z : store_wf d -> reads_back out d ->
  js_get (js_first (JArr (map js_of_row out))) "id" = Ok (JNum z) ->
  fst (getAnnotationByID (JNum z) d) = Ok (js_first (JArr (map js_of_row out))).
Proof.
  intros Hwf Hrb Hz. destruct out as [|o out]; [discriminate|].
  destruct Hrb as (u & z' & post & -> & Hu & Hf).
  assert (z' = z) as ->.
  { unfold project, js_of_row in Hz. simpl in Hz. rewrite Hu in Hz. simpl in Hz. congruence. }
  assert (Hin : In u (annotation_rows d))
    by (assert (H : In u (filter (col_is "id" z) (annotation_rows d))) by (rewrite Hf; left; reflexivity);
        apply filter_In in H; exact (proj1 H)).
  unfold getAnnotationByID, sbind.
  rewrite (select_int_col d _ "id" (number_to_string z) Hwf eq_refl (by_id_query_parses (JNum z)) eq_refl).
  rewrite int4in_number, (stored_id_int4 d u z Hwf Hin Hu), Hf. reflexivity.
Qed.

(** ** [addAnnotation] then [getAnnotationByID] *)

Lemma preserves_book_step (b : jsval) t :
  preserves id_inv (if negb (truthy b) then Books.insertBook t else sret b).
Proof. destruct (negb (truthy b)); [apply ids_insertBook | apply preserves_ret]. Qed.

(** What [addAnnotation] returned, read back by its id. *)
Lemma add_reads_back d a o z : reachable d ->
  fst (addAnnotation a d) = Ok o -> js_get o "id" = Ok (JNum z) ->
  fst (getAnnotationByID (JNum z) (snd (addAnnotation a d))) = Ok o.
Proof.
  intros Hr Ho Hz. pose proof (reachable_id_inv d Hr) as Hd. unfold addAnnotation in *.
  apply sbind_fst_ok in Ho as (f & d0 & E0 & Ho & ->).
  assert (d0 = d) as -> by (destruct (destructure_annotation a); injection E0; auto).
  apply sbind_fst_ok in Ho as (b & d1 & E1 & Ho & ->).
  pose proof (ids_getBookID (f_title f) d Hd) as Hd1. rewrite E1 in Hd1.
  apply sbind_fst_ok in Ho as (b' & d2 & E2 & Ho & ->).
  pose proof (preserves_book_step b (f_title f) d1 Hd1) as Hd2. rewrite E2 in Hd2.
  apply sbind_fst_ok in Ho as (m & d3 & E3 & Ho & ->).
  destruct (getMatchingAnnotationID_yields b' (f_end f) d2 Hd2) as [Hd3 Hm]. rewrite E3 in Hd3, Hm.
  apply sbind_fst_ok in Ho as (rows & d4 & E4 & Ho & ->). injection Ho as <-. cbn [sret snd].
  pose proof (db_query_store_wf (add_query b' m f) d3 (proj1 Hd3)) as Hwf4. rewrite E4 in Hwf4.
  destruct (add_query_reads_back _ _ _ _ _ _ Hd3 Hm E4) as [out [-> Hrb]].
  exact (reads_back_get d4 out z Hwf4 Hrb Hz).
Qed.

(** C22: after any history, when [addAnnotation(a)] resolves to an
    object with id [z] (the updated annotation, or the new one), a lookup
    [getAnnotationByID(z)] on the database it leaves resolves to the same
    object. *)
Theorem addAnnotation_reads_back d a o z : reachable d ->
  fst (addAnnotation a d) = Ok o -> js_get o "id" = Ok (JNum z) ->
  fst (getAnnotationByID (JNum z) (snd (addAnnotation a d))) = Ok o.
Proof. exact (add_reads_back d a o z). Qed.

Lemma addAnnotation_reads_back_witness :
  reachable (snd (run_op (OpAddAnnotation foo_first) initial_db)) /\
  exists o, fst (addAnnotation foo_second (snd (run_op (OpAddAnnotation foo_first) initial_db))) = Ok o /\
    js_get o "id" = Ok (JNum 1) /\
    fst (getAnnotationByID (JNum 1)
           (snd (addAnnotation foo_second (snd (run_op (OpAddAnnotation foo_first) initial_db))))) = Ok o.
Proof.
  assert (Hr : reachable (snd (run_op (OpAddAnnotation foo_first) initial_db))) by apply reach_op, reach_init.
  split; [exact Hr|]. eexists. split; [vm_compute; reflexivity|]. split; [vm_compute; reflexivity|].
  apply addAnnotation_reads_back; [exact Hr | vm_compute; reflexivity | vm_compute; reflexivity].
Defined.
