(* ===== verification/Pairs.v ===== *)
(** * One annotation per [(book_id, end)], one call at a time

    [addAnnotation] looks for an annotation with the same [book_id] and
    [end] and inserts only when it finds none; no other statement of the
    store writes [book_id] or [end].  So, when the calls run one after the
    other, no two stored annotations have the same pair of integers
    [(book_id, end)] ([pair_keys] has no duplicate): the race of
    [Race.racing_adds_duplicate_row] needs two calls interleaved.  Pairs
    with a NULL are not constrained: SQL's [=] never matches NULL. *)

From Stdlib Require Import String Ascii ZArith List Lia Bool.
From S2P Require Import Prelude Js SqlText SqlTemplate SqlLexer SqlParser SqlValue SqlEngine EngineFacts Schema Books Annotations Statements StoreFacts ReadFacts WriteFacts Lifecycle Abstract Ids AddFacts.
Import ListNotations.
Open Scope string_scope.

(** The integer pair of an annotation, when it has one. *)
Definition pair_key (r : row) : list (Z * Z) :=
  match cell r "book_id", cell r "end" with
  | VInt b, VInt e => [(b, e)]
  | _, _ => []
  end.

Definition pair_keys (rs : list row) : list (Z * Z) := flat_map pair_key rs.

(** A statement that may write [book_id] or [end] of an annotation. *)
Definition writes_pair (s : stmt) : bool :=
  let touches cs := existsb (fun c => String.eqb c "book_id" || String.eqb c "end") cs in
  match s with
  | SSelect _ _ _ _ | SDelete _ _ _ => false
  | SUpdate tbl sets _ _ => String.eqb tbl "kindle_annotations" && touches (map fst sets)
  | SInsert tbl _ _ _ _ => String.eqb tbl "kindle_annotations"
  end.

(** ** Lists of pairs *)

Lemma pair_keys_incl rs rs' : incl rs' rs -> incl (pair_keys rs') (pair_keys rs).
Proof.
  intros H k Hk. apply in_flat_map in Hk as [r [Hr Hk]]. apply in_flat_map. eauto.
Qed.

Lemma kept_cons {A} (r : A) rs b bs : kept (r :: rs) (b :: bs) = if b then r :: kept rs bs else kept rs bs.
Proof. unfold kept. simpl. destruct b; reflexivity. Qed.

Lemma pair_keys_kept rs bs : NoDup (pair_keys rs) -> NoDup (pair_keys (kept rs bs)).
Proof.
  revert bs. induction rs as [|r rs IH]; intros [|b bs] H; try (unfold kept; constructor).
  rewrite kept_cons. simpl in H. pose proof (NoDup_app_remove_l _ _ H) as Hrs.
  destruct b; [|exact (IH bs Hrs)]. simpl. apply NoDup_app; [exact (NoDup_app_remove_r _ _ H) | exact (IH bs Hrs)|].
  intros k Hk Hin. apply pair_keys_incl with (rs := rs) in Hin; [|intros x; apply in_kept].
  exact (NoDup_app_disjoint _ _ k H Hk Hin).
Qed.

Lemma touches_notin (sets : list (string * expr)) :
  existsb (fun c => String.eqb c "book_id" || String.eqb c "end") (map fst sets) = false ->
  ~ In "book_id" (map fst sets) /\ ~ In "end" (map fst sets).
Proof.
  intros H. rewrite <- not_true_iff_false, existsb_exists in H.
  split; intros Hin; apply H; eexists; (split; [exact Hin|]); rewrite String.eqb_refl; [reflexivity | apply orb_true_r].
Qed.

(** ** Statements that do not write a pair *)

Lemma update_rows_pairs params t sets w rs all upd :
  ~ In "book_id" (map fst sets) -> ~ In "end" (map fst sets) ->
  update_rows params t sets w rs = Ok (all, upd) -> pair_keys all = pair_keys rs.
Proof.
  intros Hb He. revert all upd. induction rs as [|r rs IH]; simpl; intros all upd H.
  - injection H as <- <-. reflexivity.
  - destruct (where_holds params t r w) as [[]|]; [| |discriminate].
    + destruct (apply_sets params t None sets r) as [r'|] eqn:Ha; [|discriminate].
      destruct (update_rows params t sets w rs) as [[all' upd']|]; [|discriminate].
      injection H as <- _. simpl. rewrite (IH all' upd' eq_refl). f_equal.
      unfold pair_key. rewrite (apply_sets_cell _ _ _ _ _ _ _ Hb Ha), (apply_sets_cell _ _ _ _ _ _ _ He Ha).
      reflexivity.
    + destruct (update_rows params t sets w rs) as [[all' upd']|]; [|discriminate].
      injection H as <- _. simpl. rewrite (IH all' upd' eq_refl). reflexivity.
Qed.

Lemma annotation_rows_put d n t t' : find_table n d = Some t -> tbl_name t' = tbl_name t ->
  annotation_rows (set_table t' d) =
  if String.eqb n "kindle_annotations" then tbl_rows t' else annotation_rows d.
Proof.
  intros Ht Hn. destruct (String.eqb_spec n "kindle_annotations") as [->|Hne].
  - exact (annotation_rows_set d t t' Ht Hn).
  - unfold annotation_rows. rewrite find_set_table_ne; [reflexivity|].
    rewrite Hn, (find_table_name _ _ _ Ht). exact Hne.
Qed.

Lemma exec_stmt_pairs params s d out d' :
  NoDup (pair_keys (annotation_rows d)) -> writes_pair s = false ->
  exec_stmt params s d = Ok (out, d') -> NoDup (pair_keys (annotation_rows d')).
Proof.
  intros Hnd Hw. unfold exec_stmt.
  destruct (find_table (stmt_table s) d) as [t|] eqn:Ht; [|discriminate].
  destruct (bind_params params t s); [|discriminate].
  assert (Hput : forall t', schema_of t' = schema_of t ->
            (stmt_table s = "kindle_annotations" -> NoDup (pair_keys (tbl_rows t'))) ->
            NoDup (pair_keys (annotation_rows (set_table t' d)))).
  { intros t' Hs Hk. rewrite (annotation_rows_put d _ t t' Ht (schema_name _ _ Hs)).
    destruct (String.eqb_spec (stmt_table s) "kindle_annotations"); [apply Hk; assumption | exact Hnd]. }
  assert (Hrows : stmt_table s = "kindle_annotations" -> annotation_rows d = tbl_rows t)
    by (intros E; unfold annotation_rows; rewrite <- E, Ht; reflexivity).
  destruct s as [tgts tn w lim|tn sets w ret|tn cols vals oc ret|tn w ret]; simpl in Hw, Hput, Hrows.
  - destruct (exec_select _ _ _ _ _); [intros [= _ <-]; exact Hnd | discriminate].
  - destruct (exec_update params t sets w ret) as [[o t']|] eqn:E; [|discriminate].
    intros [= _ <-]. apply Hput; [exact (exec_update_schema _ _ _ _ _ _ _ E)|]. intros ->.
    rewrite String.eqb_refl in Hw. destruct (touches_notin sets Hw) as [Hb He].
    revert E. unfold exec_update.
    destruct (update_rows params t sets w (tbl_rows t)) as [[all upd]|] eqn:Hup; [|discriminate].
    destruct (unique_ok t all); [|discriminate]. destruct (output _ _ _); [|discriminate].
    intros [= _ <-]. simpl. rewrite (update_rows_pairs _ _ _ _ _ _ _ Hb He Hup), <- Hrows by reflexivity.
    exact Hnd.
  - destruct (exec_insert params t cols vals oc ret) as [[o t']|] eqn:E; [|discriminate].
    intros [= _ <-]. apply Hput; [exact (exec_insert_schema _ _ _ _ _ _ _ _ E)|]. intros ->.
    rewrite String.eqb_refl in Hw. discriminate.
  - destruct (exec_delete params t w ret) as [[o t']|] eqn:E; [|discriminate].
    intros [= _ <-]. apply Hput; [exact (exec_delete_schema _ _ _ _ _ _ E)|]. intros Hk.
    revert E. unfold exec_delete. destruct (filter_rows _ _ _ _); [|discriminate].
    destruct (omap _ _) as [keep|]; [|discriminate]. destruct (output _ _ _); [|discriminate].
    intros [= _ <-]. simpl. apply (pair_keys_kept (tbl_rows t) keep). rewrite <- Hrows by exact Hk. exact Hnd.
Qed.

Lemma pair_key_nodup r : NoDup (pair_key r).
Proof. unfold pair_key. destruct (cell r "book_id"), (cell r "end"); repeat constructor; simpl; tauto. Qed.

(** ** The INSERT of [addAnnotation] *)

(** The value an INSERT gives a listed column is its expression,
    evaluated and checked at the column's type. *)
Lemma eval_given_assoc params t cols vals given c e :
  NoDup cols -> In (c, e) (combine cols vals) -> eval_given params t cols vals = Ok given ->
  exists ty v, col_type_of t c = Ok ty /\ obind (eval_expr params [] None (Some ty) e) (coerce ty) = Ok v /\
               assoc_get c given = Some v.
Proof.
  unfold eval_given. revert vals given.
  induction cols as [|c0 cols IH]; intros [|e0 vals] given Hnd Hin H; simpl in *; try contradiction.
  destruct (col_type_of t c0) as [ty0|] eqn:Ety; [|discriminate].
  destruct (obind _ _) as [v0|] eqn:Ev; [|discriminate].
  destruct (omap _ (combine cols vals)) as [rest|] eqn:Er; [|discriminate]. injection H as <-. simpl.
  apply NoDup_cons_iff in Hnd as [Hc0 Hnd].
  destruct Hin as [[= <- <-] | Hin].
  - exists ty0, v0. rewrite String.eqb_refl. auto.
  - assert (Hne : c <> c0) by (intros ->; apply Hc0; exact (in_combine_l _ _ _ _ Hin)).
    apply String.eqb_neq in Hne. rewrite Hne. exact (IH vals rest Hnd Hin Er).
Qed.

(** An integer column filled from parameter [$i]: the parameter's text
    is that integer. *)
Lemma given_param_int params t cols vals given c i b :
  NoDup cols -> In (c, EParam i) (combine cols vals) -> col_type_of t c = Ok TInt4 ->
  eval_given params t cols vals = Ok given -> assoc_get c given = Some (VInt b) ->
  exists p, nth_error params (Z.to_nat (i - 1)) = Some p /\ cast_in TInt4 p = Ok (VInt b).
Proof.
  intros Hnd Hin Hty Hg Hc. destruct (eval_given_assoc _ _ _ _ _ _ _ Hnd Hin Hg) as (ty & v & Hty' & Hv & Hc').
  rewrite Hty in Hty'. injection Hty' as <-. rewrite Hc in Hc'. injection Hc' as <-.
  destruct (eval_expr _ _ _ _ _) as [v0|] eqn:E; [|discriminate]. simpl in Hv.
  destruct (coerce_typed _ _ _ Hv) as [-> _]. simpl in E.
  destruct (nth_error params _) as [p|]; [|discriminate].
  destruct (Z.leb 1 i); [|discriminate]. exists p. auto.
Qed.

Lemma proposed_cell t given serial c v col :
  find (fun col => String.eqb (col_name col) c) (tbl_cols t) = Some col -> assoc_get c given = Some v ->
  cell (proposed_row t given serial) c = v.
Proof.
  intros Hf Hv. unfold cell, proposed_row. rewrite (assoc_get_map_cols _ _ c col Hf).
  apply find_some in Hf as [_ Hc]. apply String.eqb_eq in Hc. rewrite Hc, Hv. reflexivity.
Qed.

(** No stored annotation has the integer pair the two parameters denote. *)
Definition no_pair (pb pe : pg_param) (rs : list row) : Prop :=
  forall b e, cast_in TInt4 pb = Ok (VInt b) -> cast_in TInt4 pe = Ok (VInt e) -> ~ In (b, e) (pair_keys rs).

Lemma filter_rows_keeps params t w rs kept r :
  filter_rows params t w rs = Ok kept -> In r rs -> where_holds params t r w = Ok true -> In r kept.
Proof.
  revert kept. induction rs as [|r0 rs IH]; simpl; intros kept H Hin Hw; [contradiction|].
  destruct (where_holds params t r0 w) as [b0|] eqn:E0; [|discriminate].
  destruct (filter_rows params t w rs) as [k|]; [|discriminate]. injection H as <-.
  destruct Hin as [<-|Hin].
  - rewrite Hw in E0. injection E0 as <-. left. reflexivity.
  - destruct b0; [right|]; exact (IH k eq_refl Hin Hw).
Qed.

Lemma pair_key_cells r b e : In (b, e) (pair_key r) -> cell r "book_id" = VInt b /\ cell r "end" = VInt e.
Proof.
  unfold pair_key. destruct (cell r "book_id"), (cell r "end"); simpl; try tauto.
  intros [[= -> ->] | []]. auto.
Qed.

(** [WHERE book_id = $1 AND "end" = $2] holds of a row with that pair. *)
Lemma where_pair params t r pb pe bb ee : tbl_cols t = annotation_columns -> row_wf (tbl_cols t) r ->
  cast_in TInt4 pb = Ok (VInt bb) -> cast_in TInt4 pe = Ok (VInt ee) ->
  cell r "book_id" = VInt bb -> cell r "end" = VInt ee ->
  where_holds (pb :: pe :: params) t r [("book_id", EParam 1); ("end", EParam 2)] = Ok true.
Proof.
  intros Hc Hr Hb He Hrb Hre.
  rewrite (where_cons _ t r "book_id" (EParam 1) TInt4 (VInt bb) [("end", EParam 2)] true).
  - rewrite Hrb. simpl. rewrite Z.eqb_refl. reflexivity.
  - rewrite (annotation_col_type t _ Hc). reflexivity.
  - exact Hr.
  - rewrite eval_param1. exact Hb.
  - rewrite (where_single _ t r "end" (EParam 2) TInt4 (VInt ee)).
    + rewrite Hre. simpl. rewrite Z.eqb_refl. reflexivity.
    + rewrite (annotation_col_type t _ Hc). reflexivity.
    + exact Hr.
    + rewrite eval_param2. exact He.
Qed.

(** [getMatchingAnnotationID] resolves to [null] only when no annotation
    has the pair its parameters denote (ids are never NULL), and it
    changes nothing. *)
Lemma matching_null b e d d' : id_inv d -> getMatchingAnnotationID b e d = (Ok JNull, d') ->
  d' = d /\ no_pair (prepareValue b) (prepareValue e) (annotation_rows d).
Proof.
  intros [Hwf Hids]. destruct (store_wf_table d Hwf) as [t [Ht [Hc [Htw Hrows]]]].
  unfold getMatchingAnnotationID, sbind. rewrite db_query_run. unfold run_sql. rewrite matching_query_parses.
  unfold exec_stmt. cbn [stmt_table]. rewrite Ht.
  change (map prepareValue (values (matching_query b e))) with [prepareValue b; prepareValue e].
  destruct (bind_params _ _ _); [|discriminate]. unfold exec_select.
  destruct (filter_rows _ t _ (tbl_rows t)) as [kept|] eqn:Hf; [|discriminate].
  destruct (output _ _ kept) as [out|] eqn:Ho; [|discriminate].
  destruct out as [|o out].
  - simpl. intros [= <-]. split; [reflexivity|].
    intros bb ee Hb He Hin. apply in_flat_map in Hin as [r [Hr Hk]]. apply pair_key_cells in Hk as [Hrb Hre].
    rewrite Hrows in Hr.
    assert (Hkr : In r kept).
    { eapply filter_rows_keeps; [exact Hf | exact Hr |].
      apply (where_pair _ t r _ _ bb ee Hc (proj1 (Forall_forall _ _) (twf_rows _ Htw) r Hr) Hb He Hrb Hre). }
    destruct kept; [contradiction|]. pose proof (omap_ok_length _ _ _ Ho). discriminate.
  - pose proof (output_id _ _ _ Ho) as Hout. inversion Hout as [|? ? [r [Hin ->]] _]; subst.
    apply (filter_rows_incl _ _ _ _ _ Hf) in Hin. destruct (Hids t Ht) as [_ Hr].
    destruct (proj1 (Forall_forall _ _) Hr r Hin) as [z [Hz _]]. rewrite Hz. simpl.
    intros H. inversion H.
Qed.

(** A pair of a concrete list is in it. *)
Ltac in_list := simpl; repeat (first [left; reflexivity | right]).

Lemma insert_cell_int params t n cols vals given serial c i b :
  NoDup cols -> In (c, EParam i) (combine cols vals) -> tbl_cols t = annotation_columns ->
  find (fun col => String.eqb (col_name col) c) annotation_columns = Some (mkColumn c TInt4) ->
  eval_given params t cols vals = Ok given -> cell (proposed_row (with_next t n) given serial) c = VInt b ->
  exists p, nth_error params (Z.to_nat (i - 1)) = Some p /\ cast_in TInt4 p = Ok (VInt b).
Proof.
  intros Hnd Hin Hc Hf Hg Hcell.
  destruct (eval_given_assoc _ _ _ _ _ _ _ Hnd Hin Hg) as (ty & v & _ & _ & Hv).
  rewrite (proposed_cell _ given serial c v (mkColumn c TInt4)) in Hcell; [|simpl; rewrite Hc; exact Hf | exact Hv].
  subst v. apply (given_param_int params t cols vals given c i b Hnd Hin); [|exact Hg | exact Hv].
  rewrite (annotation_col_type t c Hc), Hf. reflexivity.
Qed.

(** The INSERT of [addAnnotation] after a lookup that found no
    annotation with its pair keeps the pairs distinct. *)
Lemma add_insert_pairs b f d rows d' : id_inv d -> NoDup (pair_keys (annotation_rows d)) ->
  no_pair (prepareValue b) (prepareValue (f_end f)) (annotation_rows d) ->
  db_query (add_query b JNull f) d = (rows, d') -> NoDup (pair_keys (annotation_rows d')).
Proof.
  intros Hd Hnd Hnp. pose proof Hd as [Hwf Hids].
  destruct (store_wf_table d Hwf) as [t [Ht [Hc [_ Hrows]]]].
  destruct (store_wf_ann d t Hwf Ht) as (Htw & _ & Hs & Hu).
  rewrite db_query_run. unfold run_sql. rewrite add_query_insert_parses by reflexivity.
  destruct (exec_stmt _ _ d) as [[out d1]|] eqn:E; intros [= _ <-]; [|exact Hnd].
  revert E. unfold exec_stmt. cbn [stmt_table]. rewrite Ht. destruct (bind_params _ _ _); [|discriminate].
  destruct (exec_insert _ t _ _ _ _) as [[o t']|] eqn:Ei; [|discriminate]. intros [= _ <-].
  assert (Hc' : ~ In "id" inserted_columns) by (apply no_id_notin; reflexivity).
  destruct (insert_appends _ _ _ _ _ _ _ Htw Hs Hu Hc' (Hids t Ht) Ei) as [nw [Hr' [_ [_ [given [Hg ->]]]]]].
  destruct (exec_insert_wf _ _ _ _ _ _ _ _ Htw Ei) as [_ Hname].
  rewrite (annotation_rows_set d t t' Ht Hname), Hr'. unfold pair_keys. rewrite flat_map_app.
  cbn [flat_map]. rewrite app_nil_r. rewrite Hrows in Hnd, Hnp.
  apply NoDup_app; [exact Hnd | apply pair_key_nodup |].
  intros k Hk Hk'. destruct k as [bb ee]. apply pair_key_cells in Hk' as [Hb He].
  assert (Hnd' : NoDup inserted_columns) by (repeat constructor; simpl; intuition discriminate).
  pose (vals := map EParam [1; 2; 3; 4; 5; 6; 7; 8; 9; 10; 11; 12; 13]%Z).
  destruct (insert_cell_int _ t _ _ vals _ _ "book_id" 1 bb Hnd' ltac:(in_list) Hc eq_refl Hg Hb)
    as [pb [Hpb Hcb]].
  destruct (insert_cell_int _ t _ _ vals _ _ "end" 7 ee Hnd' ltac:(in_list) Hc eq_refl Hg He)
    as [pe [Hpe Hce]].
  injection Hpb as <-. injection Hpe as <-. exact (Hnp bb ee Hcb Hce Hk).
Qed.

(** ** Every operation keeps the pairs distinct *)

Definition pairs_inv (d : db) : Prop := id_inv d /\ NoDup (pair_keys (annotation_rows d)).

(** A query whose statement, whatever it parses to, writes neither an id
    nor a pair. *)
Definition pair_safe (q : sql_statement) : Prop :=
  forall st, parse_sql (text q) = Ok st -> writes_pair st = false.

Lemma preserves_query_pairs q : safe_query q -> pair_safe q -> preserves pairs_inv (db_query q).
Proof.
  intros Hq Hp d [Hid Hnd]. split; [exact (db_query_ids q d Hq Hid)|].
  unfold db_query, slift, run_sql.
  destruct (parse_sql (text q)) as [st|] eqn:Hps; [|exact Hnd].
  destruct (exec_stmt _ st d) as [[out d']|] eqn:E; [|exact Hnd].
  exact (exec_stmt_pairs _ _ _ _ _ Hnd (Hp st Hps) E).
Qed.

Ltac pairs_step :=
  match goal with
  | |- preserves _ (sbind _ _) => apply preserves_bind; intros
  | |- preserves _ (if _ then _ else _) => apply preserves_if
  | |- preserves _ (match ?x with _ => _ end) => destruct x
  | |- preserves _ (sret _) => apply preserves_ret
  | |- preserves _ (sthrow _) => apply preserves_throw
  | |- preserves _ (sfrom _) => apply preserves_from
  | |- preserves _ (db_query _) => apply preserves_query_pairs; safe_closed
  | |- preserves _ _ => solve [auto with pairs]
  end.

Ltac pairs_preserve := repeat (cbv zeta; pairs_step).

Create HintDb pairs.

Lemma pairs_getBookID t : preserves pairs_inv (Books.getBookID t).
Proof. unfold Books.getBookID. pairs_preserve. Qed.

Lemma pairs_insertBook t : preserves pairs_inv (Books.insertBook t).
Proof. unfold Books.insertBook. pairs_preserve. Qed.

Lemma pairs_getMatchingAnnotationID b e : preserves pairs_inv (getMatchingAnnotationID b e).
Proof. unfold getMatchingAnnotationID. pairs_preserve. Qed.

#[local] Hint Resolve pairs_getBookID pairs_insertBook : pairs.

(** The UPDATE of [addAnnotation] sets [highlight] or [note] only. *)
Lemma add_update_pair_safe b z f : (0 < z < exp_threshold)%Z -> pair_safe (add_query b (JNum z) f).
Proof.
  intros Hz st. rewrite add_query_update_cases by exact Hz.
  destruct (truthy _), (truthy _); intros H; inversion H; reflexivity.
Qed.

Lemma pairs_addAnnotation a : preserves pairs_inv (addAnnotation a).
Proof.
  unfold addAnnotation. apply preserves_bind; [apply preserves_from | intros f].
  apply preserves_bind; [pairs_step | intros b].
  apply preserves_bind; [pairs_preserve | intros b'].
  intros d Hd. unfold sbind at 1.
  pose proof (pairs_getMatchingAnnotationID b' (f_end f) d Hd) as Hd3.
  destruct (getMatchingAnnotationID_yields b' (f_end f) d (proj1 Hd)) as [_ Hm].
  destruct (getMatchingAnnotationID b' (f_end f) d) as [[m|e] d3] eqn:E3; [|exact Hd3].
  simpl in Hd3, Hm. destruct Hm as [-> | [z [-> Hz]]].
  - destruct (matching_null _ _ _ _ (proj1 Hd) E3) as [-> Hnp].
    pose proof (db_query_ids _ d (add_query_safe b' JNull f (or_introl eq_refl)) (proj1 Hd)) as Hid4.
    unfold sbind. destruct (db_query (add_query b' JNull f) d) as [r d4] eqn:E4.
    assert (Hd4 : pairs_inv d4) by (split; [exact Hid4 | exact (add_insert_pairs b' f d r d4 (proj1 Hd) (proj2 Hd) Hnp E4)]).
    destruct r; exact Hd4.
  - refine (preserves_bind pairs_inv _ _ _ (fun _ => preserves_ret _ _) d3 Hd3).
    apply preserves_query_pairs; [apply add_query_safe; right; eauto | apply add_update_pair_safe; split; [lia | apply int4_below_threshold; lia]].
Qed.

#[local] Hint Resolve pairs_addAnnotation : pairs.

Lemma run_op_pairs o d : pairs_inv d -> pairs_inv (snd (run_op o d)).
Proof.
  revert d. change (preserves pairs_inv (run_op o)).
  destruct o; cbn [run_op];
    unfold addCalibreAnnotation, getAllAnnotations, getAnnotationByID, getAnnotationsByBookID,
      editAnnotation, deleteAnnotation; pairs_preserve.
Qed.

Lemma reachable_pairs_inv d : reachable d -> pairs_inv d.
Proof.
  induction 1 as [|o d _ IH]; [|exact (run_op_pairs o d IH)].
  split; [exact initial_ids | vm_compute; constructor].
Qed.

(** C23: when the calls run one after the other, no two annotations
    share an integer pair [(book_id, end)]: in every database reachable
    from a fresh one, the list of pairs has no duplicate.  The lookup of
    [addAnnotation] and its INSERT are not atomic, so interleaved calls can
    break it ([Race.racing_adds_duplicate_row]). *)
Theorem sequential_pairs_unique d : reachable d -> NoDup (pair_keys (annotation_rows d)).
Proof. intros Hr. exact (proj2 (reachable_pairs_inv d Hr)). Qed.

Lemma sequential_pairs_unique_witness :
  reachable (snd (run_op (OpAddAnnotation foo_second) (snd (run_op (OpAddAnnotation foo_first) initial_db)))) /\
  NoDup (pair_keys (annotation_rows
    (snd (run_op (OpAddAnnotation foo_second) (snd (run_op (OpAddAnnotation foo_first) initial_db)))))).
Proof.
  assert (Hr : reachable (snd (run_op (OpAddAnnotation foo_second)
                                 (snd (run_op (OpAddAnnotation foo_first) initial_db)))))
    by (apply reach_op, reach_op, reach_init).
  exact (conj Hr (sequential_pairs_unique _ Hr)).
Defined.
