(* ===== verification/EdgeCases.v ===== *)
(** * Empty, missing and boundary inputs

    What the store does at the edges of its inputs: the writes called
    with [null] or [undefined] reject with JavaScript's TypeError before
    any query, while an object without fields passes the destructuring
    and is stored with NULL fields (nothing validates the input, and SQL's
    [=] never matches NULL, so repeating the call stores it again);
    [getAllAnnotations(null)] is not [getAllAnnotations()]: the default
    [limit = 50] only replaces [undefined], and [LIMIT NULL] has no
    limit. *)

From Stdlib Require Import String Ascii ZArith List Lia Bool.
From S2P Require Import Prelude Js SqlText SqlTemplate SqlLexer SqlParser SqlValue SqlEngine EngineFacts Schema Books Annotations Statements StoreFacts ReadFacts WriteFacts Lifecycle.
Import ListNotations.
Open Scope string_scope.

(** The row [addAnnotation({})] stores on a fresh database: the book of
    the NULL title, the sequence's id, every other column NULL. *)
Definition empty_annotation_row (id book : Z) : row :=
  map (fun col => (col_name col,
                   if String.eqb (col_name col) "id" then VInt id
                   else if String.eqb (col_name col) "book_id" then VInt book else VNull))
      annotation_columns.

(** ** Nullish arguments *)

(** [addAnnotation], [addCalibreAnnotation], [editAnnotation] and
    [deleteAnnotation] called with [null] or [undefined] reject with a
    TypeError (destructuring or property access on a nullish value) and
    leave the database as it was; an object without any field is not
    rejected: two [addAnnotation({})] calls on a fresh database both
    resolve and store two books with a NULL title and two annotations
    whose fields are all NULL. *)
Theorem nullish_rejected_empty_accepted v d : v = JNull \/ v = JUndefined ->
  (exists m, addAnnotation v d = (Err (TypeError m), d)) /\
  (exists m, addCalibreAnnotation v d = (Err (TypeError m), d)) /\
  (exists m, editAnnotation v d = (Err (TypeError m), d)) /\
  (exists m, deleteAnnotation v d = (Err (TypeError m), d)) /\
  let d2 := snd (run_ops [OpAddAnnotation (JObj []); OpAddAnnotation (JObj [])] initial_db) in
  annotation_rows d2 = [empty_annotation_row 1 1; empty_annotation_row 2 2] /\
  match find_table "books" d2 with
  | Some t => tbl_rows t = [[("id", VInt 1); ("title", VNull)]; [("id", VInt 2); ("title", VNull)]]
  | None => False
  end.
Proof.
  intros Hv. split; [|split; [|split; [|split]]];
    [destruct Hv as [-> | ->]; eexists; reflexivity ..|].
  split; vm_compute; reflexivity.
Qed.

Lemma nullish_rejected_empty_accepted_witness :
  (JNull = JNull \/ JNull = JUndefined) /\
  exists m, addAnnotation JNull initial_db = (Err (TypeError m), initial_db).
Proof.
  split; [left; reflexivity|].
  exact (proj1 (nullish_rejected_empty_accepted JNull initial_db (or_introl eq_refl))).
Defined.

(** ** [LIMIT NULL] *)

(** The projection SELECT with [LIMIT $1] bound to [null]: no limit. *)
Lemma select_limit_null d q :
  store_wf d ->
  parse_sql (text q) = Ok (SSelect select_targets "kindle_annotations" [] (Some (EParam 1))) ->
  values q = [JNull] ->
  db_query q d = (Ok (projected (annotation_rows d)), d).
Proof.
  intros Hwf Hp Hv. destruct (store_wf_table d Hwf) as [t [Ht [Hcols [Htw Hrows]]]].
  rewrite db_query_run, (run_sql_select _ d t _ _ _ Hp Ht), Hv.
  unfold bind_params, exec_select. cbn. rewrite filter_rows_nil, output_project.
  - rewrite Hrows. unfold projected. rewrite map_map. reflexivity.
  - rewrite <- Hcols. apply (twf_rows _ Htw).
Qed.

(** C25: [getAllAnnotations(null)] resolves to every annotation of the
    table, in table order, however many there are: the default parameter
    [limit = 50] replaces only [undefined], and the server reads
    [LIMIT NULL] as no limit.  The database is unchanged. *)
Theorem getAllAnnotations_null_unlimited d : store_wf d ->
  getAllAnnotations JNull d = (Ok (projected (annotation_rows d)), d).
Proof.
  intros Hwf. unfold getAllAnnotations. cbv zeta. unfold sbind at 1.
  rewrite (select_limit_null d _ Hwf (all_query_parses _) eq_refl). reflexivity.
Qed.

Lemma getAllAnnotations_null_unlimited_witness :
  store_wf sample_db /\
  getAllAnnotations JNull sample_db = (Ok (projected (annotation_rows sample_db)), sample_db).
Proof. exact (conj sample_db_wf (getAllAnnotations_null_unlimited sample_db sample_db_wf)). Defined.
