(* ===== verification/Upsert.v ===== *)
(** * [addAnnotation] on the map from ids to annotations

    [Abstract] shows that the calls by id refine the lookups, updates and
    removals of a map from ids to annotations.  This file does the same
    for [addAnnotation]: when it resolves, the map of the new database is
    the old map updated at one id, to the annotation whose projection the
    call returned (an UPDATE of the matching annotation, or the INSERT of
    a new one at a fresh id); when it rejects, the map is unchanged (the
    book it may have inserted is not an annotation).  The proof threads
    two facts through the binds of the call: the annotation rows are left
    as they were until the final statement, and a [matchID] the lookup
    returns is the id of a stored row. *)

From Stdlib Require Import String Ascii ZArith List Lia Bool.
From S2P Require Import Prelude Js SqlText SqlTemplate SqlLexer SqlParser SqlValue SqlEngine EngineFacts Schema Books Annotations Statements StoreFacts ReadFacts WriteFacts Lifecycle Abstract Ids AddFacts Pairs.
Import ListNotations.
Open Scope string_scope.

(** A statement that leaves the annotation rows as they are: a SELECT,
    or a statement on another table. *)
Definition keeps_annotations (s : stmt) : bool :=
  match s with
  | SSelect _ _ _ _ => true
  | _ => negb (String.eqb (stmt_table s) "kindle_annotations")
  end.

(** ** The binds before the final statement *)

Lemma abs_rows d1 d2 : annotation_rows d1 = annotation_rows d2 -> map_equiv (abs d1) (abs d2).
Proof. intros H z. unfold abs. rewrite H. reflexivity. Qed.

Lemma put_keeps d n t t' : find_table n d = Some t -> schema_of t' = schema_of t ->
  String.eqb n "kindle_annotations" = false -> annotation_rows (set_table t' d) = annotation_rows d.
Proof. intros Ht Hs Hn. rewrite (annotation_rows_put d _ t t' Ht (schema_name _ _ Hs)), Hn. reflexivity. Qed.

Lemma exec_stmt_keeps params s d out d' : keeps_annotations s = true ->
  exec_stmt params s d = Ok (out, d') -> annotation_rows d' = annotation_rows d.
Proof.
  intros Hk. unfold exec_stmt.
  destruct (find_table (stmt_table s) d) as [t|] eqn:Ht; [|discriminate].
  destruct (bind_params params t s); [|discriminate].
  destruct s as [tgts tn w lim|tn sets w ret|tn cols vals oc ret|tn w ret];
    simpl in Hk, Ht; try apply negb_true_iff in Hk.
  - destruct (exec_select _ _ _ _ _); [intros [= _ <-]; reflexivity | discriminate].
  - destruct (exec_update params t sets w ret) as [[o t']|] eqn:E; [|discriminate].
    intros [= _ <-]. exact (put_keeps d tn t t' Ht (exec_update_schema _ _ _ _ _ _ _ E) Hk).
  - destruct (exec_insert params t cols vals oc ret) as [[o t']|] eqn:E; [|discriminate].
    intros [= _ <-]. exact (put_keeps d tn t t' Ht (exec_insert_schema _ _ _ _ _ _ _ _ E) Hk).
  - destruct (exec_delete params t w ret) as [[o t']|] eqn:E; [|discriminate].
    intros [= _ <-]. exact (put_keeps d tn t t' Ht (exec_delete_schema _ _ _ _ _ _ E) Hk).
Qed.

(** The invariant of the ids, with the annotation rows fixed to [R]. *)
Definition rows_are (R : list row) (d : db) : Prop := id_inv d /\ annotation_rows d = R.

Lemma preserves_query_rows R q : safe_query q ->
  (forall st, parse_sql (text q) = Ok st -> keeps_annotations st = true) ->
  preserves (rows_are R) (db_query q).
Proof.
  intros Hq Hk d [Hid HR]. split; [exact (db_query_ids q d Hq Hid)|]. rewrite <- HR.
  unfold db_query, slift, run_sql.
  destruct (parse_sql (text q)) as [st|] eqn:Hp; [|reflexivity].
  destruct (exec_stmt _ st d) as [[out d']|] eqn:E; [|reflexivity].
  exact (exec_stmt_keeps _ _ _ _ _ (Hk st eq_refl) E).
Qed.

Ltac rows_step :=
  match goal with
  | |- preserves _ (sbind _ _) => apply preserves_bind; intros
  | |- preserves _ (if _ then _ else _) => apply preserves_if
  | |- preserves _ (match ?x with _ => _ end) => destruct x
  | |- preserves _ (sret _) => apply preserves_ret
  | |- preserves _ (sfrom _) => apply preserves_from
  | |- preserves _ (db_query _) => apply preserves_query_rows; safe_closed
  end.

Lemma rows_getBookID R t : preserves (rows_are R) (Books.getBookID t).
Proof. unfold Books.getBookID. repeat rows_step. Qed.

Lemma rows_book_step R (b : jsval) t :
  preserves (rows_are R) (if negb (truthy b) then Books.insertBook t else sret b).
Proof. unfold Books.insertBook. repeat rows_step. Qed.

Lemma rows_getMatchingAnnotationID R b e : preserves (rows_are R) (getMatchingAnnotationID b e).
Proof. unfold getMatchingAnnotationID. repeat rows_step. Qed.

(** A [matchID] the lookup returns is the id of a stored annotation. *)
Lemma matching_some b e d d' z : id_inv d -> getMatchingAnnotationID b e d = (Ok (JNum z), d') ->
  d' = d /\ exists r, In r (annotation_rows d) /\ cell r "id" = VInt z.
Proof.
  intros [Hwf Hids]. destruct (store_wf_table d Hwf) as [t [Ht [Hc [Htw Hrows]]]].
  unfold getMatchingAnnotationID, sbind. rewrite db_query_run. unfold run_sql. rewrite matching_query_parses.
  unfold exec_stmt. cbn [stmt_table]. rewrite Ht.
  destruct (bind_params _ _ _); [|discriminate]. unfold exec_select.
  destruct (filter_rows _ t _ (tbl_rows t)) as [kept|] eqn:Hf; [|discriminate].
  destruct (output _ _ kept) as [out|] eqn:Ho; [|discriminate].
  destruct out as [|o out]; [intros H; inversion H|].
  pose proof (output_id _ _ _ Ho) as Hout. inversion Hout as [|? ? [r [Hin ->]] _]; subst.
  apply (filter_rows_incl _ _ _ _ _ Hf) in Hin. destruct (Hids t Ht) as [_ Hr].
  destruct (proj1 (Forall_forall _ _) Hr r Hin) as [z0 [Hz _]]. rewrite Hz. simpl.
  intros H. inversion H; subst. split; [reflexivity|]. rewrite Hrows. exists r. auto.
Qed.

(** ** The UPDATE of the matching annotation *)

Lemma update_rows_other params t sets w m rs all upd z' :
  ~ In "id" (map fst sets) ->
  (forall r, In r rs -> where_holds params t r w = Ok (col_is "id" m r)) -> z' <> m ->
  update_rows params t sets w rs = Ok (all, upd) -> filter (col_is "id" z') all = filter (col_is "id" z') rs.
Proof.
  intros Hn. revert all upd. induction rs as [|r rs IH]; simpl; intros all upd Hw Hne H.
  - injection H as <- <-. reflexivity.
  - rewrite (Hw r (or_introl eq_refl)) in H. destruct (col_is "id" m r) eqn:E.
    + destruct (apply_sets params t None sets r) as [r'|] eqn:Ha; [|discriminate].
      destruct (update_rows params t sets w rs) as [[all' upd']|]; [|discriminate].
      injection H as <- _. simpl.
      assert (Hr : col_is "id" z' r = false) by (rewrite (col_is_other _ _ _ _ E (not_eq_sym Hne)); reflexivity).
      assert (Hr' : col_is "id" z' r' = col_is "id" z' r)
        by (unfold col_is; rewrite (apply_sets_id _ _ _ _ _ _ Hn Ha); reflexivity).
      rewrite Hr', Hr. apply (IH all' upd'); [intros r0 H0; apply Hw; right; exact H0 | exact Hne | reflexivity].
    + destruct (update_rows params t sets w rs) as [[all' upd']|]; [|discriminate].
      injection H as <- _. simpl.
      destruct (col_is "id" z' r); [f_equal|];
        (apply (IH all' upd'); [intros r0 H0; apply Hw; right; exact H0 | exact Hne | reflexivity]).
Qed.

(** A row the WHERE selects is updated and returned. *)
Lemma update_rows_nonempty params t sets w rs all upd r :
  update_rows params t sets w rs = Ok (all, upd) -> In r rs -> where_holds params t r w = Ok true ->
  upd <> [].
Proof.
  revert all upd. induction rs as [|r0 rs IH]; simpl; intros all upd H Hin Hw; [contradiction|].
  destruct (where_holds params t r0 w) as [[]|] eqn:E0; [| |discriminate].
  - destruct (apply_sets _ _ _ _ _); [|discriminate].
    destruct (update_rows params t sets w rs) as [[all' upd']|]; [|discriminate].
    injection H as _ <-. discriminate.
  - destruct (update_rows params t sets w rs) as [[all' upd']|]; [|discriminate].
    injection H as _ <-. destruct Hin as [<-|Hin]; [congruence|]. exact (IH all' upd' eq_refl Hin Hw).
Qed.

Lemma update_upsert d t params sets m out d' :
  store_wf d -> find_table "kindle_annotations" d = Some t -> ~ In "id" (map fst sets) ->
  (exists r, In r (tbl_rows t) /\ cell r "id" = VInt m) ->
  exec_stmt params (SUpdate "kindle_annotations" sets [("id", ENum m)] select_targets) d = Ok (out, d') ->
  exists u post, out = project u :: post /\ cell u "id" = VInt m /\
                 map_equiv (abs d') (map_update (abs d) m (Some u)).
Proof.
  intros Hwf Ht Hn [r0 [Hr0 Hid0]]. destruct (store_wf_table d Hwf) as [t0 [Ht0 [Hc [Htw Hrows]]]].
  rewrite Ht in Ht0. injection Ht0 as <-. unfold exec_stmt. cbn [stmt_table]. rewrite Ht.
  destruct (bind_params _ _ _); [|discriminate]. unfold exec_update.
  destruct (update_rows params t sets _ (tbl_rows t)) as [[all upd]|] eqn:Hup; [|discriminate].
  destruct (unique_ok t all); [|discriminate].
  destruct (update_rows_wf _ _ _ _ _ _ _ (twf_rows _ Htw) Hup) as [_ Hupd].
  rewrite Hc in Hupd. rewrite (output_project _ _ Hupd). intros [= <- <-].
  pose proof (fun r Hr => where_id_num params t r m Hc (proj1 (Forall_forall _ _) (twf_rows _ Htw) r Hr)) as Hw.
  destruct upd as [|u upd].
  { exfalso. refine (update_rows_nonempty _ _ _ _ _ _ _ r0 Hup Hr0 _ eq_refl).
    rewrite (Hw r0 Hr0). unfold col_is. rewrite Hid0. simpl. rewrite Z.eqb_refl. reflexivity. }
  destruct (update_first_readback params t sets _ m _ _ _ _ Hn Hw Hup) as [post Hpost].
  assert (Hu : col_is "id" m u = true)
    by (assert (H : In u (filter (col_is "id" m) all)) by (rewrite Hpost; left; reflexivity);
        apply filter_In in H; exact (proj2 H)).
  exists u, (map project upd). split; [reflexivity|]. split; [exact (col_is_cell _ _ _ Hu)|].
  intros z'. unfold abs, map_update. rewrite (annotation_rows_set d t (with_rows t all) Ht eq_refl), Hrows.
  simpl tbl_rows. destruct (Z.eqb_spec z' m) as [->|Hne]; [rewrite Hpost; reflexivity|].
  rewrite (update_rows_other _ _ _ _ m _ _ _ z' Hn Hw Hne Hup). reflexivity.
Qed.

(** ** The INSERT of a new annotation *)

Lemma filter_app_fresh rs nw n z' : cell nw "id" = VInt n -> z' <> n ->
  filter (col_is "id" z') (rs ++ [nw])%list = filter (col_is "id" z') rs.
Proof.
  intros Hnw Hne. rewrite filter_app. simpl. rewrite (col_is_int _ _ _ _ Hnw).
  destruct (Z.eqb_spec n z'); [congruence|]. apply app_nil_r.
Qed.

Lemma insert_upsert d t params cols vals out d' :
  id_inv d -> find_table "kindle_annotations" d = Some t -> ~ In "id" cols ->
  exec_stmt params (SInsert "kindle_annotations" cols vals on_conflict_id select_targets) d = Ok (out, d') ->
  exists u, out = [project u] /\ cell u "id" = VInt (tbl_next t) /\
            map_equiv (abs d') (map_update (abs d) (tbl_next t) (Some u)).
Proof.
  intros [Hwf Hids] Ht Hc. destruct (store_wf_ann d t Hwf Ht) as (Htw & Hcols & Hs & Hu).
  destruct (store_wf_table d Hwf) as [t0 [Ht0 [_ [_ Hrows]]]]. rewrite Ht in Ht0. injection Ht0 as <-.
  destruct (Hids t Ht) as [Hb Hr].
  unfold exec_stmt. cbn [stmt_table]. rewrite Ht. destruct (bind_params _ _ _); [|discriminate].
  destruct (exec_insert params t cols vals on_conflict_id select_targets) as [[o t']|] eqn:E; [|discriminate].
  intros [= <- <-].
  destruct (insert_appends _ _ _ _ _ _ _ Htw Hs Hu Hc (conj Hb Hr) E) as [nw [Hr' [Ho [Hnw _]]]].
  destruct (exec_insert_wf _ _ _ _ _ _ _ _ Htw E) as [Htw' Hname].
  assert (Hnwf : row_wf annotation_columns nw).
  { assert (Hc' : tbl_cols t' = tbl_cols t)
      by (pose proof (exec_insert_schema _ _ _ _ _ _ _ _ E) as H; unfold schema_of in H; congruence).
    rewrite <- Hcols, <- Hc'.
    apply (proj1 (Forall_forall _ _) (twf_rows _ Htw')). rewrite Hr'. apply in_or_app. right. left. reflexivity. }
  rewrite (output_project _ [nw] (Forall_cons _ Hnwf (Forall_nil _))) in Ho. injection Ho as <-.
  exists nw. split; [reflexivity|]. split; [exact Hnw|].
  intros z'. unfold abs, map_update. rewrite (annotation_rows_set d t t' Ht Hname), Hr', Hrows.
  destruct (Z.eqb_spec z' (tbl_next t)) as [->|Hne]; [rewrite (filter_fresh_id _ _ _ Hr Hnw); reflexivity|].
  rewrite (filter_app_fresh _ _ _ _ Hnw Hne). reflexivity.
Qed.

(** ** The final statement *)

Lemma project_id u z : cell u "id" = VInt z -> js_get (js_of_row (project u)) "id" = Ok (JNum z).
Proof. intros H. unfold project, js_of_row. simpl. rewrite H. reflexivity. Qed.

Lemma add_query_upsert d b m f rows d' : id_inv d -> match_id m ->
  (forall z, m = JNum z -> exists r, In r (annotation_rows d) /\ cell r "id" = VInt z) ->
  db_query (add_query b m f) d = (Ok rows, d') ->
  exists u z, js_first rows = js_of_row (project u) /\ js_get (js_first rows) "id" = Ok (JNum z) /\
              map_equiv (abs d') (map_update (abs d) z (Some u)).
Proof.
  intros Hd Hm Hrow. pose proof Hd as [Hwf _]. destruct (store_wf_table d Hwf) as [t [Ht [_ [_ Hrows]]]].
  rewrite db_query_run. unfold run_sql.
  destruct Hm as [-> | [z [-> Hz]]].
  - rewrite add_query_insert_parses by reflexivity.
    destruct (exec_stmt _ _ d) as [[out d1]|] eqn:E; [|discriminate]. intros [= <- <-].
    destruct (insert_upsert d t _ inserted_columns _ _ _ Hd Ht ltac:(apply no_id_notin; reflexivity) E) as [u [-> [Hu Habs]]].
    exists u, (tbl_next t). split; [reflexivity|]. split; [exact (project_id _ _ Hu) | exact Habs].
  - destruct (Hrow z eq_refl) as [r [Hr Hrz]]. rewrite Hrows in Hr.
    rewrite add_query_update_cases by (split; [lia | apply int4_below_threshold; lia]).
    destruct (truthy _), (truthy _); try (intros H; discriminate H);
      destruct (exec_stmt _ _ d) as [[out d1]|] eqn:E; try discriminate; intros [= <- <-];
      (pose proof (fun Hn => update_upsert d t _ _ z _ _ Hwf Ht Hn (ex_intro _ r (conj Hr Hrz)) E) as Hup;
       specialize (Hup ltac:(simpl; intuition discriminate)); destruct Hup as [u [post [-> [Hu Habs]]]];
       exists u, z; split; [reflexivity|]; split; [exact (project_id _ _ Hu) | exact Habs]).
Qed.

Lemma db_query_err_state q d e d' : db_query q d = (Err e, d') -> d' = d.
Proof. rewrite db_query_run. destruct (run_sql q d) as [[out d1]|e1]; intros H; inversion H; reflexivity. Qed.

(** ** [addAnnotation] *)

(** C26: after any history, [addAnnotation] refines an update of the map
    from ids to annotations at one id: when it resolves to [o], [o] is the
    projection of an annotation [u] whose id [z] it carries, and the map of
    the new database is the old one with [z] mapped to [u] (every other id
    keeps its annotation); when it rejects, the map is unchanged. *)
Theorem addAnnotation_refines d a : reachable d ->
  match addAnnotation a d with
  | (Ok o, d') => exists u z, o = present (Some u) JUndefined /\ js_get o "id" = Ok (JNum z) /\
                              map_equiv (abs d') (map_update (abs d) z (Some u))
  | (Err _, d') => map_equiv (abs d') (abs d)
  end.
Proof.
  intros Hr. pose proof (reachable_id_inv d Hr) as Hd.
  assert (H0 : rows_are (annotation_rows d) d) by (split; [exact Hd | reflexivity]).
  unfold addAnnotation, sbind, sfrom at 1.
  destruct (destructure_annotation a) as [f|e]; [|reflexivity].
  pose proof (rows_getBookID _ (f_title f) d H0) as H1.
  destruct (Books.getBookID (f_title f) d) as [[b|e] d1]; simpl in H1; [|apply abs_rows, (proj2 H1)].
  pose proof (rows_book_step _ b (f_title f) d1 H1) as H2.
  destruct (if negb (truthy b) then Books.insertBook (f_title f) else sret b) as [[b'|e] d2];
    simpl in H2; [|apply abs_rows, (proj2 H2)].
  pose proof (rows_getMatchingAnnotationID _ b' (f_end f) d2 H2) as H3.
  destruct (getMatchingAnnotationID_yields b' (f_end f) d2 (proj1 H2)) as [_ Hm].
  destruct (getMatchingAnnotationID b' (f_end f) d2) as [[m|e] d3] eqn:E3;
    simpl in H3, Hm; [|apply abs_rows, (proj2 H3)].
  assert (Hrow : forall z, m = JNum z -> exists r, In r (annotation_rows d3) /\ cell r "id" = VInt z).
  { intros z ->. destruct (matching_some _ _ _ _ z (proj1 H2) E3) as [-> Hex]. exact Hex. }
  destruct (db_query (add_query b' m f) d3) as [[rows|e] d4] eqn:E4.
  - destruct (add_query_upsert d3 b' m f rows d4 (proj1 H3) Hm Hrow E4) as (u & z & Hu & Hz & Habs).
    exists u, z. split; [exact Hu|]. split; [exact Hz|].
    etransitivity; [exact Habs|]. apply map_update_proper; [apply abs_rows, (proj2 H3) | reflexivity | reflexivity].
  - rewrite (db_query_err_state _ _ _ _ E4). apply abs_rows, (proj2 H3).
Qed.

Lemma addAnnotation_refines_witness :
  reachable (snd (run_op (OpAddAnnotation foo_first) initial_db)) /\
  match addAnnotation foo_second (snd (run_op (OpAddAnnotation foo_first) initial_db)) with
  | (Ok o, d') => exists u z, o = present (Some u) JUndefined /\ js_get o "id" = Ok (JNum z) /\
                              map_equiv (abs d') (map_update (abs (snd (run_op (OpAddAnnotation foo_first) initial_db))) z (Some u))
  | (Err _, d') => map_equiv (abs d') (abs (snd (run_op (OpAddAnnotation foo_first) initial_db)))
  end.
Proof.
  assert (Hr : reachable (snd (run_op (OpAddAnnotation foo_first) initial_db))) by apply reach_op, reach_init.
  exact (conj Hr (addAnnotation_refines _ foo_second Hr)).
Defined.
