(* ===== verification/Atomic.v ===== *)
(** * Calls with one query are atomic

    [getAllAnnotations], [getAnnotationByID], [getAnnotationsByBookID],
    [editAnnotation] and [deleteAnnotation] each await exactly one query:
    written as resumptions ([Concurrency.prog]) they finish at their first
    resumption.  So however the scheduler interleaves any number of them,
    the database ends as running the same calls one at a time, in the
    order of their first resumption, leaves it ([Lifecycle.run_ops]).  The
    race of [Race.racing_adds_duplicate_row] needs a call with several
    awaits. *)

From Stdlib Require Import String Ascii ZArith List Lia Bool.
From S2P Require Import Prelude Js SqlText SqlTemplate SqlLexer SqlParser SqlValue SqlEngine EngineFacts Schema Books Annotations Statements StoreFacts ReadFacts WriteFacts Lifecycle Concurrency.
Import ListNotations.
Open Scope string_scope.

(** ** The calls with their await *)

Definition getAllAnnotations_p (limit : jsval) : prog jsval :=
  let limit := match limit with JUndefined => JNum 50 | _ => limit end in
  pbind (pquery (all_query limit)) (fun rows => pret rows).

Definition getAnnotationsByBookID_p (book_id : jsval) : prog jsval :=
  pbind (pquery (by_book_query book_id)) (fun rows => pret rows).

Definition getAnnotationByID_p (annoID : jsval) : prog jsval :=
  pbind (pquery (by_id_query annoID)) (fun rows =>
  if negb (truthy (js_first rows)) then pret JNull else pret (js_first rows)).

Definition editAnnotation_p (annotation : jsval) : prog jsval :=
  pbind (PDone (js_get annotation "highlight")) (fun highlight =>
  pbind (PDone (js_get annotation "note")) (fun note =>
  pbind (PDone (js_get annotation "id")) (fun id =>
  pbind (pquery (edit_query highlight note id)) (fun rows =>
  pret (js_first rows))))).

Definition deleteAnnotation_p (annotation : jsval) : prog jsval :=
  pbind (PDone (js_get annotation "id")) (fun id =>
  pbind (pquery (delete_query id)) (fun rows =>
  pret (js_first rows))).

(** The exported calls that send one query. *)
Inductive one_query_op : Type :=
| AGetAll (limit : jsval)
| AGetByID (annoID : jsval)
| AGetByBook (book_id : jsval)
| AEdit (annotation : jsval)
| ADelete (annotation : jsval).

Definition one_query_p (o : one_query_op) : prog jsval :=
  match o with
  | AGetAll l => getAllAnnotations_p l
  | AGetByID i => getAnnotationByID_p i
  | AGetByBook b => getAnnotationsByBookID_p b
  | AEdit a => editAnnotation_p a
  | ADelete a => deleteAnnotation_p a
  end.

Definition one_query_store_op (o : one_query_op) : store_op :=
  match o with
  | AGetAll l => OpGetAllAnnotations l
  | AGetByID i => OpGetAnnotationByID i
  | AGetByBook b => OpGetAnnotationsByBookID b
  | AEdit a => OpEditAnnotation a
  | ADelete a => OpDeleteAnnotation a
  end.

(** A call that finishes at its first resumption. *)
Definition one_shot (p : prog jsval) : Prop :=
  match p with PDone _ => True | PAwait _ k => forall v, finished (k v) = true end.

(** The indices of a schedule in the order of their first occurrence. *)
Fixpoint firsts (seen : list nat) (s : list nat) : list nat :=
  match s with
  | [] => []
  | i :: s' => if existsb (Nat.eqb i) seen then firsts seen s' else i :: firsts (i :: seen) s'
  end.

(** The calls of [os] in the order a schedule first resumes them. *)
Definition lin_ops (s : list nat) (os : list one_query_op) : list store_op :=
  flat_map (fun i => match nth_error os i with Some o => [one_query_store_op o] | None => [] end) (firsts [] s).

(** ** Each call alone *)

Lemma one_query_run o d : run_prog (one_query_p o) d = run_op (one_query_store_op o) d.
Proof.
  destruct o as [l|i|b|a|a]; cbn [one_query_p one_query_store_op run_op].
  - unfold getAllAnnotations_p, getAllAnnotations. cbv zeta. run_bind; [apply run_pquery | reflexivity].
  - unfold getAnnotationByID_p, getAnnotationByID. run_bind; [apply run_pquery|].
    intros rows d'. destruct (negb _); reflexivity.
  - unfold getAnnotationsByBookID_p, getAnnotationsByBookID. run_bind; [apply run_pquery | reflexivity].
  - unfold editAnnotation_p, editAnnotation.
    run_bind; [reflexivity | intros h d1]. run_bind; [reflexivity | intros n d2].
    run_bind; [reflexivity | intros i d3]. run_bind; [apply run_pquery | reflexivity].
  - unfold deleteAnnotation_p, deleteAnnotation.
    run_bind; [reflexivity | intros i d1]. run_bind; [apply run_pquery | reflexivity].
Qed.

Lemma one_query_one_shot o : one_shot (one_query_p o).
Proof.
  destruct o as [l|i|b|a|a]; simpl; try (intros v; reflexivity).
  - intros v. destruct (truthy (js_first v)); reflexivity.
  - unfold editAnnotation_p. destruct (js_get a "highlight"), (js_get a "note"), (js_get a "id"); simpl; auto.
  - unfold deleteAnnotation_p. destruct (js_get a "id"); simpl; auto.
Qed.

(** ** Schedules of calls that finish at their first resumption *)

Lemma nth_error_set_nth_ne {A} i j (x : A) l : j <> i -> nth_error (set_nth i x l) j = nth_error l j.
Proof.
  revert i j. induction l as [|y l IH]; intros i j H; [destruct i; reflexivity|].
  destruct i as [|i], j as [|j]; simpl; try reflexivity; [congruence|]. apply IH. congruence.
Qed.

Lemma nth_error_set_nth_eq {A} i (x : A) l p : nth_error l i = Some p -> nth_error (set_nth i x l) i = Some x.
Proof. revert i. induction l as [|y l IH]; intros [|i] H; simpl in *; try discriminate; auto. Qed.

Lemma set_nth_same {A} i (x : A) l : nth_error l i = Some x -> set_nth i x l = l.
Proof. revert i. induction l as [|y l IH]; intros [|i] H; simpl in *; try discriminate; [congruence|]. f_equal. auto. Qed.

Lemma forall_set_nth {A} (P : A -> Prop) i x l : Forall P l -> P x -> Forall P (set_nth i x l).
Proof. intros H Hx. revert i. induction H as [|y l Hy H IH]; intros [|i]; simpl; constructor; auto. Qed.

Lemma resume_finished (p : prog jsval) d : finished p = true -> resume p d = (p, d).
Proof. destruct p; [reflexivity | discriminate]. Qed.

Lemma resume_one_shot (p : prog jsval) d : one_shot p -> finished (fst (resume p d)) = true.
Proof.
  destruct p as [r|q k]; simpl; [reflexivity|]. intros H.
  destruct (db_query q d) as [[v|e] d']; [apply H | reflexivity].
Qed.

Lemma finished_one_shot (p : prog jsval) : finished p = true -> one_shot p.
Proof. destruct p; simpl; [tauto | discriminate]. Qed.

(** A call that finishes at its first resumption does there all it does. *)
Lemma snd_run_one_shot (p : prog jsval) d : one_shot p -> snd (run_prog p d) = snd (resume p d).
Proof.
  intros H. rewrite resume_run. pose proof (resume_one_shot p d H) as Hf.
  destruct (resume p d) as [[r|q k] d']; [reflexivity | discriminate].
Qed.

(** Resuming a finished call does nothing: only first resumptions count. *)
Lemma run_sched_firsts s : forall seen ts d, Forall one_shot ts ->
  (forall j p, In j seen -> nth_error ts j = Some p -> finished p = true) ->
  run_sched s ts d = run_sched (firsts seen s) ts d.
Proof.
  induction s as [|i s IH]; intros seen ts d Hts Hseen; [reflexivity|]. simpl.
  destruct (existsb (Nat.eqb i) seen) eqn:E.
  - apply existsb_exists in E as [j [Hj Hij]]. apply Nat.eqb_eq in Hij. subst j.
    destruct (nth_error ts i) as [p|] eqn:Hp; [|apply IH; assumption].
    rewrite (resume_finished p d (Hseen i p Hj Hp)), (set_nth_same _ _ _ Hp). apply IH; assumption.
  - simpl. destruct (nth_error ts i) as [p|] eqn:Hp.
    + pose proof (resume_one_shot p d (proj1 (Forall_forall _ _) Hts p (nth_error_In _ _ Hp))) as Hf.
      destruct (resume p d) as [p' d'] eqn:Er. simpl in Hf. apply IH.
      * apply forall_set_nth; [exact Hts | exact (finished_one_shot _ Hf)].
      * intros j q [<-|Hj] Hq.
        -- rewrite (nth_error_set_nth_eq _ _ _ _ Hp) in Hq. injection Hq as <-. exact Hf.
        -- destruct (Nat.eq_dec j i) as [->|Hne].
           ++ rewrite (nth_error_set_nth_eq _ _ _ _ Hp) in Hq. injection Hq as <-. exact Hf.
           ++ rewrite (nth_error_set_nth_ne _ _ _ _ Hne) in Hq. exact (Hseen j q Hj Hq).
    + apply IH; [exact Hts|]. intros j q [<-|Hj] Hq; [congruence | exact (Hseen j q Hj Hq)].
Qed.

Lemma firsts_nodup s : forall seen, NoDup (firsts seen s) /\ forall i, In i (firsts seen s) -> ~ In i seen.
Proof.
  induction s as [|i s IH]; intros seen; simpl; [split; [constructor | tauto]|].
  destruct (existsb (Nat.eqb i) seen) eqn:E; [apply IH|].
  destruct (IH (i :: seen)) as [Hnd Hout]. split.
  - constructor; [intros Hin; exact (Hout i Hin (or_introl eq_refl)) | exact Hnd].
  - intros x [<-|Hx] Hs.
    + rewrite <- not_true_iff_false in E. apply E, existsb_exists. exists i. split; [exact Hs | apply Nat.eqb_refl].
    + exact (Hout x Hx (or_intror Hs)).
Qed.

(** A schedule that resumes each call at most once runs them one after
    the other. *)
Lemma run_sched_nodup s : forall ts ts0 d, NoDup s -> Forall one_shot ts0 ->
  (forall j, In j s -> nth_error ts j = nth_error ts0 j) ->
  snd (run_sched s ts d) =
  fold_left (fun d i => match nth_error ts0 i with Some p => snd (run_prog p d) | None => d end) s d.
Proof.
  induction s as [|i s IH]; intros ts ts0 d Hnd H0 Hag; [reflexivity|].
  apply NoDup_cons_iff in Hnd as [Hi Hnd]. simpl. rewrite (Hag i (or_introl eq_refl)).
  destruct (nth_error ts0 i) as [p|] eqn:Hp.
  - rewrite (snd_run_one_shot p d (proj1 (Forall_forall _ _) H0 p (nth_error_In _ _ Hp))).
    destruct (resume p d) as [p' d'] eqn:Er. simpl. apply IH; [exact Hnd | exact H0|].
    intros j Hj. rewrite nth_error_set_nth_ne by (intros ->; contradiction). exact (Hag j (or_intror Hj)).
  - apply IH; [exact Hnd | exact H0 | intros j Hj; exact (Hag j (or_intror Hj))].
Qed.

Lemma snd_run_ops_cons o os d : snd (run_ops (o :: os) d) = snd (run_ops os (snd (run_op o d))).
Proof. simpl. destruct (run_op o d) as [r d1]. simpl. destruct (run_ops os d1). reflexivity. Qed.

Lemma fold_one_query l os d :
  fold_left (fun d i => match nth_error (map one_query_p os) i with Some p => snd (run_prog p d) | None => d end) l d =
  snd (run_ops (flat_map (fun i => match nth_error os i with Some o => [one_query_store_op o] | None => [] end) l) d).
Proof.
  revert d. induction l as [|i l IH]; intros d; [reflexivity|]. simpl. rewrite nth_error_map.
  destruct (nth_error os i) as [o|]; simpl; [|apply IH].
  rewrite one_query_run, IH. symmetry. apply snd_run_ops_cons.
Qed.

(** Any number of concurrent calls of [getAllAnnotations],
    [getAnnotationByID], [getAnnotationsByBookID], [editAnnotation] and
    [deleteAnnotation], interleaved by any schedule, leave the database
    that running the same calls one at a time, in the order of their
    first resumption ([lin_ops]), leaves: each sends one query, so each is
    atomic. *)
Theorem one_query_calls_linearizable os s d :
  snd (run_sched s (map one_query_p os) d) = snd (run_ops (lin_ops s os) d).
Proof.
  assert (Hts : Forall one_shot (map one_query_p os))
    by (apply Forall_map, Forall_forall; intros o _; apply one_query_one_shot).
  rewrite (run_sched_firsts s [] _ d Hts) by (intros j p []).
  destruct (firsts_nodup s []) as [Hnd _].
  rewrite (run_sched_nodup _ _ (map one_query_p os) d Hnd Hts) by reflexivity.
  apply fold_one_query.
Qed.
