(* ===== verification/Requests.v ===== *)
(** * A write of the store, then a request of the router

    The router ([src/routes/api/annotations.js]) answers [GET /:id] from
    the store's [getAnnotationByID], with the id taken from the path as
    a string.  This file composes the two: an id that [addAnnotation]
    returns, printed the way JavaScript prints a number into a URL, is a
    one-segment path, and the router answers it with [200] and the very
    object [addAnnotation] resolved to. *)

From Stdlib Require Import String Ascii ZArith List Lia Bool.
From S2P Require Import Prelude Js SqlText SqlTemplate SqlLexer SqlParser SqlValue SqlEngine EngineFacts Schema Books Annotations Statements Routes StoreFacts ReadFacts RouteFacts WriteFacts Lifecycle Abstract Ids AddFacts.
Import ListNotations.
Open Scope string_scope.

(** ** Printed numbers are path segments *)

Lemma digit_char_not_slash d : (0 <= d < 10)%Z -> Ascii.eqb (digit_char d) "/" = false.
Proof.
  intros Hd. unfold digit_char. assert (Z.to_nat d < 10)%nat as Hk by lia.
  remember (Z.to_nat d) as k eqn:E. clear E Hd.
  do 10 (destruct k as [|k]; [reflexivity|]). lia.
Qed.

Lemma no_slash_cons c s : no_slash (String c s) = negb (Ascii.eqb c "/") && no_slash s.
Proof. reflexivity. Qed.

Lemma dec_digits_no_slash f : forall n acc, (0 <= n)%Z -> no_slash acc = true ->
  no_slash (dec_digits f n acc) = true.
Proof.
  induction f as [|f IH]; intros n acc Hn Hacc; cbn [dec_digits]; [exact Hacc|].
  assert (Hc : no_slash (String (digit_char (n mod 10)) acc) = true).
  { rewrite no_slash_cons, digit_char_not_slash by (apply Z.mod_pos_bound; lia). exact Hacc. }
  destruct (Z.ltb n 10); [exact Hc|]. apply IH; [apply Z.div_pos; lia | exact Hc].
Qed.

Lemma no_slash_app a b : no_slash (a ++ b) = no_slash a && no_slash b.
Proof.
  induction a as [|c a IH]; [reflexivity|].
  cbn [String.append]. rewrite !no_slash_cons, IH. apply andb_assoc.
Qed.

Lemma dec_string_no_slash n : (0 <= n)%Z -> no_slash (dec_string n) = true.
Proof. intros H. apply dec_digits_no_slash; [exact H | reflexivity]. Qed.

Lemma exp_form_no_slash n : (0 <= n)%Z -> no_slash (exp_form n) = true.
Proof.
  intros H. unfold exp_form.
  assert (He : no_slash (dec_string (Z.of_nat (String.length (dec_string n)) - 1)) = true).
  { apply dec_string_no_slash. destruct (dec_string_head n H) as [d [r [_ ->]]]. cbn [String.length]. lia. }
  pose proof (dec_string_no_slash (strip_zeros (dec_fuel n) n)
                (strip_zeros_nonneg _ n H)) as Hm.
  destruct (dec_string (strip_zeros (dec_fuel n) n)) as [|c [|c' r]];
    cbn [String.append]; rewrite ?no_slash_cons, ?no_slash_app, ?no_slash_cons in *;
    repeat match goal with H : _ && _ = true |- _ => apply andb_true_iff in H as [? ?] end;
    repeat (apply andb_true_iff; split); first [assumption | reflexivity].
Qed.

Lemma nonneg_no_slash n : (0 <= n)%Z -> no_slash (nonneg_to_string n) = true.
Proof.
  intros H. unfold nonneg_to_string.
  destruct (Z.ltb n exp_threshold); [apply dec_string_no_slash | apply exp_form_no_slash]; exact H.
Qed.

(** The text of any number, decimal or with an exponent, is a non-empty
    path segment. *)
Lemma number_segment z : number_to_string z <> "" /\ no_slash (number_to_string z) = true.
Proof.
  unfold number_to_string. destruct (Z.ltb_spec z 0) as [E|E].
  - split; [discriminate|]. cbn [String.append]. rewrite no_slash_cons. apply nonneg_no_slash. lia.
  - destruct (nonneg_head z E) as [d [r [_ Hh]]]. split; [rewrite Hh; discriminate|].
    apply nonneg_no_slash. exact E.
Qed.

(** ** The router answers the id a write returned *)

(** The [/:id] route on a number's text answers what
    [getAnnotationByID] resolves to on that number, whenever it resolves. *)
Lemma route_of_lookup d z o : store_wf d ->
  fst (getAnnotationByID (JNum z) d) = Ok o ->
  router_get ("/" ++ number_to_string z) d = Some (res_json 200 o, d).
Proof.
  intros Hwf Ho. destruct (number_segment z) as [Hne Hns].
  rewrite (route_by_id d _ Hwf Hne Hns), int4in_number.
  unfold getAnnotationByID, sbind in Ho.
  rewrite (select_int_col d _ "id" (number_to_string z) Hwf eq_refl (by_id_query_parses (JNum z)) eq_refl),
    int4in_number in Ho.
  destruct (int4_range z); [|discriminate].
  destruct (filter _ _); simpl in Ho; injection Ho as <-; reflexivity.
Qed.

(** C27: after any history, when [addAnnotation(a)] resolves to an
    object with id [z], the request [GET /<z>] on the router, the id
    printed in decimal, answers [200] with that same object and leaves
    the database as the write left it. *)
Theorem add_then_get_route d a o z : reachable d ->
  fst (addAnnotation a d) = Ok o -> js_get o "id" = Ok (JNum z) ->
  router_get ("/" ++ number_to_string z) (snd (addAnnotation a d)) =
  Some (res_json 200 o, snd (addAnnotation a d)).
Proof.
  intros Hr Ho Hz. apply route_of_lookup; [|exact (add_reads_back d a o z Hr Ho Hz)].
  exact (proj1 (reachable_id_inv _ (reach_op (OpAddAnnotation a) d Hr))).
Qed.

Lemma add_then_get_route_witness :
  reachable (snd (run_op (OpAddAnnotation foo_first) initial_db)) /\
  exists o, fst (addAnnotation foo_second (snd (run_op (OpAddAnnotation foo_first) initial_db))) = Ok o /\
    js_get o "id" = Ok (JNum 1) /\
    router_get ("/" ++ number_to_string 1)
      (snd (addAnnotation foo_second (snd (run_op (OpAddAnnotation foo_first) initial_db)))) =
    Some (res_json 200 o, snd (addAnnotation foo_second (snd (run_op (OpAddAnnotation foo_first) initial_db)))).
Proof.
  assert (Hr : reachable (snd (run_op (OpAddAnnotation foo_first) initial_db))) by apply reach_op, reach_init.
  split; [exact Hr|]. eexists. split; [vm_compute; reflexivity|]. split; [vm_compute; reflexivity|].
  apply add_then_get_route; [exact Hr | vm_compute; reflexivity | vm_compute; reflexivity].
Defined.
