(* ===== verification/Race.v ===== *)
(** * Two [addAnnotation] calls racing

    [addAnnotation] looks for an annotation of the same [(book_id, end)]
    and then, in a later await, writes: an UPDATE of the match or an
    INSERT.  Nothing makes the two steps atomic.  This file shows, on
    every database reachable from a fresh one, that when the book exists
    and no annotation matches yet, two calls with the same argument
    interleaved so that both look for a match before either writes both
    resolve, and leave two new annotations that agree on every column but
    [id]: the same [(book_id, end)] twice.  Run one after the other the
    second call finds the first's annotation and updates it
    ([Pairs.sequential_pairs_unique]).

    The INSERT that succeeded once succeeds again on the table it left,
    as long as the sequence has room for one more id: its values do not
    depend on the rows, and the sequence supplies a fresh [id]. *)

From Stdlib Require Import String Ascii ZArith List Lia Bool.
From S2P Require Import Prelude Js SqlText SqlTemplate SqlLexer SqlParser SqlValue SqlEngine EngineFacts Schema Books Annotations Statements StoreFacts ReadFacts RouteFacts WriteFacts Lifecycle Concurrency Ids AddFacts Atomic.
Import ListNotations.
Open Scope string_scope.

(** ** The INSERT of [addAnnotation] on the annotation table *)

Lemma distinct_id_snoc rs nw n :
  distinct_on ["id"] rs = true -> Forall (fun r => exists z, cell r "id" = VInt z /\ (z < n)%Z) rs ->
  cell nw "id" = VInt n -> distinct_on ["id"] (rs ++ [nw])%list = true.
Proof.
  intros Hd Hf Hn. induction Hf as [|r rs [z [Hz Hlt]] Hf IH]; [reflexivity|].
  cbn [distinct_on app] in *. apply andb_true_iff in Hd as [Hr Hd].
  rewrite IH by exact Hd. rewrite existsb_app. cbn [existsb].
  replace (same_key ["id"] r nw) with false.
  - destruct (existsb _ rs); [discriminate | reflexivity].
  - unfold same_key. rewrite (key_of_single "id" r z Hz), (key_of_single "id" nw n Hn).
    unfold key_eqb. simpl. destruct (Z.eqb_spec z n); [lia | reflexivity].
Qed.

Lemma eval_given_cols params t t' cols vals : tbl_cols t' = tbl_cols t ->
  eval_given params t' cols vals = eval_given params t cols vals.
Proof. intros H. unfold eval_given, col_type_of. rewrite H. reflexivity. Qed.

Lemma typed_for_cols t t' cv : tbl_cols t' = tbl_cols t -> typed_for t cv -> typed_for t' cv.
Proof. intros H. unfold typed_for. rewrite H. exact id. Qed.

(** Two rows the INSERT proposes with the same values agree on every
    column but the serial one. *)
Lemma proposed_cell_other ta tb given n m c : tbl_cols ta = tbl_cols tb -> c <> "id" ->
  cell (proposed_row ta given (Some ("id", n))) c = cell (proposed_row tb given (Some ("id", m))) c.
Proof.
  intros Hc Hne. unfold proposed_row, cell. rewrite Hc. clear Hc.
  induction (tbl_cols tb) as [|col cols IH]; [reflexivity|]. cbn [map assoc_get].
  destruct (String.eqb_spec c (col_name col)) as [E|_]; [|exact IH].
  destruct (assoc_get (col_name col) given); [reflexivity|].
  destruct (String.eqb_spec "id" (col_name col)); [congruence | reflexivity].
Qed.

(** The proposed row takes the sequence's value as its [id]. *)
Lemma proposed_id params t t' cols vals given n :
  table_wf t -> tbl_serial t = Some "id" -> ~ In "id" cols -> eval_given params t cols vals = Ok given ->
  tbl_cols t' = tbl_cols t -> cell (proposed_row t' given (Some ("id", n))) "id" = VInt n.
Proof.
  intros Hwf Hs Hc Hg Hcols. unfold cell. rewrite proposed_row_serial; [reflexivity | |].
  - rewrite Hcols. exact (serial_col t "id" Hwf Hs).
  - exact (eval_given_notin _ _ _ _ _ "id" Hg Hc).
Qed.

Lemma bind_params_cols params t t' s : tbl_cols t' = tbl_cols t ->
  bind_params params t' s = bind_params params t s.
Proof. intros H. unfold bind_params, param_uses, col_context, col_type_of. rewrite H. reflexivity. Qed.

(** What the statement needs from its inputs, before any row is read. *)
Lemma insert_inputs params t cols vals oc ret out t' :
  exec_insert params t cols vals oc ret = Ok (out, t') ->
  Nat.eqb (length cols) (length vals) = true /\ exists given, eval_given params t cols vals = Ok given.
Proof.
  unfold exec_insert. destruct (Nat.eqb _ _); [|discriminate]. cbn [negb].
  destruct (eval_given _ _ _ _) as [given|]; [eauto | discriminate].
Qed.

(** The INSERT without [id] on the annotation table, once its values
    convert and while the sequence has room: the new row, with the
    sequence's value as [id], is appended and returned. *)
Lemma insert_succeeds params t cols vals given :
  table_wf t -> annotation_schema t -> ~ In "id" cols -> ids_below_next t ->
  Nat.eqb (length cols) (length vals) = true -> eval_given params t cols vals = Ok given ->
  (tbl_next t <= int4_max)%Z ->
  let nw := proposed_row (with_next t (tbl_next t + 1)) given (Some ("id", tbl_next t)) in
  exec_insert params t cols vals on_conflict_id select_targets =
  Ok (map project [nw], with_rows (with_next t (tbl_next t + 1)) (tbl_rows t ++ [nw])%list).
Proof.
  intros Hwf (Hcols & Hs & Hu) Hc [Hn Hids] Hl Hg Hroom nw.
  rewrite on_conflict_plain; [| exact Hwf | exact Hs | exact Hu | exact Hc |].
  2:{ refine (Forall_impl _ _ Hids). intros r [z [Hz Hb]]. exists z. split; [exact Hz | lia]. }
  pose proof (serial_col t "id" Hwf Hs) as Hsf.
  unfold exec_insert. rewrite Hl, Hg. cbn [negb].
  unfold next_serial. rewrite Hs, (existsb_eqb_notin "id" cols Hc).
  destruct (Z.leb_spec (tbl_next t) int4_max) as [_|]; [|lia].
  pose proof (proposed_id params t (with_next t (tbl_next t + 1)) cols vals given (tbl_next t)
                Hwf Hs Hc Hg eq_refl) as Hid.
  unfold insert_plain, unique_ok. cbn [tbl_unique with_next tbl_rows]. rewrite Hu. cbn [forallb].
  pose proof (twf_unique _ Hwf) as Hd. unfold unique_ok in Hd. rewrite Hu in Hd. cbn [forallb] in Hd.
  rewrite andb_true_r in Hd. rewrite (distinct_id_snoc _ _ (tbl_next t) Hd); cycle 1.
  { refine (Forall_impl _ _ Hids). intros r [z [Hz Hb]]. exists z. split; [exact Hz | lia]. }
  { exact Hid. }
  cbn [andb]. rewrite output_project; [reflexivity|].
  constructor; [|constructor]. rewrite <- Hcols.
  change (tbl_cols t) with (tbl_cols (with_next t (tbl_next t + 1))).
  apply proposed_row_wf.
  - exact (twf_names _ Hwf).
  - refine (Forall_impl _ (fun cv => typed_for_cols t _ cv eq_refl) (eval_given_typed _ _ _ _ _ Hg)).
  - split; [exact Hsf | lia].
Qed.

(** The annotation sequence has room for two more ids. *)
Definition seq_room (d : db) : Prop :=
  forall t, find_table "kindle_annotations" d = Some t -> (tbl_next t < int4_max)%Z.

(** An INSERT without [id] into [kindle_annotations] that succeeded on a
    database succeeds again on the database it left: the two runs append
    two rows that differ in their [id] only. *)
Lemma insert_stmt_twice params cols vals d out1 d1 :
  id_inv d -> seq_room d -> ~ In "id" cols ->
  exec_stmt params (SInsert "kindle_annotations" cols vals on_conflict_id select_targets) d = Ok (out1, d1) ->
  exists r1 r2 d2,
    out1 = [project r1] /\
    exec_stmt params (SInsert "kindle_annotations" cols vals on_conflict_id select_targets) d1 =
      Ok ([project r2], d2) /\
    annotation_rows d1 = (annotation_rows d ++ [r1])%list /\
    annotation_rows d2 = (annotation_rows d1 ++ [r2])%list /\
    cell r2 "id" <> cell r1 "id" /\ (forall c, c <> "id" -> cell r2 c = cell r1 c).
Proof.
  intros [Hwf Hids] Hroom Hc. destruct (store_wf_table d Hwf) as [t [Ht [_ [_ Hrows]]]].
  destruct (store_wf_ann d t Hwf Ht) as [Htw Hsch]. pose proof Hsch as (Hcols & Hs & Hu).
  pose proof (Hids t Ht) as Hb. specialize (Hroom t Ht).
  unfold exec_stmt at 1. cbn [stmt_table]. rewrite Ht. destruct (bind_params params t _) eqn:Hbp; [|discriminate].
  destruct (exec_insert params t cols vals on_conflict_id select_targets) as [[o t1]|] eqn:E; [|discriminate].
  intros [= <- <-]. destruct (insert_inputs _ _ _ _ _ _ _ _ E) as [Hl [given Hg]].
  pose proof (insert_succeeds params t cols vals given Htw Hsch Hc Hb Hl Hg ltac:(lia)) as Ei.
  rewrite Ei in E. injection E as <- <-.
  pose proof (exec_insert_wf _ _ _ _ _ _ _ _ Htw Ei) as [Htw1 Hn1].
  pose proof (exec_insert_ids params t cols vals on_conflict_id select_targets _ _ Htw Hs Hc (oc_no_id on_conflict_id eq_refl) Hb Ei) as Hb1.
  set (t1 := with_rows _ _) in *.
  assert (Ht1 : find_table "kindle_annotations" (set_table t1 d) = Some t1).
  { pose proof (find_table_name _ _ _ Ht) as Hname. rewrite <- Hname, <- Hn1.
    apply (find_set_table t1 t d). rewrite Hn1, Hname. exact Ht. }
  unfold exec_stmt. cbn [stmt_table]. rewrite Ht1, (bind_params_cols params t t1 _ eq_refl), Hbp.
  rewrite (insert_succeeds params t1 cols vals given Htw1 Hsch Hc Hb1 Hl
             ltac:(rewrite (eval_given_cols params t t1 cols vals eq_refl); exact Hg)
             ltac:(cbn [t1 tbl_next with_rows with_next]; lia)).
  eexists _, _, _. split; [reflexivity|]. split; [reflexivity|].
  set (t2 := with_rows (with_next t1 (tbl_next t1 + 1)) _).
  rewrite (annotation_rows_set (set_table t1 d) t1 t2 Ht1 eq_refl), (annotation_rows_set d t t1 Ht Hn1), Hrows.
  split; [reflexivity|]. split; [reflexivity|]. split.
  - rewrite (proposed_id params t (with_next t1 (tbl_next t1 + 1)) cols vals given _ Htw Hs Hc Hg eq_refl),
      (proposed_id params t (with_next t (tbl_next t + 1)) cols vals given _ Htw Hs Hc Hg eq_refl).
    cbn [t1 tbl_next with_rows with_next]. intros [= H]. lia.
  - intros c Hne. apply proposed_cell_other; [reflexivity | exact Hne].
Qed.

(** ** The resumptions of [addAnnotation] along the racing schedule *)

(** Resuming a call at an await that finishes the awaited helper. *)
Lemma resume_bind_one_shot (p : prog jsval) (K : jsval -> prog jsval) d v d' :
  one_shot p -> finished p = false -> run_prog p d = (Ok v, d') -> resume (pbind p K) d = (K v, d').
Proof.
  destruct p as [r|q k]; [discriminate|]. intros Hos _ Hrun. cbn [pbind resume].
  cbn [run_prog] in Hrun. unfold sbind in Hrun.
  destruct (db_query q d) as [[v0|e] d0]; [|discriminate]. specialize (Hos v0).
  destruct (k v0) as [r0|] eqn:Ek; [|discriminate]. cbn in Hrun. injection Hrun as -> ->. reflexivity.
Qed.

Lemma getBookID_p_shape t : one_shot (getBookID_p t) /\ finished (getBookID_p t) = false.
Proof. split; [intros v; cbn; destruct (js_first v); reflexivity | reflexivity]. Qed.

Lemma getMatchingAnnotationID_p_shape b e :
  one_shot (getMatchingAnnotationID_p b e) /\ finished (getMatchingAnnotationID_p b e) = false.
Proof. split; [intros v; cbn; destruct (truthy (js_first v)); reflexivity | reflexivity]. Qed.

Lemma getBookID_read_only t : read_only (Books.getBookID t).
Proof.
  unfold Books.getBookID. apply read_only_bind.
  - apply (db_query_select _ [mkTarget (EColumn "id") None] "books" [("title", EParam 1)] None). parse_closed.
  - intros rows d. destruct (js_first rows); reflexivity.
Qed.

Lemma getMatchingAnnotationID_read_only b e : read_only (getMatchingAnnotationID b e).
Proof.
  unfold getMatchingAnnotationID. apply read_only_bind.
  - exact (db_query_select _ _ _ _ _ (matching_query_parses b e)).
  - intros rows d. destruct (negb _); reflexivity.
Qed.

(** A lookup that resolves leaves the database as it was. *)
Lemma read_result {A} (m : stM db js_error A) d v : read_only m -> fst (m d) = Ok v -> m d = (Ok v, d).
Proof. intros Hr Hv. specialize (Hr d). destruct (m d) as [r d']. simpl in *. congruence. Qed.

(** ** The race *)

(** The final statement of [addAnnotation] run twice on a reachable
    database: both runs insert. *)
Lemma add_query_twice d b f rows1 d1 : id_inv d -> seq_room d ->
  db_query (add_query b JNull f) d = (Ok rows1, d1) ->
  exists r1 r2 d2,
    rows1 = JArr [js_of_row (project r1)] /\
    db_query (add_query b JNull f) d1 = (Ok (JArr [js_of_row (project r2)]), d2) /\
    annotation_rows d1 = (annotation_rows d ++ [r1])%list /\
    annotation_rows d2 = (annotation_rows d1 ++ [r2])%list /\
    cell r2 "id" <> cell r1 "id" /\ (forall c, c <> "id" -> cell r2 c = cell r1 c).
Proof.
  intros Hd Hroom. rewrite db_query_run. unfold run_sql. rewrite add_query_insert_parses by reflexivity.
  destruct (exec_stmt _ _ d) as [[out d1']|] eqn:E; [|discriminate]. intros [= <- <-].
  destruct (insert_stmt_twice _ inserted_columns _ d out d1' Hd Hroom (no_id_notin inserted_columns eq_refl) E)
    as (r1 & r2 & d2 & -> & E2 & H1 & H2 & Hid & Hc).
  exists r1, r2, d2. rewrite db_query_run. unfold run_sql. rewrite add_query_insert_parses by reflexivity.
  rewrite E2. auto 6.
Qed.

(** When the book exists and nothing matches, a call that resolves alone
    reaches its INSERT. *)
Lemma add_alone_writes d a f b o :
  destructure_annotation a = Ok f -> Books.getBookID (f_title f) d = (Ok b, d) -> truthy b = true ->
  getMatchingAnnotationID b (f_end f) d = (Ok JNull, d) -> fst (addAnnotation a d) = Ok o ->
  exists rows1 d1, db_query (add_query b JNull f) d = (Ok rows1, d1).
Proof.
  intros Hf Hb Htb Hm Ho. unfold addAnnotation in Ho.
  assert (H0 : sfrom (destructure_annotation a) d = (Ok f, d)) by (rewrite Hf; reflexivity).
  rewrite (sbind_ok _ _ _ _ _ H0), (sbind_ok _ _ _ _ _ Hb), Htb in Ho. cbn [negb] in Ho.
  rewrite (sbind_ok (sret b) _ d b d eq_refl), (sbind_ok _ _ _ _ _ Hm) in Ho.
  unfold sbind in Ho. destruct (db_query _ d) as [[rows1|e] d1]; [eauto | discriminate].
Qed.

(** C24: on any database reachable from a fresh one, take an annotation
    whose book exists and whose [(book_id, end)] no annotation has yet,
    that a call of [addAnnotation] alone stores, while the sequence has
    room for two ids.  Two calls of [addAnnotation] with it, interleaved
    so that both look up the book, then both look for a match, then both
    write, both resolve, and the database gains two annotations, of
    different ids, that agree on every other column: the same
    [(book_id, end)] twice. *)
Theorem racing_adds_duplicate_row d a f b o :
  reachable d -> seq_room d -> destructure_annotation a = Ok f ->
  fst (Books.getBookID (f_title f) d) = Ok b -> truthy b = true ->
  fst (getMatchingAnnotationID b (f_end f) d) = Ok JNull ->
  fst (addAnnotation a d) = Ok o ->
  let (ts, d') := run_sched [0; 1; 0; 1; 0; 1] [addAnnotation_p a; addAnnotation_p a] d in
  map resolved ts = [true; true] /\
  exists r1 r2, annotation_rows d' = (annotation_rows d ++ [r1; r2])%list /\
                cell r2 "id" <> cell r1 "id" /\ (forall c, c <> "id" -> cell r2 c = cell r1 c).
Proof.
  intros Hr Hroom Hf Hb Htb Hm Ho. pose proof (reachable_id_inv d Hr) as Hd.
  apply (read_result _ d b (getBookID_read_only _)) in Hb.
  apply (read_result _ d JNull (getMatchingAnnotationID_read_only _ _)) in Hm.
  destruct (add_alone_writes d a f b o Hf Hb Htb Hm Ho) as (rows1 & d1 & E1).
  destruct (add_query_twice d b f rows1 d1 Hd Hroom E1) as (r1 & r2 & d2 & -> & E2 & H1 & H2 & Hid & Hc).
  set (W := fun m => pbind (pquery (add_query b m f)) (fun rows => pret (js_first rows))).
  set (M := pbind (getMatchingAnnotationID_p b (f_end f)) W).
  assert (S1 : resume (addAnnotation_p a) d = (M, d)).
  { unfold addAnnotation_p. rewrite Hf. cbn [pbind].
    rewrite (resume_bind_one_shot _ _ d b d (proj1 (getBookID_p_shape _)) (proj2 (getBookID_p_shape _)))
      by (rewrite getBookID_p_run; exact Hb).
    rewrite Htb. reflexivity. }
  assert (S2 : resume M d = (W JNull, d)).
  { apply resume_bind_one_shot; [apply getMatchingAnnotationID_p_shape | apply getMatchingAnnotationID_p_shape |].
    rewrite getMatchingAnnotationID_p_run. exact Hm. }
  assert (S3 : forall d0 rows d0', db_query (add_query b JNull f) d0 = (Ok rows, d0') ->
                 resume (W JNull) d0 = (pret (js_first rows), d0')).
  { intros d0 rows d0' E.
    apply (resume_bind_one_shot (pquery (add_query b JNull f)) (fun rows => pret (js_first rows)));
      [intros v; reflexivity | reflexivity |].
    rewrite run_pquery. exact E. }
  cbn [run_sched nth_error set_nth]. rewrite S1. cbn [run_sched nth_error set_nth].
  rewrite S1. cbn [run_sched nth_error set_nth]. rewrite S2. cbn [run_sched nth_error set_nth].
  rewrite S2. cbn [run_sched nth_error set_nth]. rewrite (S3 _ _ _ E1). cbn [run_sched nth_error set_nth].
  rewrite (S3 _ _ _ E2). cbn [run_sched nth_error set_nth].
  split; [reflexivity|]. exists r1, r2. rewrite H2, H1, <- app_assoc. auto.
Qed.

Lemma racing_adds_duplicate_row_witness :
  let d := snd (run_op (OpAddAnnotation foo_first) initial_db) in
  let a := JObj [("title", JStr "Foo"); ("end", JNum 30); ("highlight", JStr "again")] in
  let f := match destructure_annotation a with
           | Ok f => f
           | Err _ => mkFields JUndefined JUndefined JUndefined JUndefined JUndefined JUndefined
                               JUndefined JUndefined JUndefined JUndefined JUndefined JUndefined
           end in
  let o := match fst (addAnnotation a d) with Ok o => o | Err _ => JNull end in
  reachable d /\ seq_room d /\ destructure_annotation a = Ok f /\
  fst (Books.getBookID (f_title f) d) = Ok (JNum 1) /\ truthy (JNum 1) = true /\
  fst (getMatchingAnnotationID (JNum 1) (f_end f) d) = Ok JNull /\ fst (addAnnotation a d) = Ok o /\
  let (ts, d') := run_sched [0; 1; 0; 1; 0; 1] [addAnnotation_p a; addAnnotation_p a] d in
  map resolved ts = [true; true] /\
  exists r1 r2, annotation_rows d' = (annotation_rows d ++ [r1; r2])%list /\
                cell r2 "id" <> cell r1 "id" /\ (forall c, c <> "id" -> cell r2 c = cell r1 c).
Proof.
  intros d a f o.
  assert (Hr : reachable d) by apply reach_op, reach_init.
  assert (Hs : seq_room d) by (intros t Ht; vm_compute in Ht; injection Ht as <-; reflexivity).
  assert (Hf : destructure_annotation a = Ok f) by (vm_compute; reflexivity).
  assert (Hb : fst (Books.getBookID (f_title f) d) = Ok (JNum 1)) by (vm_compute; reflexivity).
  assert (Hm : fst (getMatchingAnnotationID (JNum 1) (f_end f) d) = Ok JNull) by (vm_compute; reflexivity).
  assert (Ho : fst (addAnnotation a d) = Ok o) by (vm_compute; reflexivity).
  pose proof (racing_adds_duplicate_row d a f (JNum 1) o Hr Hs Hf Hb eq_refl Hm Ho) as Hrace.
  split; [exact Hr|]. split; [exact Hs|]. split; [exact Hf|]. split; [exact Hb|].
  split; [reflexivity|]. split; [exact Hm|]. split; [exact Ho|]. exact Hrace.
Defined.
